(** * PRD-to-GitHub pipeline: a shallow embedding and its properties

    The development follows the TypeScript sources:
    - [types/index.ts]: the three-level hierarchy (initiatives, capabilities,
      deliverables) and the records exchanged with GitHub;
    - [github/issueGenerator.ts]: the staged creation of issues, the
      parent link with its label and body fallback, the dependency pass;
    - [types/schemas.ts]: the zod schemas, as validators over JSON values;
    - [core/aiDecomposer.ts] and [cli/commands/create.ts]: single-pass and
      two-phase decomposition, with the snapshot policy of the command;
    - [core/prdProcessor.ts]: the checks on the requirements document and
      the cleaning of technology lists;
    - [github/labelManager.ts], [github/repoManager.ts] and
      [github/projectManager.ts]: labels, the repository and the project
      board, each against its remote service;
    - [cli/commands/apply.ts]: the reading of a saved structure.

    Conventions.  A JavaScript string is a [string], one character per code
    unit; a JavaScript number that the program only ever uses as an integer
    (issue numbers, priorities, hours, token limits) is a [Z].  Remote
    services (the tracker, the generation backend, the file system) are
    oracles: functions of the history of the run, about which nothing is
    assumed. *)

From Stdlib Require Import ZArith String List Ascii Bool Lia HexadecimalString.
From stdpp Require Import gmap strings list fin_maps pretty.

Local Open Scope string_scope.
Local Open Scope Z_scope.
Local Open Scope list_scope.

(** ** JavaScript strings *)

(** The line feed and the double quote, which the sources write inside
    template literals. *)
Definition nl : string := String "010"%char EmptyString.
Definition dq : string := String "034"%char EmptyString.

(** [`${n}`] for an integral number. *)
Definition show (n : Z) : string := pretty n.

(** [array.join(sep)]. *)
Fixpoint join (sep : string) (l : list string) : string :=
  match l with
  | [] => EmptyString
  | [x] => x
  | x :: l' => x +:+ sep +:+ join sep l'
  end.

(** A string used as a condition: the empty string is falsy. *)
Definition truthy (s : string) : bool :=
  match s with EmptyString => false | _ => true end.

(** [a || b] on strings. *)
Definition or_else (a b : string) : string := if truthy a then a else b.

(** [[...new Set(l)]]: duplicates removed, first occurrences kept. *)
Fixpoint set_spread (seen l : list string) : list string :=
  match l with
  | [] => []
  | x :: l' =>
      if bool_decide (x ∈ seen) then set_spread seen l'
      else x :: set_spread (x :: seen) l'
  end.

(** [body += f(x)] for each [x] of [l], as [forEach] does. *)
Definition append_each {X} (f : X -> string) (l : list X) (body : string) : string :=
  fold_left (fun acc x => acc +:+ f x) l body.

(** ** Errors *)

(** The classes of the errors that the program throws or receives. *)
Inductive ErrorName :=
| Error_
| IssueGeneratorError
| AIDecomposerError
| PRDProcessorError
| APIError
| SyntaxError
| ZodError
| TypeError
| RequestError
| SystemError.

Module JsError.
Record t := mk { name : ErrorName; message : string; status : option Z }.
End JsError.

Definition new_error (n : ErrorName) (msg : string) : JsError.t :=
  JsError.mk n msg None.

(** What a failed remote call carries: a message and, for an HTTP answer,
    its status. *)
Module HttpError.
Record t := mk { message : string; status : option Z }.
End HttpError.

Definition of_http (e : HttpError.t) : JsError.t :=
  JsError.mk RequestError (HttpError.message e) (HttpError.status e).

(** ** The hierarchy ([types/index.ts]) *)

Inductive Complexity := small | medium | large.

Definition complexity_string (c : Complexity) : string :=
  match c with small => "small" | medium => "medium" | large => "large" end.

Module Deliverable.
Record t := mk {
  id : string;
  capabilityId : string;
  title : string;
  description : string;
  completionCriteria : list string;
  dependencies : list string;
  requiresReviewGate : bool
}.
End Deliverable.

Module ChecklistItem.
Record t := mk {
  id : string;
  title : string;
  description : option string
}.
End ChecklistItem.

Module Capability.
Record t := mk {
  id : string;
  initiativeId : string;
  title : string;
  description : string;
  inputOutputContract : string;
  acceptanceCriteria : list string;
  edgeConstraints : list string;
  priority : Z;
  complexity : Complexity;
  estimatedHours : Z;
  dependencies : list string;
  aiContext : string;
  labels : list string;
  shouldCreateSubIssues : bool;
  deliverables : list Deliverable.t;
  tasks : list ChecklistItem.t
}.
End Capability.

Module InitiativeSummary.
Record t := mk {
  id : string;
  title : string;
  description : string;
  objective : string;
  successMetrics : list string;
  priority : Z
}.
End InitiativeSummary.

Module Initiative.
Record t := mk {
  id : string;
  title : string;
  description : string;
  objective : string;
  successMetrics : list string;
  priority : Z;
  capabilities : list Capability.t
}.
End Initiative.

Module TechStack.
Record t := mk {
  frontend : option (list string);
  backend : option (list string);
  database : option (list string);
  testing : option (list string);
  deployment : option (list string)
}.
End TechStack.

Module GitHubIssue.
Record t := mk {
  number : Z;
  url : string;
  title : string;
  body : string
}.
End GitHubIssue.

(** The part of the answer of [issues.create] that the program reads;
    [body] may be null. *)
Module IssueData.
Record t := mk {
  number : Z;
  html_url : string;
  title : string;
  body : option string
}.
End IssueData.

(** [data.body || ''] *)
Definition body_or_empty (d : IssueData.t) : string :=
  match IssueData.body d with Some b => b | None => EmptyString end.

(** [reduce((sum, x) => sum + f(x), 0)] *)
Definition sum_by {X} (f : X -> nat) (l : list X) : nat :=
  fold_left (fun sum x => (sum + f x)%nat) l 0%nat.

(** ** Issue bodies ([github/issueGenerator.ts]) *)

(** A parent number read from a resolver map with [get(id)!]: the
    assertion is erased at run time, so an absent entry flows on as
    [undefined]. *)
Definition show_parent (n : option Z) : string :=
  match n with Some k => show k | None => "undefined" end.

Definition formatInitiativeBody (initiative : Initiative.t) : string :=
  let caps := Initiative.capabilities initiative in
  let totalCapabilities := length caps in
  let totalDeliverables := sum_by (fun c => length (Capability.deliverables c)) caps in
  let totalChecklists := sum_by (fun c => length (Capability.tasks c)) caps in
  let body := "## Objective (WHY)" +:+ nl +:+ Initiative.objective initiative +:+ nl +:+ nl in
  let body := body +:+ "## Description" +:+ nl +:+ Initiative.description initiative +:+ nl +:+ nl in
  let body :=
    match Initiative.successMetrics initiative with
    | [] => body
    | metrics =>
        append_each (fun metric => "- " +:+ metric +:+ nl) metrics
          (body +:+ "## Success Metrics" +:+ nl) +:+ nl
    end in
  let body := body +:+ "## Capabilities" +:+ nl in
  let body := body +:+ "This initiative contains " +:+ show (Z.of_nat totalCapabilities)
                   +:+ " capabilities (L2)" in
  let body := if (0 <? totalDeliverables)%nat
              then body +:+ " with " +:+ show (Z.of_nat totalDeliverables) +:+ " deliverables (L3)"
              else body in
  let body := if (0 <? totalChecklists)%nat
              then body +:+ " and " +:+ show (Z.of_nat totalChecklists) +:+ " checklist items"
              else body in
  let body := body +:+ "." +:+ nl +:+ nl in
  let body := body +:+ "**Sub-issues**: Capabilities will be linked below via GitHub sub-issues. " in
  let body := body +:+ "If sub-issue API is unavailable, capabilities will use `parent:#{issueNumber}` labels and body links instead." +:+ nl +:+ nl in
  body +:+ "---" +:+ nl +:+ "**Initiative ID**: " +:+ Initiative.id initiative
       +:+ " | **Priority**: " +:+ show (Initiative.priority initiative).

Definition formatCapabilityBody (initiative : Initiative.t) (capability : Capability.t)
    (initiativeNumber : option Z) : string :=
  let body := "## Initiative" +:+ nl +:+ "#" +:+ show_parent initiativeNumber +:+ " "
                +:+ Initiative.title initiative +:+ nl +:+ nl in
  let body := body +:+ "## Description (WHAT)" +:+ nl +:+ Capability.description capability +:+ nl +:+ nl in
  let body :=
    if truthy (Capability.inputOutputContract capability)
    then body +:+ "## Input/Output Contract" +:+ nl
              +:+ Capability.inputOutputContract capability +:+ nl +:+ nl
    else body in
  let body :=
    match Capability.acceptanceCriteria capability with
    | [] => body
    | l => append_each (fun criteria => "- [ ] " +:+ criteria +:+ nl) l
             (body +:+ "## Acceptance Criteria (Observable Outcomes)" +:+ nl) +:+ nl
    end in
  let body :=
    match Capability.edgeConstraints capability with
    | [] => body
    | l => append_each (fun constraint => "- " +:+ constraint +:+ nl) l
             (body +:+ "## Edge Constraints" +:+ nl) +:+ nl
    end in
  let body :=
    if negb (Capability.shouldCreateSubIssues capability)
    then match Capability.tasks capability with
         | [] => body
         | l => append_each (fun task => "- [ ] " +:+ ChecklistItem.title task +:+ nl) l
                  (body +:+ "## Implementation Checklist" +:+ nl) +:+ nl
         end
    else body in
  let body :=
    if Capability.shouldCreateSubIssues capability
       && (0 <? length (Capability.deliverables capability))%nat
    then body +:+ "## Deliverables" +:+ nl +:+ "This capability has "
              +:+ show (Z.of_nat (length (Capability.deliverables capability)))
              +:+ " deliverable sub-issues (L3) that will be linked below." +:+ nl +:+ nl
    else body in
  let body :=
    if truthy (Capability.aiContext capability)
    then body +:+ "## AI Implementation Context" +:+ nl +:+ Capability.aiContext capability +:+ nl +:+ nl
    else body in
  body +:+ "---" +:+ nl +:+ "**Capability ID**: " +:+ Capability.id capability
       +:+ " | **Estimated Hours**: " +:+ show (Capability.estimatedHours capability)
       +:+ " | **Complexity**: " +:+ complexity_string (Capability.complexity capability).

Definition formatDeliverableBody (capability : Capability.t) (deliverable : Deliverable.t)
    (capabilityNumber : Z) : string :=
  let body := "## Capability" +:+ nl +:+ "#" +:+ show capabilityNumber +:+ " "
                +:+ Capability.title capability +:+ nl +:+ nl in
  let body := body +:+ "## Description" +:+ nl +:+ Deliverable.description deliverable +:+ nl +:+ nl in
  let body :=
    match Deliverable.completionCriteria deliverable with
    | [] => body
    | l => append_each (fun criteria => "- [ ] " +:+ criteria +:+ nl) l
             (body +:+ "## Completion Criteria" +:+ nl) +:+ nl
    end in
  let body :=
    if Deliverable.requiresReviewGate deliverable
    then body +:+ "## Review Gate" +:+ nl
              +:+ "⚠️ This deliverable requires review/approval before proceeding." +:+ nl +:+ nl
    else body in
  body +:+ "---" +:+ nl +:+ "**Deliverable ID**: " +:+ Deliverable.id deliverable.

(** ** The tracker and the run ([github/issueGenerator.ts]) *)

(** The three resolver maps are keyed by the level of the entity. *)
Inductive Level := LInitiative | LCapability | LDeliverable.

Inductive LogLevel := LogInfo | LogSuccess | LogWarn | LogDebug.

(** The remote calls that the generator makes; [owner] and [repo] are the
    same in every call of a run and are left out. *)
Inductive Call :=
| IssuesCreate (title body : string) (labels : list string)
| SubIssuesPost (issue_number : option Z) (sub_issue_id : Z)
| IssuesCreateLabel (name color description : string)
| IssuesAddLabels (issue_number : Z) (labels : list string)
| IssuesUpdate (issue_number : Z) (body : string)
| IssuesGet (issue_number : Z)
| GraphqlCreateLinkedIssue (sourceId targetId : string)
| IssuesCreateComment (issue_number : Z) (body : string).

Inductive Reply :=
| ReplyIssue (data : IssueData.t)
| ReplyNode (node_id : string)
| ReplyDone.

(** What a run does, in order: remote calls with their answers, writes to
    the resolver maps, pauses, and calls to the logger. *)
Inductive Event :=
| EvCall (c : Call) (r : HttpError.t + Reply)
| EvSet (k : Level) (id : string) (n : Z)
| EvDelay (ms : Z)
| EvLog (lvl : LogLevel) (msg : string).

(** The tracker answers each call from the history of the run so far. *)
Record Tracker := {
  issues_create : list Event -> string -> string -> list string -> HttpError.t + IssueData.t;
  sub_issues_post : list Event -> option Z -> Z -> HttpError.t + unit;
  issues_createLabel : list Event -> string -> string -> string -> HttpError.t + unit;
  issues_addLabels : list Event -> Z -> list string -> HttpError.t + unit;
  issues_update : list Event -> Z -> string -> HttpError.t + unit;
  issues_get : list Event -> Z -> HttpError.t + string;
  graphql_createLinkedIssue : list Event -> string -> string -> HttpError.t + unit;
  issues_createComment : list Event -> Z -> string -> HttpError.t + unit
}.

(** The private maps of [IssueGenerator]. *)
Module Resolver.
Record t := mk {
  initiativeIdToIssueNumber : gmap string Z;
  capabilityIdToIssueNumber : gmap string Z;
  deliverableIdToIssueNumber : gmap string Z
}.
Definition empty : t := mk ∅ ∅ ∅.
Definition get (k : Level) (r : t) : gmap string Z :=
  match k with
  | LInitiative => initiativeIdToIssueNumber r
  | LCapability => capabilityIdToIssueNumber r
  | LDeliverable => deliverableIdToIssueNumber r
  end.
Definition set (k : Level) (id : string) (n : Z) (r : t) : t :=
  match k with
  | LInitiative => mk (<[id:=n]> (initiativeIdToIssueNumber r))
                      (capabilityIdToIssueNumber r) (deliverableIdToIssueNumber r)
  | LCapability => mk (initiativeIdToIssueNumber r)
                      (<[id:=n]> (capabilityIdToIssueNumber r)) (deliverableIdToIssueNumber r)
  | LDeliverable => mk (initiativeIdToIssueNumber r)
                       (capabilityIdToIssueNumber r) (<[id:=n]> (deliverableIdToIssueNumber r))
  end.
End Resolver.

Record World := mkWorld { resolver : Resolver.t; trace : list Event }.

Definition fresh : World := mkWorld Resolver.empty [].

(** *** Computations: state and exceptions *)

Inductive Outcome (A : Type) :=
| Returned (a : A)
| Thrown (e : JsError.t).
Arguments Returned {A} a.
Arguments Thrown {A} e.

(** A computation over a state [S]: it returns or throws, and leaves a
    state in both cases. *)
Definition ST (S A : Type) : Type := S -> Outcome A * S.

Definition ret {S A} (a : A) : ST S A := fun w => (Returned a, w).

Definition throw {S A} (e : JsError.t) : ST S A := fun w => (Thrown e, w).

Definition bind {S A B} (m : ST S A) (f : A -> ST S B) : ST S B :=
  fun w =>
    match m w with
    | (Returned a, w') => f a w'
    | (Thrown e, w') => (Thrown e, w')
    end.

Notation "'let*' x ':=' m 'in' k" := (bind m (fun x => k))
  (at level 20, x name, m at level 100, k at level 200, only parsing).

(** [try { m } catch (e) { h e }]: the state reached when the exception
    was thrown is kept. *)
Definition try_catch {S A} (m : ST S A) (h : JsError.t -> ST S A) : ST S A :=
  fun w =>
    match m w with
    | (Returned a, w') => (Returned a, w')
    | (Thrown e, w') => h e w'
    end.

(** A [for ... of] loop whose body updates local variables [a]. *)
Fixpoint foldM {S A X} (f : A -> X -> ST S A) (l : list X) (a : A) : ST S A :=
  match l with
  | [] => ret a
  | x :: l' => let* a' := f a x in foldM f l' a'
  end.

Definition forM_ {S X} (f : X -> ST S unit) (l : list X) : ST S unit :=
  foldM (fun _ x => f x) l tt.

(** The computations of the issue generator. *)
Definition M (A : Type) : Type := ST World A.

Definition emit (ev : Event) : M unit :=
  fun w => (Returned tt, mkWorld (resolver w) (trace w ++ [ev])).

Definition delay (ms : Z) : M unit := emit (EvDelay ms).

Definition logger_info (msg : string) : M unit := emit (EvLog LogInfo msg).
Definition logger_success (msg : string) : M unit := emit (EvLog LogSuccess msg).
Definition logger_warn (msg : string) : M unit := emit (EvLog LogWarn msg).
Definition logger_debug (msg : string) : M unit := emit (EvLog LogDebug msg).

(** [map.get(id)] and [map.set(id, n)] on a resolver map. *)
Definition resolver_get (k : Level) (id : string) : M (option Z) :=
  fun w => (Returned (Resolver.get k (resolver w) !! id), w).

Definition resolver_set (k : Level) (id : string) (n : Z) : M unit :=
  fun w => (Returned tt, mkWorld (Resolver.set k id n (resolver w)) (trace w ++ [EvSet k id n])).

(** One remote call: the tracker is asked, the call and its answer are
    recorded, and a failure is thrown. *)
Definition request {A} (c : Call) (ask : list Event -> HttpError.t + A) (reply : A -> Reply) : M A :=
  fun w =>
    match ask (trace w) with
    | inl e => (Thrown (of_http e), mkWorld (resolver w) (trace w ++ [EvCall c (inl e)]))
    | inr a => (Returned a, mkWorld (resolver w) (trace w ++ [EvCall c (inr (reply a))]))
    end.

Definition status_is (error : JsError.t) (code : Z) : bool :=
  match JsError.status error with Some s => s =? code | None => false end.

Section IssueGenerator.

Variable T : Tracker.

(** *** The calls of the client *)

Definition octokit_issues_create (title body : string) (labels : list string) : M IssueData.t :=
  request (IssuesCreate title body labels)
    (fun h => issues_create T h title body labels) ReplyIssue.

Definition octokit_sub_issues_post (issue_number : option Z) (sub_issue_id : Z) : M unit :=
  request (SubIssuesPost issue_number sub_issue_id)
    (fun h => sub_issues_post T h issue_number sub_issue_id) (fun _ => ReplyDone).

Definition octokit_issues_createLabel (name color description : string) : M unit :=
  request (IssuesCreateLabel name color description)
    (fun h => issues_createLabel T h name color description) (fun _ => ReplyDone).

Definition octokit_issues_addLabels (issue_number : Z) (labels : list string) : M unit :=
  request (IssuesAddLabels issue_number labels)
    (fun h => issues_addLabels T h issue_number labels) (fun _ => ReplyDone).

Definition octokit_issues_update (issue_number : Z) (body : string) : M unit :=
  request (IssuesUpdate issue_number body)
    (fun h => issues_update T h issue_number body) (fun _ => ReplyDone).

Definition octokit_issues_get (issue_number : Z) : M string :=
  request (IssuesGet issue_number) (fun h => issues_get T h issue_number) ReplyNode.

Definition octokit_graphql_createLinkedIssue (sourceId targetId : string) : M unit :=
  request (GraphqlCreateLinkedIssue sourceId targetId)
    (fun h => graphql_createLinkedIssue T h sourceId targetId) (fun _ => ReplyDone).

Definition octokit_issues_createComment (issue_number : Z) (body : string) : M unit :=
  request (IssuesCreateComment issue_number body)
    (fun h => issues_createComment T h issue_number body) (fun _ => ReplyDone).

(** *** Creation of the items *)

Definition createInitiativeIssue (initiative : Initiative.t) : M GitHubIssue.t :=
  let labels := ["type:initiative"; Initiative.id initiative] in
  let body := formatInitiativeBody initiative in
  try_catch
    (let* data := octokit_issues_create ("[INITIATIVE] " +:+ Initiative.title initiative) body labels in
     let* _ := logger_debug ("Created initiative issue #" +:+ show (IssueData.number data)
                               +:+ ": " +:+ Initiative.title initiative) in
     ret (GitHubIssue.mk (IssueData.number data) (IssueData.html_url data)
            (IssueData.title data) (body_or_empty data)))
    (fun error =>
       throw (new_error IssueGeneratorError
                ("Failed to create initiative issue " +:+ dq +:+ Initiative.title initiative
                   +:+ dq +:+ ": " +:+ JsError.message error))).

Definition parent_label (parentNumber : option Z) : string :=
  "parent:#" +:+ show_parent parentNumber.

Definition createParentLabel (parentNumber : option Z) : M unit :=
  let labelName := parent_label parentNumber in
  try_catch
    (let* _ := octokit_issues_createLabel labelName "E4E4E4"
                 ("Child issues of #" +:+ show_parent parentNumber) in
     logger_debug ("Created parent label: " +:+ labelName))
    (fun error =>
       if status_is error 422 then ret tt
       else logger_warn ("Failed to create parent label " +:+ dq +:+ labelName +:+ dq
                           +:+ ": " +:+ JsError.message error)).

Definition parentLinkSection (parentNumber : option Z) (parentTitle : string) : string :=
  "**Parent Issue**: #" +:+ show_parent parentNumber +:+ " " +:+ parentTitle
    +:+ nl +:+ nl +:+ "---" +:+ nl +:+ nl.

(** The warning chosen from the status of a failed sub-issue call. *)
Definition sub_issue_warning (apiError : JsError.t) (number : Z) : string :=
  let errorMsg := JsError.message apiError in
  if status_is apiError 404 then
    "Repository doesn't support sub-issues feature yet. Check your account's Feature Preview settings."
  else if status_is apiError 403 then
    "Insufficient permissions to create sub-issues. Ensure your GitHub token has 'repo' scope."
  else if status_is apiError 422 then "Validation failed: " +:+ errorMsg
  else "Sub-issue creation failed for #" +:+ show number +:+ ": " +:+ errorMsg.

(** The label and body fallback, run in the [catch] of the sub-issue call. *)
Definition applyFallback (data : IssueData.t) (parentNumber : option Z) (parentTitle : string)
    (apiError : JsError.t) : M unit :=
  let number := IssueData.number data in
  let* _ := logger_warn (sub_issue_warning apiError number) in
  let* _ := logger_info ("Applying fallback strategy (labels + body text) for #"
                           +:+ show number +:+ "...") in
  let* _ := createParentLabel parentNumber in
  let* _ := octokit_issues_addLabels number [parent_label parentNumber] in
  let updatedBody := parentLinkSection parentNumber parentTitle +:+ body_or_empty data in
  let* _ := octokit_issues_update number updatedBody in
  logger_info ("✓ Applied fallback: parent label and body link for #" +:+ show number).

(** [createCapabilityIssue] and [createDeliverableIssue] are the same text
    up to the word that names the level, the title, body and labels sent,
    and the parent referred to; [createChildIssue] is that text. *)
Definition createChildIssue (what : string) (issueTitle body : string) (labels : list string)
    (parentNumber : option Z) (parentTitle entityTitle : string) : M GitHubIssue.t :=
  try_catch
    (let* data := octokit_issues_create issueTitle body labels in
     let* _ :=
       try_catch
         (let* _ := octokit_sub_issues_post parentNumber (IssueData.number data) in
          logger_debug ("✓ Set parent relationship for " +:+ what +:+ " #"
                          +:+ show (IssueData.number data)))
         (applyFallback data parentNumber parentTitle) in
     let* _ := logger_debug ("Created " +:+ what +:+ " issue #" +:+ show (IssueData.number data)
                               +:+ ": " +:+ entityTitle) in
     ret (GitHubIssue.mk (IssueData.number data) (IssueData.html_url data)
            (IssueData.title data) (body_or_empty data)))
    (fun error =>
       throw (new_error IssueGeneratorError
                ("Failed to create " +:+ what +:+ " issue " +:+ dq +:+ entityTitle
                   +:+ dq +:+ ": " +:+ JsError.message error))).

Definition capability_labels (initiative : Initiative.t) (capability : Capability.t) : list string :=
  set_spread []
    ("type:capability" :: Initiative.id initiative
       :: complexity_string (Capability.complexity capability) :: Capability.labels capability).

Definition createCapabilityIssue (initiative : Initiative.t) (capability : Capability.t)
    (initiativeNumber : option Z) : M GitHubIssue.t :=
  createChildIssue "capability"
    ("[CAPABILITY] " +:+ Capability.title capability)
    (formatCapabilityBody initiative capability initiativeNumber)
    (capability_labels initiative capability)
    initiativeNumber (Initiative.title initiative) (Capability.title capability).

Definition createDeliverableIssue (capability : Capability.t) (deliverable : Deliverable.t)
    (capabilityNumber : Z) : M GitHubIssue.t :=
  createChildIssue "deliverable"
    ("[DELIVERABLE] " +:+ Deliverable.title deliverable)
    (formatDeliverableBody capability deliverable capabilityNumber)
    ["type:deliverable"; Capability.initiativeId capability]
    (Some capabilityNumber) (Capability.title capability) (Deliverable.title deliverable).

Definition getIssueNodeId (issueNumber : Z) : M string := octokit_issues_get issueNumber.

(** *** The dependency pass *)

(** A number used as a condition: [undefined] and [0] are falsy. *)
Definition truthy_number (n : option Z) : option Z :=
  match n with
  | Some k => if k =? 0 then None else Some k
  | None => None
  end.

Definition reference (n : Z) : string := "#" +:+ show n.

(** The body of the loop over [dependencies]: one edge.  The local arrays
    [dependencyReferences] and [linkedDependencies] are the accumulator. *)
Definition linkDependency (k : Level) (issueNumber : Z)
    (acc : list string * list Z) (depId : string) : M (list string * list Z) :=
  let* depNumber := resolver_get k depId in
  match truthy_number depNumber with
  | None => ret acc
  | Some depNumber =>
      try_catch
        (let* sourceId := getIssueNodeId depNumber in
         let* targetId := getIssueNodeId issueNumber in
         let* _ := octokit_graphql_createLinkedIssue sourceId targetId in
         let* _ := logger_debug ("✓ Linked " +:+ reference depNumber +:+ " blocks "
                                   +:+ reference issueNumber) in
         ret (fst acc ++ [reference depNumber], snd acc ++ [depNumber]))
        (fun graphqlError =>
           let* _ := logger_warn ("Could not create link relationship, will use comment instead: "
                                    +:+ JsError.message graphqlError) in
           ret (fst acc ++ [reference depNumber], snd acc))
  end.

Definition commentBody (what : string) (dependencyReferences : list string)
    (linkedDependencies : list Z) : string :=
  match linkedDependencies with
  | _ :: _ => "**Dependencies** (also linked as 'blocks' relationships): "
                +:+ join ", " dependencyReferences
  | [] => "**Dependencies**: This " +:+ what +:+ " depends on "
            +:+ join ", " dependencyReferences
  end.

(** The body of the loops of [updateCapabilityDependencies] and
    [updateDeliverableDependencies] for one item: they are the same text
    up to the map read and the word that names the level. *)
Definition updateDependencies (what : string) (k : Level) (id : string)
    (dependencies : list string) : M unit :=
  match dependencies with
  | [] => ret tt
  | _ :: _ =>
      let* issueNumber := resolver_get k id in
      match truthy_number issueNumber with
      | None => ret tt
      | Some issueNumber =>
          let* acc := foldM (linkDependency k issueNumber) dependencies ([], []) in
          match fst acc with
          | [] => ret tt
          | _ :: _ =>
              let* _ := octokit_issues_createComment issueNumber
                          (commentBody what (fst acc) (snd acc)) in
              delay 1000
          end
      end
  end.

Definition updateCapabilityDependencies (initiatives : list Initiative.t) : M unit :=
  forM_ (fun initiative =>
    forM_ (fun capability =>
      updateDependencies "capability" LCapability (Capability.id capability)
        (Capability.dependencies capability))
      (Initiative.capabilities initiative))
    initiatives.

Definition updateDeliverableDependencies (initiatives : list Initiative.t) : M unit :=
  forM_ (fun initiative =>
    forM_ (fun capability =>
      if negb (Capability.shouldCreateSubIssues capability) then ret tt
      else
        forM_ (fun deliverable =>
          updateDependencies "deliverable" LDeliverable (Deliverable.id deliverable)
            (Deliverable.dependencies deliverable))
          (Capability.deliverables capability))
      (Initiative.capabilities initiative))
    initiatives.

(** *** The run *)

(** The third pass, nested in the second: the deliverables of one
    capability.  The accumulator is [allIssues] and [totalDeliverables]. *)
Definition createDeliverables (capability : Capability.t) (capabilityNumber : Z)
    (acc : list GitHubIssue.t * nat) : M (list GitHubIssue.t * nat) :=
  foldM (fun acc deliverable =>
    let* deliverableIssue := createDeliverableIssue capability deliverable capabilityNumber in
    let* _ := resolver_set LDeliverable (Deliverable.id deliverable)
                (GitHubIssue.number deliverableIssue) in
    let* _ := delay 1000 in
    ret (fst acc ++ [deliverableIssue], S (snd acc)))
    (Capability.deliverables capability) acc.

Definition createCapabilities (initiative : Initiative.t) (initiativeNumber : option Z)
    (acc : list GitHubIssue.t * nat) : M (list GitHubIssue.t * nat) :=
  foldM (fun acc capability =>
    let* capabilityIssue := createCapabilityIssue initiative capability initiativeNumber in
    let* _ := resolver_set LCapability (Capability.id capability)
                (GitHubIssue.number capabilityIssue) in
    let* _ := delay 1000 in
    let acc := (fst acc ++ [capabilityIssue], snd acc) in
    if Capability.shouldCreateSubIssues capability
       && (0 <? length (Capability.deliverables capability))%nat
    then createDeliverables capability (GitHubIssue.number capabilityIssue) acc
    else ret acc)
    (Initiative.capabilities initiative) acc.

Definition firstPass (initiatives : list Initiative.t) : M (list GitHubIssue.t) :=
  foldM (fun allIssues initiative =>
    let* initiativeIssue := createInitiativeIssue initiative in
    let* _ := resolver_set LInitiative (Initiative.id initiative)
                (GitHubIssue.number initiativeIssue) in
    let* _ := delay 1000 in
    ret (allIssues ++ [initiativeIssue]))
    initiatives [].

Definition secondPass (initiatives : list Initiative.t) (allIssues : list GitHubIssue.t)
    : M (list GitHubIssue.t * nat) :=
  foldM (fun acc initiative =>
    let* initiativeNumber := resolver_get LInitiative (Initiative.id initiative) in
    createCapabilities initiative initiativeNumber acc)
    initiatives (allIssues, 0%nat).

Definition generateIssues (initiatives : list Initiative.t) : M (list GitHubIssue.t) :=
  let* _ := logger_info "Creating GitHub issues with three-tier hierarchy (L1→L2→L3)..." in
  let* allIssues := firstPass initiatives in
  let* acc := secondPass initiatives allIssues in
  let allIssues := fst acc in
  let totalDeliverables := snd acc in
  let* _ := updateCapabilityDependencies initiatives in
  let* _ := updateDeliverableDependencies initiatives in
  let totalCapabilities := sum_by (fun i => length (Initiative.capabilities i)) initiatives in
  let* _ := logger_success
              ("Created " +:+ show (Z.of_nat (length allIssues)) +:+ " GitHub issues: "
                 +:+ show (Z.of_nat (length initiatives)) +:+ " initiatives (L1), "
                 +:+ show (Z.of_nat totalCapabilities) +:+ " capabilities (L2), "
                 +:+ show (Z.of_nat totalDeliverables) +:+ " deliverables (L3)") in
  ret allIssues.

End IssueGenerator.

(** *** The fixture of the integration test *)

Definition minimalDeliverable : Deliverable.t :=
  Deliverable.mk "deliverable-1-1-1" "capability-1-1" "Test Deliverable"
    "Deliverable to test capability→deliverable parent-child link"
    ["Deliverable is created as sub-issue of capability";
     "Parent relationship is visible in GitHub UI"]
    [] false.

Definition minimalCapability : Capability.t :=
  Capability.mk "capability-1-1" "initiative-1" "Test Capability"
    "Capability to test initiative→capability parent-child link"
    "N/A - Test fixture"
    ["Capability is created as sub-issue of initiative";
     "Parent relationship is visible in GitHub UI"]
    [] 1 small 1 [] EmptyString [] true [minimalDeliverable] [].

Definition minimalInitiative : Initiative.t :=
  Initiative.mk "initiative-1" "Test Initiative"
    "Parent initiative for testing sub-issue relationships"
    "Verify that parent-child relationships are created correctly via GitHub GraphQL API"
    ["Capability issues are linked as sub-issues of initiative";
     "Deliverable issues are linked as sub-issues of capability"]
    1 [minimalCapability].

(** Events of a trace, by kind. *)
Definition is_creation (ev : Event) : bool :=
  match ev with EvCall (IssuesCreate _ _ _) _ => true | _ => false end.

Definition is_created (ev : Event) : bool :=
  match ev with EvCall (IssuesCreate _ _ _) (inr _) => true | _ => false end.

Definition is_comment (ev : Event) : bool :=
  match ev with EvCall (IssuesCreateComment _ _) _ => true | _ => false end.

Definition is_call (ev : Event) : bool :=
  match ev with EvCall _ _ => true | _ => false end.

Definition count (p : Event -> bool) (tr : list Event) : nat :=
  length (List.filter p tr).

(** A tracker that numbers the issues it creates 1, 2, 3, ... and answers
    every other call as [quirks] says. *)
Definition numbering (h : list Event) (title body : string) (labels : list string)
    : HttpError.t + IssueData.t :=
  inr (IssueData.mk (Z.of_nat (S (count is_created h)))
         ("https://github.example/issues/" +:+ show (Z.of_nat (S (count is_created h))))
         title (Some body)).

Definition accept {A} (a : A) : HttpError.t + A := inr a.

Definition refuse {A} (msg : string) (status : Z) : HttpError.t + A :=
  inl (HttpError.mk msg (Some status)).

(** Every call succeeds. *)
Definition obliging : Tracker :=
  Build_Tracker numbering
    (fun _ _ _ => accept tt) (fun _ _ _ _ => accept tt) (fun _ _ _ => accept tt)
    (fun _ _ _ => accept tt) (fun _ n => accept ("node-" +:+ show n))
    (fun _ _ _ => accept tt) (fun _ _ _ => accept tt).

(** A repository without sub-issues: the native call answers 404. *)
Definition no_sub_issues : Tracker :=
  Build_Tracker numbering
    (fun _ _ _ => refuse "Not Found" 404) (fun _ _ _ _ => accept tt) (fun _ _ _ => accept tt)
    (fun _ _ _ => accept tt) (fun _ n => accept ("node-" +:+ show n))
    (fun _ _ _ => accept tt) (fun _ _ _ => accept tt).

(** No sub-issues, and labels cannot be attached either. *)
Definition no_sub_issues_no_labels : Tracker :=
  Build_Tracker numbering
    (fun _ _ _ => refuse "Not Found" 404) (fun _ _ _ _ => accept tt)
    (fun _ _ _ => refuse "Forbidden" 403)
    (fun _ _ _ => accept tt) (fun _ n => accept ("node-" +:+ show n))
    (fun _ _ _ => accept tt) (fun _ _ _ => accept tt).

(** ** Reasoning about computations *)

(** [triple P m Q E]: from a world that satisfies [P], [m] either returns
    [a] in a world that satisfies [Q a], or throws [e] in a world that
    satisfies [E e].  Computations are total, so this is total
    correctness. *)
Definition triple {A} (P : World -> Prop) (m : M A)
    (Q : A -> World -> Prop) (E : JsError.t -> World -> Prop) : Prop :=
  forall w, P w ->
    match m w with
    | (Returned a, w') => Q a w'
    | (Thrown e, w') => E e w'
    end.

(** [extends p w0 w]: the trace of [w] is that of [w0] followed by more
    events, all of which satisfy [p]. *)
Definition extends (p : Event -> bool) (w0 w : World) : Prop :=
  exists delta, trace w = trace w0 ++ delta /\ forallb p delta = true.

(** The events of the parent link and of its fallback, and the logger. *)
Definition is_minor (ev : Event) : bool :=
  match ev with
  | EvCall (SubIssuesPost _ _) _ | EvCall (IssuesCreateLabel _ _ _) _
  | EvCall (IssuesAddLabels _ _) _ | EvCall (IssuesUpdate _ _) _
  | EvLog _ _ => true
  | _ => false
  end.

(** The events of the dependency pass. *)
Definition is_linking (ev : Event) : bool :=
  match ev with
  | EvCall (IssuesGet _) _ | EvCall (GraphqlCreateLinkedIssue _ _) _
  | EvCall (IssuesCreateComment _ _) _ | EvDelay _ | EvLog _ _ => true
  | _ => false
  end.

Definition issue_of (data : IssueData.t) : GitHubIssue.t :=
  GitHubIssue.mk (IssueData.number data) (IssueData.html_url data)
    (IssueData.title data) (body_or_empty data).

(** The creation calls, as the three functions send them. *)
Definition initiative_call (initiative : Initiative.t) : Call :=
  IssuesCreate ("[INITIATIVE] " +:+ Initiative.title initiative)
    (formatInitiativeBody initiative) ["type:initiative"; Initiative.id initiative].

Definition capability_call (initiative : Initiative.t) (capability : Capability.t)
    (initiativeNumber : option Z) : Call :=
  IssuesCreate ("[CAPABILITY] " +:+ Capability.title capability)
    (formatCapabilityBody initiative capability initiativeNumber)
    (capability_labels initiative capability).

Definition deliverable_call (capability : Capability.t) (deliverable : Deliverable.t)
    (capabilityNumber : Z) : Call :=
  IssuesCreate ("[DELIVERABLE] " +:+ Deliverable.title deliverable)
    (formatDeliverableBody capability deliverable capabilityNumber)
    ["type:deliverable"; Capability.initiativeId capability].

(** ** Statements about a run *)

(** A capability whose deliverables become issues. *)
Definition expands (capability : Capability.t) : bool :=
  Capability.shouldCreateSubIssues capability
  && (0 <? length (Capability.deliverables capability))%nat.

(** The number of items of a hierarchy: its initiatives, their
    capabilities, and the deliverables of the capabilities that expand. *)
Definition items_of_capability (capability : Capability.t) : nat :=
  S (if expands capability then length (Capability.deliverables capability) else 0).

Definition items_of_capabilities (capabilities : list Capability.t) : nat :=
  list_sum (map items_of_capability capabilities).

Definition items_below (initiatives : list Initiative.t) : nat :=
  list_sum (map (fun i => items_of_capabilities (Initiative.capabilities i)) initiatives).

Definition items (initiatives : list Initiative.t) : nat :=
  (length initiatives + items_below initiatives)%nat.

(** [N] initiatives, each with [C] capabilities, each of which asks for
    sub-issues and has [D] deliverables. *)
Definition uniform (N C D : nat) (initiatives : list Initiative.t) : Prop :=
  length initiatives = N /\
  Forall (fun i =>
    length (Initiative.capabilities i) = C /\
    Forall (fun c =>
      Capability.shouldCreateSubIssues c = true /\
      length (Capability.deliverables c) = D)
      (Initiative.capabilities i))
    initiatives.

(** In [pre], the tracker answered the creation [c] with the number [n],
    and [n] was then registered for [id] in the map of level [k]. *)
Definition assigned_then_registered (c : Call) (k : Level) (id : string) (n : Z)
    (pre : list Event) : Prop :=
  exists a b data,
    pre = a ++ EvCall c (inr (ReplyIssue data)) :: b /\
    IssueData.number data = n /\
    In (EvSet k id n) b.

(** The creation calls that may follow the events [pre]: an initiative; a
    capability whose initiative has been created and registered, the
    number sent as its parent being registered for the id of the
    initiative; a deliverable whose capability has been created and
    registered, with the number sent as its parent. *)
Inductive creation_in_order (initiatives : list Initiative.t) (pre : list Event) : Call -> Prop :=
| creation_initiative i :
    In i initiatives ->
    creation_in_order initiatives pre (initiative_call i)
| creation_capability i c m n :
    In i initiatives -> In c (Initiative.capabilities i) ->
    assigned_then_registered (initiative_call i) LInitiative (Initiative.id i) m pre ->
    In (EvSet LInitiative (Initiative.id i) n) pre ->
    creation_in_order initiatives pre (capability_call i c (Some n))
| creation_deliverable i c d p n :
    In i initiatives -> In c (Initiative.capabilities i) ->
    In d (Capability.deliverables c) ->
    assigned_then_registered (capability_call i c p) LCapability (Capability.id c) n pre ->
    creation_in_order initiatives pre (deliverable_call c d n).

(** Every creation call of the trace is justified by the events before it. *)
Definition ordered (initiatives : list Initiative.t) (tr : list Event) : Prop :=
  forall pre title body labels r post,
    tr = pre ++ EvCall (IssuesCreate title body labels) r :: post ->
    creation_in_order initiatives pre (IssuesCreate title body labels).

(** The resolver maps after the events of a run that began with the maps
    [r0]: every [EvSet] is the [map.set] that it records, and nothing
    else writes the maps. *)
Definition registers (r : Resolver.t) (ev : Event) : Resolver.t :=
  match ev with
  | EvSet k id n => Resolver.set k id n r
  | _ => r
  end.

Definition resolver_after (r0 : Resolver.t) (events : list Event) : Resolver.t :=
  fold_left registers events r0.

(** What the maps [r] hold for the parent of a creation call: nothing is
    asked for an initiative; for a capability, the map of the initiatives
    binds the id of its initiative to the number sent as its parent; for
    a deliverable, the map of the capabilities binds the id of its
    capability to the number sent as its parent. *)
Inductive parent_registered (initiatives : list Initiative.t) (r : Resolver.t) : Call -> Prop :=
| registered_initiative i :
    In i initiatives ->
    parent_registered initiatives r (initiative_call i)
| registered_capability i c n :
    In i initiatives -> In c (Initiative.capabilities i) ->
    Resolver.initiativeIdToIssueNumber r !! Initiative.id i = Some n ->
    parent_registered initiatives r (capability_call i c (Some n))
| registered_deliverable i c d n :
    In i initiatives -> In c (Initiative.capabilities i) ->
    In d (Capability.deliverables c) ->
    Resolver.capabilityIdToIssueNumber r !! Capability.id c = Some n ->
    parent_registered initiatives r (deliverable_call c d n).

(** When a creation call of the trace begins, the maps, as the events
    before it have left them, hold the number of its parent. *)
Definition registered_before (initiatives : list Initiative.t) (r0 : Resolver.t)
    (tr : list Event) : Prop :=
  forall pre title body labels r post,
    tr = pre ++ EvCall (IssuesCreate title body labels) r :: post ->
    parent_registered initiatives (resolver_after r0 pre) (IssuesCreate title body labels).

(** The maps of the world are those that its trace tells, and every
    creation so far found its parent registered. *)
Definition parents_registered (initiatives : list Initiative.t) (r0 : Resolver.t)
    (w : World) : Prop :=
  resolver w = resolver_after r0 (trace w) /\
  registered_before initiatives r0 (trace w).

(** Every initiative of the list has a number in the map. *)
Definition initiatives_bound (initiatives : list Initiative.t) (w : World) : Prop :=
  forall i, In i initiatives ->
    exists n, Resolver.initiativeIdToIssueNumber (resolver w) !! Initiative.id i = Some n.

(** [emits p m]: whatever the outcome, [m] adds to the trace only events
    that satisfy [p]. *)
Definition emits {A} (p : Event -> bool) (m : M A) : Prop :=
  forall w, extends p w (snd (m w)).

(** Every initiative of the list has been created, and its id is bound in
    the resolver map to a number registered in the trace. *)
Definition initiatives_registered (initiatives : list Initiative.t) (w : World) : Prop :=
  forall i, In i initiatives ->
    (exists m, assigned_then_registered (initiative_call i) LInitiative
                 (Initiative.id i) m (trace w)) /\
    (exists n, Resolver.initiativeIdToIssueNumber (resolver w) !! Initiative.id i = Some n /\
               In (EvSet LInitiative (Initiative.id i) n) (trace w)).

(** A creation call that carries the label of the initiative level and
    that the tracker refused. *)
Definition failed_initiative_creation (ev : Event) : bool :=
  match ev with
  | EvCall (IssuesCreate _ _ (l :: _)) (inl _) => String.eqb l "type:initiative"
  | _ => false
  end.

Definition no_failed_initiative (ev : Event) : bool := negb (failed_initiative_creation ev).

(** The error that [createInitiativeIssue] throws. *)
Definition initiative_failure (initiative : Initiative.t) (he : HttpError.t) : JsError.t :=
  new_error IssueGeneratorError
    ("Failed to create initiative issue " +:+ dq +:+ Initiative.title initiative
       +:+ dq +:+ ": " +:+ HttpError.message he).

(** A tracker that refuses to create issues. *)
Definition out_of_service : Tracker :=
  Build_Tracker (fun _ _ _ _ => refuse "Service Unavailable" 503)
    (fun _ _ _ => accept tt) (fun _ _ _ _ => accept tt) (fun _ _ _ => accept tt)
    (fun _ _ _ => accept tt) (fun _ n => accept ("node-" +:+ show n))
    (fun _ _ _ => accept tt) (fun _ _ _ => accept tt).

(** *** Pauses between calls *)

(** The calls after which the source pauses: the creation of an item and
    the comment that lists dependencies. *)
Definition is_item_call (ev : Event) : bool := is_creation ev || is_comment ev.

Definition delay_between (mid : list Event) : Prop :=
  exists ms, In (EvDelay ms) mid /\ 1000 <= ms.

(** Between any two calls of the trace there is a pause of at least one
    second. *)
Definition every_call_delayed (tr : list Event) : Prop :=
  forall pre c1 r1 mid c2 r2 post,
    tr = pre ++ EvCall c1 r1 :: mid ++ EvCall c2 r2 :: post -> delay_between mid.

(** Between any two item calls of the trace there is a pause of at least
    one second. *)
Definition item_calls_delayed (tr : list Event) : Prop :=
  forall pre ev1 mid ev2 post,
    tr = pre ++ ev1 :: mid ++ ev2 :: post ->
    is_item_call ev1 = true -> is_item_call ev2 = true -> delay_between mid.

(** Two calls that follow each other with no event in between. *)
Fixpoint adjacent_calls (tr : list Event) : bool :=
  match tr with
  | EvCall _ _ :: (EvCall _ _ :: _) as tr' => true
  | _ :: tr' => adjacent_calls tr'
  | [] => false
  end.

(** A monitor for [item_calls_delayed]: [Some armed] while the trace is
    fine, [armed] when an item call has been made and no pause since. *)
Definition pace (st : option bool) (ev : Event) : option bool :=
  match st with
  | None => None
  | Some armed =>
      match ev with
      | EvDelay ms => if 1000 <=? ms then Some false else Some armed
      | EvCall (IssuesCreate _ _ _) _ | EvCall (IssuesCreateComment _ _) _ =>
          if armed then None else Some true
      | _ => Some armed
      end
  end.

Definition pacing (tr : list Event) : option bool := fold_left pace tr (Some false).

(** Events that the monitor ignores. *)
Definition is_quiet (ev : Event) : bool :=
  match ev with
  | EvDelay _ | EvCall (IssuesCreate _ _ _) _ | EvCall (IssuesCreateComment _ _) _ => false
  | _ => true
  end.

(** The events of one edge of the dependency pass. *)
Definition is_probe (ev : Event) : bool :=
  match ev with
  | EvCall (IssuesGet _) _ | EvCall (GraphqlCreateLinkedIssue _ _) _ | EvLog _ _ => true
  | _ => false
  end.

(** *** The fallback of the parent link *)

(** In a trace: the sub-issue call for [child] was refused; a label was
    attached to [child]; the body of [child] was rewritten.  For the last
    two, whether the call was answered or merely made. *)
Definition native_link_failed (child : Z) (tr : list Event) : bool :=
  existsb (fun ev => match ev with
                     | EvCall (SubIssuesPost _ c) (inl _) => c =? child
                     | _ => false
                     end) tr.

Definition label_attach_attempted (child : Z) (tr : list Event) : bool :=
  existsb (fun ev => match ev with
                     | EvCall (IssuesAddLabels c _) _ => c =? child
                     | _ => false
                     end) tr.

Definition body_update_attempted (child : Z) (tr : list Event) : bool :=
  existsb (fun ev => match ev with
                     | EvCall (IssuesUpdate c _) _ => c =? child
                     | _ => false
                     end) tr.

(** Whenever the native link of a child fails, the second and third
    steps of the fallback are both made for that child. *)
Definition fallback_steps_all_applied (tr : list Event) : Prop :=
  forall child,
    native_link_failed child tr = true ->
    label_attach_attempted child tr = true /\ body_update_attempted child tr = true.

(** The error that [createCapabilityIssue] and [createDeliverableIssue]
    throw. *)
Definition child_failure (what entityTitle : string) (he : HttpError.t) : JsError.t :=
  new_error IssueGeneratorError
    ("Failed to create " +:+ what +:+ " issue " +:+ dq +:+ entityTitle
       +:+ dq +:+ ": " +:+ HttpError.message he).

(** The events of the fallback.  First the two log lines that announce
    it. *)
Definition fallback_announced (data : IssueData.t) (he : HttpError.t) : list Event :=
  [EvLog LogWarn (sub_issue_warning (of_http he) (IssueData.number data));
   EvLog LogInfo ("Applying fallback strategy (labels + body text) for #"
                    +:+ show (IssueData.number data) +:+ "...")].

(** Step 1: the label is created; a refusal is logged, unless its status
    is 422, and goes no further. *)
Definition label_ensured (parentNumber : option Z) (r : HttpError.t + Reply) : list Event :=
  EvCall (IssuesCreateLabel (parent_label parentNumber) "E4E4E4"
            ("Child issues of #" +:+ show_parent parentNumber)) r
  :: match r with
     | inr _ => [EvLog LogDebug ("Created parent label: " +:+ parent_label parentNumber)]
     | inl e =>
         if status_is (of_http e) 422 then []
         else [EvLog LogWarn ("Failed to create parent label " +:+ dq
                                +:+ parent_label parentNumber +:+ dq +:+ ": "
                                +:+ HttpError.message e)]
     end.

(** Step 2: the label is attached to the child. *)
Definition label_attached (data : IssueData.t) (parentNumber : option Z)
    (r : HttpError.t + Reply) : Event :=
  EvCall (IssuesAddLabels (IssueData.number data) [parent_label parentNumber]) r.

(** Step 3: the body of the child is rewritten, the parent first. *)
Definition body_updated (data : IssueData.t) (parentNumber : option Z) (parentTitle : string)
    (r : HttpError.t + Reply) : Event :=
  EvCall (IssuesUpdate (IssueData.number data)
            (parentLinkSection parentNumber parentTitle +:+ body_or_empty data)) r.

Definition fallback_reported (what entityTitle : string) (data : IssueData.t) : list Event :=
  [EvLog LogInfo ("✓ Applied fallback: parent label and body link for #"
                    +:+ show (IssueData.number data));
   EvLog LogDebug ("Created " +:+ what +:+ " issue #" +:+ show (IssueData.number data)
                     +:+ ": " +:+ entityTitle)].

(** What follows the refusal [he] of the sub-issue call, and how the
    creation of the child ends: steps 1 and 2 are always made; step 3 is
    made when step 2 succeeds; the child is returned when steps 2 and 3
    succeed, and otherwise the refusal is thrown as the failure of the
    creation. *)
Definition fallback_run (what entityTitle parentTitle : string) (parentNumber : option Z)
    (data : IssueData.t) (he : HttpError.t)
    (after : list Event) (result : Outcome GitHubIssue.t) : Prop :=
  exists r1 r2 tail,
    after = fallback_announced data he ++ label_ensured parentNumber r1
              ++ label_attached data parentNumber r2 :: tail /\
    match r2 with
    | inl e2 => tail = [] /\ result = Thrown (child_failure what entityTitle e2)
    | inr _ =>
        exists r3,
          match r3 with
          | inl e3 =>
              tail = [body_updated data parentNumber parentTitle r3] /\
              result = Thrown (child_failure what entityTitle e3)
          | inr _ =>
              tail = body_updated data parentNumber parentTitle r3
                       :: fallback_reported what entityTitle data /\
              result = Returned (issue_of data)
          end
    end.

(** What [numbering] answers to the creation of the capability of the
    fixture when it is the first issue of the repository. *)
Definition minimalCapabilityData : IssueData.t :=
  IssueData.mk 1 "https://github.example/issues/1" "[CAPABILITY] Test Capability"
    (Some (formatCapabilityBody minimalInitiative minimalCapability (Some 1))).

Definition not_found : HttpError.t := HttpError.mk "Not Found" (Some 404).

(** *** The dependency pass, one item *)

(** The handle of an id, as the pass reads it: the entry of the map, if it
    is there and is not 0. *)
Definition resolve (m : gmap string Z) (id : string) : option Z := truthy_number (m !! id).

(** The declared dependencies that have a handle, in declared order. *)
Definition resolvable (m : gmap string Z) (dependencies : list string) : list Z :=
  omap (resolve m) dependencies.

Definition link_warning (he : HttpError.t) : Event :=
  EvLog LogWarn ("Could not create link relationship, will use comment instead: "
                   +:+ HttpError.message he).

(** The attempt to link one resolvable edge: the node ids of the
    dependency and of the dependent are fetched, then the relationship
    "dependency blocks dependent" is requested; the first refusal ends the
    attempt with a warning.  The flag tells whether the link was made. *)
Inductive link_attempt (issueNumber depNumber : Z) : list Event -> bool -> Prop :=
| attempt_no_source he :
    link_attempt issueNumber depNumber
      [EvCall (IssuesGet depNumber) (inl he); link_warning he] false
| attempt_no_target sourceId he :
    link_attempt issueNumber depNumber
      [EvCall (IssuesGet depNumber) (inr (ReplyNode sourceId));
       EvCall (IssuesGet issueNumber) (inl he); link_warning he] false
| attempt_refused sourceId targetId he :
    link_attempt issueNumber depNumber
      [EvCall (IssuesGet depNumber) (inr (ReplyNode sourceId));
       EvCall (IssuesGet issueNumber) (inr (ReplyNode targetId));
       EvCall (GraphqlCreateLinkedIssue sourceId targetId) (inl he); link_warning he] false
| attempt_linked sourceId targetId :
    link_attempt issueNumber depNumber
      [EvCall (IssuesGet depNumber) (inr (ReplyNode sourceId));
       EvCall (IssuesGet issueNumber) (inr (ReplyNode targetId));
       EvCall (GraphqlCreateLinkedIssue sourceId targetId) (inr ReplyDone);
       EvLog LogDebug ("✓ Linked " +:+ reference depNumber +:+ " blocks "
                         +:+ reference issueNumber)] true.

(** One attempt per edge, in order, with the list of the dependencies
    that were linked. *)
Inductive link_attempts (issueNumber : Z) : list Z -> list Event -> list Z -> Prop :=
| attempts_nil : link_attempts issueNumber [] [] []
| attempts_cons depNumber rest events linked events' linked' :
    link_attempt issueNumber depNumber events linked ->
    link_attempts issueNumber rest events' linked' ->
    link_attempts issueNumber (depNumber :: rest) (events ++ events')
      ((if linked then [depNumber] else []) ++ linked').

(** What the pass does for one item, from its id and its declared
    dependencies: nothing if the item has no handle; otherwise one
    attempt per resolvable edge and then, if there is such an edge, one
    comment on the item that lists the resolvable edges, followed by a
    pause when it is accepted; a refused comment is thrown. *)
Definition item_linked (what : string) (m : gmap string Z) (id : string)
    (dependencies : list string) (delta : list Event) (result : Outcome unit) : Prop :=
  match resolve m id with
  | None => delta = [] /\ result = Returned tt
  | Some issueNumber =>
      exists attempts linked,
        link_attempts issueNumber (resolvable m dependencies) attempts linked /\
        match resolvable m dependencies with
        | [] => delta = [] /\ result = Returned tt
        | edges =>
            exists r,
              delta = attempts
                        ++ EvCall (IssuesCreateComment issueNumber
                                     (commentBody what (map reference edges) linked)) r
                        :: match r with inr _ => [EvDelay 1000] | inl _ => [] end /\
              result = match r with
                       | inr _ => Returned tt
                       | inl he => Thrown (of_http he)
                       end
        end
  end.

(** *** The dependency pass, all items *)

(** The items that each of the two passes visits, in order, with their
    declared dependencies: every capability; every deliverable of a
    capability that asks for sub-issues. *)
Definition capability_items (initiatives : list Initiative.t) : list (string * list string) :=
  flat_map (fun i =>
    map (fun c => (Capability.id c, Capability.dependencies c)) (Initiative.capabilities i))
    initiatives.

Definition deliverable_items (initiatives : list Initiative.t) : list (string * list string) :=
  flat_map (fun i =>
    flat_map (fun c =>
      if Capability.shouldCreateSubIssues c
      then map (fun d => (Deliverable.id d, Deliverable.dependencies d))
             (Capability.deliverables c)
      else [])
      (Initiative.capabilities i))
    initiatives.

(** A pass handles its items one after the other, each as [item_linked]
    says, and stops at the first refused comment. *)
Inductive pass_linked (what : string) (m : gmap string Z)
    : list (string * list string) -> list Event -> Outcome unit -> Prop :=
| pass_done : pass_linked what m [] [] (Returned tt)
| pass_next id dependencies rest delta delta' result :
    item_linked what m id dependencies delta (Returned tt) ->
    pass_linked what m rest delta' result ->
    pass_linked what m ((id, dependencies) :: rest) (delta ++ delta') result
| pass_stopped id dependencies rest delta e :
    item_linked what m id dependencies delta (Thrown e) ->
    pass_linked what m ((id, dependencies) :: rest) delta (Thrown e).





(** ** JSON values and the schemas ([types/schemas.ts]) *)

(** A parsed JSON document.  The fields of an object are looked up by
    key; the first binding of a key is the one that counts. *)
#[warnings="-register-all"]
Inductive JSON :=
| JNull
| JBool (b : bool)
| JNumber (n : Z)
| JString (s : string)
| JArray (items : list JSON)
| JObject (fields : list (string * JSON)).

(** [object[key]]: [None] is [undefined]. *)
Fixpoint field (key : string) (fields : list (string * JSON)) : option JSON :=
  match fields with
  | [] => None
  | (k, v) :: rest => if String.eqb k key then Some v else field key rest
  end.

(** The outcome of [schema.parse]: the typed value, or a [ZodError].  zod
    reports every issue it finds; the model stops at the first one, which
    decides acceptance in the same way.  The message of a real [ZodError]
    is the JSON text of its list of issues; the model keeps in its place
    a short text for the first issue, so that the class of the error is
    what it tells, not its wording. *)
Definition Parsed (A : Type) : Type := JsError.t + A.

Definition zod_issue (msg : string) : JsError.t := JsError.mk ZodError msg None.

Definition accepted {A} (r : Parsed A) : bool :=
  match r with inr _ => true | inl _ => false end.

Notation "'let?' x ':=' m 'in' k" :=
  (match m with inl e => inl e | inr x => k end)
  (at level 20, x name, m at level 100, k at level 200, only parsing).

(** A schema reads a value that may be missing. *)
Definition Schema (A : Type) : Type := option JSON -> Parsed A.

Definition z_string : Schema string :=
  fun j => match j with
           | Some (JString s) => inr s
           | _ => inl (zod_issue "Expected string")
           end.

(** [z.string().min(1, msg)] *)
Definition z_string_min1 (msg : string) : Schema string :=
  fun j => let? s := z_string j in
           if truthy s then inr s else inl (zod_issue msg).

Definition z_boolean : Schema bool :=
  fun j => match j with
           | Some (JBool b) => inr b
           | _ => inl (zod_issue "Expected boolean")
           end.

(** [z.number().min(lo).max(hi)] *)
Definition z_number_between (lo hi : Z) : Schema Z :=
  fun j => match j with
           | Some (JNumber n) =>
               if (lo <=? n) && (n <=? hi) then inr n
               else inl (zod_issue "Number out of range")
           | _ => inl (zod_issue "Expected number")
           end.

(** [z.union([z.literal(1), ..., z.literal(5)])] *)
Definition z_priority : Schema Z :=
  fun j => match j with
           | Some (JNumber n) =>
               if (n =? 1) || (n =? 2) || (n =? 3) || (n =? 4) || (n =? 5) then inr n
               else inl (zod_issue "Invalid input")
           | _ => inl (zod_issue "Invalid input")
           end.

(** [z.enum(['small', 'medium', 'large'])] *)
Definition z_complexity : Schema Complexity :=
  fun j => match j with
           | Some (JString s) =>
               if String.eqb s "small" then inr small
               else if String.eqb s "medium" then inr medium
               else if String.eqb s "large" then inr large
               else inl (zod_issue "Invalid enum value")
           | _ => inl (zod_issue "Invalid enum value")
           end.

Fixpoint z_items {A} (element : Schema A) (items : list JSON) : Parsed (list A) :=
  match items with
  | [] => inr []
  | x :: rest =>
      let? a := element (Some x) in
      let? l := z_items element rest in
      inr (a :: l)
  end.

Definition z_array {A} (element : Schema A) : Schema (list A) :=
  fun j => match j with
           | Some (JArray items) => z_items element items
           | _ => inl (zod_issue "Expected array")
           end.

(** [z.array(element).min(1, msg)] *)
Definition z_array_min1 {A} (element : Schema A) (msg : string) : Schema (list A) :=
  fun j => let? l := z_array element j in
           match l with
           | [] => inl (zod_issue msg)
           | _ :: _ => inr l
           end.

(** [schema.default(d)]: the default stands for [undefined] only. *)
Definition z_default {A} (schema : Schema A) (d : A) : Schema A :=
  fun j => match j with None => inr d | Some _ => schema j end.

(** [schema.optional()] *)
Definition z_optional {A} (schema : Schema A) : Schema (option A) :=
  fun j => match j with
           | None => inr None
           | Some _ => let? a := schema j in inr (Some a)
           end.

(** [z.object({...})]: the shape reads the fields it names; other keys
    are dropped. *)
Definition z_object {A} (shape : list (string * JSON) -> Parsed A) : Schema A :=
  fun j => match j with
           | Some (JObject fields) => shape fields
           | _ => inl (zod_issue "Expected object")
           end.

(** [z.record(z.string(), z.any())] *)
Definition z_record : Schema (list (string * JSON)) :=
  z_object (fun fields => inr fields).

Definition TechStackSchema : Schema TechStack.t :=
  z_object (fun o =>
    let? frontend := z_optional (z_array z_string) (field "frontend" o) in
    let? backend := z_optional (z_array z_string) (field "backend" o) in
    let? database := z_optional (z_array z_string) (field "database" o) in
    let? testing := z_optional (z_array z_string) (field "testing" o) in
    let? deployment := z_optional (z_array z_string) (field "deployment" o) in
    inr (TechStack.mk frontend backend database testing deployment)).

Definition DeliverableSchema : Schema Deliverable.t :=
  z_object (fun o =>
    let? id := z_string (field "id" o) in
    let? capabilityId := z_string (field "capabilityId" o) in
    let? title := z_string_min1 "Deliverable title is required" (field "title" o) in
    let? description :=
      z_string_min1 "Deliverable description is required" (field "description" o) in
    let? completionCriteria :=
      z_default (z_array z_string) [] (field "completionCriteria" o) in
    let? dependencies := z_default (z_array z_string) [] (field "dependencies" o) in
    let? requiresReviewGate := z_default z_boolean false (field "requiresReviewGate" o) in
    inr (Deliverable.mk id capabilityId title description completionCriteria dependencies
           requiresReviewGate)).

Definition ChecklistItemSchema : Schema ChecklistItem.t :=
  z_object (fun o =>
    let? id := z_string (field "id" o) in
    let? title := z_string_min1 "Checklist item title is required" (field "title" o) in
    let? description := z_optional z_string (field "description" o) in
    inr (ChecklistItem.mk id title description)).

Definition CapabilitySchema : Schema Capability.t :=
  z_object (fun o =>
    let? id := z_string (field "id" o) in
    let? initiativeId := z_string (field "initiativeId" o) in
    let? title := z_string_min1 "Capability title is required" (field "title" o) in
    let? description :=
      z_string_min1 "Capability description is required" (field "description" o) in
    let? inputOutputContract :=
      z_default z_string EmptyString (field "inputOutputContract" o) in
    let? acceptanceCriteria :=
      z_default (z_array z_string) [] (field "acceptanceCriteria" o) in
    let? edgeConstraints := z_default (z_array z_string) [] (field "edgeConstraints" o) in
    let? priority := z_priority (field "priority" o) in
    let? complexity := z_complexity (field "complexity" o) in
    let? estimatedHours := z_number_between 0 40 (field "estimatedHours" o) in
    let? dependencies := z_default (z_array z_string) [] (field "dependencies" o) in
    let? aiContext := z_default z_string EmptyString (field "aiContext" o) in
    let? labels := z_default (z_array z_string) [] (field "labels" o) in
    let? shouldCreateSubIssues :=
      z_default z_boolean false (field "shouldCreateSubIssues" o) in
    let? deliverables :=
      z_default (z_array DeliverableSchema) [] (field "deliverables" o) in
    let? tasks := z_default (z_array ChecklistItemSchema) [] (field "tasks" o) in
    inr (Capability.mk id initiativeId title description inputOutputContract
           acceptanceCriteria edgeConstraints priority complexity estimatedHours
           dependencies aiContext labels shouldCreateSubIssues deliverables tasks)).

Definition InitiativeSummarySchema : Schema InitiativeSummary.t :=
  z_object (fun o =>
    let? id := z_string (field "id" o) in
    let? title := z_string_min1 "Initiative title is required" (field "title" o) in
    let? description := z_string (field "description" o) in
    let? objective := z_string_min1 "Initiative objective is required" (field "objective" o) in
    let? successMetrics := z_default (z_array z_string) [] (field "successMetrics" o) in
    let? priority := z_priority (field "priority" o) in
    inr (InitiativeSummary.mk id title description objective successMetrics priority)).

Definition InitiativeSchema : Schema Initiative.t :=
  z_object (fun o =>
    let? id := z_string (field "id" o) in
    let? title := z_string_min1 "Initiative title is required" (field "title" o) in
    let? description := z_string (field "description" o) in
    let? objective := z_string_min1 "Initiative objective is required" (field "objective" o) in
    let? successMetrics := z_default (z_array z_string) [] (field "successMetrics" o) in
    let? priority := z_priority (field "priority" o) in
    let? capabilities :=
      z_array_min1 CapabilitySchema "Initiative must have at least one capability"
        (field "capabilities" o) in
    inr (Initiative.mk id title description objective successMetrics priority capabilities)).

Module FileContent.
Record t := mk { path : string; content : string }.
End FileContent.

Definition FileContentSchema : Schema FileContent.t :=
  z_object (fun o =>
    let? path := z_string (field "path" o) in
    let? content := z_string (field "content" o) in
    inr (FileContent.mk path content)).

Module ProjectOverview.
Record t := mk {
  title : string;
  description : string;
  techStack : TechStack.t;
  initiatives : list InitiativeSummary.t
}.
End ProjectOverview.

Module ProjectStructure.
Record t := mk {
  title : string;
  description : string;
  techStack : TechStack.t;
  initiatives : list Initiative.t;
  fileStructure : option (list (string * JSON));
  initialFiles : option (list FileContent.t)
}.
End ProjectStructure.

Definition ProjectOverviewSchema : Schema ProjectOverview.t :=
  z_object (fun o =>
    let? title := z_string_min1 "Project title is required" (field "title" o) in
    let? description :=
      z_string_min1 "Project description is required" (field "description" o) in
    let? techStack := TechStackSchema (field "techStack" o) in
    let? initiatives :=
      z_array_min1 InitiativeSummarySchema "Project must have at least one initiative"
        (field "initiatives" o) in
    inr (ProjectOverview.mk title description techStack initiatives)).

Definition ProjectStructureSchema : Schema ProjectStructure.t :=
  z_object (fun o =>
    let? title := z_string_min1 "Project title is required" (field "title" o) in
    let? description :=
      z_string_min1 "Project description is required" (field "description" o) in
    let? techStack := TechStackSchema (field "techStack" o) in
    let? initiatives :=
      z_array_min1 InitiativeSchema "Project must have at least one initiative"
        (field "initiatives" o) in
    let? fileStructure := z_optional z_record (field "fileStructure" o) in
    let? initialFiles := z_optional (z_array FileContentSchema) (field "initialFiles" o) in
    inr (ProjectStructure.mk title description techStack initiatives fileStructure
           initialFiles)).

(** The relation that the data model asks for between the flag and the
    deliverables of a capability. *)
Definition exactly_one_of (capability : Capability.t) : Prop :=
  (Capability.shouldCreateSubIssues capability = true ->
   Capability.deliverables capability <> []) /\
  (Capability.shouldCreateSubIssues capability = false ->
   Capability.deliverables capability = []).

(** Two generated capabilities: one asks for sub-issues and has no
    deliverable, the other has a deliverable and does not ask. *)
Definition capability_fields : list (string * JSON) :=
  [("id", JString "capability-1-1"); ("initiativeId", JString "initiative-1");
   ("title", JString "Accounts"); ("description", JString "Sign-up and sign-in");
   ("priority", JNumber 1); ("complexity", JString "medium"); ("estimatedHours", JNumber 6)].

Definition deliverable_json : JSON :=
  JObject [("id", JString "deliverable-1-1-1"); ("capabilityId", JString "capability-1-1");
           ("title", JString "Sign-up form"); ("description", JString "The form and its checks")].

Definition flag_without_deliverables : JSON :=
  JObject (("shouldCreateSubIssues", JBool true) :: ("deliverables", JArray [])
             :: capability_fields).

Definition deliverables_without_flag : JSON :=
  JObject (("shouldCreateSubIssues", JBool false) :: ("deliverables", JArray [deliverable_json])
             :: capability_fields).

(** [{ ...capability, shouldCreateSubIssues: b }] on the typed value. *)
Definition with_flag (b : bool) (c : Capability.t) : Capability.t :=
  Capability.mk (Capability.id c) (Capability.initiativeId c) (Capability.title c)
    (Capability.description c) (Capability.inputOutputContract c)
    (Capability.acceptanceCriteria c) (Capability.edgeConstraints c) (Capability.priority c)
    (Capability.complexity c) (Capability.estimatedHours c) (Capability.dependencies c)
    (Capability.aiContext c) (Capability.labels c) b (Capability.deliverables c)
    (Capability.tasks c).

(** ** Decomposition ([core/aiDecomposer.ts], [cli/commands/create.ts]) *)

Module PRDMetadata.
Record t := mk {
  title : string;
  description : string;
  techStack : option TechStack.t;
  rawContent : string
}.
End PRDMetadata.

(** The answer of the generation backend, as far as the program reads
    it: why it stopped, and its content blocks. *)
Inductive ContentBlock :=
| TextBlock (text : string)
| OtherBlock (type : string).

Module Message.
Record t := mk { stop_reason : option string; content : list ContentBlock }.
End Message.

(** A generation request; the temperature and the key only travel to the
    client and are left out. *)
Module Request.
Record t := mk { model : string; max_tokens : Z; prompt : string }.
End Request.

(** A failed initiative as the loop records it, and as the snapshots
    print it. *)
Module FailedInitiative.
Record t := mk { initiative : InitiativeSummary.t; error : string }.
End FailedInitiative.

Module FailureRecord.
Record t := mk { initiativeId : string; initiativeTitle : string; error : string }.
End FailureRecord.

(** The objects that the command serialises into its snapshot files. *)
Inductive Snapshot :=
| FailureLog (timestamp prdFile : string) (overview : ProjectOverview.t)
    (failedInitiatives : list FailureRecord.t)
| PartialResults (timestamp prdFile : string) (projectStructure : ProjectStructure.t)
    (failedInitiatives : list FailureRecord.t).

Inductive SpinnerCall := SpinStart | SpinSucceed | SpinFail.

Inductive LoggerCall := CallInfo | CallSuccess | CallWarn | CallError | CallDebug.

(** What a decomposition does, in order: requests to the backend with
    their answers, files written, calls to the logger and to the spinner.
    Writes to the local disk are taken to succeed. *)
Inductive Happening :=
| Asked (request : Request.t) (answer : JsError.t + Message.t)
| Wrote (path : string) (content : Snapshot)
| Logged (call : LoggerCall) (msg : string)
| Spun (call : SpinnerCall) (msg : string).

Definition Session : Type := list Happening.

(** The backend answers from the history of the session; so does the
    clock. *)
Record Surroundings := {
  messages_create : Session -> Request.t -> JsError.t + Message.t;
  now : Session -> string
}.

Definition say (h : Happening) : ST Session unit := fun s => (Returned tt, s ++ [h]).

Definition is_asked (h : Happening) : bool :=
  match h with Asked _ _ => true | _ => false end.

Definition is_wrote (h : Happening) : bool :=
  match h with Wrote _ _ => true | _ => false end.

(** The requests and the files of a session, in order. *)
Definition requests (s : Session) : list Request.t :=
  omap (fun h => match h with Asked r _ => Some r | _ => None end) s.

Definition files (s : Session) : list (string * Snapshot) :=
  omap (fun h => match h with Wrote p c => Some (p, c) | _ => None end) s.

Definition is_error (n : ErrorName) (e : JsError.t) : bool :=
  match JsError.name e, n with
  | APIError, APIError | SyntaxError, SyntaxError | ZodError, ZodError
  | AIDecomposerError, AIDecomposerError => true
  | _, _ => false
  end.

(** [text.split('\n')[0]] *)
Fixpoint first_line (s : string) : string :=
  match s with
  | EmptyString => EmptyString
  | String c rest => if Ascii.eqb c "010"%char then EmptyString else String c (first_line rest)
  end.

(** [{ ...initiativeSummary, capabilities }] *)
Definition attach (summary : InitiativeSummary.t) (capabilities : list Capability.t)
    : Initiative.t :=
  Initiative.mk (InitiativeSummary.id summary) (InitiativeSummary.title summary)
    (InitiativeSummary.description summary) (InitiativeSummary.objective summary)
    (InitiativeSummary.successMetrics summary) (InitiativeSummary.priority summary)
    capabilities.

Definition failure_record (f : FailedInitiative.t) : FailureRecord.t :=
  FailureRecord.mk (InitiativeSummary.id (FailedInitiative.initiative f))
    (InitiativeSummary.title (FailedInitiative.initiative f))
    (FailedInitiative.error f).

Definition totalCapabilities (initiatives : list Initiative.t) : nat :=
  sum_by (fun i => length (Initiative.capabilities i)) initiatives.

Definition totalDeliverables (initiatives : list Initiative.t) : nat :=
  sum_by (fun i => sum_by (fun c => length (Capability.deliverables c))
                     (Initiative.capabilities i)) initiatives.

Definition totalChecklists (initiatives : list Initiative.t) : nat :=
  sum_by (fun i => sum_by (fun c => length (Capability.tasks c))
                     (Initiative.capabilities i)) initiatives.

Definition show_nat (n : nat) : string := show (Z.of_nat n).

Definition totals (initiatives : list Initiative.t) : string :=
  show_nat (totalCapabilities initiatives) +:+ " capabilities, "
    +:+ show_nat (totalDeliverables initiatives) +:+ " deliverables, "
    +:+ show_nat (totalChecklists initiatives) +:+ " checklist items".

(** The message of the error that [decompose] throws on truncation. *)
Definition truncation_message (maxTokens : Z) : string :=
  "AI response was truncated due to insufficient output token limit." +:+ nl +:+ nl
    +:+ "Current max_tokens: " +:+ show maxTokens +:+ nl
    +:+ "Response was cut off before completion (stop_reason: max_tokens)" +:+ nl +:+ nl
    +:+ "Solutions:" +:+ nl
    +:+ "1. Use two-phase decomposition (RECOMMENDED for large PRDs):" +:+ nl
    +:+ "   Add --two-phase flag to your command" +:+ nl +:+ nl
    +:+ "2. Increase the output limit by adding to your .env file:" +:+ nl
    +:+ "   ANTHROPIC_MAX_TOKENS=8192" +:+ nl +:+ nl
    +:+ "3. Simplify your PRD to reduce the response size" +:+ nl +:+ nl
    +:+ "4. Split your PRD into smaller documents and process separately".

Definition initiatives_truncation_message (maxTokens : Z) : string :=
  "AI response was truncated during initiative generation." +:+ nl +:+ nl
    +:+ "Current max_tokens: " +:+ show maxTokens +:+ nl
    +:+ "Please increase ANTHROPIC_MAX_TOKENS or simplify your PRD.".

Definition capabilities_truncation_message (title : string) (maxTokens : Z) : string :=
  "AI response was truncated for initiative " +:+ dq +:+ title +:+ dq +:+ "." +:+ nl +:+ nl
    +:+ "Current max_tokens: " +:+ show maxTokens +:+ nl
    +:+ "This initiative may be too complex. Consider breaking it into smaller initiatives.".

Section Decomposer.

(** The surroundings, the configuration, and the parts of the program
    that only produce or cut text: the three prompts, the removal of a
    Markdown fence around the answer, and [JSON.parse], whose failure is a
    [SyntaxError] with the given message. *)
Variable E : Surroundings.
Variable model : string.
Variable maxTokens : Z.
Variable buildPrompt : PRDMetadata.t -> string.
Variable buildInitiativesPrompt : PRDMetadata.t -> string.
Variable buildCapabilitiesPrompt : PRDMetadata.t -> InitiativeSummary.t -> list string -> string.
Variable extractJSON : string -> string.
Variable JSON_parse : string -> string + JSON.

Definition client_messages_create (prompt : string) : ST Session Message.t :=
  fun s =>
    let request := Request.mk model maxTokens prompt in
    match messages_create E s request with
    | inl e => (Thrown e, s ++ [Asked request (inl e)])
    | inr m => (Returned m, s ++ [Asked request (inr m)])
    end.

Definition truncated (response : Message.t) : bool :=
  match Message.stop_reason response with
  | Some reason => String.eqb reason "max_tokens"
  | None => false
  end.

(** The body shared by [decompose], [decomposeInitiatives] and
    [decomposeInitiativeCapabilities]: they are the same text up to the
    prompt, the schema and the messages. *)
Definition generate {A} (prompt truncationMessage : string) (schema : Schema A)
    (apiPrefix syntaxPrefix : string) (report : A -> string) : ST Session A :=
  try_catch
    (let* response := client_messages_create prompt in
     if truncated response then throw (new_error AIDecomposerError truncationMessage)
     else
       match Message.content response with
       | [] => throw (new_error TypeError "Cannot read properties of undefined (reading 'type')")
       | OtherBlock _ :: _ =>
           throw (new_error AIDecomposerError "Unexpected response type from Claude API")
       | TextBlock text :: _ =>
           let jsonText := extractJSON text in
           match JSON_parse jsonText with
           | inl msg => throw (new_error SyntaxError msg)
           | inr parsed =>
               match schema (Some parsed) with
               | inl zodError => throw zodError
               | inr validated =>
                   let* _ := say (Logged CallDebug (report validated)) in
                   ret validated
               end
           end
       end)
    (fun error =>
       if is_error APIError error then
         throw (new_error AIDecomposerError (apiPrefix +:+ JsError.message error))
       else if is_error SyntaxError error then
         throw (new_error AIDecomposerError (syntaxPrefix +:+ JsError.message error))
       else throw error).

Definition decompose (prdMetadata : PRDMetadata.t) : ST Session ProjectStructure.t :=
  let* _ := say (Logged CallDebug "Starting AI decomposition of PRD") in
  generate (buildPrompt prdMetadata) (truncation_message maxTokens) ProjectStructureSchema
    "Claude API error: " "Failed to parse Claude response as JSON: "
    (fun validated =>
       "Successfully decomposed PRD into "
         +:+ show_nat (length (ProjectStructure.initiatives validated)) +:+ " initiatives").

Definition decomposeInitiatives (prdMetadata : PRDMetadata.t) : ST Session ProjectOverview.t :=
  let* _ := say (Logged CallDebug "Starting AI decomposition - Phase 1: Generating initiatives") in
  generate (buildInitiativesPrompt prdMetadata) (initiatives_truncation_message maxTokens)
    ProjectOverviewSchema
    "Claude API error: " "Failed to parse Claude response as JSON: "
    (fun validated =>
       "Successfully generated "
         +:+ show_nat (length (ProjectOverview.initiatives validated)) +:+ " initiatives").

Definition decomposeInitiativeCapabilities (prdMetadata : PRDMetadata.t)
    (initiativeSummary : InitiativeSummary.t) (allInitiativeIds : list string)
    : ST Session (list Capability.t) :=
  let title := InitiativeSummary.title initiativeSummary in
  let* _ := say (Logged CallDebug ("Decomposing capabilities for initiative: "
                                     +:+ InitiativeSummary.id initiativeSummary)) in
  generate (buildCapabilitiesPrompt prdMetadata initiativeSummary allInitiativeIds)
    (capabilities_truncation_message title maxTokens)
    (z_array_min1 CapabilitySchema "Initiative must have at least one capability")
    ("Claude API error for initiative " +:+ dq +:+ title +:+ dq +:+ ": ")
    ("Failed to parse capabilities for initiative " +:+ dq +:+ title +:+ dq +:+ ": ")
    (fun validated =>
       "Generated " +:+ show_nat (length validated) +:+ " capabilities for initiative "
         +:+ InitiativeSummary.id initiativeSummary).

Definition projectStructure_of (overview : ProjectOverview.t) (initiatives : list Initiative.t)
    : ProjectStructure.t :=
  ProjectStructure.mk (ProjectOverview.title overview) (ProjectOverview.description overview)
    (ProjectOverview.techStack overview) initiatives None None.

(** [AIDecomposer.decomposeTwoPhase] *)
Definition decomposeTwoPhase (prdMetadata : PRDMetadata.t) : ST Session ProjectStructure.t :=
  let* _ := say (Logged CallDebug "Starting two-phase AI decomposition") in
  let* overview := decomposeInitiatives prdMetadata in
  let allInitiativeIds := map InitiativeSummary.id (ProjectOverview.initiatives overview) in
  let* initiatives :=
    foldM (fun initiatives initiativeSummary =>
      let* capabilities :=
        decomposeInitiativeCapabilities prdMetadata initiativeSummary allInitiativeIds in
      ret (initiatives ++ [attach initiativeSummary capabilities]))
      (ProjectOverview.initiatives overview) [] in
  let projectStructure := projectStructure_of overview initiatives in
  let* _ := say (Logged CallDebug
                   ("Two-phase decomposition complete: " +:+ show_nat (length initiatives)
                      +:+ " initiatives, " +:+ totals initiatives)) in
  ret projectStructure.

(** *** The two-phase branch of the create command *)

Definition progress (i n : nat) : string := show_nat (S i) +:+ "/" +:+ show_nat n.

(** The body of the phase-2 loop for the initiative of index [i]; the
    local arrays [initiatives] and [failedInitiatives] are the
    accumulator. *)
Definition phase2_step (prdMetadata : PRDMetadata.t) (overview : ProjectOverview.t)
    (allInitiativeIds : list string)
    (acc : list Initiative.t * list FailedInitiative.t)
    (item : nat * InitiativeSummary.t)
    : ST Session (list Initiative.t * list FailedInitiative.t) :=
  let i := fst item in
  let initiativeSummary := snd item in
  let n := length (ProjectOverview.initiatives overview) in
  let* _ := say (Spun SpinStart
                   ("Phase 2/2: Generating capabilities for initiative " +:+ progress i n
                      +:+ ": " +:+ dq +:+ InitiativeSummary.title initiativeSummary
                      +:+ dq +:+ "...")) in
  try_catch
    (let* capabilities :=
       decomposeInitiativeCapabilities prdMetadata initiativeSummary allInitiativeIds in
     let totalDeliverables := sum_by (fun c => length (Capability.deliverables c)) capabilities in
     let totalChecklists := sum_by (fun c => length (Capability.tasks c)) capabilities in
     let* _ := say (Spun SpinSucceed
                      ("Initiative " +:+ progress i n +:+ " complete: "
                         +:+ show_nat (length capabilities) +:+ " capabilities, "
                         +:+ show_nat totalDeliverables +:+ " deliverables, "
                         +:+ show_nat totalChecklists +:+ " checklist items")) in
     ret (fst acc ++ [attach initiativeSummary capabilities], snd acc))
    (fun error =>
       let errorMessage := JsError.message error in
       let* _ := say (Spun SpinFail
                        ("Initiative " +:+ progress i n +:+ " failed: " +:+ dq
                           +:+ InitiativeSummary.title initiativeSummary +:+ dq +:+ " - "
                           +:+ first_line errorMessage)) in
       let* _ := say (Logged CallWarn "Continuing with remaining initiatives...") in
       ret (fst acc, snd acc ++ [FailedInitiative.mk initiativeSummary errorMessage])).

Definition indexed {X} (l : list X) : list (nat * X) := combine (seq 0 (length l)) l.

Definition phase2 (prdMetadata : PRDMetadata.t) (overview : ProjectOverview.t)
    : ST Session (list Initiative.t * list FailedInitiative.t) :=
  let allInitiativeIds := map InitiativeSummary.id (ProjectOverview.initiatives overview) in
  foldM (phase2_step prdMetadata overview allInitiativeIds)
    (indexed (ProjectOverview.initiatives overview)) ([], []).

(** What follows the loop: the snapshots and the outcome. *)
Definition afterPhase2 (prdFile : string) (overview : ProjectOverview.t)
    (initiatives : list Initiative.t) (failedInitiatives : list FailedInitiative.t)
    : ST Session ProjectStructure.t :=
  match initiatives with
  | [] =>
      fun s =>
        let failureLog :=
          FailureLog (now E s) prdFile overview (map failure_record failedInitiatives) in
        (let* _ := say (Wrote ".p2g-failure.json" failureLog) in
         let* _ := say (Logged CallError
                          "All initiatives failed. Details saved to .p2g-failure.json") in
         let* _ := say (Spun SpinFail "AI decomposition failed") in
         throw (new_error Error_ "All initiatives failed to generate capabilities")) s
  | _ :: _ =>
      let projectStructure := projectStructure_of overview initiatives in
      match failedInitiatives with
      | _ :: _ =>
          fun s =>
            let partialResults :=
              PartialResults (now E s) prdFile projectStructure
                (map failure_record failedInitiatives) in
            (let* _ := say (Wrote ".p2g-partial.json" partialResults) in
             let* _ := say (Logged CallWarn
                              (nl +:+ "Partial success: " +:+ show_nat (length initiatives)
                                 +:+ "/"
                                 +:+ show_nat (length (ProjectOverview.initiatives overview))
                                 +:+ " initiatives, " +:+ totals initiatives)) in
             let* _ := say (Logged CallWarn
                              ("Failed initiatives ("
                                 +:+ show_nat (length failedInitiatives) +:+ "):")) in
             let* _ :=
               forM_ (fun f =>
                 say (Logged CallWarn
                        ("  - " +:+ InitiativeSummary.title (FailedInitiative.initiative f)
                           +:+ ": " +:+ first_line (FailedInitiative.error f))))
                 failedInitiatives in
             let* _ := say (Logged CallInfo "Partial results saved to .p2g-partial.json") in
             ret projectStructure) s
      | [] =>
          let* _ := say (Logged CallSuccess
                           ("Two-phase decomposition complete: "
                              +:+ show_nat (length initiatives) +:+ " initiatives, "
                              +:+ totals initiatives)) in
          ret projectStructure
      end
  end.

(** The branch [if (options.twoPhase)] of [handleCreateCommand]. *)
Definition twoPhase (prdFile : string) (prdMetadata : PRDMetadata.t)
    : ST Session ProjectStructure.t :=
  try_catch
    (let* _ := say (Spun SpinStart
                      "Decomposing PRD with Claude AI (Phase 1/2: Generating initiatives)...") in
     let* overview := decomposeInitiatives prdMetadata in
     let* _ := say (Spun SpinSucceed
                      ("Phase 1 complete: Generated "
                         +:+ show_nat (length (ProjectOverview.initiatives overview))
                         +:+ " initiatives")) in
     let* acc := phase2 prdMetadata overview in
     afterPhase2 prdFile overview (fst acc) (snd acc))
    (fun error =>
       let* _ := say (Spun SpinFail "AI decomposition failed") in
       throw error).

(** *** What the two-phase branch is expected to do *)

Definition is_console (h : Happening) : bool :=
  match h with Logged _ _ | Spun _ _ => true | _ => false end.

(** The request for the capabilities of one initiative. *)
Definition capabilities_request (prdMetadata : PRDMetadata.t) (overview : ProjectOverview.t)
    (initiativeSummary : InitiativeSummary.t) : Request.t :=
  Request.mk model maxTokens
    (buildCapabilitiesPrompt prdMetadata initiativeSummary
       (map InitiativeSummary.id (ProjectOverview.initiatives overview))).

(** Phase 2 from the session [s], over the initiatives that remain:
    each is tried in turn, after some lines on the console; if its
    generation returns, the capabilities are attached to it; if it
    throws, the initiative is recorded with the message of the error;
    then the next one is tried. *)
Inductive phase2_runs (prdMetadata : PRDMetadata.t) (overview : ProjectOverview.t)
    : Session -> list InitiativeSummary.t ->
      list Initiative.t -> list FailedInitiative.t -> Session -> Prop :=
| phase2_done s : phase2_runs prdMetadata overview s [] [] [] s
| phase2_attached s summary rest before capabilities s1 after initiatives failed s' :
    forallb is_console before = true ->
    decomposeInitiativeCapabilities prdMetadata summary
      (map InitiativeSummary.id (ProjectOverview.initiatives overview)) (s ++ before)
    = (Returned capabilities, s1) ->
    forallb is_console after = true ->
    phase2_runs prdMetadata overview (s1 ++ after) rest initiatives failed s' ->
    phase2_runs prdMetadata overview s (summary :: rest)
      (attach summary capabilities :: initiatives) failed s'
| phase2_recorded s summary rest before error s1 after initiatives failed s' :
    forallb is_console before = true ->
    decomposeInitiativeCapabilities prdMetadata summary
      (map InitiativeSummary.id (ProjectOverview.initiatives overview)) (s ++ before)
    = (Thrown error, s1) ->
    forallb is_console after = true ->
    phase2_runs prdMetadata overview (s1 ++ after) rest initiatives failed s' ->
    phase2_runs prdMetadata overview s (summary :: rest)
      initiatives (FailedInitiative.mk summary (JsError.message error) :: failed) s'.

(** What the branch leaves on disk and how it ends, from the two lists
    that phase 2 produced and the clock read at [s]. *)
Definition snapshot_policy (prdFile : string) (overview : ProjectOverview.t)
    (initiatives : list Initiative.t) (failed : list FailedInitiative.t) (s : Session)
    (written : list (string * Snapshot)) (result : Outcome ProjectStructure.t) : Prop :=
  match initiatives, failed with
  | [], _ =>
      written = [(".p2g-failure.json",
                  FailureLog (now E s) prdFile overview (map failure_record failed))] /\
      result = Thrown (new_error Error_ "All initiatives failed to generate capabilities")
  | _ :: _, _ :: _ =>
      written = [(".p2g-partial.json",
                  PartialResults (now E s) prdFile (projectStructure_of overview initiatives)
                    (map failure_record failed))] /\
      result = Returned (projectStructure_of overview initiatives)
  | _ :: _, [] =>
      written = [] /\
      result = Returned (projectStructure_of overview initiatives)
  end.

End Decomposer.

(** Whether a text mentions another. *)
Fixpoint mentions (needle text : string) : bool :=
  String.prefix needle text
  || match text with
     | EmptyString => false
     | String _ rest => mentions needle rest
     end.

(** *** Surroundings for the examples *)

Definition text_answer (text : string) : JsError.t + Message.t :=
  inr (Message.mk (Some "end_turn") [TextBlock text]).

Definition midnight (s : Session) : string := "2025-01-01T00:00:00.000Z".

(** A backend whose answers are always cut at the token limit. *)
Definition cut_short : Surroundings :=
  Build_Surroundings
    (fun _ _ => inr (Message.mk (Some "max_tokens") [TextBlock "{"])) midnight.

(** Prompts, fence removal and parsing reduced to what the examples need:
    the backend is asked for ["initiatives"] or for the capabilities of
    an id, and its answers name the document they stand for. *)
Definition plain_prompt (prdMetadata : PRDMetadata.t) : string :=
  PRDMetadata.rawContent prdMetadata.

Definition initiatives_prompt (prdMetadata : PRDMetadata.t) : string := "initiatives".

Definition capabilities_prompt (prdMetadata : PRDMetadata.t)
    (initiativeSummary : InitiativeSummary.t) (allInitiativeIds : list string) : string :=
  "capabilities:" +:+ InitiativeSummary.id initiativeSummary.

Definition no_fence (text : string) : string := text.

Definition summary_json (id title : string) : JSON :=
  JObject [("id", JString id); ("title", JString title);
           ("description", JString "An outcome"); ("objective", JString "A reason");
           ("priority", JNumber 1)].

Definition overview_json : JSON :=
  JObject [("title", JString "Shop"); ("description", JString "A small shop");
           ("techStack", JObject []);
           ("initiatives", JArray [summary_json "initiative-1" "Accounts";
                                   summary_json "initiative-2" "Orders"])].

Definition named_documents (text : string) : string + JSON :=
  if String.eqb text "overview" then inr overview_json
  else if String.eqb text "capabilities" then inr (JArray [JObject capability_fields])
  else inl "Unexpected end of JSON input".

Definition overloaded : JsError.t := JsError.mk APIError "529 Overloaded" (Some 529).

(** A backend that is overloaded whenever it is asked for the
    capabilities of the first initiative. *)
Definition flaky : Surroundings :=
  Build_Surroundings
    (fun _ request =>
       if String.eqb (Request.prompt request) "initiatives" then text_answer "overview"
       else if String.eqb (Request.prompt request) "capabilities:initiative-1"
            then inl overloaded
            else text_answer "capabilities")
    midnight.

(** A backend that answers every request. *)
Definition steady : Surroundings :=
  Build_Surroundings
    (fun _ request =>
       if String.eqb (Request.prompt request) "initiatives" then text_answer "overview"
       else text_answer "capabilities")
    midnight.

Definition a_document : PRDMetadata.t :=
  PRDMetadata.mk "Shop" "A small shop" None "# Shop".

Definition claude : string := "claude-3-5-sonnet-20241022".

(** The overview that [overview_json] stands for, and the session in
    which the create command has just received it from [flaky]. *)
Definition shop_overview : ProjectOverview.t :=
  ProjectOverview.mk "Shop" "A small shop" (TechStack.mk None None None None None)
    [InitiativeSummary.mk "initiative-1" "Accounts" "An outcome" "A reason" [] 1;
     InitiativeSummary.mk "initiative-2" "Orders" "An outcome" "A reason" [] 1].



(** ** The PRD processor *)

(** [String.prototype.trim] removes white space and line terminators
    from both ends.  A character of a string stands for one code unit;
    among the code units [0..255] the ones removed are tab, line feed,
    vertical tab, form feed, carriage return, space and no-break space. *)
Definition is_white_space (c : ascii) : bool :=
  let n := nat_of_ascii c in
  ((9 <=? n) && (n <=? 13) || (n =? 32) || (n =? 160))%nat.

Fixpoint trimStart (s : string) : string :=
  match s with
  | EmptyString => EmptyString
  | String c rest => if is_white_space c then trimStart rest else s
  end.

Fixpoint trimEnd (s : string) : string :=
  match s with
  | EmptyString => EmptyString
  | String c rest =>
      let rest' := trimEnd rest in
      if is_white_space c && negb (truthy rest') then EmptyString else String c rest'
  end.

Definition trim (s : string) : string := trimEnd (trimStart s).

(** [content.length] *)
Definition length_of (s : string) : Z := Z.of_nat (String.length s).

(** A text made of white space only; the empty text is one. *)
Fixpoint whitespace_only (s : string) : bool :=
  match s with
  | EmptyString => true
  | String c rest => is_white_space c && whitespace_only rest
  end.

Section PRDProcessor.

(** The file system as the processor sees it, and the three extractions,
    which only match the text against patterns: [None] is [null] for the
    title and the description, and [undefined] for the tech stack. *)
Variable existsSync : string -> bool.
Variable readFileSync : string -> JsError.t + string.
Variable extractTitle : string -> option string.
Variable extractDescription : string -> option string.
Variable extractTechStack : string -> option TechStack.t.

(** [value || fallback] where [value] may be [null]. *)
Definition or_default (value : option string) (fallback : string) : string :=
  match value with
  | Some v => or_else v fallback
  | None => fallback
  end.

(** The result lacks [rawContent], left empty here and set by the caller. *)
Definition extractMetadata (content : string) : PRDMetadata.t :=
  let title := extractTitle content in
  let description := extractDescription content in
  let techStack := extractTechStack content in
  PRDMetadata.mk (or_default title "Untitled Project")
    (or_default description "No description provided") techStack EmptyString.

Definition processPRD (prdPath : string) : ST Session PRDMetadata.t :=
  let* _ := say (Logged CallDebug ("Processing PRD from: " +:+ prdPath)) in
  if negb (existsSync prdPath) then
    throw (new_error PRDProcessorError ("PRD file not found: " +:+ prdPath))
  else
    let* content :=
      match readFileSync prdPath with
      | inr content => ret content
      | inl error =>
          throw (new_error PRDProcessorError
                   ("Failed to read PRD file: " +:+ JsError.message error))
      end in
    if negb (truthy content) || (length_of (trim content) =? 0) then
      throw (new_error PRDProcessorError "PRD file is empty")
    else if length_of content <? 100 then
      throw (new_error PRDProcessorError "PRD file is too short (minimum 100 characters)")
    else if 100000 <? length_of content then
      throw (new_error PRDProcessorError "PRD file is too large (maximum 100,000 characters)")
    else
      let metadata := extractMetadata content in
      let* _ := say (Logged CallDebug
                       ("Extracted PRD metadata: " +:+ PRDMetadata.title metadata)) in
      ret (PRDMetadata.mk (PRDMetadata.title metadata) (PRDMetadata.description metadata)
             (PRDMetadata.techStack metadata) content).

(** When the processor is expected to refuse the file at [prdPath]. *)
Definition unacceptable (prdPath : string) : Prop :=
  existsSync prdPath = false \/
  (exists error, readFileSync prdPath = inl error) \/
  (exists content, readFileSync prdPath = inr content /\
     (whitespace_only content = true \/ length_of content < 100
      \/ 100000 < length_of content)).

End PRDProcessor.

(** ** Saved structures ([cli/commands/create.ts], [cli/commands/apply.ts]) *)

(** What validation guarantees of the values it returns. *)
Definition in_1_to_5 (n : Z) : bool := (1 <=? n) && (n <=? 5).

Definition valid_deliverable (d : Deliverable.t) : bool :=
  truthy (Deliverable.title d) && truthy (Deliverable.description d).

Definition valid_task (t : ChecklistItem.t) : bool := truthy (ChecklistItem.title t).

Definition valid_capability (c : Capability.t) : bool :=
  truthy (Capability.title c) && truthy (Capability.description c)
  && in_1_to_5 (Capability.priority c)
  && (0 <=? Capability.estimatedHours c) && (Capability.estimatedHours c <=? 40)
  && forallb valid_deliverable (Capability.deliverables c)
  && forallb valid_task (Capability.tasks c).

Definition valid_summary (i : InitiativeSummary.t) : bool :=
  truthy (InitiativeSummary.title i) && truthy (InitiativeSummary.objective i)
  && in_1_to_5 (InitiativeSummary.priority i).

Definition valid_initiative (i : Initiative.t) : bool :=
  truthy (Initiative.title i) && truthy (Initiative.objective i)
  && in_1_to_5 (Initiative.priority i)
  && negb (Nat.eqb (length (Initiative.capabilities i)) 0)
  && forallb valid_capability (Initiative.capabilities i).

Definition valid_structure (p : ProjectStructure.t) : bool :=
  truthy (ProjectStructure.title p) && truthy (ProjectStructure.description p)
  && negb (Nat.eqb (length (ProjectStructure.initiatives p)) 0)
  && forallb valid_initiative (ProjectStructure.initiatives p).

(** [JSON.parse(JSON.stringify(value))] on the typed values: the object
    with the properties of the value, those that are [undefined] left
    out.  This is what the create command writes with [--output] and the
    apply command reads back. *)
Definition strings (l : list string) : JSON := JArray (map JString l).

Definition property {X} (key : string) (encode : X -> JSON) (value : option X)
    : list (string * JSON) :=
  match value with Some x => [(key, encode x)] | None => [] end.

Definition saved_deliverable (d : Deliverable.t) : JSON :=
  JObject [("id", JString (Deliverable.id d));
           ("capabilityId", JString (Deliverable.capabilityId d));
           ("title", JString (Deliverable.title d));
           ("description", JString (Deliverable.description d));
           ("completionCriteria", strings (Deliverable.completionCriteria d));
           ("dependencies", strings (Deliverable.dependencies d));
           ("requiresReviewGate", JBool (Deliverable.requiresReviewGate d))].

Definition saved_task (t : ChecklistItem.t) : JSON :=
  JObject ([("id", JString (ChecklistItem.id t)); ("title", JString (ChecklistItem.title t))]
             ++ property "description" JString (ChecklistItem.description t)).

Definition saved_capability (c : Capability.t) : JSON :=
  JObject [("id", JString (Capability.id c));
           ("initiativeId", JString (Capability.initiativeId c));
           ("title", JString (Capability.title c));
           ("description", JString (Capability.description c));
           ("inputOutputContract", JString (Capability.inputOutputContract c));
           ("acceptanceCriteria", strings (Capability.acceptanceCriteria c));
           ("edgeConstraints", strings (Capability.edgeConstraints c));
           ("priority", JNumber (Capability.priority c));
           ("complexity", JString (complexity_string (Capability.complexity c)));
           ("estimatedHours", JNumber (Capability.estimatedHours c));
           ("dependencies", strings (Capability.dependencies c));
           ("aiContext", JString (Capability.aiContext c));
           ("labels", strings (Capability.labels c));
           ("shouldCreateSubIssues", JBool (Capability.shouldCreateSubIssues c));
           ("deliverables", JArray (map saved_deliverable (Capability.deliverables c)));
           ("tasks", JArray (map saved_task (Capability.tasks c)))].

Definition saved_initiative (i : Initiative.t) : JSON :=
  JObject [("id", JString (Initiative.id i));
           ("title", JString (Initiative.title i));
           ("description", JString (Initiative.description i));
           ("objective", JString (Initiative.objective i));
           ("successMetrics", strings (Initiative.successMetrics i));
           ("priority", JNumber (Initiative.priority i));
           ("capabilities", JArray (map saved_capability (Initiative.capabilities i)))].

Definition saved_techStack (t : TechStack.t) : JSON :=
  JObject (property "frontend" strings (TechStack.frontend t)
             ++ property "backend" strings (TechStack.backend t)
             ++ property "database" strings (TechStack.database t)
             ++ property "testing" strings (TechStack.testing t)
             ++ property "deployment" strings (TechStack.deployment t)).

Definition saved_file (f : FileContent.t) : JSON :=
  JObject [("path", JString (FileContent.path f)); ("content", JString (FileContent.content f))].

Definition saved_structure (p : ProjectStructure.t) : JSON :=
  JObject ([("title", JString (ProjectStructure.title p));
            ("description", JString (ProjectStructure.description p));
            ("techStack", saved_techStack (ProjectStructure.techStack p));
            ("initiatives", JArray (map saved_initiative (ProjectStructure.initiatives p)))]
             ++ property "fileStructure" JObject (ProjectStructure.fileStructure p)
             ++ property "initialFiles" (fun l => JArray (map saved_file l))
                  (ProjectStructure.initialFiles p)).

(** A generated structure with one initiative and one capability. *)
Definition structure_json : JSON :=
  JObject [("title", JString "Shop"); ("description", JString "A small shop");
           ("techStack", JObject [("backend", JArray [JString "Node.js"])]);
           ("initiatives",
            JArray [JObject [("id", JString "initiative-1"); ("title", JString "Accounts");
                             ("description", JString "An outcome");
                             ("objective", JString "A reason"); ("priority", JNumber 1);
                             ("capabilities",
                              JArray [JObject (("tasks",
                                                JArray [JObject [("id", JString "task-1-1-1");
                                                                 ("title", JString "Hash")]])
                                                 :: capability_fields)])]])].

(** The structure that the fixture of the integration test makes. *)
Definition minimalStructure : ProjectStructure.t :=
  ProjectStructure.mk "Test Project" "A project to test sub-issues"
    (TechStack.mk None (Some ["Node.js"]) None None None) [minimalInitiative] None None.

(** A backend that answers with a whole structure, and the parser for it. *)
Definition single : Surroundings :=
  Build_Surroundings (fun _ _ => text_answer "structure") midnight.

Definition whole_document (text : string) : string + JSON :=
  if String.eqb text "structure" then inr structure_json
  else inl "Unexpected end of JSON input".

(** ** The managers of labels, repositories and projects *)

(** What these classes throw: an error of their own class, with its
    message, or the error of a rejected remote call, as it came. *)
Inductive ManagerClass := LabelManagerError | RepoManagerError | ProjectManagerError.

Inductive Failure :=
| Raised (class : ManagerClass) (message : string)
| Rejected (error : HttpError.t).

(** [error.message] *)
Definition failure_message (f : Failure) : string :=
  match f with
  | Raised _ message => message
  | Rejected error => HttpError.message error
  end.

(** [error.status] *)
Definition failure_status (f : Failure) : option Z :=
  match f with
  | Raised _ _ => None
  | Rejected error => HttpError.status error
  end.

(** [error.status === code] *)
Definition has_status (f : Failure) (code : Z) : bool :=
  match failure_status f with Some s => s =? code | None => false end.

(** A computation of a manager over a state [S]. *)
Definition Task (S A : Type) : Type := S -> (Failure + A) * S.

Definition finish {S A} (a : A) : Task S A := fun s => (inr a, s).

Definition reject {S A} (f : Failure) : Task S A := fun s => (inl f, s).

Definition after {S A B} (m : Task S A) (k : A -> Task S B) : Task S B :=
  fun s =>
    match m s with
    | (inr a, s') => k a s'
    | (inl f, s') => (inl f, s')
    end.

Notation "'let!' x ':=' m 'in' k" := (after m (fun x => k))
  (at level 20, x name, m at level 100, k at level 200, only parsing).

(** [try { m } catch (error) { handler error }] *)
Definition recover {S A} (m : Task S A) (handler : Failure -> Task S A) : Task S A :=
  fun s =>
    match m s with
    | (inr a, s') => (inr a, s')
    | (inl f, s') => handler f s'
    end.

Fixpoint fold_tasks {S A X} (f : A -> X -> Task S A) (l : list X) (a : A) : Task S A :=
  match l with
  | [] => finish a
  | x :: l' => let! a' := f a x in fold_tasks f l' a'
  end.

Definition for_each {S X} (f : X -> Task S unit) (l : list X) : Task S unit :=
  fold_tasks (fun _ x => f x) l tt.

(** *** Colours of custom labels ([LabelManager.generateColor]) *)

(** [ToInt32]: the value modulo [2^32], in [-2^31 .. 2^31 - 1]. *)
Definition to_int32 (n : Z) : Z :=
  let m := n mod 4294967296 in
  if m <? 2147483648 then m else m - 4294967296.

(** [hash << 5] *)
Definition shift_left_5 (hash : Z) : Z := to_int32 (Z.shiftl (to_int32 hash) 5).

(** [text.charCodeAt(i)] for each code unit of the text. *)
Definition char_codes (text : string) : list Z :=
  map (fun c => Z.of_nat (nat_of_ascii c)) (list_ascii_of_string text).

(** The loop: [hash = text.charCodeAt(i) + ((hash << 5) - hash)]. *)
Definition hash_of (text : string) : Z :=
  fold_left (fun hash code => code + (shift_left_5 hash - hash)) (char_codes text) 0.

(** [n.toString(16)] for an integer [n >= 0]. *)
Definition toString16 (n : Z) : string :=
  HexadecimalString.NilZero.string_of_uint (N.to_hex_uint (Z.to_N n)).

(** [s.substring(0, n)] *)
Fixpoint take_string (n : nat) (s : string) : string :=
  match n, s with
  | S n', String c rest => String c (take_string n' rest)
  | _, _ => EmptyString
  end.

(** [s.padEnd(n, '0')] *)
Definition padEnd0 (n : nat) (s : string) : string :=
  s +:+ string_of_list_ascii (repeat "0"%char (n - String.length s)).

Definition upper (c : ascii) : ascii :=
  let n := nat_of_ascii c in
  if ((97 <=? n) && (n <=? 122))%nat then ascii_of_nat (n - 32) else c.

(** [s.toUpperCase()], for a text in ASCII. *)
Fixpoint toUpperCase (s : string) : string :=
  match s with
  | EmptyString => EmptyString
  | String c rest => String (upper c) (toUpperCase rest)
  end.

Definition generateColor (text : string) : string :=
  let hash := hash_of text in
  let color := padEnd0 6 (take_string 6 (toString16 (Z.abs hash))) in
  toUpperCase color.

(** A digit of a colour. *)
Definition is_hex_digit (c : ascii) : bool :=
  let n := nat_of_ascii c in
  ((48 <=? n) && (n <=? 57) || (65 <=? n) && (n <=? 70))%nat.

Fixpoint all_chars (p : ascii -> bool) (s : string) : bool :=
  match s with
  | EmptyString => true
  | String c rest => p c && all_chars p rest
  end.

(** A digit as [toString(16)] writes it. *)
Definition is_lower_hex_digit (c : ascii) : bool :=
  let n := nat_of_ascii c in
  ((48 <=? n) && (n <=? 57) || (97 <=? n) && (n <=? 102))%nat.

(** *** The label manager ([github/labelManager.ts]) *)

Definition lower (c : ascii) : ascii :=
  let n := nat_of_ascii c in
  if ((65 <=? n) && (n <=? 90) || (192 <=? n) && (n <=? 222) && negb (n =? 215))%nat
  then ascii_of_nat (n + 32) else c.

(** [s.toLowerCase()], for code units up to 255. *)
Fixpoint toLowerCase (s : string) : string :=
  match s with
  | EmptyString => EmptyString
  | String c rest => String (lower c) (toLowerCase rest)
  end.

Module LabelDefinition.
Record t := mk { name : string; color : string; description : string }.
End LabelDefinition.

Module LabelManager.

(** What a label manager does, in order: it lists the labels of the
    repository (the names of the first hundred are what it reads of the
    answer), asks for the creation of a label, calls the logger. *)
Inductive Event :=
| Listed (answer : HttpError.t + list string)
| Asked_for (label : LabelDefinition.t) (answer : HttpError.t + unit)
| Noted (call : LoggerCall) (message : string).

(** The repository answers from the history of the run. *)
Record Repository := {
  issues_listLabelsForRepo : list Event -> HttpError.t + list string;
  issues_createLabel : list Event -> LabelDefinition.t -> HttpError.t + unit
}.

(** The instance: its array [DEFAULT_LABELS], and what it did. *)
Record t := mk { DEFAULT_LABELS : list LabelDefinition.t; history : list Event }.

Definition DEFAULT_LABELS_initially : list LabelDefinition.t :=
  [LabelDefinition.mk "type:initiative" "8B5CF6"
     "L1 Initiative - WHY (objective, outcome, metrics)";
   LabelDefinition.mk "type:capability" "10B981"
     "L2 Capability - WHAT (scope, contracts, boundaries)";
   LabelDefinition.mk "type:deliverable" "3B82F6" "L3 Deliverable - Sub-issue with review gate";
   LabelDefinition.mk "feature" "0E8A16" "New feature or capability";
   LabelDefinition.mk "bug" "D73A4A" "Something is not working";
   LabelDefinition.mk "enhancement" "A2EEEF" "Improvement to existing feature";
   LabelDefinition.mk "backend" "0052CC" "Backend-related work";
   LabelDefinition.mk "frontend" "FBCA04" "Frontend-related work";
   LabelDefinition.mk "database" "5319E7" "Database-related work";
   LabelDefinition.mk "testing" "BFD4F2" "Testing-related work";
   LabelDefinition.mk "documentation" "0075CA" "Documentation improvements";
   LabelDefinition.mk "small" "C2E0C6" "Small capability (<4 hours)";
   LabelDefinition.mk "medium" "FEF2C0" "Medium capability (4-8 hours)";
   LabelDefinition.mk "large" "F9C5D1" "Large capability (8-16 hours)"].

(** [new LabelManager(config)] *)
Definition new : t := mk DEFAULT_LABELS_initially [].

Definition note (call : LoggerCall) (message : string) : Task t unit :=
  fun s => (inr tt, mk (DEFAULT_LABELS s) (history s ++ [Noted call message])).

Section Methods.

Variable R : Repository.

(** [config.defaultLabels] *)
Variable defaultLabels : bool.

Definition getExistingLabels : Task t (list string) :=
  fun s =>
    let answer := issues_listLabelsForRepo R (history s) in
    let s' := mk (DEFAULT_LABELS s) (history s ++ [Listed answer]) in
    match answer with
    | inr data => (inr data, s')
    | inl error =>
        (inl (Raised LabelManagerError
                ("Failed to get existing labels: " +:+ HttpError.message error)), s')
    end.

Definition createLabel (label : LabelDefinition.t) : Task t unit :=
  fun s =>
    let answer := issues_createLabel R (history s) label in
    let s' := mk (DEFAULT_LABELS s) (history s ++ [Asked_for label answer]) in
    match answer with
    | inr _ => note CallDebug ("Created label: " +:+ LabelDefinition.name label) s'
    | inl error =>
        if negb (has_status (Rejected error) 422) then
          note CallWarn
            ("Failed to create label " +:+ dq +:+ LabelDefinition.name label +:+ dq
               +:+ ": " +:+ HttpError.message error) s'
        else (inr tt, s')
    end.

(** [customLabels?.length] as a condition. *)
Definition some_labels (customLabels : option (list string)) : bool :=
  match customLabels with
  | Some (_ :: _) => true
  | _ => false
  end.

Definition custom_label (labelName : string) : LabelDefinition.t :=
  LabelDefinition.mk labelName (generateColor labelName) ("Custom label: " +:+ labelName).

(** [labelsToCreate.push(label)]: when [defaultLabels] is set,
    [labelsToCreate] is the array [DEFAULT_LABELS] of the instance
    itself, which the push changes. *)
Definition push (labelsToCreate : list LabelDefinition.t) (label : LabelDefinition.t)
    : Task t (list LabelDefinition.t) :=
  fun s =>
    let pushed := labelsToCreate ++ [label] in
    (inr pushed, if defaultLabels then mk pushed (history s) else s).

Definition named (labelName : string) (l : LabelDefinition.t) : bool :=
  String.eqb (LabelDefinition.name l) labelName.

Definition addCustomLabels (customLabels : option (list string))
    (labelsToCreate : list LabelDefinition.t) : Task t (list LabelDefinition.t) :=
  match customLabels with
  | Some (labelName :: others) =>
      fold_tasks (fun labelsToCreate labelName =>
                    if existsb (named labelName) labelsToCreate then finish labelsToCreate
                    else push labelsToCreate (custom_label labelName))
        (labelName :: others) labelsToCreate
  | _ => finish labelsToCreate
  end.

Definition exists_already (existingLabelNames : list string) (label : LabelDefinition.t)
    : bool :=
  existsb (String.eqb (toLowerCase (LabelDefinition.name label))) existingLabelNames.

Definition ensureLabels (customLabels : option (list string)) : Task t unit :=
  if negb defaultLabels && negb (some_labels customLabels) then
    note CallDebug "Skipping label creation (disabled in config)"
  else
    let! _ := note CallDebug "Ensuring labels exist in repository" in
    let! labelsToCreate :=
      (fun s => addCustomLabels customLabels
                  (if defaultLabels then DEFAULT_LABELS s else []) s) in
    let! existingLabels := getExistingLabels in
    let existingLabelNames := map toLowerCase existingLabels in
    let! _ :=
      for_each (fun label =>
                  if negb (exists_already existingLabelNames label) then createLabel label
                  else note CallDebug
                         ("Label " +:+ dq +:+ LabelDefinition.name label +:+ dq
                            +:+ " already exists"))
        labelsToCreate in
    note CallSuccess
      ("Labels configured (" +:+ show_nat (length labelsToCreate) +:+ " labels)").

End Methods.

(** The labels whose creation was asked for, in order. *)
Definition asked_for (h : list Event) : list LabelDefinition.t :=
  omap (fun e => match e with Asked_for label _ => Some label | _ => None end) h.

Definition is_remote (e : Event) : bool :=
  match e with Noted _ _ => false | _ => true end.

Definition is_listing (e : Event) : bool :=
  match e with Listed _ => true | _ => false end.

(** The labels that a call is about: those of [base], then one for each
    custom name that no label before it carries. *)
Definition planned (customLabels : option (list string)) (base : list LabelDefinition.t)
    : list LabelDefinition.t :=
  match customLabels with
  | Some names =>
      fold_left (fun labels labelName =>
                   if existsb (named labelName) labels then labels
                   else labels ++ [custom_label labelName])
        names base
  | None => base
  end.

(** Whether [ensureLabels] does anything at all. *)
Definition enabled (defaultLabels : bool) (customLabels : option (list string)) : bool :=
  defaultLabels || some_labels customLabels.

End LabelManager.

(** Two repositories for the examples: one with two labels, where every
    creation is accepted, and one that cannot be read. *)
Definition two_labels : LabelManager.Repository :=
  LabelManager.Build_Repository (fun _ => inr ["Bug"; "type:initiative"]) (fun _ _ => inr tt).

Definition unreadable : LabelManager.Repository :=
  LabelManager.Build_Repository (fun _ => inl (HttpError.mk "Not Found" (Some 404)))
    (fun _ _ => inr tt).

(** *** The repository manager ([github/repoManager.ts]) *)

(** What the manager reads of the answer of [repos.get] and of the two
    creation calls. *)
Module RepoData.
Record t := mk { name : string; full_name : string; html_url : string }.
End RepoData.

Module GitHubRepository.
Record t := mk { name : string; fullName : string; url : string; owner : string }.
End GitHubRepository.

Module RepoManager.

Inductive Event :=
| Got (repo : string) (answer : HttpError.t + RepoData.t)
| Got_org (org : string) (answer : HttpError.t + unit)
| Created_in_org (org name description : string) (answer : HttpError.t + RepoData.t)
| Created_for_user (name description : string) (answer : HttpError.t + RepoData.t)
| Noted (call : LoggerCall) (message : string).

(** GitHub answers from the history of the run; the owner asked for in
    [repos.get] is always [config.owner] and is left out. *)
Record GitHub := {
  repos_get : list Event -> string -> HttpError.t + RepoData.t;
  orgs_get : list Event -> string -> HttpError.t + unit;
  repos_createInOrg : list Event -> string -> string -> string -> HttpError.t + RepoData.t;
  repos_createForAuthenticatedUser :
    list Event -> string -> string -> HttpError.t + RepoData.t
}.

(** The instance: the cached answer to whether the owner is an
    organization ([None] is [null]), and what it did. *)
Record t := mk { isOrganization : option bool; history : list Event }.

Definition new : t := mk None [].

Definition record (e : Event) : Task t unit :=
  fun s => (inr tt, mk (isOrganization s) (history s ++ [e])).

Definition note (call : LoggerCall) (message : string) : Task t unit :=
  record (Noted call message).

Definition set_isOrganization (b : bool) : Task t unit :=
  fun s => (inr tt, mk (Some b) (history s)).

(** A remote call: it is recorded with its answer, and a rejection is
    thrown as it came. *)
Definition call {A} (answer : list Event -> HttpError.t + A)
    (event : HttpError.t + A -> Event) : Task t A :=
  fun s =>
    let a := answer (history s) in
    let s' := mk (isOrganization s) (history s ++ [event a]) in
    match a with
    | inr data => (inr data, s')
    | inl error => (inl (Rejected error), s')
    end.

Section Methods.

Variable G : GitHub.

(** [config.owner] *)
Variable owner : string.

Definition checkIfOrganization : Task t bool :=
  fun s =>
    match isOrganization s with
    | Some b => finish b s
    | None =>
        recover
          (let! _ := call (fun h => orgs_get G h owner) (Got_org owner) in
           let! _ := set_isOrganization true in
           let! _ := note CallDebug ("Owner '" +:+ owner +:+ "' is an organization") in
           finish true)
          (fun error =>
             if has_status error 404 then
               let! _ := set_isOrganization false in
               let! _ := note CallDebug ("Owner '" +:+ owner +:+ "' is a user account") in
               finish false
             else
               let! _ := note CallWarn
                           ("Could not determine if owner is org: "
                              +:+ failure_message error +:+ ". Assuming user account.") in
               let! _ := set_isOrganization false in
               finish false) s
    end.

Definition repository_of (data : RepoData.t) : GitHubRepository.t :=
  GitHubRepository.mk (RepoData.name data) (RepoData.full_name data)
    (RepoData.html_url data) owner.

Definition createRepository (repoName description : string) : Task t GitHubRepository.t :=
  let! isOrg := checkIfOrganization in
  let! _ :=
    if isOrg then
      note CallInfo ("Creating new repository in organization '" +:+ owner +:+ "': "
                       +:+ repoName)
    else
      note CallInfo ("Creating new repository in user account '" +:+ owner +:+ "': "
                       +:+ repoName) in
  recover
    (let! data :=
       if isOrg then
         let! data := call (fun h => repos_createInOrg G h owner repoName description)
                        (Created_in_org owner repoName description) in
         let! _ := note CallSuccess
                     ("Organization repository created: " +:+ RepoData.html_url data) in
         let! _ := note CallInfo
                     "⚠️  Remember to enable sub-issues: Repository → Settings → Features → Sub-issues" in
         finish data
       else
         let! data := call (fun h => repos_createForAuthenticatedUser G h repoName description)
                        (Created_for_user repoName description) in
         let! _ := note CallSuccess ("User repository created: " +:+ RepoData.html_url data) in
         let! _ := note CallWarn
                     "Note: Sub-issues are only available for organization repositories, not personal accounts." in
         finish data in
     finish (repository_of data))
    (fun error =>
       if has_status error 422 then
         reject (Raised RepoManagerError
                   ("Repository name " +:+ dq +:+ repoName +:+ dq
                      +:+ " is already taken or invalid"))
       else if has_status error 403 && isOrg then
         reject (Raised RepoManagerError
                   ("Permission denied to create repository in organization '" +:+ owner
                      +:+ "'. " +:+ "Ensure your GitHub token has 'repo' and 'read:org' scopes."))
       else
         reject (Raised RepoManagerError
                   ("Failed to create repository: " +:+ failure_message error))).

Definition getOrCreateRepository (repoName description : string)
    : Task t GitHubRepository.t :=
  let! _ := note CallDebug ("Checking if repository exists: " +:+ owner +:+ "/" +:+ repoName) in
  recover
    (let! data := call (fun h => repos_get G h repoName) (Got repoName) in
     let! _ := note CallInfo ("Using existing repository: " +:+ RepoData.html_url data) in
     finish (repository_of data))
    (fun error =>
       if has_status error 404 then createRepository repoName description
       else reject (Raised RepoManagerError
                      ("Failed to check repository: " +:+ failure_message error))).

Definition repositoryExists (repoName : string) : Task t bool :=
  recover
    (let! _ := call (fun h => repos_get G h repoName) (Got repoName) in
     finish true)
    (fun error =>
       if has_status error 404 then finish false
       else reject (Raised RepoManagerError
                      ("Failed to check repository: " +:+ failure_message error))).

End Methods.

Definition is_creation (e : Event) : bool :=
  match e with Created_in_org _ _ _ _ | Created_for_user _ _ _ => true | _ => false end.

Definition is_org_lookup (e : Event) : bool :=
  match e with Got_org _ _ => true | _ => false end.

Definition is_lookup (e : Event) : bool :=
  match e with Got _ _ => true | _ => false end.

Definition is_note (e : Event) : bool :=
  match e with Noted _ _ => true | _ => false end.

(** The creation call for a repository, by the kind of its owner. *)
Definition creation (isOrg : bool) (owner repoName description : string)
    (answer : HttpError.t + RepoData.t) : Event :=
  if isOrg then Created_in_org owner repoName description answer
  else Created_for_user repoName description answer.

End RepoManager.

(** GitHub for the examples: the repository [shop] exists, no other
    does; the owner is an organization in [a_company] and unknown in
    [a_stranger], where creation is refused. *)
Definition shop_data : RepoData.t :=
  RepoData.mk "shop" "acme/shop" "https://github.com/acme/shop".

Definition lookup_shop (repo : string) : HttpError.t + RepoData.t :=
  if String.eqb repo "shop" then inr shop_data
  else inl (HttpError.mk "Not Found" (Some 404)).

Definition a_company : RepoManager.GitHub :=
  RepoManager.Build_GitHub (fun _ => lookup_shop) (fun _ _ => inr tt)
    (fun _ org name _ =>
       inr (RepoData.mk name (org +:+ "/" +:+ name) ("https://github.com/" +:+ org +:+ "/" +:+ name)))
    (fun _ name _ => inl (HttpError.mk "Forbidden" (Some 403))).

Definition a_stranger : RepoManager.GitHub :=
  RepoManager.Build_GitHub
    (fun _ _ => inl (HttpError.mk "Bad credentials" (Some 401)))
    (fun _ _ => inl (HttpError.mk "Bad credentials" (Some 401)))
    (fun _ _ _ _ => inl (HttpError.mk "Bad credentials" (Some 401)))
    (fun _ _ _ => inl (HttpError.mk "Bad credentials" (Some 401))).

(** *** The project manager ([github/projectManager.ts]) *)

Module ProjectV2.
Record t := mk { id : string; number : Z; title : string; url : string }.
End ProjectV2.

Module StatusFieldOption.
Record t := mk { id : string; name : string; color : string }.
End StatusFieldOption.

Module StatusField.
Record t := mk { id : string; name : string; options : list StatusFieldOption.t }.
End StatusField.

(** The address of an issue, as [getIssueNodeId] reads it with
    [/github\.com\/([^/]+)\/([^/]+)\/issues\/(\d+)/]: the first place
    where [github.com/] is followed by two non-empty segments without
    [/], then [/issues/] and digits.  A segment cannot stop before the
    next [/] and the digits are taken as far as they go, so there is one
    way to match at a given place. *)
Fixpoint strip_prefix (prefix s : string) : option string :=
  match prefix, s with
  | EmptyString, _ => Some s
  | String a prefix', String b s' => if Ascii.eqb a b then strip_prefix prefix' s' else None
  | String _ _, EmptyString => None
  end.

Fixpoint span (p : ascii -> bool) (s : string) : string * string :=
  match s with
  | EmptyString => (EmptyString, EmptyString)
  | String c rest =>
      if p c then let (taken, left) := span p rest in (String c taken, left)
      else (EmptyString, s)
  end.

Definition not_slash (c : ascii) : bool := negb (Ascii.eqb c "/"%char).

Definition is_digit (c : ascii) : bool :=
  let n := nat_of_ascii c in ((48 <=? n) && (n <=? 57))%nat.

Definition match_issue_url_here (s : string) : option (string * string * string) :=
  match strip_prefix "github.com/" s with
  | None => None
  | Some s1 =>
      let (owner, s2) := span not_slash s1 in
      if negb (truthy owner) then None
      else match strip_prefix "/" s2 with
           | None => None
           | Some s3 =>
               let (repo, s4) := span not_slash s3 in
               if negb (truthy repo) then None
               else match strip_prefix "/issues/" s4 with
                    | None => None
                    | Some s5 =>
                        let (digits, _) := span is_digit s5 in
                        if negb (truthy digits) then None
                        else Some (owner, repo, digits)
                    end
           end
  end.

(** [issueUrl.match(...)]: the groups of the leftmost match. *)
Fixpoint match_issue_url (s : string) : option (string * string * string) :=
  match match_issue_url_here s with
  | Some groups => Some groups
  | None =>
      match s with
      | EmptyString => None
      | String _ rest => match_issue_url rest
      end
  end.

(** The number that a text of decimal digits writes. *)
Definition decimal_value (digits : string) : Z :=
  fold_left (fun n c => 10 * n + (Z.of_nat (nat_of_ascii c) - 48))
    (list_ascii_of_string digits) 0.

(** A JavaScript number that holds a natural number: a double without
    fraction, or [Infinity]. *)
Inductive JsNumber :=
| Integral (n : Z)
| Infinite.

(** The double nearest to the natural number [n], with ties going to the
    even significand of 53 bits: [n] itself up to [2^53]; above, [n]
    rounded to a multiple of the power of two that leaves 53 bits; and
    [Infinity] once the rounded value reaches [2^1024]. *)
Definition nearest_double (n : Z) : JsNumber :=
  if n <? 2 ^ 53 then Integral n
  else
    let e := Z.log2 n - 52 in
    let q := Z.shiftr n e in
    let r := Z.land n (Z.ones e) in
    let half := Z.shiftl 1 (e - 1) in
    let q' := if (r <? half) || ((r =? half) && Z.even q) then q else q + 1 in
    if 1024 <=? Z.log2 (Z.shiftl q' e) then Infinite else Integral (Z.shiftl q' e).

(** [parseInt(digits, 10)] for a text of digits: the double nearest to
    the number written. *)
Definition parseInt (digits : string) : JsNumber := nearest_double (decimal_value digits).

Module ProjectManager.

(** The requests of the manager, with what it reads of their answers:
    an id, a project or a field that may be absent ([None]). *)
Inductive Event :=
| Organization_id (login : string) (answer : HttpError.t + option string)
| User_id (login : string) (answer : HttpError.t + option string)
| Organization_project (login : string) (number : Z)
    (answer : HttpError.t + option ProjectV2.t)
| User_project (login : string) (number : Z) (answer : HttpError.t + option ProjectV2.t)
| Create_project (ownerId title : string) (answer : HttpError.t + option ProjectV2.t)
| Create_field (projectId name dataType : string)
    (options : list (string * string * string))
    (answer : HttpError.t + option StatusField.t)
| Update_item_field (projectId itemId fieldId optionId : string) (answer : HttpError.t + unit)
| Add_item (projectId contentId : string) (answer : HttpError.t + option string)
| Issue_id (owner repo : string) (number : JsNumber) (answer : HttpError.t + option string)
| Noted (call : LoggerCall) (message : string).

(** GitHub answers from the history of the run. *)
Record GitHub := {
  organization_id : list Event -> string -> HttpError.t + option string;
  user_id : list Event -> string -> HttpError.t + option string;
  organization_project : list Event -> string -> Z -> HttpError.t + option ProjectV2.t;
  user_project : list Event -> string -> Z -> HttpError.t + option ProjectV2.t;
  createProjectV2 : list Event -> string -> string -> HttpError.t + option ProjectV2.t;
  createProjectV2Field :
    list Event -> string -> string -> string -> list (string * string * string)
    -> HttpError.t + option StatusField.t;
  updateProjectV2ItemFieldValue :
    list Event -> string -> string -> string -> string -> HttpError.t + unit;
  addProjectV2ItemById : list Event -> string -> string -> HttpError.t + option string;
  repository_issue_id : list Event -> string -> string -> JsNumber -> HttpError.t + option string
}.

Definition t : Type := list Event.

Definition note (call : LoggerCall) (message : string) : Task t unit :=
  fun h => (inr tt, h ++ [Noted call message]).

(** A request: it is recorded with its answer, and a rejection is
    thrown as it came. *)
Definition graphql {A} (answer : list Event -> HttpError.t + A)
    (event : HttpError.t + A -> Event) : Task t A :=
  fun h =>
    let a := answer h in
    match a with
    | inr data => (inr data, h ++ [event a])
    | inl error => (inl (Rejected error), h ++ [event a])
    end.

Definition raise {A} (message : string) : Task t A :=
  reject (Raised ProjectManagerError message).

Definition statusOptions : list (string * string * string) :=
  [("Backlog", "GRAY", "Issue is in the backlog and not yet ready to be worked on");
   ("Ready for AI", "GREEN", "Issue is ready for AI implementation");
   ("AI: Planning & Scaffold", "YELLOW", "AI is planning and creating initial scaffolding");
   ("AI: Implementation", "ORANGE", "AI is actively implementing the feature");
   ("Awaiting Review (HITL)", "RED", "Implementation complete, awaiting human review");
   ("Changes Requested", "PURPLE", "Human reviewer has requested changes");
   ("Ready to Merge", "PINK", "Changes approved and ready to be merged");
   ("Merged / Verification", "BLUE", "Code merged, undergoing verification testing");
   ("Done", "GREEN", "Issue is complete and verified")].

Section Methods.

Variable G : GitHub.

Definition getOwnerId (login : string) : Task t string :=
  let! found :=
    recover
      (let! organization := graphql (fun h => organization_id G h login)
                              (Organization_id login) in
       finish organization)
      (fun _ => finish None) in
  match found with
  | Some id => finish id
  | None =>
      let! found :=
        recover
          (let! user := graphql (fun h => user_id G h login) (User_id login) in
           finish user)
          (fun error =>
             raise ("Failed to get owner ID for " +:+ dq +:+ login +:+ dq +:+ ": "
                      +:+ failure_message error)) in
      match found with
      | Some id => finish id
      | None =>
          raise ("Owner " +:+ dq +:+ login +:+ dq +:+ " not found as user or organization")
      end
  end.

Definition getProject (owner : string) (projectNumber : Z) : Task t (option ProjectV2.t) :=
  recover
    (let! ownerId := getOwnerId owner in
     let! found :=
       recover
         (let! project := graphql (fun h => organization_project G h owner projectNumber)
                            (Organization_project owner projectNumber) in
          finish project)
         (fun _ => finish None) in
     match found with
     | Some project => finish (Some project)
     | None =>
         let! project := graphql (fun h => user_project G h owner projectNumber)
                           (User_project owner projectNumber) in
         finish project
     end)
    (fun error =>
       raise ("Failed to get project #" +:+ show projectNumber +:+ ": "
                +:+ failure_message error)).

Definition createProject (owner title : string) : Task t ProjectV2.t :=
  recover
    (let! ownerId := getOwnerId owner in
     let! result := graphql (fun h => createProjectV2 G h ownerId title)
                      (Create_project ownerId title) in
     match result with
     | None => raise "Failed to create project: No project returned"
     | Some project =>
         let! _ := note CallDebug
                     ("Created project #" +:+ show (ProjectV2.number project) +:+ ": "
                        +:+ title) in
         finish project
     end)
    (fun error =>
       raise ("Failed to create project " +:+ dq +:+ title +:+ dq +:+ ": "
                +:+ failure_message error)).

Definition createStatusField (projectId : string) : Task t StatusField.t :=
  let! _ := note CallInfo "Creating custom Workflow Status field with AI+HITL columns..." in
  recover
    (let! result :=
       graphql (fun h => createProjectV2Field G h projectId "Workflow Status" "SINGLE_SELECT"
                           statusOptions)
         (Create_field projectId "Workflow Status" "SINGLE_SELECT" statusOptions) in
     match result with
     | None => raise "Failed to create Status field: No field returned"
     | Some field =>
         let! _ := note CallSuccess
                     ("Created Status field with "
                        +:+ show_nat (length (StatusField.options field)) +:+ " columns") in
         finish field
     end)
    (fun error => raise ("Failed to create Status field: " +:+ failure_message error)).

Definition setItemStatus (projectId itemId fieldId optionId : string) : Task t unit :=
  recover
    (graphql (fun h => updateProjectV2ItemFieldValue G h projectId itemId fieldId optionId)
       (Update_item_field projectId itemId fieldId optionId))
    (fun error => raise ("Failed to set item status: " +:+ failure_message error)).

Definition getIssueNodeId (issueUrl : string) : Task t string :=
  match match_issue_url issueUrl with
  | None => raise ("Invalid issue URL: " +:+ issueUrl)
  | Some (owner, repo, issueNumber) =>
      recover
        (let! id := graphql (fun h => repository_issue_id G h owner repo (parseInt issueNumber))
                      (Issue_id owner repo (parseInt issueNumber)) in
         match id with
         | Some id => if truthy id then finish id else raise ("Issue not found: " +:+ issueUrl)
         | None => raise ("Issue not found: " +:+ issueUrl)
         end)
        (fun error => raise ("Failed to get issue node ID: " +:+ failure_message error))
  end.

(** [statusField?.options.find(opt => opt.name === 'Backlog')] *)
Definition backlog_option (statusField : option StatusField.t)
    : option StatusFieldOption.t :=
  match statusField with
  | Some field =>
      find (fun opt => String.eqb (StatusFieldOption.name opt) "Backlog")
        (StatusField.options field)
  | None => None
  end.

(** The body of the loop of [addIssuesToProject]. *)
Definition addIssue (projectId : string) (statusField : option StatusField.t)
    (issue : GitHubIssue.t) : Task t unit :=
  let backlogOption := backlog_option statusField in
  recover
    (let! issueNodeId := getIssueNodeId (GitHubIssue.url issue) in
     let! itemId := graphql (fun h => addProjectV2ItemById G h projectId issueNodeId)
                      (Add_item projectId issueNodeId) in
     let! _ := note CallDebug
                 ("Added issue #" +:+ show (GitHubIssue.number issue) +:+ " to project") in
     match statusField, backlogOption, itemId with
     | Some field, Some option, Some item =>
         if truthy item then
           let! _ := setItemStatus projectId item (StatusField.id field)
                       (StatusFieldOption.id option) in
           note CallDebug
             ("Set issue #" +:+ show (GitHubIssue.number issue) +:+ " status to " +:+ dq
                +:+ "Backlog" +:+ dq)
         else finish tt
     | _, _, _ => finish tt
     end)
    (fun error =>
       note CallWarn
         ("Failed to add issue #" +:+ show (GitHubIssue.number issue) +:+ " to project: "
            +:+ failure_message error)).

Definition addIssuesToProject (projectId : string) (issues : list GitHubIssue.t)
    (statusField : option StatusField.t) : Task t unit :=
  let! _ := note CallInfo ("Adding " +:+ show_nat (length issues) +:+ " issues to project...") in
  for_each (addIssue projectId statusField) issues.

Definition manageProject (owner title : string) (issues : list GitHubIssue.t)
    (existingProjectNumber : option Z) : Task t ProjectV2.t :=
  let! chosen :=
    match truthy_number existingProjectNumber with
    | Some number =>
        let! existingProject := getProject owner number in
        match existingProject with
        | None =>
            raise ("Project #" +:+ show number +:+ " not found for owner " +:+ dq
                     +:+ owner +:+ dq)
        | Some project =>
            let! _ := note CallInfo
                        ("Using existing project #" +:+ show (ProjectV2.number project)
                           +:+ ": " +:+ ProjectV2.title project) in
            finish (project, None)
        end
    | None =>
        let! project := createProject owner title in
        let! _ := note CallSuccess
                    ("Created project #" +:+ show (ProjectV2.number project) +:+ ": "
                       +:+ ProjectV2.title project) in
        let! statusField := createStatusField (ProjectV2.id project) in
        finish (project, Some statusField)
    end in
  let! _ := addIssuesToProject (ProjectV2.id (fst chosen)) issues (snd chosen) in
  finish (fst chosen).

End Methods.

Definition is_field_creation (e : Event) : bool :=
  match e with Create_field _ _ _ _ _ => true | _ => false end.

Definition is_status_update (e : Event) : bool :=
  match e with Update_item_field _ _ _ _ _ => true | _ => false end.

Definition is_project_creation (e : Event) : bool :=
  match e with Create_project _ _ _ => true | _ => false end.

Definition is_item_addition (e : Event) : bool :=
  match e with Add_item _ _ _ => true | _ => false end.

(** Every run of [m] adds to the history only events that satisfy [p]. *)
Definition produces {A} (p : Event -> bool) (m : Task t A) : Prop :=
  forall h, exists events, snd (m h) = h ++ events /\ forallb p events = true.

(** Whatever [m] throws is a [ProjectManagerError]. *)
Definition raises_own {A} (m : Task t A) : Prop :=
  forall h f, fst (m h) = inl f -> exists message, f = Raised ProjectManagerError message.

(** The issues asked for by [getIssueNodeId], in order. *)
Definition issues_looked_up (h : list Event) : list (string * string * JsNumber) :=
  omap (fun e => match e with
                 | Issue_id owner repo number _ => Some (owner, repo, number)
                 | _ => None
                 end) h.

Definition is_issue_lookup (e : Event) : bool :=
  match e with Issue_id _ _ _ _ => true | _ => false end.

(** Neither a project nor a field is created, and no status is set. *)
Definition leaves_board_alone (e : Event) : bool :=
  negb (is_project_creation e) && negb (is_field_creation e) && negb (is_status_update e).

(** If the event sets a status, it sets, in the project [projectId],
    the given field to its first option named [Backlog]. *)
Definition sets_backlog (projectId : string) (statusField : option StatusField.t)
    (e : Event) : bool :=
  match e with
  | Update_item_field project _ fieldId optionId _ =>
      match statusField, backlog_option statusField with
      | Some field, Some option =>
          String.eqb project projectId && String.eqb fieldId (StatusField.id field)
          && String.eqb optionId (StatusFieldOption.id option)
      | _, _ => false
      end
  | _ => true
  end.

(** The issue that an address names, if it names one. *)
Definition issue_of_url (issueUrl : string) : option (string * string * JsNumber) :=
  match match_issue_url issueUrl with
  | Some (owner, repo, digits) => Some (owner, repo, parseInt digits)
  | None => None
  end.

End ProjectManager.

(** The address that GitHub gives to the issue [number] of a repository. *)
Definition issue_url (owner repo : string) (number : Z) : string :=
  "https://github.com/" +:+ owner +:+ "/" +:+ repo +:+ "/issues/" +:+ show number.

(** A name of an owner or of a repository: not empty, without [/]. *)
Definition is_segment (s : string) : bool := truthy s && all_chars not_slash s.

(** GitHub for the examples: out of reach, and with the project 5 of an
    organization, where every request is granted. *)
Definition no_network : HttpError.t := HttpError.mk "getaddrinfo ENOTFOUND" None.

Definition offline : ProjectManager.GitHub :=
  ProjectManager.Build_GitHub
    (fun _ _ => inl no_network) (fun _ _ => inl no_network) (fun _ _ _ => inl no_network)
    (fun _ _ _ => inl no_network) (fun _ _ _ => inl no_network)
    (fun _ _ _ _ _ => inl no_network) (fun _ _ _ _ _ => inl no_network)
    (fun _ _ _ => inl no_network) (fun _ _ _ _ => inl no_network).

Definition board : ProjectV2.t :=
  ProjectV2.mk "PVT_1" 5 "Shop" "https://github.com/orgs/acme/projects/5".

Definition a_board : ProjectManager.GitHub :=
  ProjectManager.Build_GitHub
    (fun _ _ => inr (Some "O_1")) (fun _ _ => inr None)
    (fun _ _ _ => inr (Some board)) (fun _ _ _ => inr None)
    (fun _ _ _ => inr (Some board))
    (fun _ _ _ _ _ =>
       inr (Some (StatusField.mk "F_1" "Workflow Status"
                    [StatusFieldOption.mk "OPT_1" "Backlog" "GRAY"])))
    (fun _ _ _ _ _ => inr tt)
    (fun _ _ _ => inr (Some "PVTI_1")) (fun _ _ _ _ => inr (Some "I_1")).

Definition an_issue : GitHubIssue.t :=
  GitHubIssue.mk 42 "https://github.com/acme/shop/issues/42" "Accounts" "Sign-up".

(** ** Text cut by patterns *)

(** *** [AIDecomposer.extractJSON] *)

(** The pattern is [/```(?:json)?\s*([\s\S]*?)\s*```/], and the group is
    trimmed.  A match starts at a fence; if the text that follows the
    first fence holds no other fence, no match starts anywhere else
    either.  After the opening fence, [json] is taken if it is there (the
    closing fence cannot start inside it), and the lazy group stops at
    the white space that precedes the next fence; once trimmed, it is the
    trimmed text between the two. *)
Definition fence : string := "```".

(** The text after the first fence. *)
Fixpoint after_fence (s : string) : option string :=
  match strip_prefix fence s with
  | Some rest => Some rest
  | None =>
      match s with
      | EmptyString => None
      | String _ rest => after_fence rest
      end
  end.

(** The text before the first fence. *)
Fixpoint before_fence (s : string) : option string :=
  match strip_prefix fence s with
  | Some _ => Some EmptyString
  | None =>
      match s with
      | EmptyString => None
      | String c rest =>
          match before_fence rest with
          | Some body => Some (String c body)
          | None => None
          end
      end
  end.

Definition extractJSON (text : string) : string :=
  match after_fence text with
  | Some rest =>
      let rest := match strip_prefix "json" rest with Some r => r | None => rest end in
      match before_fence rest with
      | Some body => trim body
      | None => trim text
      end
  | None => trim text
  end.

(** *** [PRDProcessor.parseTechList] *)

(** [text.replace(/\*\*|\*|`/g, '')]: every asterisk and every backquote
    goes. *)
Definition is_mark (c : ascii) : bool := Ascii.eqb c "*"%char || Ascii.eqb c "`"%char.

Fixpoint remove_marks (s : string) : string :=
  match s with
  | EmptyString => EmptyString
  | String c rest => if is_mark c then remove_marks rest else String c (remove_marks rest)
  end.

(** One of [and], [with], [using] at the start of the text: its length
    and what follows it. *)
Definition keyword (s : string) : option (nat * string) :=
  match strip_prefix "and" s with
  | Some rest => Some (3%nat, rest)
  | None =>
      match strip_prefix "with" s with
      | Some rest => Some (4%nat, rest)
      | None =>
          match strip_prefix "using" s with
          | Some rest => Some (5%nat, rest)
          | None => None
          end
      end
  end.

Definition is_list_separator (c : ascii) : bool :=
  Ascii.eqb c ","%char || Ascii.eqb c ";"%char.

(** The length of the match of [/[,;]|\s+(?:and|with|using)\s+/] at the
    start of the text, if it matches there: one character, or all the
    white space there is, a keyword, and all the white space that
    follows it, of which there must be some. *)
Definition separator_length (s : string) : option nat :=
  match s with
  | EmptyString => None
  | String c _ =>
      if is_list_separator c then Some 1%nat
      else
        let (before, s1) := span is_white_space s in
        if negb (truthy before) then None
        else match keyword s1 with
             | None => None
             | Some (k, s2) =>
                 let (behind, _) := span is_white_space s2 in
                 if negb (truthy behind) then None
                 else Some (String.length before + k + String.length behind)%nat
             end
  end.

(** [text.split(separator)]: the text is read from the left; where the
    separator matches, the piece read so far is given out and the match
    is skipped; [skip] counts what is left to skip. *)
Fixpoint split_go (s current : string) (skip : nat) : list string :=
  match s with
  | EmptyString => [current]
  | String c rest =>
      match skip with
      | S k => split_go rest current k
      | O =>
          match separator_length s with
          | Some (S k) => current :: split_go rest EmptyString k
          | _ => split_go rest (current +:+ String c EmptyString) 0
          end
      end
  end.

Definition parseTechList (text : string) : list string :=
  List.filter (fun t => (0 <? String.length t)%nat && (String.length t <? 50)%nat)
    (map trim (split_go (remove_marks text) EmptyString 0)).

(** What a clean item has not: marks, separators, white space at either
    end. *)
Definition is_plain (c : ascii) : bool := negb (is_mark c) && negb (is_list_separator c).

Definition head_is_space (s : string) : bool :=
  match s with
  | EmptyString => false
  | String c _ => is_white_space c
  end.

Fixpoint last_is_space (s : string) : bool :=
  match s with
  | EmptyString => false
  | String c EmptyString => is_white_space c
  | String _ rest => last_is_space rest
  end.

Definition not_backquote (c : ascii) : bool := negb (Ascii.eqb c "`"%char).

(** ** The order of the passes of the issue generator *)

(** The calls of the dependency pass. *)
Definition is_dependency_call (ev : Event) : bool :=
  match ev with
  | EvCall (IssuesGet _) _ | EvCall (GraphqlCreateLinkedIssue _ _) _
  | EvCall (IssuesCreateComment _ _) _ => true
  | _ => false
  end.

(** Every run of [m] adds events that satisfy [p], then events that
    satisfy [q]. *)
Definition in_two_phases {A} (p q : Event -> bool) (m : M A) : Prop :=
  forall w, exists first second,
    trace (snd (m w)) = trace w ++ first ++ second /\
    forallb p first = true /\ forallb q second = true.

(** The fixture with the flag of its capability unset: the capability
    keeps its deliverable and does not ask for sub-issues. *)
Definition unexpandedInitiative : Initiative.t :=
  Initiative.mk "initiative-1" "Test Initiative" "An outcome" "A reason" [] 1
    [with_flag false minimalCapability].

(** ** A structure saved by the create command and applied later *)

(** What the create command writes with [--output], as [JSON.parse]
    gives it back: the time, the PRD file, the target in the form
    ["owner/repo"] and the structure. *)
Definition outputData (timestamp prdFile owner repo : string) (projectStructure : ProjectStructure.t)
    : JSON :=
  JObject [("timestamp", JString timestamp);
           ("prdFile", JString prdFile);
           ("targetRepo", JString (owner +:+ "/" +:+ repo));
           ("projectStructure", saved_structure projectStructure)].

(** [value.key] on a parsed JSON value: a [TypeError] on [null], the
    member or [undefined] on an object, [undefined] on the other values
    for the keys used here. *)
Definition member (key : string) (value : JSON) : JsError.t + option JSON :=
  match value with
  | JNull => inl (new_error TypeError
                    ("Cannot read properties of null (reading '" +:+ key +:+ "')"))
  | JObject fields => inr (field key fields)
  | _ => inr None
  end.

(** [text.split(sep)] for a separator of one character: the first piece
    and the pieces after it. *)
Fixpoint split_at (sep : ascii) (text : string) : string * list string :=
  match text with
  | EmptyString => (EmptyString, [])
  | String c rest =>
      let (piece, pieces) := split_at sep rest in
      if Ascii.eqb c sep then (EmptyString, piece :: pieces) else (String c piece, pieces)
  end.

(** [savedData.targetRepo.split('/')]. *)
Definition split_targetRepo (targetRepo : option JSON) : JsError.t + string * list string :=
  match targetRepo with
  | None => inl (new_error TypeError "Cannot read properties of undefined (reading 'split')")
  | Some JNull => inl (new_error TypeError "Cannot read properties of null (reading 'split')")
  | Some (JString text) => inr (split_at "/" text)
  | Some _ => inl (new_error TypeError "savedData.targetRepo.split is not a function")
  end.

(** The apply command from the parsed file to the target: the structure
    it validates, the owner and the name of the repository; the name is
    [undefined] where the saved target has no slash. *)
Definition loadSavedStructure (options_repo options_owner : option string) (config_owner : string)
    (savedData : JSON) : JsError.t + ProjectStructure.t * string * option string :=
  match member "projectStructure" savedData with
  | inl e => inl e
  | inr saved =>
      match ProjectStructureSchema saved with
      | inl e => inl e
      | inr projectStructure =>
          if truthy (or_default options_repo "") then
            inr (projectStructure, or_default options_owner config_owner, options_repo)
          else
            match member "targetRepo" savedData with
            | inl e => inl e
            | inr targetRepo =>
                match split_targetRepo targetRepo with
                | inl e => inl e
                | inr (savedOwner, pieces) =>
                    inr (projectStructure,
                         or_default options_owner (or_else savedOwner config_owner),
                         head pieces)
                end
            end
      end
  end.

(** ** What the maps hold after a run *)

(** The id is bound, in the map of its level, to the number of one of
    the issues. *)
Definition registered_among (r : Resolver.t) (numbers : list Z) (key : Level * string) : Prop :=
  exists n, Resolver.get (fst key) r !! snd key = Some n /\ In n numbers.

(** The items of a hierarchy, by level and id, in the order of their
    creation within each pass. *)
Definition deliverable_keys (capability : Capability.t) : list (Level * string) :=
  if expands capability
  then map (fun d => (LDeliverable, Deliverable.id d)) (Capability.deliverables capability)
  else [].

Definition capability_keys (capability : Capability.t) : list (Level * string) :=
  (LCapability, Capability.id capability) :: deliverable_keys capability.

Definition initiative_keys (initiatives : list Initiative.t) : list (Level * string) :=
  map (fun i => (LInitiative, Initiative.id i)) initiatives.

Definition numbers (issues : list GitHubIssue.t) : list Z := map GitHubIssue.number issues.

(** * Part II: properties *)

(** ** Rules for triples *)

Lemma triple_ret {A} (a : A) (P : World -> Prop) Q E :
  (forall w, P w -> Q a w) -> triple P (ret a) Q E.
Proof. intros H w Hw. cbn. auto. Qed.

Lemma triple_throw {A} e (P : World -> Prop) (Q : A -> World -> Prop) E :
  (forall w, P w -> E e w) -> triple P (throw e) Q E.
Proof. intros H w Hw. cbn. auto. Qed.

Lemma triple_bind {A B} (m : M A) (f : A -> M B) P R Q E :
  triple P m R E -> (forall a, triple (R a) (f a) Q E) -> triple P (bind m f) Q E.
Proof.
  intros Hm Hf w Hw. unfold bind. specialize (Hm w Hw).
  destruct (m w) as [[a|e] w']; [ exact (Hf a w' Hm) | exact Hm ].
Qed.

Lemma triple_try {A} (m : M A) (h : JsError.t -> M A) P Q E' E :
  triple P m Q E' -> (forall e, triple (E' e) (h e) Q E) -> triple P (try_catch m h) Q E.
Proof.
  intros Hm Hh w Hw. unfold try_catch. specialize (Hm w Hw).
  destruct (m w) as [[a|e] w']; [ exact Hm | exact (Hh e w' Hm) ].
Qed.

Lemma triple_weaken {A} (m : M A) (P P' : World -> Prop) (Q Q' : A -> World -> Prop)
    (E E' : JsError.t -> World -> Prop) :
  triple P m Q E ->
  (forall w, P' w -> P w) ->
  (forall a w, Q a w -> Q' a w) ->
  (forall e w, E e w -> E' e w) ->
  triple P' m Q' E'.
Proof.
  intros Hm HP HQ HE w Hw. specialize (Hm w (HP w Hw)).
  destruct (m w) as [[a|e] w']; auto.
Qed.

(** A ghost value fixed by the precondition. *)
Lemma triple_exists {A X} (m : M A) (P : X -> World -> Prop) Q E :
  (forall x, triple (P x) m Q E) -> triple (fun w => exists x, P x w) m Q E.
Proof. intros H w [x Hx]. exact (H x w Hx). Qed.

Lemma triple_at {A} (m : M A) (P : World -> Prop) Q E :
  (forall w0, P w0 -> triple (fun w => w = w0) m Q E) -> triple P m Q E.
Proof. intros H w Hw. exact (H w Hw w eq_refl). Qed.

(** The loop rule: [I done a] holds when the items [done] have been
    processed and the local variables are [a]. *)
Lemma triple_foldM_from {A X} (f : A -> X -> M A) (I : list X -> A -> World -> Prop) E l :
  (forall done x a, (exists rest, l = done ++ x :: rest) ->
     triple (I done a) (f a x) (I (done ++ [x])) E) ->
  forall rest done a, l = done ++ rest -> triple (I done a) (foldM f rest a) (I l) E.
Proof.
  intros Hstep rest. induction rest as [|x rest IH]; intros done a Hl.
  - cbn. apply triple_ret. intros w Hw. rewrite Hl, app_nil_r. exact Hw.
  - cbn. eapply triple_bind.
    + apply Hstep. exists rest. exact Hl.
    + intros a'. apply IH. rewrite Hl, <- app_assoc. reflexivity.
Qed.

Lemma triple_foldM {A X} (f : A -> X -> M A) (I : list X -> A -> World -> Prop) E l a0 :
  (forall done x a, (exists rest, l = done ++ x :: rest) ->
     triple (I done a) (f a x) (I (done ++ [x])) E) ->
  triple (I [] a0) (foldM f l a0) (I l) E.
Proof. intros H. eapply triple_foldM_from; eauto. Qed.

(** A loop whose body keeps an invariant that does not mention the
    progress. *)
Lemma triple_foldM_inv {A X} (f : A -> X -> M A) (I : World -> Prop) E l a0 :
  (forall x a, In x l -> triple I (f a x) (fun _ => I) E) ->
  triple I (foldM f l a0) (fun _ => I) E.
Proof.
  intros H. apply (triple_foldM f (fun _ _ => I)).
  intros done x a [rest ->]. apply H. apply in_or_app. right. left. reflexivity.
Qed.

Lemma triple_forM_inv {X} (f : X -> M unit) (I : World -> Prop) E l :
  (forall x, In x l -> triple I (f x) (fun _ => I) E) ->
  triple I (forM_ f l) (fun _ => I) E.
Proof. intros H. apply triple_foldM_inv. intros x _ Hx. apply H, Hx. Qed.

(** ** Extensions of a world *)

Lemma extends_refl p w : extends p w w.
Proof. exists []. rewrite app_nil_r. auto. Qed.

Lemma extends_trans p w0 w1 w2 : extends p w0 w1 -> extends p w1 w2 -> extends p w0 w2.
Proof.
  intros (d1 & E1 & F1) (d2 & E2 & F2).
  exists (d1 ++ d2). rewrite E2, E1, <- app_assoc. split; [reflexivity|].
  rewrite forallb_app, F1, F2. reflexivity.
Qed.

Lemma extends_weaken (p q : Event -> bool) w0 w :
  (forall ev, p ev = true -> q ev = true) -> extends p w0 w -> extends q w0 w.
Proof.
  intros H (d & E & F). exists d. split; [exact E|].
  rewrite forallb_forall in *. auto.
Qed.

Lemma extends_emit p r w ev : p ev = true -> extends p w (mkWorld r (trace w ++ [ev])).
Proof. intros H. exists [ev]. cbn. rewrite H. auto. Qed.

(** ** What one function call adds to the trace *)

(** Case analysis on the answers of the tracker, in the order in which
    the calls are made. *)
Ltac answer :=
  match goal with
  | |- context [match ?x with inl _ => _ | inr _ => _ end] => destruct x eqn:?
  | |- context [if status_is ?e ?c then _ else _] => destruct (status_is e c) eqn:?
  end.

(** The place of an event in an explicit list: [H] is
    [x1 :: ... :: xn :: [] = before ++ y :: after]. *)
Ltac locate H :=
  match type of H with
  | [] = ?b ++ _ :: _ => exfalso; destruct b; discriminate H
  | _ :: _ = ?b ++ _ :: _ =>
      destruct b as [|? b]; cbn [app] in H;
      [ try discriminate H
      | let Hhd := fresh "Hhd" in
        injection H as Hhd H; symmetry in Hhd; subst; locate H ]
  end.

(** The answer that the tracker gave to the call [ask], as a witness. *)
Ltac answered ask :=
  match goal with
  | H : ask _ _ _ _ _ = inl ?e |- _ => exists (inl e)
  | H : ask _ _ _ _ _ = inr _ |- _ => exists (inr ReplyDone)
  | H : ask _ _ _ _ = inl ?e |- _ => exists (inl e)
  | H : ask _ _ _ _ = inr _ |- _ => exists (inr ReplyDone)
  end.

Ltac known_status :=
  match goal with H : status_is _ _ = _ |- _ => rewrite H; clear H end.

Ltac run :=
  unfold createInitiativeIssue, createChildIssue, applyFallback, createParentLabel,
    getIssueNodeId,
    octokit_issues_create, octokit_sub_issues_post, octokit_issues_createLabel,
    octokit_issues_addLabels, octokit_issues_update, octokit_issues_get,
    octokit_graphql_createLinkedIssue, octokit_issues_createComment,
    logger_info, logger_success, logger_warn, logger_debug, delay,
    try_catch, bind, ret, throw, emit, request;
  cbv beta iota; cbn [trace resolver fst snd];
  repeat (answer; cbv beta iota; cbn [trace resolver fst snd]).

Section Shapes.

Variable T : Tracker.

Lemma createInitiativeIssue_shape initiative w0 :
  triple (fun w => w = w0) (createInitiativeIssue T initiative)
    (fun issue w => exists data,
       issue = issue_of data /\
       w = mkWorld (resolver w0)
             (trace w0 ++ [EvCall (initiative_call initiative) (inr (ReplyIssue data));
                           EvLog LogDebug ("Created initiative issue #"
                                             +:+ show (IssueData.number data) +:+ ": "
                                             +:+ Initiative.title initiative)]))
    (fun e w => exists he,
       e = new_error IssueGeneratorError
             ("Failed to create initiative issue " +:+ dq +:+ Initiative.title initiative
                +:+ dq +:+ ": " +:+ HttpError.message he) /\
       w = mkWorld (resolver w0) (trace w0 ++ [EvCall (initiative_call initiative) (inl he)])).
Proof.
  intros w ->. run.
  - eexists. split; reflexivity.
  - eexists. split; [reflexivity|]. rewrite <- app_assoc. reflexivity.
Qed.

Lemma createChildIssue_shape what issueTitle body labels parentNumber parentTitle entityTitle w0 :
  triple (fun w => w = w0)
    (createChildIssue T what issueTitle body labels parentNumber parentTitle entityTitle)
    (fun issue w => exists data rest,
       issue = issue_of data /\ resolver w = resolver w0 /\
       trace w = trace w0 ++ EvCall (IssuesCreate issueTitle body labels) (inr (ReplyIssue data)) :: rest /\
       forallb is_minor rest = true)
    (fun e w => exists r rest,
       JsError.name e = IssueGeneratorError /\ resolver w = resolver w0 /\
       trace w = trace w0 ++ EvCall (IssuesCreate issueTitle body labels) r :: rest /\
       forallb is_minor rest = true).
Proof.
  intros w ->. run;
    repeat rewrite <- app_assoc; cbn [app];
    do 2 eexists; (split; [reflexivity | split; [reflexivity | split; reflexivity]]).
Qed.

End Shapes.

(** ** Computations that only add events of one kind *)

Lemma emits_ret {A} p (a : A) : emits p (ret a).
Proof. intros w. apply extends_refl. Qed.

Lemma emits_throw {A} p e : emits p (throw e : M A).
Proof. intros w. apply extends_refl. Qed.

Lemma emits_bind {A B} p (m : M A) (f : A -> M B) :
  emits p m -> (forall a, emits p (f a)) -> emits p (bind m f).
Proof.
  intros Hm Hf w. unfold bind. specialize (Hm w).
  destruct (m w) as [[a|e] w']; cbn in *; [|exact Hm].
  eapply extends_trans; [exact Hm|]. apply Hf.
Qed.

Lemma emits_try {A} p (m : M A) (h : JsError.t -> M A) :
  emits p m -> (forall e, emits p (h e)) -> emits p (try_catch m h).
Proof.
  intros Hm Hh w. unfold try_catch. specialize (Hm w).
  destruct (m w) as [[a|e] w']; cbn in *; [exact Hm|].
  eapply extends_trans; [exact Hm|]. apply Hh.
Qed.

Lemma emits_emit p ev : p ev = true -> emits p (emit ev).
Proof. intros H w. cbn. apply extends_emit, H. Qed.

Lemma emits_request {A} p c ask (reply : A -> Reply) :
  (forall r, p (EvCall c r) = true) -> emits p (request c ask reply).
Proof.
  intros H w. unfold request. destruct (ask (trace w)); cbn; apply extends_emit, H.
Qed.

Lemma emits_get p k id : emits p (resolver_get k id).
Proof. intros w. apply extends_refl. Qed.

Lemma emits_set p k id n : p (EvSet k id n) = true -> emits p (resolver_set k id n).
Proof. intros H w. cbn. apply extends_emit, H. Qed.

Lemma emits_foldM {A X} p (f : A -> X -> M A) l :
  (forall a x, In x l -> emits p (f a x)) -> forall a, emits p (foldM f l a).
Proof.
  induction l as [|x l IH]; intros H a; cbn [foldM].
  - apply emits_ret.
  - apply emits_bind; [apply H; left; reflexivity|].
    intros a'. apply IH. intros a'' y Hy. apply H. right. exact Hy.
Qed.

Lemma emits_forM {X} p (f : X -> M unit) l :
  (forall x, In x l -> emits p (f x)) -> emits p (forM_ f l).
Proof. intros H. apply emits_foldM. intros _ x Hx. apply H, Hx. Qed.

Lemma emits_weaken {A} (p q : Event -> bool) (m : M A) :
  (forall ev, p ev = true -> q ev = true) -> emits p m -> emits q m.
Proof. intros H Hm w. eapply extends_weaken; [exact H | apply Hm]. Qed.

(** A property of worlds that such events preserve is an invariant. *)
Lemma emits_invariant {A} p (m : M A) (I : World -> Prop) :
  emits p m ->
  (forall w w', I w -> extends p w w' -> I w') ->
  triple I m (fun _ => I) (fun _ => I).
Proof.
  intros Hm HI w Hw. specialize (Hm w).
  destruct (m w) as [[a|e] w']; cbn in Hm; eauto.
Qed.

Section DependencyPass.

Variable T : Tracker.

Lemma linkDependency_probes k issueNumber acc depId :
  emits is_probe (linkDependency T k issueNumber acc depId).
Proof.
  unfold linkDependency. apply emits_bind; [apply emits_get|]. intros depNumber.
  destruct (truthy_number depNumber); [|apply emits_ret].
  apply emits_try.
  - repeat (apply emits_bind; [|intros ?]);
      first [ apply emits_request; reflexivity | apply emits_emit; reflexivity | apply emits_ret ].
  - intros e. apply emits_bind; [apply emits_emit; reflexivity|]. intros _. apply emits_ret.
Qed.

Lemma probe_is_linking ev : is_probe ev = true -> is_linking ev = true.
Proof. destruct ev as [[] ?| | |]; cbn; congruence. Qed.

Lemma linkDependency_emits k issueNumber acc depId :
  emits is_linking (linkDependency T k issueNumber acc depId).
Proof. eapply emits_weaken; [apply probe_is_linking | apply linkDependency_probes]. Qed.

Lemma updateDependencies_emits what k id dependencies :
  emits is_linking (updateDependencies T what k id dependencies).
Proof.
  unfold updateDependencies. destruct dependencies as [|d ds]; [apply emits_ret|].
  apply emits_bind; [apply emits_get|]. intros issueNumber.
  destruct (truthy_number issueNumber); [|apply emits_ret].
  apply emits_bind.
  - apply emits_foldM. intros. apply linkDependency_emits.
  - intros acc. destruct (fst acc); [apply emits_ret|].
    apply emits_bind; [apply emits_request; reflexivity|].
    intros _. apply emits_emit. reflexivity.
Qed.

Lemma updateCapabilityDependencies_emits initiatives :
  emits is_linking (updateCapabilityDependencies T initiatives).
Proof.
  apply emits_forM. intros i _. apply emits_forM. intros c _.
  apply updateDependencies_emits.
Qed.

Lemma updateDeliverableDependencies_emits initiatives :
  emits is_linking (updateDeliverableDependencies T initiatives).
Proof.
  apply emits_forM. intros i _. apply emits_forM. intros c _.
  destruct (negb (Capability.shouldCreateSubIssues c)); [apply emits_ret|].
  apply emits_forM. intros d _. apply updateDependencies_emits.
Qed.

End DependencyPass.

(** ** Counting and ordering the events of a trace *)

Lemma count_app p a b : count p (a ++ b) = (count p a + count p b)%nat.
Proof. unfold count. rewrite List.filter_app, length_app. reflexivity. Qed.

Lemma count_none (p q : Event -> bool) l :
  forallb q l = true -> (forall ev, q ev = true -> p ev = false) -> count p l = 0%nat.
Proof.
  intros Hq Hpq. induction l as [|ev l IH]; [reflexivity|].
  cbn in Hq. apply andb_prop in Hq as [Hev Hl].
  unfold count in *. cbn. rewrite (Hpq ev Hev). auto.
Qed.

Lemma minor_not_created ev : is_minor ev = true -> is_created ev = false.
Proof. destruct ev as [[] []| | |]; cbn; congruence. Qed.

Lemma linking_not_created ev : is_linking ev = true -> is_created ev = false.
Proof. destruct ev as [[] []| | |]; cbn; congruence. Qed.

Lemma minor_not_creation ev : is_minor ev = true -> is_creation ev = false.
Proof. destruct ev as [[] []| | |]; cbn; congruence. Qed.

Lemma linking_not_creation ev : is_linking ev = true -> is_creation ev = false.
Proof. destruct ev as [[] []| | |]; cbn; congruence. Qed.

Lemma no_creation_inside (delta pre post : list Event) c r :
  forallb (fun ev => negb (is_creation ev)) delta = true ->
  delta = pre ++ EvCall c r :: post ->
  is_creation (EvCall c r) = false.
Proof.
  intros H ->. rewrite forallb_app in H. apply andb_prop in H as [_ H].
  cbn [forallb] in H. apply andb_prop in H as [H _].
  apply negb_true_iff in H. exact H.
Qed.

Lemma forallb_impl (p q : Event -> bool) l :
  (forall ev, p ev = true -> q ev = true) -> forallb p l = true -> forallb q l = true.
Proof. intros H. rewrite !forallb_forall. auto. Qed.

Lemma assigned_then_registered_app c k id n pre more :
  assigned_then_registered c k id n pre ->
  assigned_then_registered c k id n (pre ++ more).
Proof.
  intros (a & b & data & -> & Hn & Hin). exists a, (b ++ more), data.
  rewrite <- app_assoc. cbn. repeat split; auto. apply in_or_app. auto.
Qed.

Lemma ordered_nil initiatives : ordered initiatives [].
Proof. intros pre t b l r post H. destruct pre; discriminate. Qed.

(** Events appended to an ordered trace keep it ordered when each
    creation among them is justified where it stands. *)
Lemma ordered_app initiatives tr delta :
  ordered initiatives tr ->
  (forall pre t b l r post,
     delta = pre ++ EvCall (IssuesCreate t b l) r :: post ->
     creation_in_order initiatives (tr ++ pre) (IssuesCreate t b l)) ->
  ordered initiatives (tr ++ delta).
Proof.
  intros Htr Hdelta pre t b l r post Heq.
  apply app_eq_app in Heq as [mid [[-> Hpost] | [-> Hd]]].
  - destruct mid as [|ev mid].
    + cbn in Hpost. symmetry in Hpost. apply (Hdelta [] t b l r post) in Hpost.
      rewrite !app_nil_r in Hpost. exact Hpost.
    + cbn in Hpost. injection Hpost as <- ->.
      eapply Htr. reflexivity.
  - eapply Hdelta. exact Hd.
Qed.

Lemma ordered_app_other initiatives tr delta :
  ordered initiatives tr ->
  forallb (fun ev => negb (is_creation ev)) delta = true ->
  ordered initiatives (tr ++ delta).
Proof.
  intros Htr Hd. apply ordered_app; [exact Htr|].
  intros pre t b l r post Heq.
  pose proof (no_creation_inside _ _ _ _ _ Hd Heq) as H. discriminate H.
Qed.

(** A creation followed by events that are not creations. *)
Lemma ordered_app_block initiatives tr t b l r rest :
  ordered initiatives tr ->
  creation_in_order initiatives tr (IssuesCreate t b l) ->
  forallb (fun ev => negb (is_creation ev)) rest = true ->
  ordered initiatives (tr ++ EvCall (IssuesCreate t b l) r :: rest).
Proof.
  intros Htr Hc Hrest. apply ordered_app; [exact Htr|].
  intros pre t' b' l' r' post Heq. destruct pre as [|ev pre].
  - cbn in Heq. injection Heq as <- <- <- _ _. rewrite app_nil_r. exact Hc.
  - cbn in Heq. injection Heq as _ Heq.
    pose proof (no_creation_inside _ _ _ _ _ Hrest Heq) as H. discriminate H.
Qed.

Lemma minor_rest_no_creation rest :
  forallb is_minor rest = true ->
  forallb (fun ev => negb (is_creation ev)) rest = true.
Proof.
  apply forallb_impl. intros ev H. rewrite (minor_not_creation ev H). reflexivity.
Qed.

(** ** The passes of [generateIssues]: count and order *)

Section Passes.

Variable T : Tracker.
Variable initiatives : list Initiative.t.

Lemma initiatives_registered_later l w w' delta :
  initiatives_registered l w ->
  Resolver.initiativeIdToIssueNumber (resolver w')
    = Resolver.initiativeIdToIssueNumber (resolver w) ->
  trace w' = trace w ++ delta ->
  initiatives_registered l w'.
Proof.
  intros H Hr Ht i Hi. destruct (H i Hi) as [[m Hm] (n & Hn & Hin)]. split.
  - exists m. rewrite Ht. apply assigned_then_registered_app, Hm.
  - exists n. rewrite Hr, Ht. split; [exact Hn|]. apply in_or_app. auto.
Qed.

Lemma firstPass_spec k0 :
  triple (fun w => ordered initiatives (trace w) /\ count is_created (trace w) = k0)
    (firstPass T initiatives)
    (fun allIssues w =>
       ordered initiatives (trace w) /\
       count is_created (trace w) = (k0 + length initiatives)%nat /\
       length allIssues = length initiatives /\
       initiatives_registered initiatives w)
    (fun _ w => ordered initiatives (trace w)).
Proof.
  unfold firstPass.
  eapply triple_weaken;
    [ apply (triple_foldM _
        (fun done allIssues w =>
           ordered initiatives (trace w) /\
           count is_created (trace w) = (k0 + length done)%nat /\
           length allIssues = length done /\
           initiatives_registered done w)
        (fun _ w => ordered initiatives (trace w))) | | | ].
  - intros done x allIssues [rest Hl] w (Ho & Hc & Hlen & Hreg).
    assert (Hx : In x initiatives).
    { rewrite Hl. apply in_or_app. right. left. reflexivity. }
    unfold bind.
    pose proof (createInitiativeIssue_shape T x w w eq_refl) as H.
    destruct (createInitiativeIssue T x w) as [[issue|e] w1].
    + destruct H as (data & -> & ->).
      cbn [resolver_set delay emit ret resolver trace fst snd issue_of GitHubIssue.number].
      repeat rewrite <- app_assoc. cbn [app]. unfold initiative_call.
      split; [|split; [|split]].
      * apply ordered_app_block; [exact Ho | apply (creation_initiative _ _ x Hx) | reflexivity].
      * rewrite count_app, Hc, length_app. cbn. lia.
      * rewrite !length_app, Hlen. reflexivity.
      * intros i Hi.
        cbn [resolver trace Resolver.set Resolver.initiativeIdToIssueNumber].
        apply in_app_or in Hi as [Hi | [<- | []]].
        -- destruct (Hreg i Hi) as [[m Hm] (n & Hn & Hin)]. split.
           ++ exists m. apply assigned_then_registered_app, Hm.
           ++ cbn [Resolver.set Resolver.initiativeIdToIssueNumber].
              destruct (decide (Initiative.id x = Initiative.id i)) as [Heq|Hne].
              ** exists (IssueData.number data). rewrite Heq, lookup_insert_eq.
                 split; [reflexivity|]. apply in_or_app. right. cbn. auto.
              ** exists n. rewrite lookup_insert_ne by exact Hne.
                 split; [exact Hn|]. apply in_or_app. auto.
        -- split.
           ++ exists (IssueData.number data). exists (trace w). eexists. exists data.
              split; [reflexivity|]. split; [reflexivity|]. cbn. auto.
           ++ exists (IssueData.number data).
              cbn [Resolver.set Resolver.initiativeIdToIssueNumber].
              rewrite lookup_insert_eq. split; [reflexivity|].
              apply in_or_app. right. cbn. auto.
    + destruct H as (he & -> & ->). cbn [trace]. unfold initiative_call.
      apply ordered_app_block; [exact Ho | apply (creation_initiative _ _ x Hx) | reflexivity].
  - intros w [Ho Hc]. split; [exact Ho|]. split; [cbn; lia|]. split; [reflexivity|].
    intros i [].
  - intros a w H. exact H.
  - intros e w H. exact H.
Qed.

Lemma createDeliverables_spec i c p num acc k ev0 :
  In i initiatives -> In c (Initiative.capabilities i) ->
  triple (fun w =>
            ordered initiatives (trace w) /\ count is_created (trace w) = k /\
            initiatives_registered initiatives w /\ In ev0 (trace w) /\
            assigned_then_registered (capability_call i c p) LCapability
              (Capability.id c) num (trace w))
    (createDeliverables T c num acc)
    (fun acc' w =>
       ordered initiatives (trace w) /\
       count is_created (trace w) = (k + length (Capability.deliverables c))%nat /\
       length (fst acc') = (length (fst acc) + length (Capability.deliverables c))%nat /\
       initiatives_registered initiatives w /\ In ev0 (trace w))
    (fun _ w => ordered initiatives (trace w)).
Proof.
  intros Hi Hc. unfold createDeliverables.
  eapply triple_weaken;
    [ apply (triple_foldM _
        (fun done acc' w =>
           ordered initiatives (trace w) /\
           count is_created (trace w) = (k + length done)%nat /\
           length (fst acc') = (length (fst acc) + length done)%nat /\
           initiatives_registered initiatives w /\ In ev0 (trace w) /\
           assigned_then_registered (capability_call i c p) LCapability
             (Capability.id c) num (trace w))
        (fun _ w => ordered initiatives (trace w))) | | | ].
  - intros done d a [rest Hl] w (Ho & Hk & Hlen & Hreg & Hev0 & Hatr).
    assert (Hd : In d (Capability.deliverables c)).
    { rewrite Hl. apply in_or_app. right. left. reflexivity. }
    unfold bind, createDeliverableIssue.
    match goal with |- context [createChildIssue T ?a1 ?a2 ?a3 ?a4 ?a5 ?a6 ?a7 w] =>
      pose proof (createChildIssue_shape T a1 a2 a3 a4 a5 a6 a7 w w eq_refl) as H;
      destruct (createChildIssue T a1 a2 a3 a4 a5 a6 a7 w) as [[issue|e] w1]
    end.
    + destruct H as (data & rest' & -> & Hres & Htr & Hminor).
      cbn [resolver_set delay emit ret resolver trace fst snd issue_of GitHubIssue.number].
      rewrite Htr. repeat rewrite <- app_assoc. cbn [app].
      split; [|split; [|split; [|split; [|split]]]].
      * apply ordered_app_block; [exact Ho | | ].
        -- apply (creation_deliverable _ _ i c d p num Hi Hc Hd Hatr).
        -- rewrite forallb_app, (minor_rest_no_creation _ Hminor). reflexivity.
      * rewrite count_app, Hk. cbn [count List.filter is_created length].
        fold (count is_created (rest' ++ [EvSet LDeliverable (Deliverable.id d) (IssueData.number data); EvDelay 1000])).
        rewrite count_app, (count_none is_created is_minor rest' Hminor minor_not_created).
        rewrite length_app. cbn. lia.
      * rewrite !length_app, Hlen. cbn [length]. lia.
      * eapply (initiatives_registered_later _ w); [exact Hreg | | ].
        -- cbn [resolver Resolver.set Resolver.initiativeIdToIssueNumber]. rewrite Hres. reflexivity.
        -- cbn [trace]. reflexivity.
      * apply in_or_app. auto.
      * apply assigned_then_registered_app, Hatr.
    + destruct H as (r & rest' & _ & _ & Htr & Hminor). rewrite Htr.
      apply ordered_app_block; [exact Ho | | exact (minor_rest_no_creation _ Hminor)].
      apply (creation_deliverable _ _ i c d p num Hi Hc Hd Hatr).
  - intros w (Ho & Hk & Hreg & Hev0 & Hatr). cbn [length]. rewrite !Nat.add_0_r. tauto.
  - intros a w (Ho & Hk & Hlen & Hreg & Hev0 & _). tauto.
  - intros e w H. exact H.
Qed.

Lemma items_of_capabilities_app l1 l2 :
  items_of_capabilities (l1 ++ l2)
  = (items_of_capabilities l1 + items_of_capabilities l2)%nat.
Proof. unfold items_of_capabilities. rewrite map_app, list_sum_app. reflexivity. Qed.

Lemma items_below_app l1 l2 :
  items_below (l1 ++ l2) = (items_below l1 + items_below l2)%nat.
Proof. unfold items_below. rewrite map_app, list_sum_app. reflexivity. Qed.

Lemma createCapabilities_spec i n acc k :
  In i initiatives ->
  triple (fun w =>
            ordered initiatives (trace w) /\ count is_created (trace w) = k /\
            initiatives_registered initiatives w /\
            In (EvSet LInitiative (Initiative.id i) n) (trace w))
    (createCapabilities T i (Some n) acc)
    (fun acc' w =>
       ordered initiatives (trace w) /\
       count is_created (trace w)
         = (k + items_of_capabilities (Initiative.capabilities i))%nat /\
       length (fst acc')
         = (length (fst acc) + items_of_capabilities (Initiative.capabilities i))%nat /\
       initiatives_registered initiatives w)
    (fun _ w => ordered initiatives (trace w)).
Proof.
  intros Hi. unfold createCapabilities.
  eapply triple_weaken;
    [ apply (triple_foldM _
        (fun done acc' w =>
           ordered initiatives (trace w) /\
           count is_created (trace w) = (k + items_of_capabilities done)%nat /\
           length (fst acc') = (length (fst acc) + items_of_capabilities done)%nat /\
           initiatives_registered initiatives w /\
           In (EvSet LInitiative (Initiative.id i) n) (trace w))
        (fun _ w => ordered initiatives (trace w))) | | | ].
  - intros done c a [rest Hl] w (Ho & Hk & Hlen & Hreg & Hset).
    assert (Hc : In c (Initiative.capabilities i)).
    { rewrite Hl. apply in_or_app. right. left. reflexivity. }
    destruct (Hreg i Hi) as [[m Hm] _].
    assert (Hjust : creation_in_order initiatives (trace w) (capability_call i c (Some n))).
    { exact (creation_capability _ _ i c m n Hi Hc Hm Hset). }
    assert (Hone : items_of_capabilities (done ++ [c])
                   = (items_of_capabilities done
                      + S (if expands c then length (Capability.deliverables c) else 0))%nat).
    { rewrite items_of_capabilities_app. unfold items_of_capabilities at 2.
      cbn. unfold items_of_capability. lia. }
    rewrite Hone. clear Hone.
    unfold bind at 1, createCapabilityIssue.
    match goal with |- context [createChildIssue T ?a1 ?a2 ?a3 ?a4 ?a5 ?a6 ?a7 w] =>
      pose proof (createChildIssue_shape T a1 a2 a3 a4 a5 a6 a7 w w eq_refl) as H;
      destruct (createChildIssue T a1 a2 a3 a4 a5 a6 a7 w) as [[issue|e] w1]
    end.
    + destruct H as (data & rest' & -> & Hres & Htr & Hminor).
      unfold bind at 1. cbn [resolver_set]. unfold bind at 1. cbn [delay emit].
      cbn [resolver trace fst snd issue_of GitHubIssue.number].
      set (w2 := mkWorld _ _).
      assert (Htr2 : trace w2 = trace w
                ++ EvCall (capability_call i c (Some n)) (inr (ReplyIssue data))
                   :: rest' ++ [EvSet LCapability (Capability.id c) (IssueData.number data);
                                EvDelay 1000]).
      { subst w2. cbn [trace]. rewrite Htr. repeat rewrite <- app_assoc. reflexivity. }
      assert (Ho2 : ordered initiatives (trace w2)).
      { rewrite Htr2. apply ordered_app_block; [exact Ho | exact Hjust |].
        rewrite forallb_app, (minor_rest_no_creation _ Hminor). reflexivity. }
      assert (Hk2 : count is_created (trace w2) = S (k + items_of_capabilities done)).
      { rewrite Htr2, count_app, Hk. unfold capability_call.
        cbn [count List.filter is_created length].
        fold (count is_created (rest' ++ [EvSet LCapability (Capability.id c) (IssueData.number data); EvDelay 1000])).
        rewrite count_app, (count_none is_created is_minor rest' Hminor minor_not_created).
        cbn. lia. }
      assert (Hreg2 : initiatives_registered initiatives w2).
      { eapply (initiatives_registered_later _ w); [exact Hreg | | exact Htr2].
        subst w2. cbn [resolver Resolver.set Resolver.initiativeIdToIssueNumber].
        rewrite Hres. reflexivity. }
      assert (Hset2 : In (EvSet LInitiative (Initiative.id i) n) (trace w2)).
      { rewrite Htr2. apply in_or_app. auto. }
      fold (expands c). destruct (expands c).
      * assert (Hatr : assigned_then_registered (capability_call i c (Some n)) LCapability
                         (Capability.id c) (IssueData.number data) (trace w2)).
        { rewrite Htr2. exists (trace w), (rest' ++ [EvSet LCapability (Capability.id c) (IssueData.number data); EvDelay 1000]), data.
          split; [reflexivity|]. split; [reflexivity|].
          apply in_or_app. right. left. reflexivity. }
        pose proof (createDeliverables_spec i c (Some n) (IssueData.number data)
                      (fst a ++ [issue_of data], snd a) _ _ Hi Hc w2
                      (conj Ho2 (conj Hk2 (conj Hreg2 (conj Hset2 Hatr))))) as HD.
        destruct (createDeliverables T c (IssueData.number data)
                    (fst a ++ [issue_of data], snd a) w2) as [[acc'|e] w3].
        -- destruct HD as (Ho3 & Hk3 & Hlen3 & Hreg3 & Hset3).
           split; [exact Ho3|]. split; [rewrite Hk3; lia|].
           split; [rewrite Hlen3; cbn [fst]; rewrite length_app, Hlen; cbn; lia|].
           split; [exact Hreg3 | exact Hset3].
        -- exact HD.
      * cbn [ret fst]. split; [exact Ho2|]. split; [rewrite Hk2; lia|].
        split; [rewrite length_app, Hlen; cbn; lia|]. auto.
    + destruct H as (r & rest' & _ & _ & Htr & Hminor). rewrite Htr.
      apply ordered_app_block; [exact Ho | exact Hjust | exact (minor_rest_no_creation _ Hminor)].
  - intros w (Ho & Hk & Hreg & Hset). unfold items_of_capabilities. cbn.
    rewrite !Nat.add_0_r. auto.
  - intros a w (Ho & Hk & Hlen & Hreg & _). auto.
  - intros e w H. exact H.
Qed.

Lemma secondPass_spec allIssues k :
  triple (fun w =>
            ordered initiatives (trace w) /\ count is_created (trace w) = k /\
            initiatives_registered initiatives w)
    (secondPass T initiatives allIssues)
    (fun acc w =>
       ordered initiatives (trace w) /\
       count is_created (trace w) = (k + items_below initiatives)%nat /\
       length (fst acc) = (length allIssues + items_below initiatives)%nat)
    (fun _ w => ordered initiatives (trace w)).
Proof.
  unfold secondPass.
  eapply triple_weaken;
    [ apply (triple_foldM _
        (fun done acc w =>
           ordered initiatives (trace w) /\
           count is_created (trace w) = (k + items_below done)%nat /\
           length (fst acc) = (length allIssues + items_below done)%nat /\
           initiatives_registered initiatives w)
        (fun _ w => ordered initiatives (trace w))) | | | ].
  - intros done i a [rest Hl] w (Ho & Hk & Hlen & Hreg).
    assert (Hi : In i initiatives).
    { rewrite Hl. apply in_or_app. right. left. reflexivity. }
    destruct (Hreg i Hi) as [_ (n & Hn & Hset)].
    unfold bind at 1. cbn [resolver_get Resolver.get]. rewrite Hn.
    pose proof (createCapabilities_spec i n a _ Hi w (conj Ho (conj Hk (conj Hreg Hset)))) as H.
    destruct (createCapabilities T i (Some n) a w) as [[acc'|e] w1]; [|exact H].
    destruct H as (Ho1 & Hk1 & Hlen1 & Hreg1).
    assert (Hone : items_below (done ++ [i])
                   = (items_below done + items_of_capabilities (Initiative.capabilities i))%nat).
    { rewrite items_below_app. unfold items_below at 2. cbn. lia. }
    rewrite Hone.
    split; [exact Ho1|]. split; [rewrite Hk1; lia|]. split; [rewrite Hlen1, Hlen; lia|].
    exact Hreg1.
  - intros w (Ho & Hk & Hreg). unfold items_below. cbn. rewrite !Nat.add_0_r. tauto.
  - intros a w (Ho & Hk & Hlen & _). tauto.
  - intros e w H. exact H.
Qed.

Lemma linking_keeps_order_and_count k w w' :
  ordered initiatives (trace w) /\ count is_created (trace w) = k ->
  extends is_linking w w' ->
  ordered initiatives (trace w') /\ count is_created (trace w') = k.
Proof.
  intros [Ho Hk] (delta & -> & Hd). split.
  - apply ordered_app_other; [exact Ho|].
    revert Hd. apply forallb_impl. intros ev H.
    rewrite (linking_not_creation ev H). reflexivity.
  - rewrite count_app, Hk, (count_none is_created is_linking delta Hd linking_not_created).
    lia.
Qed.

Lemma generateIssues_spec r0 :
  triple (fun w => w = mkWorld r0 [])
    (generateIssues T initiatives)
    (fun issues w =>
       ordered initiatives (trace w) /\
       count is_created (trace w) = items initiatives /\
       length issues = items initiatives)
    (fun _ w => ordered initiatives (trace w)).
Proof.
  intros w ->. unfold generateIssues.
  unfold bind at 1. cbn [logger_info emit resolver trace app].
  set (w1 := mkWorld r0 _).
  assert (H1 : ordered initiatives (trace w1) /\ count is_created (trace w1) = 0%nat).
  { split; [|reflexivity].
    apply (ordered_app_other _ []); [apply ordered_nil | reflexivity]. }
  unfold bind at 1. apply (firstPass_spec 0 w1) in H1.
  destruct (firstPass T initiatives w1) as [[allIssues|e] w2]; [|exact H1].
  destruct H1 as (Ho2 & Hk2 & Hlen2 & Hreg2).
  unfold bind at 1.
  pose proof (secondPass_spec allIssues _ w2 (conj Ho2 (conj Hk2 Hreg2))) as H2.
  destruct (secondPass T initiatives allIssues w2) as [[acc|e] w3]; [|exact H2].
  destruct H2 as (Ho3 & Hk3 & Hlen3).
  assert (H3 : ordered initiatives (trace w3)
               /\ count is_created (trace w3) = items initiatives).
  { split; [exact Ho3|]. rewrite Hk3. reflexivity. }
  unfold bind at 1.
  pose proof (emits_invariant is_linking (updateCapabilityDependencies T initiatives) _
                (updateCapabilityDependencies_emits T initiatives)
                (linking_keeps_order_and_count (items initiatives)) w3 H3) as H4.
  destruct (updateCapabilityDependencies T initiatives w3) as [[[]|e] w4]; [|exact (proj1 H4)].
  unfold bind at 1.
  pose proof (emits_invariant is_linking (updateDeliverableDependencies T initiatives) _
                (updateDeliverableDependencies_emits T initiatives)
                (linking_keeps_order_and_count (items initiatives)) w4 H4) as H5.
  destruct (updateDeliverableDependencies T initiatives w4) as [[[]|e] w5]; [|exact (proj1 H5)].
  unfold bind at 1. cbn [logger_success emit ret resolver trace].
  destruct H5 as [Ho5 Hk5]. split; [|split].
  - apply ordered_app_other; [exact Ho5 | reflexivity].
  - rewrite count_app, Hk5. cbn. lia.
  - rewrite Hlen3, Hlen2. reflexivity.
Qed.

End Passes.

(** ** The number of items and the order of their creation *)

Lemma uniform_capability D c :
  Capability.shouldCreateSubIssues c = true /\ length (Capability.deliverables c) = D ->
  items_of_capability c = S D.
Proof.
  intros [Hs Hd]. unfold items_of_capability, expands. rewrite Hs, Hd. cbn [andb].
  destruct D; reflexivity.
Qed.

Lemma uniform_capabilities D caps :
  Forall (fun c => Capability.shouldCreateSubIssues c = true
                   /\ length (Capability.deliverables c) = D) caps ->
  items_of_capabilities caps = (length caps * S D)%nat.
Proof.
  unfold items_of_capabilities. induction 1 as [|c caps Hc _ IH]; [reflexivity|].
  cbn [map length].
  change (items_of_capability c + list_sum (map items_of_capability caps)
          = (S D + length caps * S D))%nat.
  rewrite IH, (uniform_capability D c Hc). reflexivity.
Qed.

Lemma items_uniform N C D initiatives :
  uniform N C D initiatives -> items initiatives = (N + N * C + N * C * D)%nat.
Proof.
  intros [<- H]. unfold items.
  assert (Hb : items_below initiatives = (length initiatives * (C * S D))%nat).
  { unfold items_below. induction H as [|i l [Hi Hc] _ IH]; [reflexivity|].
    cbn [map length].
    change (list_sum (?a :: ?b)) with (a + list_sum b)%nat.
    rewrite IH, (uniform_capabilities D _ Hc), Hi. lia. }
  rewrite Hb. lia.
Qed.

(** ** A failed creation of an initiative *)

Lemma snoc_eq_middle {X} (tr pre post : list X) (x y : X) :
  tr ++ [y] = pre ++ x :: post ->
  (post = [] /\ pre = tr /\ x = y) \/ (exists post', tr = pre ++ x :: post').
Proof.
  intros H. destruct (exists_last (l := x :: post)) as (post' & z & Hz); [discriminate|].
  rewrite Hz, app_assoc in H. apply app_inj_tail in H as [Htr Hy].
  destruct post' as [|x' post'].
  - left. cbn in Hz. injection Hz as -> ->. rewrite app_nil_r in Htr. auto.
  - right. cbn in Hz. injection Hz as <- Hpost. exists post'. exact Htr.
Qed.

Section InitiativeFailure.

Variable T : Tracker.
Variable initiatives : list Initiative.t.

Let clean (w : World) : Prop := forallb no_failed_initiative (trace w) = true.

Let fatal (e : JsError.t) (w : World) : Prop :=
  exists tr i he,
    forallb no_failed_initiative tr = true /\ In i initiatives /\
    trace w = tr ++ [EvCall (initiative_call i) (inl he)] /\
    e = initiative_failure i he.

Lemma clean_extends w w' : clean w -> extends no_failed_initiative w w' -> clean w'.
Proof.
  unfold clean. intros H (delta & -> & Hd). rewrite forallb_app, H, Hd. reflexivity.
Qed.

Lemma minor_no_failed_initiative ev : is_minor ev = true -> no_failed_initiative ev = true.
Proof. destruct ev as [[] []| | |]; cbn; congruence. Qed.

Lemma linking_no_failed_initiative ev : is_linking ev = true -> no_failed_initiative ev = true.
Proof. destruct ev as [[] []| | |]; cbn; congruence. Qed.

Lemma createChildIssue_emits p what issueTitle body labels parentNumber parentTitle entityTitle :
  (forall r, p (EvCall (IssuesCreate issueTitle body labels) r) = true) ->
  (forall ev, is_minor ev = true -> p ev = true) ->
  emits p (createChildIssue T what issueTitle body labels parentNumber parentTitle entityTitle).
Proof.
  intros Hc Hm w.
  pose proof (createChildIssue_shape T what issueTitle body labels parentNumber parentTitle
                entityTitle w w eq_refl) as H.
  destruct (createChildIssue T what issueTitle body labels parentNumber parentTitle
              entityTitle w) as [[issue|e] w1]; cbn [snd].
  - destruct H as (data & rest & _ & _ & Htr & Hrest).
    eexists. split; [exact Htr|]. cbn [forallb]. rewrite Hc. cbn [andb].
    revert Hrest. apply forallb_impl, Hm.
  - destruct H as (r & rest & _ & _ & Htr & Hrest).
    eexists. split; [exact Htr|]. cbn [forallb]. rewrite Hc. cbn [andb].
    revert Hrest. apply forallb_impl, Hm.
Qed.

Lemma capability_labels_head i c :
  exists l, capability_labels i c = "type:capability" :: l.
Proof. unfold capability_labels. cbn [set_spread]. eexists. reflexivity. Qed.

Lemma secondPass_no_failed_initiative l allIssues :
  emits no_failed_initiative (secondPass T l allIssues).
Proof.
  apply emits_foldM. intros acc i _. apply emits_bind; [apply emits_get|].
  intros initiativeNumber. apply emits_foldM. intros acc' c _.
  apply emits_bind.
  { apply createChildIssue_emits; [|apply minor_no_failed_initiative].
    intros r. destruct (capability_labels_head i c) as [ls ->]. destruct r; reflexivity. }
  intros issue. apply emits_bind; [apply emits_set; reflexivity|]. intros _.
  apply emits_bind; [apply emits_emit; reflexivity|]. intros _.
  match goal with |- context [if ?b then _ else _] => destruct b end; [|apply emits_ret].
  apply emits_foldM. intros acc'' d _.
  apply emits_bind.
  { apply createChildIssue_emits; [|apply minor_no_failed_initiative].
    intros r. destruct r; reflexivity. }
  intros issue'. apply emits_bind; [apply emits_set; reflexivity|]. intros _.
  apply emits_bind; [apply emits_emit; reflexivity|]. intros _. apply emits_ret.
Qed.

Lemma firstPass_failure :
  triple clean (firstPass T initiatives) (fun _ => clean) fatal.
Proof.
  unfold firstPass. apply (triple_foldM _ (fun _ _ => clean)).
  intros done i allIssues [rest Hl] w Hw.
  assert (Hi : In i initiatives).
  { rewrite Hl. apply in_or_app. right. left. reflexivity. }
  unfold bind.
  pose proof (createInitiativeIssue_shape T i w w eq_refl) as H.
  destruct (createInitiativeIssue T i w) as [[issue|e] w1].
  - destruct H as (data & -> & ->).
    cbn [resolver_set delay emit ret resolver trace fst snd].
    unfold clean in *. cbn [trace]. rewrite !forallb_app, Hw. reflexivity.
  - destruct H as (he & -> & ->). exists (trace w), i, he. auto.
Qed.

Lemma generateIssues_failure r0 :
  triple (fun w => w = mkWorld r0 []) (generateIssues T initiatives)
    (fun _ => clean) (fun e w => clean w \/ fatal e w).
Proof.
  intros w ->. unfold generateIssues.
  unfold bind at 1. cbn [logger_info emit resolver trace app].
  set (w1 := mkWorld r0 _). assert (H1 : clean w1) by reflexivity.
  unfold bind at 1. apply firstPass_failure in H1.
  destruct (firstPass T initiatives w1) as [[allIssues|e] w2]; [|right; exact H1].
  unfold bind at 1.
  pose proof (emits_invariant _ _ clean (secondPass_no_failed_initiative initiatives allIssues)
                clean_extends w2 H1) as H2.
  destruct (secondPass T initiatives allIssues w2) as [[acc|e] w3]; [|left; exact H2].
  unfold bind at 1.
  pose proof (emits_invariant _ _ clean
                (emits_weaken _ _ _ linking_no_failed_initiative
                   (updateCapabilityDependencies_emits T initiatives))
                clean_extends w3 H2) as H3.
  destruct (updateCapabilityDependencies T initiatives w3) as [[[]|e] w4]; [|left; exact H3].
  unfold bind at 1.
  pose proof (emits_invariant _ _ clean
                (emits_weaken _ _ _ linking_no_failed_initiative
                   (updateDeliverableDependencies_emits T initiatives))
                clean_extends w4 H3) as H4.
  destruct (updateDeliverableDependencies T initiatives w4) as [[[]|e] w5]; [|left; exact H4].
  unfold bind at 1. cbn [logger_success emit ret resolver trace].
  unfold clean in *. cbn [trace]. rewrite forallb_app, H4. reflexivity.
Qed.

End InitiativeFailure.

(** C8. If the tracker refuses the creation of an initiative-level item,
    the run stops there and throws an [IssueGeneratorError] whose message
    carries the title of the initiative and the message of the refusal. *)
Theorem generateIssues_initiative_failure_is_fatal (T : Tracker)
    (initiatives : list Initiative.t) (r0 : Resolver.t)
    pre title body labels he post :
  let run := generateIssues T initiatives (mkWorld r0 []) in
  trace (snd run)
    = pre ++ EvCall (IssuesCreate title body ("type:initiative" :: labels)) (inl he) :: post ->
  exists initiative,
    In initiative initiatives /\
    title = "[INITIATIVE] " +:+ Initiative.title initiative /\
    fst run = Thrown (initiative_failure initiative he) /\
    JsError.name (initiative_failure initiative he) = IssueGeneratorError /\
    post = [].
Proof.
  intros run Htr. pose proof (generateIssues_failure T initiatives r0 _ eq_refl) as H.
  fold run in H.
  assert (Hdirty : forallb no_failed_initiative (trace (snd run)) = true -> False).
  { rewrite Htr, forallb_app. cbn. rewrite andb_false_r. discriminate. }
  destruct run as [[issues|e] w]; cbn [fst snd] in *; [contradiction|].
  destruct H as [H | (tr & i & he' & Hclean & Hi & Hw & ->)]; [contradiction|].
  rewrite Hw in Htr. apply snoc_eq_middle in Htr as [(-> & -> & Hev) | [post' ->]].
  - unfold initiative_call in Hev. injection Hev as -> _ _ ->.
    exists i. auto.
  - rewrite forallb_app in Hclean. cbn in Hclean.
    rewrite andb_false_r in Hclean. discriminate.
Qed.

Lemma generateIssues_initiative_failure_is_fatal_witness :
  exists e,
    fst (generateIssues out_of_service [minimalInitiative] fresh) = Thrown e /\
    JsError.message e
    = "Failed to create initiative issue " +:+ dq +:+ "Test Initiative" +:+ dq
        +:+ ": Service Unavailable".
Proof.
  destruct (generateIssues_initiative_failure_is_fatal out_of_service [minimalInitiative]
              Resolver.empty
              [EvLog LogInfo "Creating GitHub issues with three-tier hierarchy (L1→L2→L3)..."]
              ("[INITIATIVE] Test Initiative") (formatInitiativeBody minimalInitiative)
              ["initiative-1"] (HttpError.mk "Service Unavailable" (Some 503)) [])
    as (i & Hi & Ht & Hrun & _).
  - vm_compute. reflexivity.
  - destruct Hi as [<- | []]. eexists. split; [exact Hrun | reflexivity].
Defined.

(** ** Pauses *)

Lemma pace_stuck l : fold_left pace l None = None.
Proof. induction l as [|ev l IH]; [reflexivity | exact IH]. Qed.

Lemma pace_quiet l st : forallb is_quiet l = true -> fold_left pace l st = st.
Proof.
  revert st. induction l as [|ev l IH]; intros st H; [reflexivity|].
  cbn in H. apply andb_prop in H as [Hev Hl]. cbn [fold_left].
  rewrite <- (IH st Hl) at 2. f_equal.
  destruct st as [armed|]; [|reflexivity].
  destruct ev as [[] ?| | |]; cbn in *; congruence.
Qed.

Lemma pacing_app tr delta : pacing (tr ++ delta) = fold_left pace delta (pacing tr).
Proof. unfold pacing. apply fold_left_app. Qed.

Lemma minor_is_quiet ev : is_minor ev = true -> is_quiet ev = true.
Proof. destruct ev as [[] ?| | |]; cbn; congruence. Qed.

Lemma probe_is_quiet ev : is_probe ev = true -> is_quiet ev = true.
Proof. destruct ev as [[] ?| | |]; cbn; congruence. Qed.

(** While armed, the monitor stays armed until a pause, and fails on an
    item call. *)
Lemma pace_armed mid st :
  fold_left pace mid (Some true) = Some st -> delay_between mid \/ st = true.
Proof.
  induction mid as [|ev mid IH]; cbn [fold_left]; intros H.
  - right. congruence.
  - destruct ev as [c r|k id n|ms|lvl msg].
    + destruct c; cbn in H; try (rewrite pace_stuck in H; discriminate);
        (destruct (IH H) as [(ms & Hin & Hms)|Hst]; [left; exists ms; cbn; auto | right; exact Hst]).
    + destruct (IH H) as [(ms & Hin & Hms)|Hst]; [left; exists ms; cbn; auto | right; exact Hst].
    + cbn in H. destruct (1000 <=? ms) eqn:Hms.
      * left. exists ms. split; [left; reflexivity | apply Z.leb_le, Hms].
      * destruct (IH H) as [(ms' & Hin & Hms')|Hst]; [left; exists ms'; cbn; auto | right; exact Hst].
    + destruct (IH H) as [(ms & Hin & Hms)|Hst]; [left; exists ms; cbn; auto | right; exact Hst].
Qed.

Lemma pace_item_call st ev st' :
  is_item_call ev = true -> pace st ev = Some st' -> st = Some false /\ st' = true.
Proof.
  destruct st as [[|]|]; destruct ev as [[] ?| | |]; cbn; intros H1 H2;
    try discriminate; split; congruence.
Qed.

Lemma pacing_sound tr : pacing tr <> None -> item_calls_delayed tr.
Proof.
  intros H pre ev1 mid ev2 post -> H1 H2. unfold pacing in H.
  rewrite fold_left_app in H. cbn [fold_left] in H.
  rewrite fold_left_app in H. cbn [fold_left] in H.
  destruct (pace (fold_left pace pre (Some false)) ev1) as [st1|] eqn:E1.
  2:{ rewrite pace_stuck in H. cbn [pace] in H. rewrite pace_stuck in H. congruence. }
  apply (pace_item_call _ _ _ H1) in E1 as [_ ->].
  destruct (fold_left pace mid (Some true)) as [st2|] eqn:E2.
  2:{ cbn [pace] in H. rewrite pace_stuck in H. congruence. }
  destruct (pace_armed mid st2 E2) as [Hd | ->]; [exact Hd|].
  exfalso. destruct (pace (Some true) ev2) as [st3|] eqn:E3.
  - apply (pace_item_call _ _ _ H2) in E3 as [[=] _].
  - rewrite pace_stuck in H. congruence.
Qed.

Section Pacing.

Variable T : Tracker.

Let rested (w : World) : Prop := pacing (trace w) = Some false.
Let alive (w : World) : Prop := pacing (trace w) <> None.

Lemma rested_quiet w w' : rested w -> extends is_quiet w w' -> rested w'.
Proof.
  unfold rested. intros H (delta & -> & Hd). rewrite pacing_app, H. apply pace_quiet, Hd.
Qed.

Lemma created_then_rested (k : Level) (id : string) (n : Z) w t b l r rest :
  rested w -> forallb is_minor rest = true ->
  pacing ((trace w ++ EvCall (IssuesCreate t b l) r :: rest)
            ++ [EvSet k id n] ++ [EvDelay 1000]) = Some false.
Proof.
  unfold rested. intros H Hrest.
  rewrite !pacing_app, H. cbn [fold_left pace].
  rewrite (pace_quiet rest (Some true) (forallb_impl _ _ _ minor_is_quiet Hrest)).
  reflexivity.
Qed.

Lemma created_alive w t b l r rest :
  rested w -> forallb is_minor rest = true ->
  pacing (trace w ++ EvCall (IssuesCreate t b l) r :: rest) <> None.
Proof.
  unfold rested. intros H Hrest.
  rewrite !pacing_app, H. cbn [fold_left pace].
  rewrite (pace_quiet rest (Some true) (forallb_impl _ _ _ minor_is_quiet Hrest)).
  discriminate.
Qed.

Lemma rested_alive w : rested w -> alive w.
Proof. unfold rested, alive. congruence. Qed.

Lemma createDeliverables_paced c n acc :
  triple rested (createDeliverables T c n acc) (fun _ => rested) (fun _ => alive).
Proof.
  unfold createDeliverables. apply triple_foldM_inv. intros d a _ w Hw.
  unfold bind at 1, createDeliverableIssue.
  match goal with |- context [createChildIssue T ?a1 ?a2 ?a3 ?a4 ?a5 ?a6 ?a7 w] =>
    pose proof (createChildIssue_shape T a1 a2 a3 a4 a5 a6 a7 w w eq_refl) as H;
    destruct (createChildIssue T a1 a2 a3 a4 a5 a6 a7 w) as [[issue|e] w1]
  end.
  - destruct H as (data & rest & -> & _ & Htr & Hrest).
    cbn. unfold rested. cbn [trace]. rewrite Htr, <- app_assoc.
    apply (created_then_rested _ _ _ w _ _ _ _ rest Hw Hrest).
  - destruct H as (r & rest & _ & _ & Htr & Hrest).
    unfold alive. rewrite Htr. apply (created_alive w _ _ _ r rest Hw Hrest).
Qed.

Lemma createCapabilities_paced i n acc :
  triple rested (createCapabilities T i n acc) (fun _ => rested) (fun _ => alive).
Proof.
  unfold createCapabilities. apply triple_foldM_inv. intros c a _ w Hw.
  unfold bind at 1, createCapabilityIssue.
  match goal with |- context [createChildIssue T ?a1 ?a2 ?a3 ?a4 ?a5 ?a6 ?a7 w] =>
    pose proof (createChildIssue_shape T a1 a2 a3 a4 a5 a6 a7 w w eq_refl) as H;
    destruct (createChildIssue T a1 a2 a3 a4 a5 a6 a7 w) as [[issue|e] w1]
  end.
  - destruct H as (data & rest & -> & _ & Htr & Hrest).
    unfold bind at 1. cbn [resolver_set]. unfold bind at 1. cbn [delay emit].
    cbn [resolver trace fst snd issue_of GitHubIssue.number].
    set (w2 := mkWorld _ _).
    assert (H2 : rested w2).
    { unfold rested. subst w2. cbn [trace]. rewrite Htr, <- app_assoc.
      apply (created_then_rested _ _ _ w _ _ _ _ rest Hw Hrest). }
    match goal with |- context [if ?b then _ else _] => destruct b end.
    + apply createDeliverables_paced, H2.
    + exact H2.
  - destruct H as (r & rest & _ & _ & Htr & Hrest).
    unfold alive. rewrite Htr. apply (created_alive w _ _ _ r rest Hw Hrest).
Qed.

Lemma secondPass_paced initiatives allIssues :
  triple rested (secondPass T initiatives allIssues) (fun _ => rested) (fun _ => alive).
Proof.
  unfold secondPass. apply triple_foldM_inv. intros i a _.
  eapply triple_bind with (R := fun _ => rested).
  - intros w Hw. exact Hw.
  - intros n. apply createCapabilities_paced.
Qed.

Lemma firstPass_paced initiatives :
  triple rested (firstPass T initiatives) (fun _ => rested) (fun _ => alive).
Proof.
  unfold firstPass. apply triple_foldM_inv. intros i a _ w Hw.
  unfold bind.
  pose proof (createInitiativeIssue_shape T i w w eq_refl) as H.
  destruct (createInitiativeIssue T i w) as [[issue|e] w1].
  - destruct H as (data & -> & ->).
    cbn. unfold rested. cbn [trace]. rewrite <- app_assoc. unfold initiative_call.
    apply (created_then_rested _ _ _ w _ _ _ _ [EvLog _ _] Hw eq_refl).
  - destruct H as (he & -> & ->). unfold alive. cbn [trace]. unfold initiative_call.
    apply (created_alive w _ _ _ _ [] Hw eq_refl).
Qed.

Lemma updateDependencies_paced what k id dependencies :
  triple rested (updateDependencies T what k id dependencies) (fun _ => rested) (fun _ => alive).
Proof.
  unfold updateDependencies. destruct dependencies as [|d ds].
  { apply triple_ret. auto. }
  eapply triple_bind with (R := fun _ => rested); [intros w Hw; exact Hw|].
  intros issueNumber. destruct (truthy_number issueNumber) as [n|].
  2:{ apply triple_ret. auto. }
  eapply triple_bind with (R := fun _ => rested).
  { eapply triple_weaken.
    - apply (emits_invariant is_quiet _ rested).
      + apply emits_foldM. intros a x _.
        eapply emits_weaken; [apply probe_is_quiet | apply linkDependency_probes].
      + apply rested_quiet.
    - auto.
    - auto.
    - intros e w. apply rested_alive. }
  intros acc. destruct (fst acc) as [|ref refs].
  { apply triple_ret. auto. }
  intros w Hw. unfold bind, octokit_issues_createComment, request.
  unfold rested, alive in *.
  destruct (issues_createComment T (trace w) n _); cbn [delay emit trace].
  - rewrite pacing_app, Hw. discriminate.
  - rewrite !pacing_app, Hw. reflexivity.
Qed.

Lemma generateIssues_paced initiatives r0 :
  triple (fun w => w = mkWorld r0 []) (generateIssues T initiatives)
    (fun _ => alive) (fun _ => alive).
Proof.
  unfold generateIssues.
  eapply triple_bind with (R := fun _ => rested); [intros w ->; reflexivity|]. intros _.
  eapply triple_bind; [apply firstPass_paced|]. intros allIssues.
  eapply triple_bind; [apply secondPass_paced|]. intros acc. cbv zeta.
  eapply triple_bind with (R := fun _ => rested).
  { unfold updateCapabilityDependencies. apply triple_forM_inv. intros i _.
    apply triple_forM_inv. intros c _. apply updateDependencies_paced. }
  intros _.
  eapply triple_bind with (R := fun _ => rested).
  { unfold updateDeliverableDependencies. apply triple_forM_inv. intros i _.
    apply triple_forM_inv. intros c _.
    destruct (negb (Capability.shouldCreateSubIssues c)); [apply triple_ret; auto|].
    apply triple_forM_inv. intros d _. apply updateDependencies_paced. }
  intros _.
  eapply triple_bind with (R := fun _ => rested).
  { intros w Hw. cbn. unfold rested in *. cbn [trace]. rewrite pacing_app, Hw. reflexivity. }
  intros _. apply triple_ret. intros w. apply rested_alive.
Qed.

End Pacing.

Lemma adjacent_calls_sound tr :
  adjacent_calls tr = true ->
  exists pre c1 r1 c2 r2 post, tr = pre ++ EvCall c1 r1 :: EvCall c2 r2 :: post.
Proof.
  induction tr as [|ev tr IH]; [discriminate|]. intros H.
  assert (Hcase : (exists c1 r1 c2 r2 post, ev = EvCall c1 r1 /\ tr = EvCall c2 r2 :: post)
                  \/ adjacent_calls tr = true).
  { destruct ev as [c1 r1| | |]; cbn in H; auto.
    destruct tr as [|[c2 r2| | |] post]; cbn in H |- *; auto.
    left. exists c1, r1, c2, r2, post. auto. }
  destruct Hcase as [(c1 & r1 & c2 & r2 & post & -> & ->) | Hrec].
  - exists [], c1, r1, c2, r2, post. reflexivity.
  - destruct (IH Hrec) as (pre & c1 & r1 & c2 & r2 & post & ->).
    exists (ev :: pre), c1, r1, c2, r2, post. reflexivity.
Qed.

(** C9, as stated, fails: with the fixture of the integration test and a
    tracker that accepts every call, calls follow each other with no
    pause in between (the creation of the capability and the request
    that makes it a sub-issue of the initiative, for one). *)
Lemma every_call_delayed_fails :
  ~ every_call_delayed (trace (snd (generateIssues obliging [minimalInitiative] fresh))).
Proof.
  intros H.
  destruct (adjacent_calls_sound
              (trace (snd (generateIssues obliging [minimalInitiative] fresh))))
    as (pre & c1 & r1 & c2 & r2 & post & Htr); [vm_compute; reflexivity|].
  destruct (H pre c1 r1 [] c2 r2 post Htr) as (ms & [] & _).
Qed.

(** C9, amended. In every run, between any two item calls (the creation
    of an item, the comment that lists the dependencies of an item) there
    is a pause of at least one second. *)
Theorem generateIssues_item_calls_delayed (T : Tracker) (initiatives : list Initiative.t)
    (r0 : Resolver.t) :
  item_calls_delayed (trace (snd (generateIssues T initiatives (mkWorld r0 [])))).
Proof.
  apply pacing_sound.
  pose proof (generateIssues_paced T initiatives r0 _ eq_refl) as H.
  destruct (generateIssues T initiatives (mkWorld r0 [])) as [[issues|e] w]; exact H.
Qed.

(** ** The fallback of the parent link *)

(** C2, as stated, fails: in a repository without sub-issues where labels
    cannot be attached either, the refusal of the second step ends the
    run, and the third step is never made. *)
Lemma fallback_steps_not_all_applied :
  let run := generateIssues no_sub_issues_no_labels [minimalInitiative] fresh in
  ~ fallback_steps_all_applied (trace (snd run)) /\
  fst run = Thrown (child_failure "capability" "Test Capability"
                      (HttpError.mk "Forbidden" (Some 403))).
Proof.
  split.
  - intros H. destruct (H 2) as [_ Hbody]; [vm_compute; reflexivity|].
    vm_compute in Hbody. discriminate.
  - vm_compute. reflexivity.
Qed.

(** C2, amended. When the sub-issue call for a child is refused, the
    label is created (a refusal there is logged, unless it says that the
    label exists, and absorbed) and then attached to the child; if that
    succeeds the body of the child is rewritten with the parent section
    in front of the body that the tracker returned; the child is returned
    when both succeed.  A refusal of the second or third step is not
    absorbed: it is thrown as the failure of the creation of the child.
    [createCapabilityIssue] and [createDeliverableIssue] are the
    instances of [createChildIssue]. *)
Theorem createChildIssue_fallback (T : Tracker)
    (what issueTitle body : string) (labels : list string) (parentNumber : option Z)
    (parentTitle entityTitle : string) (w : World) (before after : list Event)
    (child : Z) (he : HttpError.t) :
  let run := createChildIssue T what issueTitle body labels parentNumber parentTitle
               entityTitle w in
  trace (snd run)
    = trace w ++ before ++ EvCall (SubIssuesPost parentNumber child) (inl he) :: after ->
  exists data,
    before = [EvCall (IssuesCreate issueTitle body labels) (inr (ReplyIssue data))] /\
    child = IssueData.number data /\
    fallback_run what entityTitle parentTitle parentNumber data he after (fst run).
Proof.
  intros run. subst run. run; intros Htr;
    repeat rewrite <- app_assoc in Htr; apply app_inv_head in Htr; cbn [app] in Htr;
    locate Htr;
    injection Htr as <- <- <-;
    (eexists; split; [reflexivity|]; split; [reflexivity|]);
    unfold fallback_run, label_ensured;
    answered issues_createLabel; answered issues_addLabels; cbn [fst snd];
    try (eexists; split; [repeat known_status; reflexivity|]; split; reflexivity);
    (eexists; split; [repeat known_status; reflexivity|]);
    answered issues_update; split; reflexivity.
Qed.

Lemma createChildIssue_fallback_witness :
  fallback_run "capability" "Test Capability" "Test Initiative" (Some 1)
    minimalCapabilityData not_found
    (fallback_announced minimalCapabilityData not_found
       ++ label_ensured (Some 1) (inr ReplyDone)
       ++ label_attached minimalCapabilityData (Some 1) (inr ReplyDone)
       :: body_updated minimalCapabilityData (Some 1) "Test Initiative" (inr ReplyDone)
       :: fallback_reported "capability" "Test Capability" minimalCapabilityData)
    (Returned (issue_of minimalCapabilityData)).
Proof.
  destruct (createChildIssue_fallback no_sub_issues "capability"
              ("[CAPABILITY] " +:+ Capability.title minimalCapability)
              (formatCapabilityBody minimalInitiative minimalCapability (Some 1))
              (capability_labels minimalInitiative minimalCapability)
              (Some 1) "Test Initiative" "Test Capability" fresh
              [EvCall (capability_call minimalInitiative minimalCapability (Some 1))
                 (inr (ReplyIssue minimalCapabilityData))]
              (fallback_announced minimalCapabilityData not_found
                 ++ label_ensured (Some 1) (inr ReplyDone)
                 ++ label_attached minimalCapabilityData (Some 1) (inr ReplyDone)
                 :: body_updated minimalCapabilityData (Some 1) "Test Initiative" (inr ReplyDone)
                 :: fallback_reported "capability" "Test Capability" minimalCapabilityData)
              1 not_found)
    as (data & Hbefore & Hchild & Hrun).
  - vm_compute. reflexivity.
  - injection Hbefore as <-. exact Hrun.
Defined.

(** ** The dependency pass *)

Section Linking.

Variable T : Tracker.

Lemma linkDependency_step k issueNumber acc depId w :
  match resolve (Resolver.get k (resolver w)) depId with
  | None => linkDependency T k issueNumber acc depId w = (Returned acc, w)
  | Some depNumber =>
      exists events linked,
        link_attempt issueNumber depNumber events linked /\
        linkDependency T k issueNumber acc depId w
        = (Returned (fst acc ++ [reference depNumber],
                     snd acc ++ (if linked then [depNumber] else [])),
           mkWorld (resolver w) (trace w ++ events))
  end.
Proof.
  unfold linkDependency, resolve. unfold bind, resolver_get. cbv beta iota.
  destruct (truthy_number (Resolver.get k (resolver w) !! depId)) as [depNumber|];
    [|reflexivity].
  run; repeat rewrite <- app_assoc; cbn [app].
  - exists [EvCall (IssuesGet depNumber) (inl t); link_warning t], false.
    split; [constructor|]. rewrite app_nil_r. reflexivity.
  - eexists [_; _; _], false. split; [apply attempt_no_target|].
    rewrite app_nil_r. reflexivity.
  - eexists [_; _; _; _], false. split; [apply attempt_refused|].
    rewrite app_nil_r. reflexivity.
  - eexists [_; _; _; _], true. split; [apply attempt_linked|]. reflexivity.
Qed.

Lemma linkDependency_loop k issueNumber dependencies :
  forall acc w o w',
    foldM (linkDependency T k issueNumber) dependencies acc w = (o, w') ->
    exists attempts linked,
      link_attempts issueNumber (resolvable (Resolver.get k (resolver w)) dependencies)
        attempts linked /\
      trace w' = trace w ++ attempts /\
      resolver w' = resolver w /\
      o = Returned (fst acc ++ map reference
                                 (resolvable (Resolver.get k (resolver w)) dependencies),
                    snd acc ++ linked).
Proof.
  induction dependencies as [|depId deps IH]; intros acc w o w' Hrun.
  - cbn in Hrun. injection Hrun as <- <-. exists [], []. cbn. rewrite !app_nil_r.
    destruct acc. repeat split. constructor.
  - cbn [foldM] in Hrun. unfold bind in Hrun.
    pose proof (linkDependency_step k issueNumber acc depId w) as Hstep.
    unfold resolvable. cbn [omap list_omap].
    destruct (resolve (Resolver.get k (resolver w)) depId) as [depNumber|].
    + destruct Hstep as (events & linked & Hatt & Hstep). rewrite Hstep in Hrun.
      apply IH in Hrun as (attempts & linked' & Hatts & Htr & Hres & ->).
      cbn [resolver trace fst snd] in *.
      exists (events ++ attempts), ((if linked then [depNumber] else []) ++ linked').
      split; [constructor; assumption|]. split; [rewrite Htr, app_assoc; reflexivity|].
      split; [exact Hres|]. cbn [map]. rewrite <- !app_assoc. reflexivity.
    + rewrite Hstep in Hrun. apply IH in Hrun. exact Hrun.
Qed.

Lemma updateDependencies_run what k id dependencies w o w' :
  updateDependencies T what k id dependencies w = (o, w') ->
  exists delta,
    trace w' = trace w ++ delta /\
    resolver w' = resolver w /\
    item_linked what (Resolver.get k (resolver w)) id dependencies delta o.
Proof.
  unfold item_linked, updateDependencies. intros Hrun.
  destruct dependencies as [|depId deps].
  { injection Hrun as <- <-. exists []. rewrite app_nil_r. split; [reflexivity|].
    split; [reflexivity|].
    destruct (resolve _ id); [|auto]. exists [], []. split; [constructor|]. cbn. auto. }
  unfold bind at 1 in Hrun. cbn [resolver_get] in Hrun. unfold resolve at 1.
  destruct (truthy_number (Resolver.get k (resolver w) !! id)) as [issueNumber|].
  2:{ injection Hrun as <- <-. exists []. rewrite app_nil_r. auto. }
  unfold bind at 1 in Hrun.
  destruct (foldM (linkDependency T k issueNumber) (depId :: deps) ([], []) w)
    as [o1 w1] eqn:Hloop.
  apply linkDependency_loop in Hloop as (attempts & linked & Hatts & Htr & Hres & ->).
  cbn [fst snd app] in *.
  destruct (resolvable (Resolver.get k (resolver w)) (depId :: deps)) as [|e es] eqn:Hedges.
  - cbn [map] in Hrun. injection Hrun as <- <-. inversion Hatts; subst.
    exists []. rewrite Htr. split; [reflexivity|]. split; [exact Hres|].
    exists [], []. split; [constructor | auto].
  - cbn [map] in Hrun. unfold bind, octokit_issues_createComment, request in Hrun.
    destruct (issues_createComment T (trace w1) issueNumber _) as [he|[]] eqn:Hcomment;
      cbn [delay emit trace resolver] in Hrun; injection Hrun as <- <-;
      cbn [trace resolver].
    + eexists. split; [rewrite Htr, <- app_assoc; reflexivity|].
      split; [exact Hres|]. exists attempts, linked. split; [exact Hatts|].
      exists (inl he). split; reflexivity.
    + eexists. split; [rewrite Htr, <- !app_assoc; reflexivity|].
      split; [exact Hres|]. exists attempts, linked. split; [exact Hatts|].
      exists (inr ReplyDone). split; reflexivity.
Qed.

Lemma forM_app {X} (f : X -> M unit) l1 l2 w :
  forM_ f (l1 ++ l2) w = bind (forM_ f l1) (fun _ => forM_ f l2) w.
Proof.
  unfold forM_. revert w. induction l1 as [|x l1 IH]; intros w; cbn [app foldM].
  - reflexivity.
  - specialize (IH). unfold bind in *. destruct (f x w) as [[[]|e] w1]; [|reflexivity].
    apply IH.
Qed.

Lemma forM_map {X Y} (g : Y -> M unit) (h : X -> Y) l w :
  forM_ (fun x => g (h x)) l w = forM_ g (map h l) w.
Proof.
  unfold forM_. revert w. induction l as [|x l IH]; intros w; cbn [map foldM]; [reflexivity|].
  unfold bind. destruct (g (h x) w) as [[[]|e] w1]; [apply IH | reflexivity].
Qed.

Lemma forM_flat_map {X Y} (g : Y -> M unit) (h : X -> list Y) l w :
  forM_ (fun x => forM_ g (h x)) l w = forM_ g (flat_map h l) w.
Proof.
  revert w. induction l as [|x l IH]; intros w; cbn [flat_map]; [reflexivity|].
  rewrite forM_app. unfold forM_ at 1. cbn [foldM]. unfold bind.
  fold (forM_ g (h x)). destruct (forM_ g (h x) w) as [[[]|e] w1]; [apply IH | reflexivity].
Qed.

Lemma forM_ext {X} (f g : X -> M unit) l w :
  (forall x w, f x w = g x w) -> forM_ f l w = forM_ g l w.
Proof.
  intros H. unfold forM_. revert w. induction l as [|x l IH]; intros w; cbn [foldM];
    [reflexivity|].
  unfold bind. rewrite H. destruct (g x w) as [[[]|e] w1]; [apply IH | reflexivity].
Qed.

Lemma updateCapabilityDependencies_items initiatives w :
  updateCapabilityDependencies T initiatives w
  = forM_ (fun item => updateDependencies T "capability" LCapability (fst item) (snd item))
      (capability_items initiatives) w.
Proof.
  unfold updateCapabilityDependencies, capability_items.
  rewrite <- forM_flat_map. apply forM_ext. intros i w1.
  rewrite <- forM_map. reflexivity.
Qed.

Lemma updateDeliverableDependencies_items initiatives w :
  updateDeliverableDependencies T initiatives w
  = forM_ (fun item => updateDependencies T "deliverable" LDeliverable (fst item) (snd item))
      (deliverable_items initiatives) w.
Proof.
  unfold updateDeliverableDependencies, deliverable_items.
  rewrite <- forM_flat_map. apply forM_ext. intros i w1.
  rewrite <- forM_flat_map. apply forM_ext. intros c w2.
  destruct (Capability.shouldCreateSubIssues c); cbn [negb].
  - rewrite <- forM_map. reflexivity.
  - reflexivity.
Qed.

Lemma items_run what k items :
  forall w o w',
    forM_ (fun item => updateDependencies T what k (fst item) (snd item)) items w = (o, w') ->
    exists delta,
      trace w' = trace w ++ delta /\
      resolver w' = resolver w /\
      pass_linked what (Resolver.get k (resolver w)) items delta o.
Proof.
  induction items as [|[id deps] items IH]; intros w o w' Hrun.
  - injection Hrun as <- <-. exists []. rewrite app_nil_r. repeat split. constructor.
  - unfold forM_ in Hrun. cbn [foldM fst snd] in Hrun. unfold bind in Hrun.
    destruct (updateDependencies T what k id deps w) as [o1 w1] eqn:Hitem.
    apply updateDependencies_run in Hitem as (delta & Htr & Hres & Hitem).
    destruct o1 as [[]|e].
    + apply IH in Hrun as (delta' & Htr' & Hres' & Hpass).
      exists (delta ++ delta'). rewrite Htr', Htr, Hres', Hres, <- app_assoc.
      repeat split. rewrite Hres in Hpass. econstructor; eassumption.
    + injection Hrun as <- <-. exists delta. repeat split; try assumption.
      constructor. exact Hitem.
Qed.


End Linking.


(** ** The resolver maps when a creation call begins *)

Lemma resolver_after_app r a b :
  resolver_after r (a ++ b) = resolver_after (resolver_after r a) b.
Proof. unfold resolver_after. apply fold_left_app. Qed.

Lemma resolver_after_kept (p : Event -> bool) l :
  (forall ev, p ev = true -> forall r, registers r ev = r) ->
  forallb p l = true -> forall r, resolver_after r l = r.
Proof.
  intros Hp. induction l as [|ev l IH]; intros Hl r; [reflexivity|].
  cbn [forallb] in Hl. apply andb_prop in Hl as [Hev Hl].
  unfold resolver_after. cbn [fold_left]. rewrite (Hp ev Hev r). apply (IH Hl).
Qed.

Lemma minor_registers ev : is_minor ev = true -> forall r, registers r ev = r.
Proof. destruct ev as [[] ?| | |]; cbn; intros H maps; congruence. Qed.

Lemma linking_registers ev : is_linking ev = true -> forall r, registers r ev = r.
Proof. destruct ev as [[] ?| | |]; cbn; intros H maps; congruence. Qed.

Lemma registered_before_app initiatives r0 tr delta :
  registered_before initiatives r0 tr ->
  (forall pre t b l r post,
     delta = pre ++ EvCall (IssuesCreate t b l) r :: post ->
     parent_registered initiatives (resolver_after r0 (tr ++ pre)) (IssuesCreate t b l)) ->
  registered_before initiatives r0 (tr ++ delta).
Proof.
  intros Htr Hdelta pre t b l r post Heq.
  apply app_eq_app in Heq as [mid [[-> Hpost] | [-> Hd]]].
  - destruct mid as [|ev mid].
    + cbn in Hpost. symmetry in Hpost. apply (Hdelta [] t b l r post) in Hpost.
      rewrite !app_nil_r in Hpost. exact Hpost.
    + cbn in Hpost. injection Hpost as <- ->.
      eapply Htr. reflexivity.
  - eapply Hdelta. exact Hd.
Qed.

Section Registered.

Variable T : Tracker.
Variable initiatives : list Initiative.t.
Variable r0 : Resolver.t.

(** Events that are not creations, and that tell every write to the
    maps, keep the invariant. *)
Lemma parents_registered_other w w' delta :
  parents_registered initiatives r0 w ->
  trace w' = trace w ++ delta ->
  resolver w' = resolver_after (resolver w) delta ->
  forallb (fun ev => negb (is_creation ev)) delta = true ->
  parents_registered initiatives r0 w'.
Proof.
  intros [Hres Hreg] Htr Hres' Hd. split.
  - rewrite Hres', Htr, resolver_after_app, Hres. reflexivity.
  - rewrite Htr. apply registered_before_app; [exact Hreg|].
    intros pre t b l r post Heq.
    pose proof (no_creation_inside _ _ _ _ _ Hd Heq) as H. discriminate H.
Qed.

(** A creation whose parent is registered in the maps of the world,
    followed by events that are not creations. *)
Lemma parents_registered_block w w' t b l r rest :
  parents_registered initiatives r0 w ->
  trace w' = trace w ++ EvCall (IssuesCreate t b l) r :: rest ->
  resolver w' = resolver_after (resolver w) rest ->
  forallb (fun ev => negb (is_creation ev)) rest = true ->
  parent_registered initiatives (resolver w) (IssuesCreate t b l) ->
  parents_registered initiatives r0 w'.
Proof.
  intros [Hres Hreg] Htr Hres' Hrest Hparent. split.
  - rewrite Hres', Htr, resolver_after_app, Hres. reflexivity.
  - rewrite Htr. apply registered_before_app; [exact Hreg|].
    intros pre t' b' l' r' post Heq. destruct pre as [|ev pre].
    + cbn in Heq. injection Heq as <- <- <- _ _. rewrite app_nil_r, <- Hres. exact Hparent.
    + cbn in Heq. injection Heq as _ Heq.
      pose proof (no_creation_inside _ _ _ _ _ Hrest Heq) as H. discriminate H.
Qed.

Lemma firstPass_registered :
  triple (parents_registered initiatives r0)
    (firstPass T initiatives)
    (fun _ w => parents_registered initiatives r0 w /\ initiatives_bound initiatives w)
    (fun _ w => parents_registered initiatives r0 w).
Proof.
  unfold firstPass.
  eapply triple_weaken;
    [ apply (triple_foldM _
        (fun done (_ : list GitHubIssue.t) w =>
           parents_registered initiatives r0 w /\ initiatives_bound done w)
        (fun _ w => parents_registered initiatives r0 w)) | | | ].
  - intros done x allIssues [rest Hl] w (HJ & HK).
    assert (Hx : In x initiatives).
    { rewrite Hl. apply in_or_app. right. left. reflexivity. }
    unfold bind.
    pose proof (createInitiativeIssue_shape T x w w eq_refl) as H.
    destruct (createInitiativeIssue T x w) as [[issue|e] w1].
    + destruct H as (data & -> & ->).
      cbn [resolver_set delay emit ret resolver trace fst snd issue_of GitHubIssue.number].
      repeat rewrite <- app_assoc. cbn [app]. unfold initiative_call.
      split.
      * eapply (parents_registered_block w); [exact HJ | reflexivity | reflexivity
                                              | reflexivity | ].
        apply (registered_initiative _ _ x Hx).
      * intros i Hi. cbn [resolver Resolver.set Resolver.initiativeIdToIssueNumber].
        destruct (decide (Initiative.id x = Initiative.id i)) as [Heq|Hne].
        -- exists (IssueData.number data). rewrite Heq, lookup_insert_eq. reflexivity.
        -- apply in_app_or in Hi as [Hi | [<- | []]]; [|contradiction].
           destruct (HK i Hi) as [n Hn]. exists n.
           rewrite lookup_insert_ne by exact Hne. exact Hn.
    + destruct H as (he & -> & ->). unfold initiative_call.
      eapply (parents_registered_block w); [exact HJ | reflexivity | reflexivity
                                              | reflexivity | ].
      apply (registered_initiative _ _ x Hx).
  - intros w HJ. split; [exact HJ|]. intros i [].
  - intros a w H. exact H.
  - intros e w H. exact H.
Qed.

Lemma createDeliverables_registered i c num acc m :
  In i initiatives -> In c (Initiative.capabilities i) ->
  triple (fun w =>
            parents_registered initiatives r0 w /\
            Resolver.initiativeIdToIssueNumber (resolver w) = m /\
            Resolver.capabilityIdToIssueNumber (resolver w) !! Capability.id c = Some num)
    (createDeliverables T c num acc)
    (fun _ w => parents_registered initiatives r0 w /\
                Resolver.initiativeIdToIssueNumber (resolver w) = m)
    (fun _ w => parents_registered initiatives r0 w).
Proof.
  intros Hi Hc. unfold createDeliverables.
  eapply triple_weaken;
    [ apply (triple_foldM_inv _
        (fun w =>
           parents_registered initiatives r0 w /\
           Resolver.initiativeIdToIssueNumber (resolver w) = m /\
           Resolver.capabilityIdToIssueNumber (resolver w) !! Capability.id c = Some num)
        (fun _ w => parents_registered initiatives r0 w)) | | | ].
  - intros d a Hd w (HJ & Hm & Hnum).
    unfold bind, createDeliverableIssue.
    match goal with |- context [createChildIssue T ?a1 ?a2 ?a3 ?a4 ?a5 ?a6 ?a7 w] =>
      pose proof (createChildIssue_shape T a1 a2 a3 a4 a5 a6 a7 w w eq_refl) as H;
      destruct (createChildIssue T a1 a2 a3 a4 a5 a6 a7 w) as [[issue|e] w1]
    end.
    + destruct H as (data & rest' & -> & Hres & Htr & Hminor).
      cbn [resolver_set delay emit ret resolver trace fst snd issue_of GitHubIssue.number].
      split; [|split].
      * eapply (parents_registered_block w _ _ _ _ _
                  (rest' ++ [EvSet LDeliverable (Deliverable.id d) (IssueData.number data);
                             EvDelay 1000])); [exact HJ | | | | ].
        -- cbn [trace]. rewrite Htr. repeat rewrite <- app_assoc. reflexivity.
        -- cbn [resolver]. rewrite resolver_after_app,
             (resolver_after_kept is_minor rest' minor_registers Hminor), Hres.
           reflexivity.
        -- rewrite forallb_app, (minor_rest_no_creation _ Hminor). reflexivity.
        -- apply (registered_deliverable _ _ i c d num Hi Hc Hd Hnum).
      * cbn [resolver Resolver.set Resolver.initiativeIdToIssueNumber].
        rewrite Hres. exact Hm.
      * cbn [resolver Resolver.set Resolver.capabilityIdToIssueNumber].
        rewrite Hres. exact Hnum.
    + destruct H as (r & rest' & _ & Hres & Htr & Hminor).
      eapply (parents_registered_block w _ _ _ _ _ rest'); [exact HJ | exact Htr | | | ].
      * rewrite (resolver_after_kept is_minor rest' minor_registers Hminor). exact Hres.
      * exact (minor_rest_no_creation _ Hminor).
      * apply (registered_deliverable _ _ i c d num Hi Hc Hd Hnum).
  - intros w H. exact H.
  - intros a w (HJ & Hm & _). auto.
  - intros e w H. exact H.
Qed.

Lemma createCapabilities_registered i n acc m :
  In i initiatives -> m !! Initiative.id i = Some n ->
  triple (fun w =>
            parents_registered initiatives r0 w /\
            Resolver.initiativeIdToIssueNumber (resolver w) = m)
    (createCapabilities T i (Some n) acc)
    (fun _ w => parents_registered initiatives r0 w /\
                Resolver.initiativeIdToIssueNumber (resolver w) = m)
    (fun _ w => parents_registered initiatives r0 w).
Proof.
  intros Hi Hn. unfold createCapabilities.
  apply (triple_foldM_inv _
           (fun w =>
              parents_registered initiatives r0 w /\
              Resolver.initiativeIdToIssueNumber (resolver w) = m)
           (fun _ w => parents_registered initiatives r0 w)).
  intros c a Hc w (HJ & Hm).
  unfold bind at 1, createCapabilityIssue.
  match goal with |- context [createChildIssue T ?a1 ?a2 ?a3 ?a4 ?a5 ?a6 ?a7 w] =>
    pose proof (createChildIssue_shape T a1 a2 a3 a4 a5 a6 a7 w w eq_refl) as H;
    destruct (createChildIssue T a1 a2 a3 a4 a5 a6 a7 w) as [[issue|e] w1]
  end.
  - destruct H as (data & rest' & -> & Hres & Htr & Hminor).
    unfold bind at 1. cbn [resolver_set]. unfold bind at 1. cbn [delay emit].
    cbn [resolver trace fst snd issue_of GitHubIssue.number].
    set (w2 := mkWorld _ _).
    assert (HJ2 : parents_registered initiatives r0 w2).
    { eapply (parents_registered_block w _ _ _ _ _
                (rest' ++ [EvSet LCapability (Capability.id c) (IssueData.number data);
                           EvDelay 1000])); [exact HJ | | | | ].
      - subst w2. cbn [trace]. rewrite Htr. repeat rewrite <- app_assoc. reflexivity.
      - subst w2. cbn [resolver]. rewrite resolver_after_app,
          (resolver_after_kept is_minor rest' minor_registers Hminor), Hres.
        reflexivity.
      - rewrite forallb_app, (minor_rest_no_creation _ Hminor). reflexivity.
      - apply (registered_capability _ _ i c n Hi Hc). rewrite Hm. exact Hn. }
    assert (Hm2 : Resolver.initiativeIdToIssueNumber (resolver w2) = m).
    { subst w2. cbn [resolver Resolver.set Resolver.initiativeIdToIssueNumber].
      rewrite Hres. exact Hm. }
    assert (Hnum : Resolver.capabilityIdToIssueNumber (resolver w2) !! Capability.id c
                   = Some (IssueData.number data)).
    { subst w2. cbn [resolver Resolver.set Resolver.capabilityIdToIssueNumber].
      apply lookup_insert_eq. }
    destruct (Capability.shouldCreateSubIssues c
              && (0 <? length (Capability.deliverables c))%nat).
    + exact (createDeliverables_registered i c (IssueData.number data)
               (fst a ++ [issue_of data], snd a) m Hi Hc w2 (conj HJ2 (conj Hm2 Hnum))).
    + cbn [ret]. auto.
  - destruct H as (r & rest' & _ & Hres & Htr & Hminor).
    eapply (parents_registered_block w _ _ _ _ _ rest'); [exact HJ | exact Htr | | | ].
    + rewrite (resolver_after_kept is_minor rest' minor_registers Hminor). exact Hres.
    + exact (minor_rest_no_creation _ Hminor).
    + apply (registered_capability _ _ i c n Hi Hc). rewrite Hm. exact Hn.
Qed.

Lemma secondPass_registered allIssues m :
  (forall i, In i initiatives -> exists n, m !! Initiative.id i = Some n) ->
  triple (fun w =>
            parents_registered initiatives r0 w /\
            Resolver.initiativeIdToIssueNumber (resolver w) = m)
    (secondPass T initiatives allIssues)
    (fun _ w => parents_registered initiatives r0 w)
    (fun _ w => parents_registered initiatives r0 w).
Proof.
  intros Hbound. unfold secondPass.
  eapply triple_weaken;
    [ apply (triple_foldM_inv _
        (fun w =>
           parents_registered initiatives r0 w /\
           Resolver.initiativeIdToIssueNumber (resolver w) = m)
        (fun _ w => parents_registered initiatives r0 w)) | | | ].
  - intros i a Hi w (HJ & Hm).
    destruct (Hbound i Hi) as [n Hn].
    unfold bind at 1. cbn [resolver_get Resolver.get]. rewrite Hm, Hn.
    exact (createCapabilities_registered i n a m Hi Hn w (conj HJ Hm)).
  - intros w H. exact H.
  - intros a w [HJ _]. exact HJ.
  - intros e w H. exact H.
Qed.

(** The dependency passes create nothing and write nothing. *)
Lemma linking_keeps_registered (items : list (string * list string)) what k w :
  parents_registered initiatives r0 w ->
  parents_registered initiatives r0
    (snd (forM_ (fun item => updateDependencies T what k (fst item) (snd item)) items w)).
Proof.
  intros HJ.
  pose proof (emits_forM is_linking
                (fun item => updateDependencies T what k (fst item) (snd item)) items
                (fun item _ => updateDependencies_emits T what k (fst item) (snd item)) w)
    as (delta & Htr & Hlinking).
  destruct (forM_ _ items w) as [o w'] eqn:Hrun. cbn [snd] in *.
  apply items_run in Hrun as (delta' & Htr' & Hres & _).
  apply (parents_registered_other w w' delta HJ Htr).
  - rewrite (resolver_after_kept is_linking delta linking_registers Hlinking). exact Hres.
  - revert Hlinking. apply forallb_impl. intros ev H.
    rewrite (linking_not_creation ev H). reflexivity.
Qed.

Lemma generateIssues_registered :
  let run := generateIssues T initiatives (mkWorld r0 []) in
  parents_registered initiatives r0 (snd run).
Proof.
  unfold generateIssues.
  unfold bind at 1. cbn [logger_info emit resolver trace app].
  set (w1 := mkWorld r0 _).
  assert (H1 : parents_registered initiatives r0 w1).
  { apply (parents_registered_other (mkWorld r0 []) w1 (trace w1));
      [ | reflexivity | reflexivity | reflexivity ].
    split; [reflexivity|]. intros pre t b l r post H. destruct pre; discriminate H. }
  unfold bind at 1. apply firstPass_registered in H1.
  destruct (firstPass T initiatives w1) as [[allIssues|e] w2]; [|exact H1].
  destruct H1 as [HJ2 HK2].
  unfold bind at 1.
  pose proof (secondPass_registered allIssues _ HK2 w2 (conj HJ2 eq_refl)) as H2.
  destruct (secondPass T initiatives allIssues w2) as [[acc|e] w3]; [|exact H2].
  unfold bind at 1. rewrite updateCapabilityDependencies_items.
  pose proof (linking_keeps_registered (capability_items initiatives) "capability"
                LCapability w3 H2) as H3.
  destruct (forM_ _ (capability_items initiatives) w3) as [[[]|e] w4]; [|exact H3].
  unfold bind at 1. rewrite updateDeliverableDependencies_items.
  pose proof (linking_keeps_registered (deliverable_items initiatives) "deliverable"
                LDeliverable w4 H3) as H4.
  destruct (forM_ _ (deliverable_items initiatives) w4) as [[[]|e] w5]; [|exact H4].
  unfold bind at 1. cbn [logger_success emit ret resolver trace snd].
  eapply (parents_registered_other w5); [exact H4 | reflexivity | reflexivity | reflexivity].
Qed.

End Registered.

(** ** The number of items and the order of their creation, stated *)

(** C1. A hierarchy of [N] initiatives with [C] capabilities each, each
    asking for sub-issues and with [D] deliverables: a run that returns
    has created exactly [N + N*C + N*C*D] items and returns that many
    issues; and in every run, returning or not, each creation call of a
    capability or deliverable comes after the creation of its parent and
    after the registration of the parent's number in the resolver map:
    when the call begins, the map of the initiatives binds the id of the
    initiative, or the map of the capabilities the id of the capability,
    to the number that the call sends as its parent.  The maps at that
    moment are [r0] with the writes that the trace tells so far, as they
    are at the end of the run with all of them. *)
Theorem generateIssues_creates_in_order (T : Tracker) (initiatives : list Initiative.t)
    (r0 : Resolver.t) (N C D : nat) :
  uniform N C D initiatives ->
  let run := generateIssues T initiatives (mkWorld r0 []) in
  ordered initiatives (trace (snd run)) /\
  registered_before initiatives r0 (trace (snd run)) /\
  resolver (snd run) = resolver_after r0 (trace (snd run)) /\
  forall issues, fst run = Returned issues ->
    length issues = (N + N * C + N * C * D)%nat /\
    count is_created (trace (snd run)) = (N + N * C + N * C * D)%nat.
Proof.
  intros Hu run. pose proof (generateIssues_spec T initiatives r0 _ eq_refl) as H.
  pose proof (generateIssues_registered T initiatives r0) as [Hres Hreg].
  fold run in H, Hres, Hreg. destruct run as [[issues|e] w]; cbn [fst snd] in *.
  - destruct H as (Ho & Hk & Hlen). split; [exact Ho|]. split; [exact Hreg|].
    split; [exact Hres|].
    intros issues' [= <-]. rewrite Hlen, Hk, (items_uniform N C D initiatives Hu). auto.
  - split; [exact H|]. split; [exact Hreg|]. split; [exact Hres|]. intros issues' [=].
Qed.

Lemma generateIssues_creates_in_order_witness :
  uniform 1 1 1 [minimalInitiative] /\
  exists issues,
    fst (generateIssues obliging [minimalInitiative] fresh) = Returned issues /\
    length issues = 3%nat.
Proof.
  assert (U : uniform 1 1 1 [minimalInitiative]).
  { split; [reflexivity|]. repeat constructor. }
  split; [exact U|].
  destruct (generateIssues_creates_in_order obliging [minimalInitiative]
              Resolver.empty 1 1 1 U) as (_ & _ & _ & H).
  assert (E : exists issues,
             fst (generateIssues obliging [minimalInitiative] fresh) = Returned issues).
  { vm_compute. eexists. reflexivity. }
  destruct E as [issues E]. exists issues. split; [exact E|].
  exact (proj1 (H issues E)).
Defined.

(** ** Validation of a capability *)

Lemma field_other k k' v o :
  String.eqb k k' = false -> field k' ((k, v) :: o) = field k' o.
Proof. intros H. cbn [field]. rewrite H. reflexivity. Qed.

Lemma field_same k v o : field k ((k, v) :: o) = Some v.
Proof. cbn [field]. rewrite String.eqb_refl. reflexivity. Qed.

(** C6, as stated, fails: the schema accepts a capability that asks for
    sub-issues and has no deliverable, and one that has a deliverable and
    does not ask. *)
Lemma validation_does_not_enforce_exactly_one_of :
  (exists c, CapabilitySchema (Some flag_without_deliverables) = inr c
             /\ ~ exactly_one_of c) /\
  (exists c, CapabilitySchema (Some deliverables_without_flag) = inr c
             /\ ~ exactly_one_of c).
Proof.
  split; (eexists; split; [vm_compute; reflexivity|]); intros [H1 H2].
  - apply H1; reflexivity.
  - specialize (H2 eq_refl). discriminate H2.
Qed.

(** C6, amended. Validation of a capability does not relate the flag
    [shouldCreateSubIssues] to the list of deliverables: a generated
    capability that is accepted is accepted with either value of the
    flag, and with the same deliverables. *)
Theorem CapabilitySchema_ignores_flag (o : list (string * JSON)) (c : Capability.t) (b : bool) :
  CapabilitySchema (Some (JObject o)) = inr c ->
  CapabilitySchema (Some (JObject (("shouldCreateSubIssues", JBool b) :: o)))
  = inr (with_flag b c).
Proof.
  unfold CapabilitySchema, z_object. intros H.
  rewrite field_same. rewrite !field_other by reflexivity.
  repeat match type of H with
         | match ?x with inl _ => _ | inr _ => _ end = _ =>
             destruct x eqn:?; [discriminate H|]
         end.
  injection H as <-. reflexivity.
Qed.

Lemma CapabilitySchema_ignores_flag_witness :
  exists c,
    CapabilitySchema (Some deliverables_without_flag) = inr c /\
    CapabilitySchema
      (Some (JObject (("shouldCreateSubIssues", JBool true)
                        :: ("shouldCreateSubIssues", JBool false)
                        :: ("deliverables", JArray [deliverable_json]) :: capability_fields)))
    = inr (with_flag true c).
Proof.
  destruct (CapabilitySchema (Some deliverables_without_flag)) as [e|c] eqn:Hc;
    [vm_compute in Hc; discriminate Hc|].
  exists c. split; [reflexivity|].
  exact (CapabilitySchema_ignores_flag _ c true Hc).
Defined.

(** ** Decomposition *)

Lemma mentions_cons needle c text :
  mentions needle (String c text)
  = String.prefix needle (String c text) || mentions needle text.
Proof. reflexivity. Qed.

Lemma mentions_append_r needle a b :
  mentions needle b = true -> mentions needle (a +:+ b) = true.
Proof.
  intros H. induction a as [|c a IH]; [exact H|].
  change (String c a +:+ b) with (String c (a +:+ b)).
  rewrite mentions_cons, IH. apply orb_true_r.
Qed.

Lemma truncation_message_names_two_phase maxTokens :
  mentions "--two-phase" (truncation_message maxTokens) = true.
Proof.
  unfold truncation_message. do 6 apply mentions_append_r. vm_compute. reflexivity.
Qed.

Section DecomposerFacts.

Variable E : Surroundings.
Variable model : string.
Variable maxTokens : Z.
Variable buildPrompt : PRDMetadata.t -> string.
Variable buildInitiativesPrompt : PRDMetadata.t -> string.
Variable buildCapabilitiesPrompt : PRDMetadata.t -> InitiativeSummary.t -> list string -> string.
Variable extractJSON : string -> string.
Variable JSON_parse : string -> string + JSON.

(** One generation: one request; a refusal or a truncated answer ends it
    at once; otherwise only the console is written to. *)
Lemma generate_run {A} prompt truncationMessage (schema : Schema A) apiPrefix syntaxPrefix
    report s o s' :
  generate E model maxTokens extractJSON JSON_parse prompt truncationMessage schema
    apiPrefix syntaxPrefix report s = (o, s') ->
  exists answer notes,
    s' = s ++ Asked (Request.mk model maxTokens prompt) answer :: notes /\
    forallb is_console notes = true /\
    match answer with
    | inl e => notes = [] /\ exists e', o = Thrown e'
    | inr response =>
        truncated response = true ->
        notes = [] /\ o = Thrown (new_error AIDecomposerError truncationMessage)
    end /\
    (forall a, o = Returned a -> exists parsed, schema (Some parsed) = inr a).
Proof.
  unfold generate, try_catch, bind, client_messages_create, throw, ret, say.
  destruct (messages_create E s (Request.mk model maxTokens prompt)) as [e|response] eqn:Hask.
  - intros H.
    assert (Hres : s' = s ++ [Asked (Request.mk model maxTokens prompt) (inl e)]
                   /\ exists e', o = Thrown e').
    { revert H. destruct (is_error APIError e); [|destruct (is_error SyntaxError e)];
        intros H; injection H as <- <-; split; eauto. }
    destruct Hres as [-> [e' ->]]. exists (inl e), [].
    split; [reflexivity | split; [reflexivity | split; [eauto | discriminate]]].
  - destruct (truncated response) eqn:Htrunc.
    { cbn. intros H. injection H as <- <-. exists (inr response), [].
      split; [reflexivity | split; [reflexivity | split; [auto | discriminate]]]. }
    destruct (Message.content response) as [|[text|type] blocks].
    + cbn. intros H. injection H as <- <-. exists (inr response), [].
      split; [reflexivity | split; [reflexivity | split; [cbn; congruence | try discriminate]]].
    + destruct (JSON_parse (extractJSON text)) as [msg|parsed].
      { cbn. intros H. injection H as <- <-. exists (inr response), [].
        split; [reflexivity | split; [reflexivity | split; [cbn; congruence | try discriminate]]]. }
      destruct (schema (Some parsed)) as [zodError|validated] eqn:Hschema.
      { destruct (is_error APIError zodError); [|destruct (is_error SyntaxError zodError)];
          intros H; injection H as <- <-; exists (inr response), [];
          (split; [reflexivity | split; [reflexivity | split; [cbn; congruence | try discriminate]]]). }
      intros H. injection H as <- <-. eexists (inr response), [_].
      rewrite <- app_assoc.
      split; [reflexivity | split; [reflexivity | split; [cbn; congruence |]]].
      intros a [= <-]. exists parsed. exact Hschema.
    + cbn. intros H. injection H as <- <-. exists (inr response), [].
      split; [reflexivity | split; [reflexivity | split; [cbn; congruence | try discriminate]]].
Qed.

(** C7. A single-pass decomposition whose answer is truncated (stop
    reason [max_tokens]) throws the error of the truncation, whose message
    names the two-phase flag; nothing is returned, and nothing happens
    after the answer: the result does not depend on the text of the
    answer, on how a fence is removed, on [JSON.parse] or on the
    schema. *)
Theorem decompose_reports_truncation (prdMetadata : PRDMetadata.t) (s delta : Session)
    (request : Request.t) (response : Message.t) :
  let run := decompose E model maxTokens buildPrompt extractJSON JSON_parse prdMetadata s in
  snd run = s ++ delta ->
  In (Asked request (inr response)) delta ->
  truncated response = true ->
  fst run = Thrown (new_error AIDecomposerError (truncation_message maxTokens)) /\
  mentions "--two-phase" (truncation_message maxTokens) = true /\
  delta = [Logged CallDebug "Starting AI decomposition of PRD"; Asked request (inr response)].
Proof.
  intros run Hdelta Hin Htrunc. subst run. unfold decompose, bind, say in *.
  match type of Hdelta with context [generate ?a1 ?a2 ?a3 ?a4 ?a5 ?a6 ?a7 ?a8 ?a9 ?a10 ?a11 ?a12] =>
    destruct (generate a1 a2 a3 a4 a5 a6 a7 a8 a9 a10 a11 a12) as [o s'] eqn:Hrun
  end.
  apply generate_run in Hrun as (answer & notes & -> & Hnotes & Hanswer & _).
  cbn [fst snd] in *. rewrite <- app_assoc in Hdelta. apply app_inv_head in Hdelta.
  subst delta. cbn [app In] in Hin.
  destruct Hin as [Hin | [Hin | Hin]]; [discriminate Hin | |].
  - injection Hin as <- ->. destruct (Hanswer Htrunc) as [-> ->].
    split; [reflexivity|]. split; [apply truncation_message_names_two_phase | reflexivity].
  - exfalso. rewrite forallb_forall in Hnotes. apply Hnotes in Hin. discriminate Hin.
Qed.

Lemma requests_app a b : requests (a ++ b) = requests a ++ requests b.
Proof. unfold requests. apply omap_app. Qed.

Lemma files_app a b : files (a ++ b) = files a ++ files b.
Proof. unfold files. apply omap_app. Qed.

Lemma console_requests notes : forallb is_console notes = true -> requests notes = [].
Proof.
  induction notes as [|h notes IH]; [reflexivity|]. cbn [forallb]. intros H.
  apply andb_prop in H as [Hh Hn]. destruct h; try discriminate Hh; exact (IH Hn).
Qed.

Lemma console_files notes : forallb is_console notes = true -> files notes = [].
Proof.
  induction notes as [|h notes IH]; [reflexivity|]. cbn [forallb]. intros H.
  apply andb_prop in H as [Hh Hn]. destruct h; try discriminate Hh; exact (IH Hn).
Qed.

Lemma decomposeInitiativeCapabilities_run prdMetadata summary ids s o s' :
  decomposeInitiativeCapabilities E model maxTokens buildCapabilitiesPrompt extractJSON
    JSON_parse prdMetadata summary ids s = (o, s') ->
  requests s' = requests s
                  ++ [Request.mk model maxTokens (buildCapabilitiesPrompt prdMetadata summary ids)]
  /\ files s' = files s.
Proof.
  unfold decomposeInitiativeCapabilities, bind, say. intros H.
  apply generate_run in H as (answer & notes & -> & Hnotes & _ & _).
  change (Asked ?r answer :: notes) with ([Asked r answer] ++ notes).
  rewrite !requests_app, !files_app.
  rewrite (console_requests _ Hnotes), (console_files _ Hnotes), !app_nil_r.
  split; reflexivity.
Qed.

Lemma phase2_loop prdMetadata overview items :
  forall acc s,
    exists initiatives failed s',
      foldM (phase2_step E model maxTokens buildCapabilitiesPrompt extractJSON JSON_parse
               prdMetadata overview
               (map InitiativeSummary.id (ProjectOverview.initiatives overview)))
        items acc s
      = (Returned (fst acc ++ initiatives, snd acc ++ failed), s') /\
      phase2_runs E model maxTokens buildCapabilitiesPrompt extractJSON JSON_parse
        prdMetadata overview s (map snd items) initiatives failed s' /\
      requests s' = requests s
                      ++ map (capabilities_request model maxTokens buildCapabilitiesPrompt
                                prdMetadata overview) (map snd items) /\
      files s' = files s.
Proof.
  induction items as [|[i summary] items IH]; intros acc s.
  - exists [], [], s. cbn. rewrite !app_nil_r. destruct acc.
    repeat split. constructor.
  - cbn [foldM map snd]. unfold bind at 1. unfold phase2_step at 1.
    unfold bind at 1. cbn [say fst snd]. unfold try_catch, bind at 1.
    match goal with |- context [decomposeInitiativeCapabilities ?a1 ?a2 ?a3 ?a4 ?a5 ?a6 ?a7 ?a8 ?a9 ?a10] =>
      destruct (decomposeInitiativeCapabilities a1 a2 a3 a4 a5 a6 a7 a8 a9 a10)
        as [[capabilities|error] s1] eqn:Hgen
    end.
    + pose proof (decomposeInitiativeCapabilities_run _ _ _ _ _ _ Hgen) as [Hreq Hfiles].
      unfold bind at 1. cbn [say ret].
      match goal with |- context [foldM _ items ?acc' ?s2] =>
        destruct (IH acc' s2) as (initiatives & failed & s' & Hrun & Hruns & Hreq' & Hfiles')
      end.
      exists (attach summary capabilities :: initiatives), failed, s'.
      rewrite Hrun. cbn [fst snd]. rewrite <- app_assoc. split; [reflexivity|].
      split; [eapply phase2_attached; [| exact Hgen | | exact Hruns]; reflexivity|].
      rewrite Hreq', Hfiles', !requests_app, !files_app, Hreq, Hfiles.
      rewrite requests_app, files_app. cbn. rewrite !app_nil_r, <- app_assoc. auto.
    + pose proof (decomposeInitiativeCapabilities_run _ _ _ _ _ _ Hgen) as [Hreq Hfiles].
      unfold bind at 1. cbn [say]. unfold bind at 1. cbn [say ret].
      match goal with |- context [foldM _ items ?acc' ?s2] =>
        destruct (IH acc' s2) as (initiatives & failed & s' & Hrun & Hruns & Hreq' & Hfiles')
      end.
      exists initiatives, (FailedInitiative.mk summary (JsError.message error) :: failed), s'.
      rewrite Hrun. cbn [fst snd]. rewrite <- app_assoc. split; [reflexivity|].
      split.
      { eapply phase2_recorded; [| exact Hgen | | ]; [reflexivity | | ].
        2: rewrite <- app_assoc in Hruns; exact Hruns. reflexivity. }
      rewrite Hreq', Hfiles', !requests_app, !files_app, Hreq, Hfiles.
      rewrite requests_app, files_app. cbn. rewrite !app_nil_r, <- app_assoc. auto.
Qed.

Lemma indexed_items {X} (l : list X) : map snd (indexed l) = l.
Proof.
  unfold indexed. generalize 0%nat. induction l as [|x l IH]; intros n; [reflexivity|].
  cbn. rewrite IH. reflexivity.
Qed.

Lemma phase2_run (prdMetadata : PRDMetadata.t) (overview : ProjectOverview.t) (s : Session) :
  exists initiatives failed s',
    phase2 E model maxTokens buildCapabilitiesPrompt extractJSON JSON_parse
      prdMetadata overview s = (Returned (initiatives, failed), s') /\
    phase2_runs E model maxTokens buildCapabilitiesPrompt extractJSON JSON_parse
      prdMetadata overview s (ProjectOverview.initiatives overview) initiatives failed s' /\
    requests s' = requests s
                    ++ map (capabilities_request model maxTokens buildCapabilitiesPrompt
                              prdMetadata overview) (ProjectOverview.initiatives overview) /\
    files s' = files s.
Proof.
  unfold phase2.
  destruct (phase2_loop prdMetadata overview (indexed (ProjectOverview.initiatives overview))
              ([], []) s) as (initiatives & failed & s' & Hrun & Hruns & Hreq & Hfiles).
  rewrite indexed_items in *. exists initiatives, failed, s'. auto.
Qed.

(** C3, amended; the loop of the create command.  Phase 2 never throws:
    it returns the initiatives whose generation returned, each with its
    capabilities attached, and the list of those whose generation threw,
    each with the message of its error; every initiative of the overview
    is tried, in order, whatever happened to the ones before it: the
    requests made are one per initiative. *)
Theorem phase2_tries_every_initiative (prdMetadata : PRDMetadata.t)
    (overview : ProjectOverview.t) (s : Session) :
  exists initiatives failed s',
    phase2 E model maxTokens buildCapabilitiesPrompt extractJSON JSON_parse
      prdMetadata overview s = (Returned (initiatives, failed), s') /\
    phase2_runs E model maxTokens buildCapabilitiesPrompt extractJSON JSON_parse
      prdMetadata overview s (ProjectOverview.initiatives overview) initiatives failed s' /\
    requests s' = requests s
                    ++ map (capabilities_request model maxTokens buildCapabilitiesPrompt
                              prdMetadata overview) (ProjectOverview.initiatives overview).
Proof.
  destruct (phase2_run prdMetadata overview s)
    as (initiatives & failed & s' & Hrun & Hruns & Hreq & _).
  exists initiatives, failed, s'. auto.
Qed.




Lemma forM_say_console {X} (line : X -> Happening) (l : list X) :
  (forall x, is_console (line x) = true) ->
  forall s, exists notes,
    forM_ (fun x => say (line x)) l s = (Returned tt, s ++ notes) /\
    forallb is_console notes = true.
Proof.
  intros Hline. unfold forM_. induction l as [|x l IH]; intros s.
  - exists []. rewrite app_nil_r. split; reflexivity.
  - cbn [foldM]. unfold bind at 1, say at 1.
    destruct (IH (s ++ [line x])) as (notes & -> & Hnotes).
    exists (line x :: notes). rewrite <- app_assoc. split; [reflexivity|].
    cbn [forallb]. rewrite Hline, Hnotes. reflexivity.
Qed.

Lemma afterPhase2_run prdFile overview initiatives failed s :
  exists written notes result,
    afterPhase2 E prdFile overview initiatives failed s
    = (result, s ++ map (fun f => Wrote (fst f) (snd f)) written ++ notes) /\
    forallb is_console notes = true /\
    snapshot_policy E prdFile overview initiatives failed s written result.
Proof.
  unfold afterPhase2, snapshot_policy.
  destruct initiatives as [|i initiatives].
  - exists [(".p2g-failure.json",
             FailureLog (now E s) prdFile overview (map failure_record failed))],
           [Logged CallError "All initiatives failed. Details saved to .p2g-failure.json";
            Spun SpinFail "AI decomposition failed"].
    eexists. unfold bind, say, throw. cbn [fst snd map].
    rewrite <- !app_assoc. cbn [app]. repeat split.
  - destruct failed as [|f failed].
    + exists [], [Logged CallSuccess
                    ("Two-phase decomposition complete: "
                       +:+ show_nat (length (i :: initiatives)) +:+ " initiatives, "
                       +:+ totals (i :: initiatives))].
      eexists. unfold bind, say, ret. cbn [fst snd map app]. repeat split.
    + unfold bind at 1, say at 1. unfold bind at 1, say at 1.
      unfold bind at 1, say at 1. unfold bind at 1.
      match goal with |- context [forM_ ?g ?l ?s0] =>
        destruct (forM_say_console
                    (fun f => Logged CallWarn
                        ("  - " +:+ InitiativeSummary.title (FailedInitiative.initiative f)
                           +:+ ": " +:+ first_line (FailedInitiative.error f)))
                    l (fun _ => eq_refl) s0) as (notes & Hrun & Hnotes)
      end.
      rewrite Hrun. unfold bind, say, ret. cbn [fst snd].
      exists [(".p2g-partial.json",
               PartialResults (now E s) prdFile
                 (projectStructure_of overview (i :: initiatives))
                 (map failure_record (f :: failed)))].
      eexists (_ :: _ :: notes ++ [_]). eexists. cbn [map fst snd].
      rewrite <- !app_assoc. cbn [app]. split; [reflexivity|].
      split; [|split; reflexivity].
      cbn [forallb is_console]. rewrite forallb_app, Hnotes. reflexivity.
Qed.



End DecomposerFacts.

Lemma decompose_reports_truncation_witness :
  fst (decompose cut_short claude 8000 plain_prompt no_fence named_documents a_document [])
  = Thrown (new_error AIDecomposerError (truncation_message 8000)).
Proof.
  refine (proj1 (decompose_reports_truncation cut_short claude 8000 plain_prompt no_fence
                   named_documents a_document []
                   [Logged CallDebug "Starting AI decomposition of PRD";
                    Asked (Request.mk claude 8000 "# Shop")
                      (inr (Message.mk (Some "max_tokens") [TextBlock "{"]))]
                   (Request.mk claude 8000 "# Shop")
                   (Message.mk (Some "max_tokens") [TextBlock "{"]) _ _ _)).
  - vm_compute. reflexivity.
  - right. left. reflexivity.
  - vm_compute. reflexivity.
Defined.

(** C3, as claimed, fails for [AIDecomposer.decomposeTwoPhase]: with a
    backend that is overloaded for the first of two initiatives, the
    method throws the error of that initiative and the second one is
    never asked for. *)
Lemma decomposeTwoPhase_stops_at_first_failure :
  let run := decomposeTwoPhase flaky claude 8000 initiatives_prompt capabilities_prompt
               no_fence named_documents a_document [] in
  fst run = Thrown (new_error AIDecomposerError
                      ("Claude API error for initiative " +:+ dq +:+ "Accounts" +:+ dq
                         +:+ ": 529 Overloaded")) /\
  requests (snd run) = [Request.mk claude 8000 "initiatives";
                        Request.mk claude 8000 "capabilities:initiative-1"] /\
  In (InitiativeSummary.mk "initiative-2" "Orders" "An outcome" "A reason" [] 1)
     (ProjectOverview.initiatives shop_overview).
Proof. vm_compute. repeat split. right. left. reflexivity. Qed.


(** ** The PRD processor *)

Lemma length_of_empty s : (length_of s =? 0) = negb (truthy s).
Proof.
  destruct s; [reflexivity|]. unfold length_of. cbn [String.length truthy negb].
  apply Z.eqb_neq. lia.
Qed.

Lemma trim_whitespace s : truthy (trim s) = negb (whitespace_only s).
Proof.
  unfold trim. induction s as [|c s IH]; [reflexivity|].
  cbn [trimStart whitespace_only]. destruct (is_white_space c) eqn:Hc.
  - exact IH.
  - cbn [trimEnd]. rewrite Hc. reflexivity.
Qed.

Lemma empty_test content :
  negb (truthy content) || (length_of (trim content) =? 0) = whitespace_only content.
Proof.
  rewrite length_of_empty, trim_whitespace, negb_involutive.
  destruct content as [|c content]; [reflexivity|]. reflexivity.
Qed.

Lemma or_default_none fallback : or_default None fallback = fallback.
Proof. reflexivity. Qed.

Lemma or_default_some v fallback : v <> EmptyString -> or_default (Some v) fallback = v.
Proof. destruct v; [congruence|reflexivity]. Qed.

Section PRDProcessorFacts.

Variable existsSync : string -> bool.
Variable readFileSync : string -> JsError.t + string.
Variable extractTitle : string -> option string.
Variable extractDescription : string -> option string.
Variable extractTechStack : string -> option TechStack.t.

(** C10.  [processPRD] throws exactly when the file does not exist,
    cannot be read, holds nothing but white space (or nothing at all),
    has fewer than 100 characters or more than 100,000; what it throws is
    then a [PRDProcessorError].  Otherwise it returns metadata whose
    [rawContent] is the text that was read, whose title is the extracted
    one, or ['Untitled Project'] if none was found, whose description is
    the extracted one, or ['No description provided'] if none was found,
    and whose tech stack is the extracted one. *)
Theorem processPRD_rejects_exactly (prdPath : string) (s : Session) :
  let run := processPRD existsSync readFileSync extractTitle extractDescription
               extractTechStack prdPath s in
  ((exists error, fst run = Thrown error) <-> unacceptable existsSync readFileSync prdPath) /\
  (forall error, fst run = Thrown error -> JsError.name error = PRDProcessorError) /\
  (forall metadata, fst run = Returned metadata ->
     let content := PRDMetadata.rawContent metadata in
     readFileSync prdPath = inr content /\
     (extractTitle content = None -> PRDMetadata.title metadata = "Untitled Project") /\
     (forall title, extractTitle content = Some title -> title <> EmptyString ->
                    PRDMetadata.title metadata = title) /\
     (extractDescription content = None ->
      PRDMetadata.description metadata = "No description provided") /\
     (forall description, extractDescription content = Some description ->
                          description <> EmptyString ->
                          PRDMetadata.description metadata = description) /\
     PRDMetadata.techStack metadata = extractTechStack content).
Proof.
  unfold processPRD, unacceptable, bind, say, throw, ret. cbv zeta.
  destruct (existsSync prdPath) eqn:Hexists; cbn [negb fst snd].
  2: { split; [|split].
       - split; [intros _; left; reflexivity | intros _; eexists; reflexivity].
       - intros error [= <-]. reflexivity.
       - discriminate. }
  destruct (readFileSync prdPath) as [error|content] eqn:Hread; cbn [fst snd].
  { split; [|split].
    - split; [intros _; right; left; eexists; reflexivity | intros _; eexists; reflexivity].
    - intros e [= <-]. reflexivity.
    - discriminate. }
  rewrite empty_test.
  destruct (whitespace_only content) eqn:Hblank; cbn [fst snd].
  { split; [|split].
    - split; [intros _; right; right; exists content; auto | intros _; eexists; reflexivity].
    - intros e [= <-]. reflexivity.
    - discriminate. }
  destruct (length_of content <? 100) eqn:Hshort; cbn [fst snd].
  { apply Z.ltb_lt in Hshort. split; [|split].
    - split; [intros _; right; right; exists content; auto | intros _; eexists; reflexivity].
    - intros e [= <-]. reflexivity.
    - discriminate. }
  destruct (100000 <? length_of content) eqn:Hlarge; cbn [fst snd].
  { apply Z.ltb_lt in Hlarge. split; [|split].
    - split; [intros _; right; right; exists content; auto | intros _; eexists; reflexivity].
    - intros e [= <-]. reflexivity.
    - discriminate. }
  apply Z.ltb_ge in Hshort, Hlarge. split; [|split].
  - split; [intros [error [=]]|].
    intros [Hmissing | [[error Herror] | (content' & Hcontent & Hbad)]];
      [congruence | congruence |].
    assert (content' = content) as -> by congruence.
    destruct Hbad as [Hbad | [Hbad | Hbad]]; [congruence | lia | lia].
  - discriminate.
  - intros metadata [= <-]. unfold extractMetadata. cbn.
    split; [reflexivity|].
    split; [intros ->; reflexivity|].
    split; [intros title -> Htitle; apply or_default_some; exact Htitle|].
    split; [intros ->; reflexivity|].
    split; [intros description -> Hd; apply or_default_some; exact Hd|reflexivity].
Qed.

End PRDProcessorFacts.

(** ** Saved structures *)

Ltac parsed H :=
  repeat match type of H with
         | match ?x with inl _ => _ | inr _ => _ end = inr _ =>
             let E := fresh "E" in destruct x eqn:E; [discriminate H|]
         end;
  injection H as <-.

Lemma z_string_min1_truthy msg j s : z_string_min1 msg j = inr s -> truthy s = true.
Proof.
  unfold z_string_min1. destruct (z_string j) as [|s']; [discriminate|].
  destruct (truthy s') eqn:Hs; [|discriminate]. intros [= <-]. exact Hs.
Qed.

Lemma z_priority_range j n : z_priority j = inr n -> in_1_to_5 n = true.
Proof.
  unfold z_priority, in_1_to_5. destruct j as [[| |k| | |]|]; try discriminate.
  destruct ((k =? 1) || (k =? 2) || (k =? 3) || (k =? 4) || (k =? 5)) eqn:Hk; [|discriminate].
  intros [= <-]. lia.
Qed.

Lemma z_number_between_range lo hi j n :
  z_number_between lo hi j = inr n -> (lo <=? n) && (n <=? hi) = true.
Proof.
  unfold z_number_between. destruct j as [[| |k| | |]|]; try discriminate.
  destruct ((lo <=? k) && (k <=? hi)) eqn:Hk; [|discriminate]. intros [= <-]. exact Hk.
Qed.

Lemma z_items_forallb {A} (schema : Schema A) (P : A -> bool) items l :
  (forall j a, schema (Some j) = inr a -> P a = true) ->
  z_items schema items = inr l -> forallb P l = true.
Proof.
  intros HP. revert l. induction items as [|x items IH]; intros l; cbn [z_items].
  - intros [= <-]. reflexivity.
  - destruct (schema (Some x)) as [|a] eqn:Ha; [discriminate|].
    destruct (z_items schema items) as [|l']; [discriminate|].
    intros [= <-]. cbn [forallb]. rewrite (HP _ _ Ha), (IH l' eq_refl). reflexivity.
Qed.

Lemma z_default_array_forallb {A} (schema : Schema A) (P : A -> bool) j l :
  (forall j a, schema (Some j) = inr a -> P a = true) ->
  z_default (z_array schema) [] j = inr l -> forallb P l = true.
Proof.
  intros HP. unfold z_default, z_array. destruct j as [[| | | |items|]|]; try discriminate.
  - apply z_items_forallb. exact HP.
  - intros [= <-]. reflexivity.
Qed.

Lemma z_array_min1_forallb {A} (schema : Schema A) (P : A -> bool) msg j l :
  (forall j a, schema (Some j) = inr a -> P a = true) ->
  z_array_min1 schema msg j = inr l ->
  negb (Nat.eqb (length l) 0) = true /\ forallb P l = true.
Proof.
  intros HP. unfold z_array_min1, z_array. destruct j as [[| | | |items|]|]; try discriminate.
  destruct (z_items schema items) as [|[|a l']] eqn:Hitems; try discriminate.
  intros [= <-]. split; [reflexivity|]. exact (z_items_forallb schema P _ _ HP Hitems).
Qed.

Lemma DeliverableSchema_valid j d : DeliverableSchema j = inr d -> valid_deliverable d = true.
Proof.
  unfold DeliverableSchema, z_object. destruct j as [[| | | | |o]|]; try discriminate.
  intros H. parsed H. unfold valid_deliverable. cbn.
  rewrite (z_string_min1_truthy _ _ _ E1), (z_string_min1_truthy _ _ _ E2). reflexivity.
Qed.

Lemma ChecklistItemSchema_valid j t : ChecklistItemSchema j = inr t -> valid_task t = true.
Proof.
  unfold ChecklistItemSchema, z_object. destruct j as [[| | | | |o]|]; try discriminate.
  intros H. parsed H. unfold valid_task. cbn. exact (z_string_min1_truthy _ _ _ E0).
Qed.

Lemma CapabilitySchema_valid j c : CapabilitySchema j = inr c -> valid_capability c = true.
Proof.
  unfold CapabilitySchema, z_object. destruct j as [[| | | | |o]|]; try discriminate.
  intros H. parsed H. unfold valid_capability. cbn.
  rewrite (z_string_min1_truthy _ _ _ E1), (z_string_min1_truthy _ _ _ E2),
    (z_priority_range _ _ E6).
  apply z_number_between_range in E8. apply andb_prop in E8 as [-> ->].
  rewrite (z_default_array_forallb _ valid_deliverable _ _
             (fun j => DeliverableSchema_valid (Some j)) E13).
  rewrite (z_default_array_forallb _ valid_task _ _
             (fun j => ChecklistItemSchema_valid (Some j)) E14).
  reflexivity.
Qed.

Lemma InitiativeSchema_valid j i : InitiativeSchema j = inr i -> valid_initiative i = true.
Proof.
  unfold InitiativeSchema, z_object. destruct j as [[| | | | |o]|]; try discriminate.
  intros H. parsed H. unfold valid_initiative. cbn.
  rewrite (z_string_min1_truthy _ _ _ E0), (z_string_min1_truthy _ _ _ E2),
    (z_priority_range _ _ E4).
  destruct (z_array_min1_forallb _ valid_capability _ _ _
              (fun j => CapabilitySchema_valid (Some j)) E5) as [-> ->].
  reflexivity.
Qed.

Lemma ProjectStructureSchema_guarantees (j : option JSON) (p : ProjectStructure.t) :
  ProjectStructureSchema j = inr p -> valid_structure p = true.
Proof.
  unfold ProjectStructureSchema, z_object. destruct j as [[| | | | |o]|]; try discriminate.
  intros H. parsed H. unfold valid_structure. cbn.
  rewrite (z_string_min1_truthy _ _ _ E), (z_string_min1_truthy _ _ _ E0).
  destruct (z_array_min1_forallb _ valid_initiative _ _ _
              (fun j => InitiativeSchema_valid (Some j)) E2) as [-> ->].
  reflexivity.
Qed.

(** Every structure that validation returns has a title and a
    description, at least one initiative, and in every initiative a
    title, an objective, a priority from 1 to 5 and at least one
    capability; every capability has a title, a description, a priority
    from 1 to 5 and between 0 and 40 hours, and its deliverables and
    checklist items have titles (and the deliverables descriptions). *)
Theorem ProjectStructureSchema_valid (j : option JSON) (p : ProjectStructure.t) :
  ProjectStructureSchema j = inr p -> valid_structure p = true.
Proof.
  unfold ProjectStructureSchema, z_object. destruct j as [[| | | | |o]|]; try discriminate.
  intros H. parsed H. unfold valid_structure. cbn.
  rewrite (z_string_min1_truthy _ _ _ E), (z_string_min1_truthy _ _ _ E0).
  destruct (z_array_min1_forallb _ valid_initiative _ _ _
              (fun j => InitiativeSchema_valid (Some j)) E2) as [-> ->].
  reflexivity.
Qed.

Lemma ProjectStructureSchema_valid_witness :
  exists p, ProjectStructureSchema (Some structure_json) = inr p /\ valid_structure p = true.
Proof.
  destruct (ProjectStructureSchema (Some structure_json)) as [e|p] eqn:Hp;
    [vm_compute in Hp; discriminate Hp|].
  exists p. split; [reflexivity|].
  exact (ProjectStructureSchema_valid (Some structure_json) p Hp).
Defined.

Lemma z_items_strings l : z_items z_string (map JString l) = inr l.
Proof. induction l as [|x l IH]; [reflexivity|]. cbn. rewrite IH. reflexivity. Qed.

Lemma z_items_saved {A} (schema : Schema A) (save : A -> JSON) (P : A -> bool) l :
  (forall a, P a = true -> schema (Some (save a)) = inr a) ->
  forallb P l = true -> z_items schema (map save l) = inr l.
Proof.
  intros Hsave. induction l as [|x l IH]; [reflexivity|]. cbn [forallb map z_items].
  intros H. apply andb_prop in H as [Hx Hl]. rewrite (Hsave x Hx), (IH Hl). reflexivity.
Qed.

Lemma z_string_min1_saved msg s :
  truthy s = true -> z_string_min1 msg (Some (JString s)) = inr s.
Proof. intros H. unfold z_string_min1, z_string. rewrite H. reflexivity. Qed.

Lemma z_priority_saved n : in_1_to_5 n = true -> z_priority (Some (JNumber n)) = inr n.
Proof.
  unfold in_1_to_5, z_priority. intros H.
  replace ((n =? 1) || (n =? 2) || (n =? 3) || (n =? 4) || (n =? 5)) with true by lia.
  reflexivity.
Qed.

Lemma z_complexity_saved c : z_complexity (Some (JString (complexity_string c))) = inr c.
Proof. destruct c; reflexivity. Qed.

Ltac fields :=
  repeat first [ rewrite field_same | rewrite field_other by reflexivity ].

Lemma saved_deliverable_accepted d :
  valid_deliverable d = true -> DeliverableSchema (Some (saved_deliverable d)) = inr d.
Proof.
  destruct d as [id capabilityId title description criteria dependencies gate].
  unfold valid_deliverable, DeliverableSchema, saved_deliverable, z_object, strings.
  cbn [Deliverable.id Deliverable.capabilityId Deliverable.title Deliverable.description
       Deliverable.completionCriteria Deliverable.dependencies Deliverable.requiresReviewGate].
  intros H. apply andb_prop in H as [Ht Hd]. fields.
  rewrite (z_string_min1_saved _ _ Ht), (z_string_min1_saved _ _ Hd).
  unfold z_default, z_array, z_string at 1 2, z_boolean. rewrite !z_items_strings. reflexivity.
Qed.

Lemma saved_task_accepted t :
  valid_task t = true -> ChecklistItemSchema (Some (saved_task t)) = inr t.
Proof.
  destruct t as [id title description].
  unfold valid_task, ChecklistItemSchema, saved_task, z_object, property.
  cbn [ChecklistItem.id ChecklistItem.title ChecklistItem.description app].
  intros Ht. fields. rewrite (z_string_min1_saved _ _ Ht).
  destruct description as [d|]; fields; reflexivity.
Qed.

Lemma z_number_between_saved lo hi n :
  (lo <=? n) && (n <=? hi) = true -> z_number_between lo hi (Some (JNumber n)) = inr n.
Proof. intros H. unfold z_number_between. rewrite H. reflexivity. Qed.

Lemma z_default_strings l : z_default (z_array z_string) [] (Some (strings l)) = inr l.
Proof. apply z_items_strings. Qed.

Lemma saved_capability_accepted c :
  valid_capability c = true -> CapabilitySchema (Some (saved_capability c)) = inr c.
Proof.
  destruct c as [id initiativeId title description contract criteria constraints priority
                 complexity hours dependencies context labels flag deliverables tasks].
  unfold valid_capability, CapabilitySchema, saved_capability, z_object.
  cbn [Capability.id Capability.initiativeId Capability.title Capability.description
       Capability.inputOutputContract Capability.acceptanceCriteria
       Capability.edgeConstraints Capability.priority Capability.complexity
       Capability.estimatedHours Capability.dependencies Capability.aiContext
       Capability.labels Capability.shouldCreateSubIssues Capability.deliverables
       Capability.tasks].
  intros H.
  apply andb_prop in H as [H Htasks]. apply andb_prop in H as [H Hdeliverables].
  apply andb_prop in H as [H Hhi]. apply andb_prop in H as [H Hlo].
  apply andb_prop in H as [H Hpriority]. apply andb_prop in H as [Htitle Hdescription].
  fields.
  rewrite (z_string_min1_saved _ _ Htitle), (z_string_min1_saved _ _ Hdescription).
  rewrite !z_default_strings, (z_priority_saved _ Hpriority), z_complexity_saved.
  rewrite (z_number_between_saved 0 40 hours) by (rewrite Hlo, Hhi; reflexivity).
  unfold z_default, z_array, z_string, z_boolean.
  rewrite (z_items_saved _ _ _ _ saved_deliverable_accepted Hdeliverables).
  rewrite (z_items_saved _ _ _ _ saved_task_accepted Htasks).
  reflexivity.
Qed.

Lemma saved_initiative_accepted i :
  valid_initiative i = true -> InitiativeSchema (Some (saved_initiative i)) = inr i.
Proof.
  destruct i as [id title description objective metrics priority capabilities].
  unfold valid_initiative, InitiativeSchema, saved_initiative, z_object.
  cbn [Initiative.id Initiative.title Initiative.description Initiative.objective
       Initiative.successMetrics Initiative.priority Initiative.capabilities].
  intros H.
  apply andb_prop in H as [H Hcapabilities]. apply andb_prop in H as [H Hsome].
  apply andb_prop in H as [H Hpriority]. apply andb_prop in H as [Htitle Hobjective].
  fields.
  rewrite (z_string_min1_saved _ _ Htitle), (z_string_min1_saved _ _ Hobjective).
  rewrite z_default_strings, (z_priority_saved _ Hpriority).
  unfold z_array_min1, z_array, z_string.
  rewrite (z_items_saved _ _ _ _ saved_capability_accepted Hcapabilities).
  destruct capabilities; [discriminate Hsome|reflexivity].
Qed.

Lemma saved_techStack_accepted t : TechStackSchema (Some (saved_techStack t)) = inr t.
Proof.
  destruct t as [[f|] [b|] [d|] [t|] [y|]];
    unfold TechStackSchema, saved_techStack, z_object, property, strings;
    cbn [TechStack.frontend TechStack.backend TechStack.database TechStack.testing
         TechStack.deployment app];
    fields; cbn [field String.eqb Ascii.eqb Bool.eqb];
    unfold z_optional, z_array; rewrite ?z_items_strings; reflexivity.
Qed.

Lemma saved_files_accepted l : z_items FileContentSchema (map saved_file l) = inr l.
Proof.
  apply (z_items_saved _ _ (fun _ => true)); [|induction l; auto].
  intros [path content] _. reflexivity.
Qed.

Lemma saved_structure_parses (p : ProjectStructure.t) :
  valid_structure p = true ->
  ProjectStructureSchema (Some (saved_structure p)) = inr p.
Proof.
  destruct p as [title description techStack initiatives fileStructure initialFiles].
  unfold valid_structure, ProjectStructureSchema, saved_structure, z_object.
  cbn [ProjectStructure.title ProjectStructure.description ProjectStructure.techStack
       ProjectStructure.initiatives ProjectStructure.fileStructure
       ProjectStructure.initialFiles].
  intros H.
  apply andb_prop in H as [H Hinitiatives]. apply andb_prop in H as [H Hsome].
  apply andb_prop in H as [Htitle Hdescription].
  cbn [app]. fields.
  rewrite (z_string_min1_saved _ _ Htitle), (z_string_min1_saved _ _ Hdescription).
  rewrite saved_techStack_accepted.
  unfold z_array_min1, z_array.
  rewrite (z_items_saved _ _ _ _ saved_initiative_accepted Hinitiatives).
  destruct initiatives as [|i initiatives]; [discriminate Hsome|].
  destruct fileStructure as [fs|], initialFiles as [files|];
    unfold property; cbn [app]; fields; cbn [field];
    unfold z_optional, z_record, z_object, z_array; rewrite ?saved_files_accepted;
    reflexivity.
Qed.

(** A structure written by the create command is read back unchanged:
    for every structure with the guarantees of validation, validating
    what [JSON.stringify] wrote of it returns that same structure. *)
Theorem saved_structure_accepted (p : ProjectStructure.t) :
  valid_structure p = true ->
  ProjectStructureSchema (Some (saved_structure p)) = inr p.
Proof.
  destruct p as [title description techStack initiatives fileStructure initialFiles].
  unfold valid_structure, ProjectStructureSchema, saved_structure, z_object.
  cbn [ProjectStructure.title ProjectStructure.description ProjectStructure.techStack
       ProjectStructure.initiatives ProjectStructure.fileStructure
       ProjectStructure.initialFiles].
  intros H.
  apply andb_prop in H as [H Hinitiatives]. apply andb_prop in H as [H Hsome].
  apply andb_prop in H as [Htitle Hdescription].
  cbn [app]. fields.
  rewrite (z_string_min1_saved _ _ Htitle), (z_string_min1_saved _ _ Hdescription).
  rewrite saved_techStack_accepted.
  unfold z_array_min1, z_array.
  rewrite (z_items_saved _ _ _ _ saved_initiative_accepted Hinitiatives).
  destruct initiatives as [|i initiatives]; [discriminate Hsome|].
  destruct fileStructure as [fs|], initialFiles as [files|];
    unfold property; cbn [app]; fields; cbn [field];
    unfold z_optional, z_record, z_object, z_array; rewrite ?saved_files_accepted;
    reflexivity.
Qed.

Lemma saved_structure_accepted_witness :
  ProjectStructureSchema (Some (saved_structure minimalStructure)) = inr minimalStructure.
Proof. apply saved_structure_accepted. vm_compute. reflexivity. Defined.

Lemma ProjectOverviewSchema_valid j overview :
  ProjectOverviewSchema j = inr overview ->
  truthy (ProjectOverview.title overview) = true /\
  truthy (ProjectOverview.description overview) = true /\
  forallb valid_summary (ProjectOverview.initiatives overview) = true.
Proof.
  unfold ProjectOverviewSchema, z_object. destruct j as [[| | | | |o]|]; try discriminate.
  intros H. parsed H. cbn.
  split; [exact (z_string_min1_truthy _ _ _ E)|].
  split; [exact (z_string_min1_truthy _ _ _ E0)|].
  refine (proj2 (z_array_min1_forallb _ valid_summary _ _ _ _ E2)).
  clear. intros j i. unfold InitiativeSummarySchema, z_object.
  destruct j as [| | | | |o]; try discriminate. intros H. parsed H.
  unfold valid_summary. cbn.
  rewrite (z_string_min1_truthy _ _ _ E0), (z_string_min1_truthy _ _ _ E2),
    (z_priority_range _ _ E4). reflexivity.
Qed.

Lemma attach_valid summary capabilities :
  valid_summary summary = true ->
  negb (Nat.eqb (length capabilities) 0) = true ->
  forallb valid_capability capabilities = true ->
  valid_initiative (attach summary capabilities) = true.
Proof.
  unfold valid_summary, valid_initiative, attach. cbn. intros -> -> ->. reflexivity.
Qed.

Section DecomposerResults.

Variable E : Surroundings.
Variable model : string.
Variable maxTokens : Z.
Variable buildPrompt : PRDMetadata.t -> string.
Variable buildInitiativesPrompt : PRDMetadata.t -> string.
Variable buildCapabilitiesPrompt : PRDMetadata.t -> InitiativeSummary.t -> list string -> string.
Variable extractJSON : string -> string.
Variable JSON_parse : string -> string + JSON.

Lemma decomposeInitiativeCapabilities_valid prdMetadata summary ids s capabilities s' :
  decomposeInitiativeCapabilities E model maxTokens buildCapabilitiesPrompt extractJSON
    JSON_parse prdMetadata summary ids s = (Returned capabilities, s') ->
  negb (Nat.eqb (length capabilities) 0) = true /\
  forallb valid_capability capabilities = true.
Proof.
  unfold decomposeInitiativeCapabilities, bind, say. intros H.
  apply generate_run in H as (answer & notes & _ & _ & _ & Hschema).
  destruct (Hschema capabilities eq_refl) as [parsed Hparsed].
  exact (z_array_min1_forallb _ valid_capability _ _ _
           (fun j => CapabilitySchema_valid (Some j)) Hparsed).
Qed.

Lemma phase2_runs_valid prdMetadata overview s summaries initiatives failed s' :
  phase2_runs E model maxTokens buildCapabilitiesPrompt extractJSON JSON_parse
    prdMetadata overview s summaries initiatives failed s' ->
  forallb valid_summary summaries = true ->
  forallb valid_initiative initiatives = true.
Proof.
  induction 1 as [| s summary rest before capabilities s1 after initiatives failed s' _ Hgen _ _ IH
                  | s summary rest before error s1 after initiatives failed s' _ _ _ _ IH];
    cbn [forallb]; intros Hs.
  - reflexivity.
  - apply andb_prop in Hs as [Hsummary Hrest].
    destruct (decomposeInitiativeCapabilities_valid _ _ _ _ _ _ Hgen) as [Hsome Hvalid].
    rewrite (attach_valid _ _ Hsummary Hsome Hvalid), (IH Hrest). reflexivity.
  - apply andb_prop in Hs as [_ Hrest]. exact (IH Hrest).
Qed.

Lemma twoPhase_returned prdFile prdMetadata s structure :
  fst (twoPhase E model maxTokens buildInitiativesPrompt buildCapabilitiesPrompt
         extractJSON JSON_parse prdFile prdMetadata s) = Returned structure ->
  exists parsed overview initiatives failed s1 s2,
    ProjectOverviewSchema (Some parsed) = inr overview /\
    phase2_runs E model maxTokens buildCapabilitiesPrompt extractJSON JSON_parse
      prdMetadata overview s1 (ProjectOverview.initiatives overview) initiatives failed s2 /\
    initiatives <> [] /\
    structure = projectStructure_of overview initiatives.
Proof.
  unfold twoPhase, try_catch. unfold bind at 1, say at 1. unfold bind at 1.
  destruct (decomposeInitiatives _ _ _ _ _ _ _ _) as [[overview|error] s1] eqn:Hphase1.
  2: { unfold bind, say, throw. cbn. discriminate. }
  unfold bind at 1, say at 1. unfold bind at 1.
  match goal with |- context [phase2 _ _ _ _ _ _ _ _ ?s0] =>
    destruct (phase2_run E model maxTokens buildCapabilitiesPrompt extractJSON JSON_parse
                prdMetadata overview s0)
      as (initiatives & failed & s2 & -> & Hruns & _ & _)
  end.
  cbn [fst snd].
  destruct (afterPhase2_run E prdFile overview initiatives failed s2)
    as (written & notes & result & -> & _ & Hpolicy).
  unfold decomposeInitiatives, bind, say in Hphase1.
  apply generate_run in Hphase1 as (answer & notes1 & _ & _ & _ & Hschema).
  destruct (Hschema overview eq_refl) as [parsed Hparsed].
  destruct result as [structure'|error]; [|unfold bind, say, throw; cbn; discriminate].
  cbn [fst]. intros [= ->].
  exists parsed, overview, initiatives, failed. do 2 eexists.
  split; [exact Hparsed|]. split; [exact Hruns|].
  unfold snapshot_policy in Hpolicy.
  destruct initiatives as [|i initiatives]; [destruct Hpolicy as [_ [=]]|].
  split; [discriminate|].
  destruct failed; destruct Hpolicy as [_ [= ->]]; reflexivity.
Qed.

(** What the two-phase branch of the create command returns can be
    saved and applied: validating what [JSON.stringify] writes of it
    returns the same structure. *)
Theorem twoPhase_result_is_accepted (prdFile : string) (prdMetadata : PRDMetadata.t)
    (s : Session) (structure : ProjectStructure.t) :
  fst (twoPhase E model maxTokens buildInitiativesPrompt buildCapabilitiesPrompt
         extractJSON JSON_parse prdFile prdMetadata s) = Returned structure ->
  valid_structure structure = true /\
  ProjectStructureSchema (Some (saved_structure structure)) = inr structure.
Proof.
  intros H.
  assert (Hvalid : valid_structure structure = true).
  { apply twoPhase_returned in H
      as (parsed & overview & initiatives & failed & s1 & s2 & Hparsed & Hruns & Hsome & ->).
    destruct (ProjectOverviewSchema_valid _ _ Hparsed) as (Htitle & Hdescription & Hsummaries).
    unfold valid_structure, projectStructure_of. cbn.
    rewrite Htitle, Hdescription, (phase2_runs_valid _ _ _ _ _ _ _ Hruns Hsummaries).
    destruct initiatives; [congruence|reflexivity]. }
  split; [exact Hvalid | exact (saved_structure_parses _ Hvalid)].
Qed.

(** The same for single-pass decomposition: what [decompose] returns is
    a structure with the guarantees of validation, which is read back
    unchanged after being saved. *)
Theorem decompose_result_is_accepted (prdMetadata : PRDMetadata.t) (s : Session)
    (structure : ProjectStructure.t) :
  fst (decompose E model maxTokens buildPrompt extractJSON JSON_parse prdMetadata s)
  = Returned structure ->
  valid_structure structure = true /\
  ProjectStructureSchema (Some (saved_structure structure)) = inr structure.
Proof.
  intros H.
  assert (Hvalid : valid_structure structure = true).
  { unfold decompose, bind, say in H.
    destruct (generate _ _ _ _ _ _ _ _ _ _ _ _) as [o s'] eqn:Hrun. cbn [fst] in H. subst o.
    apply generate_run in Hrun as (answer & notes & _ & _ & _ & Hschema).
    destruct (Hschema structure eq_refl) as [parsed Hparsed].
    exact (ProjectStructureSchema_guarantees _ _ Hparsed). }
  split; [exact Hvalid | exact (saved_structure_parses _ Hvalid)].
Qed.

End DecomposerResults.

Lemma twoPhase_result_is_accepted_witness :
  exists structure,
    fst (twoPhase flaky claude 8000 initiatives_prompt capabilities_prompt no_fence
           named_documents "prd.md" a_document []) = Returned structure /\
    ProjectStructureSchema (Some (saved_structure structure)) = inr structure.
Proof.
  destruct (fst (twoPhase flaky claude 8000 initiatives_prompt capabilities_prompt no_fence
                   named_documents "prd.md" a_document [])) as [structure|error] eqn:H;
    [|vm_compute in H; discriminate H].
  exists structure. split; [reflexivity|].
  exact (proj2 (twoPhase_result_is_accepted flaky claude 8000 initiatives_prompt
                  capabilities_prompt no_fence named_documents "prd.md" a_document []
                  structure H)).
Defined.

Lemma decompose_result_is_accepted_witness :
  exists structure,
    fst (decompose single claude 8000 plain_prompt no_fence whole_document a_document [])
    = Returned structure /\
    ProjectStructureSchema (Some (saved_structure structure)) = inr structure.
Proof.
  destruct (fst (decompose single claude 8000 plain_prompt no_fence whole_document
                   a_document [])) as [structure|error] eqn:H;
    [|vm_compute in H; discriminate H].
  exists structure. split; [reflexivity|].
  exact (proj2 (decompose_result_is_accepted single claude 8000 plain_prompt no_fence
                  whole_document a_document [] structure H)).
Defined.

(** ** Colours of custom labels *)

Lemma all_chars_append p a b :
  all_chars p (a +:+ b) = all_chars p a && all_chars p b.
Proof.
  induction a as [|c a IH]; [reflexivity|].
  change (String c a +:+ b) with (String c (a +:+ b)). cbn [all_chars].
  rewrite IH, andb_assoc. reflexivity.
Qed.

Lemma length_append (a b : string) :
  String.length (a +:+ b) = (String.length a + String.length b)%nat.
Proof.
  induction a as [|c a IH]; [reflexivity|].
  change (String c a +:+ b) with (String c (a +:+ b)). cbn [String.length]. rewrite IH.
  reflexivity.
Qed.

Lemma string_of_uint_digits d :
  all_chars is_lower_hex_digit (NilEmpty.string_of_uint d) = true.
Proof. induction d; cbn [NilEmpty.string_of_uint all_chars]; rewrite ?IHd; reflexivity. Qed.

Lemma toString16_digits n : all_chars is_lower_hex_digit (toString16 n) = true.
Proof.
  unfold toString16, NilZero.string_of_uint.
  destruct (N.to_hex_uint (Z.to_N n)); try reflexivity; apply string_of_uint_digits.
Qed.

Lemma take_string_chars p n s :
  all_chars p s = true -> all_chars p (take_string n s) = true.
Proof.
  revert s. induction n as [|n IH]; intros [|c s]; try reflexivity.
  cbn [take_string all_chars]. intros H. apply andb_prop in H as [-> Hs].
  rewrite (IH s Hs). reflexivity.
Qed.

Lemma take_string_length n s : (String.length (take_string n s) <= n)%nat.
Proof.
  revert s. induction n as [|n IH]; intros [|c s]; cbn [take_string String.length]; try lia.
  specialize (IH s). lia.
Qed.

Lemma zeros_chars n :
  all_chars is_lower_hex_digit (string_of_list_ascii (repeat "0"%char n)) = true.
Proof. induction n as [|n IH]; [reflexivity|]. cbn. exact IH. Qed.

Lemma zeros_length n : String.length (string_of_list_ascii (repeat "0"%char n)) = n.
Proof. induction n as [|n IH]; [reflexivity|]. cbn. rewrite IH. reflexivity. Qed.

Lemma upper_digit c : is_lower_hex_digit c = true -> is_hex_digit (upper c) = true.
Proof. destruct c as [[] [] [] [] [] [] [] []]; vm_compute; intros H; congruence. Qed.

Lemma toUpperCase_digits s :
  all_chars is_lower_hex_digit s = true -> all_chars is_hex_digit (toUpperCase s) = true.
Proof.
  induction s as [|c s IH]; [reflexivity|]. cbn [all_chars toUpperCase]. intros H.
  apply andb_prop in H as [Hc Hs]. rewrite (upper_digit c Hc), (IH Hs). reflexivity.
Qed.

Lemma toUpperCase_length s : String.length (toUpperCase s) = String.length s.
Proof. induction s as [|c s IH]; [reflexivity|]. cbn. rewrite IH. reflexivity. Qed.

(** The colour generated for a label is always a colour: six characters,
    each a digit or a letter from [A] to [F], whatever the name of the
    label (the empty name included). *)
Theorem generateColor_is_a_colour (text : string) :
  String.length (generateColor text) = 6%nat /\
  all_chars is_hex_digit (generateColor text) = true.
Proof.
  unfold generateColor. cbv zeta. split.
  - rewrite toUpperCase_length. unfold padEnd0. rewrite length_append, zeros_length.
    pose proof (take_string_length 6 (toString16 (Z.abs (hash_of text)))). lia.
  - apply toUpperCase_digits. unfold padEnd0. rewrite all_chars_append, zeros_chars.
    rewrite take_string_chars; [reflexivity | apply toString16_digits].
Qed.

(** ** The label manager *)

Section LabelManagerFacts.

Import LabelManager.

Variable R : Repository.
Variable defaultLabels : bool.

Lemma asked_for_app a b : asked_for (a ++ b) = asked_for a ++ asked_for b.
Proof. unfold asked_for. apply omap_app. Qed.

Lemma addCustomLabels_run customLabels base s :
  (defaultLabels = true -> DEFAULT_LABELS s = base) ->
  addCustomLabels defaultLabels customLabels base s
  = (inr (planned customLabels base),
     mk (if defaultLabels then planned customLabels base else DEFAULT_LABELS s) (history s)).
Proof.
  intros Hbase.
  assert (Hloop : forall names base s,
    (defaultLabels = true -> DEFAULT_LABELS s = base) ->
    fold_tasks (fun labelsToCreate labelName =>
                  if existsb (named labelName) labelsToCreate then finish labelsToCreate
                  else push defaultLabels labelsToCreate (custom_label labelName))
      names base s
    = (inr (planned (Some names) base),
       mk (if defaultLabels then planned (Some names) base else DEFAULT_LABELS s)
         (history s))).
  { clear. induction names as [|n names IH]; intros base s Hbase.
    - cbn. destruct s as [d h]. cbn in *. destruct defaultLabels; [rewrite Hbase|]; auto.
    - cbn [fold_tasks planned fold_left]. unfold after at 1.
      destruct (existsb (named n) base) eqn:Hn.
      + unfold finish at 1. exact (IH base s Hbase).
      + unfold push at 1.
        rewrite (IH (base ++ [custom_label n])).
        * destruct defaultLabels; reflexivity.
        * intros ->. reflexivity. }
  destruct customLabels as [[|n names]|].
  - cbn. destruct s as [d h]. cbn in *. destruct defaultLabels; [rewrite Hbase|]; auto.
  - exact (Hloop (n :: names) base s Hbase).
  - cbn. destruct s as [d h]. cbn in *. destruct defaultLabels; [rewrite Hbase|]; auto.
Qed.

Lemma createLabel_run label s :
  exists answer notes,
    createLabel R label s
    = (inr tt, mk (DEFAULT_LABELS s) (history s ++ Asked_for label answer :: notes)) /\
    forallb (fun e => negb (is_remote e)) notes = true.
Proof.
  unfold createLabel. cbv zeta.
  destruct (issues_createLabel R (history s) label) as [error|[]] eqn:Hanswer.
  - destruct (has_status (Rejected error) 422); cbn [negb].
    + exists (inl error), []. split; reflexivity.
    + eexists (inl error), [_]. unfold note. cbn [DEFAULT_LABELS history].
      rewrite <- app_assoc. split; reflexivity.
  - eexists (inr tt), [_]. unfold note. cbn [DEFAULT_LABELS history].
    rewrite <- app_assoc. split; reflexivity.
Qed.

Lemma create_missing_run existingLabelNames labels :
  forall s, exists events,
    for_each (fun label =>
                if negb (exists_already existingLabelNames label) then createLabel R label
                else note CallDebug
                       ("Label " +:+ dq +:+ LabelDefinition.name label +:+ dq
                          +:+ " already exists"))
      labels s
    = (inr tt, mk (DEFAULT_LABELS s) (history s ++ events)) /\
    asked_for events
    = List.filter (fun label => negb (exists_already existingLabelNames label)) labels /\
    forallb (fun e => negb (is_listing e)) events = true.
Proof.
  unfold for_each. induction labels as [|label labels IH]; intros s.
  - exists []. rewrite app_nil_r. destruct s. repeat split.
  - cbn [fold_tasks List.filter]. unfold after at 1.
    destruct (exists_already existingLabelNames label); cbn [negb].
    + unfold note at 1.
      destruct (IH (mk (DEFAULT_LABELS s)
                      (history s ++ [Noted CallDebug
                         ("Label " +:+ dq +:+ LabelDefinition.name label +:+ dq
                            +:+ " already exists")])))
        as (events & -> & Hasked & Hlisting).
      eexists (_ :: events). cbn [DEFAULT_LABELS history]. rewrite <- app_assoc.
      split; [reflexivity|]. split; [exact Hasked|]. cbn. exact Hlisting.
    + destruct (createLabel_run label s) as (answer & notes & -> & Hnotes).
      destruct (IH (mk (DEFAULT_LABELS s) (history s ++ Asked_for label answer :: notes)))
        as (events & -> & Hasked & Hlisting).
      exists (Asked_for label answer :: notes ++ events).
      cbn [DEFAULT_LABELS history]. rewrite <- app_assoc. split; [reflexivity|].
      assert (Hquiet : asked_for notes = [] /\
                       forallb (fun e => negb (is_listing e)) notes = true).
      { clear - Hnotes. induction notes as [|[] notes IHn]; cbn in *; try discriminate; auto. }
      destruct Hquiet as [Hq1 Hq2]. split.
      * change (Asked_for label answer :: notes ++ events)
          with ([Asked_for label answer] ++ notes ++ events).
        rewrite !asked_for_app, Hq1, Hasked. reflexivity.
      * cbn [forallb is_listing negb andb]. rewrite forallb_app, Hq2, Hlisting. reflexivity.
Qed.

Lemma ensureLabels_run customLabels s o s' :
  enabled defaultLabels customLabels = true ->
  ensureLabels R defaultLabels customLabels s = (o, s') ->
  let labels := planned customLabels (if defaultLabels then DEFAULT_LABELS s else []) in
  exists answer events,
    history s'
    = history s ++ Noted CallDebug "Ensuring labels exist in repository"
        :: Listed answer :: events /\
    DEFAULT_LABELS s' = (if defaultLabels then labels else DEFAULT_LABELS s) /\
    forallb (fun e => negb (is_listing e)) events = true /\
    match answer with
    | inl error =>
        events = [] /\
        o = inl (Raised LabelManagerError
                   ("Failed to get existing labels: " +:+ HttpError.message error))
    | inr existingLabels =>
        o = inr tt /\
        asked_for events
        = List.filter (fun label =>
                         negb (exists_already (map toLowerCase existingLabels) label)) labels
    end.
Proof.
  intros Henabled. unfold ensureLabels.
  unfold enabled in Henabled.
  replace (negb defaultLabels && negb (some_labels customLabels)) with false
    by (destruct defaultLabels, (some_labels customLabels); cbn in *; congruence).
  unfold after at 1, note at 1. unfold after at 1.
  rewrite addCustomLabels_run by (cbn; intros ->; reflexivity).
  cbn [DEFAULT_LABELS history].
  set (labels := planned customLabels (if defaultLabels then DEFAULT_LABELS s else [])).
  unfold after at 1, getExistingLabels at 1. cbv zeta. cbn [DEFAULT_LABELS history].
  set (h1 := history s ++ [Noted CallDebug "Ensuring labels exist in repository"]).
  destruct (issues_listLabelsForRepo R h1) as [error|existingLabels] eqn:Hanswer.
  - intros [= <- <-]. exists (inl error), []. cbn [DEFAULT_LABELS history]. subst h1.
    rewrite <- app_assoc. repeat split.
  - unfold after at 1.
    match goal with |- context [for_each ?f ?l ?s0] =>
      destruct (create_missing_run (map toLowerCase existingLabels) l s0)
        as (events & Hrun & Hasked & Hlisting)
    end.
    rewrite Hrun. unfold note. cbn [DEFAULT_LABELS history]. intros [= <- <-].
    exists (inr existingLabels), (events ++ [Noted CallSuccess
              ("Labels configured (" +:+ show_nat (length labels) +:+ " labels)")]).
    cbn [DEFAULT_LABELS history].
    subst h1. rewrite <- !app_assoc. cbn [app]. split; [reflexivity|].
    split; [reflexivity|]. split.
    + rewrite forallb_app, Hlisting. reflexivity.
    + split; [reflexivity|]. rewrite asked_for_app, Hasked. cbn. apply app_nil_r.
Qed.

Lemma not_listed events answer :
  forallb (fun e => negb (is_listing e)) events = true -> ~ In (Listed answer) events.
Proof.
  induction events as [|e events IH]; [auto|]. cbn [forallb]. intros H [-> | Hin].
  - discriminate H.
  - apply andb_prop in H as [_ H]. exact (IH H Hin).
Qed.

(** If the labels of the repository could be listed, [ensureLabels]
    returns, whatever happens to the creations, and the labels whose
    creation it asked for are, in order, the labels it is about (the
    default ones if enabled, then the custom ones) whose name, in lower
    case, is not the lower-case name of a listed label. *)
Theorem ensureLabels_asks_for_missing_labels (customLabels : option (list string))
    (s : LabelManager.t) (delta : list Event) (existingLabels : list string) :
  let run := ensureLabels R defaultLabels customLabels s in
  history (snd run) = history s ++ delta ->
  In (Listed (inr existingLabels)) delta ->
  fst run = inr tt /\
  asked_for delta
  = List.filter (fun label =>
                   negb (exists_already (map toLowerCase existingLabels) label))
      (planned customLabels (if defaultLabels then DEFAULT_LABELS s else [])).
Proof.
  intros run Hdelta Hin. subst run.
  destruct (ensureLabels R defaultLabels customLabels s) as [o s'] eqn:Hrun.
  cbn [fst snd] in *.
  destruct (enabled defaultLabels customLabels) eqn:Henabled.
  - destruct (ensureLabels_run _ _ _ _ Henabled Hrun)
      as (answer & events & Hhistory & _ & Hlisting & Hanswer).
    rewrite Hhistory in Hdelta. apply app_inv_head in Hdelta. subst delta.
    destruct Hin as [[=] | [[= ->] | Hin]]; [|destruct (not_listed _ _ Hlisting Hin)].
    destruct Hanswer as [-> Hasked]. split; [reflexivity|]. exact Hasked.
  - unfold ensureLabels in Hrun. unfold enabled in Henabled.
    replace (negb defaultLabels && negb (some_labels customLabels)) with true in Hrun
      by (destruct defaultLabels, (some_labels customLabels); cbn in *; congruence).
    unfold note in Hrun. injection Hrun as <- <-. cbn [history] in Hdelta.
    apply app_inv_head in Hdelta. subst delta. destruct Hin as [[=] | []].
Qed.

(** The only way [ensureLabels] fails is that the labels could not be
    listed: it then throws a [LabelManagerError] carrying the message of
    the rejection, and has asked for no creation. *)
Theorem ensureLabels_fails_only_on_listing (customLabels : option (list string))
    (s : LabelManager.t) (f : Failure) :
  let run := ensureLabels R defaultLabels customLabels s in
  fst run = inl f ->
  exists error,
    f = Raised LabelManagerError
          ("Failed to get existing labels: " +:+ HttpError.message error) /\
    history (snd run)
    = history s ++ [Noted CallDebug "Ensuring labels exist in repository";
                    Listed (inl error)].
Proof.
  intros run Hf. subst run.
  destruct (ensureLabels R defaultLabels customLabels s) as [o s'] eqn:Hrun.
  cbn [fst snd] in *. subst o.
  destruct (enabled defaultLabels customLabels) eqn:Henabled.
  - destruct (ensureLabels_run _ _ _ _ Henabled Hrun)
      as (answer & events & Hhistory & _ & _ & Hanswer).
    destruct answer as [error|existingLabels].
    + destruct Hanswer as [-> [= ->]]. exists error. split; [reflexivity|exact Hhistory].
    + destruct Hanswer as [[=] _].
  - unfold ensureLabels in Hrun. unfold enabled in Henabled.
    replace (negb defaultLabels && negb (some_labels customLabels)) with true in Hrun
      by (destruct defaultLabels, (some_labels customLabels); cbn in *; congruence).
    unfold note in Hrun. discriminate Hrun.
Qed.

(** With default labels enabled, the custom labels of a call are added
    to the array [DEFAULT_LABELS] of the instance, which is the array the
    call works on: a later call on the same instance is about them too.
    With default labels disabled the array is left as it was. *)
Theorem ensureLabels_extends_DEFAULT_LABELS (customLabels : option (list string))
    (s : LabelManager.t) :
  DEFAULT_LABELS (snd (ensureLabels R defaultLabels customLabels s))
  = if defaultLabels then planned customLabels (DEFAULT_LABELS s) else DEFAULT_LABELS s.
Proof.
  destruct (ensureLabels R defaultLabels customLabels s) as [o s'] eqn:Hrun.
  cbn [snd].
  destruct (enabled defaultLabels customLabels) eqn:Henabled.
  - destruct (ensureLabels_run _ _ _ _ Henabled Hrun) as (answer & events & _ & -> & _).
    destruct defaultLabels; reflexivity.
  - unfold ensureLabels in Hrun. unfold enabled in Henabled.
    replace (negb defaultLabels && negb (some_labels customLabels)) with true in Hrun
      by (destruct defaultLabels, (some_labels customLabels); cbn in *; congruence).
    unfold note in Hrun. injection Hrun as <- <-.
    destruct defaultLabels; [discriminate Henabled|reflexivity].
Qed.

Lemma named_in labelName labels :
  existsb (named labelName) labels = true <-> In labelName (map LabelDefinition.name labels).
Proof.
  induction labels as [|l labels IH]; cbn [existsb map In]; [split; [discriminate|tauto]|].
  unfold named at 1. destruct IH as [IH1 IH2]. split.
  - intros H. apply orb_prop in H as [H | H].
    + left. apply String.eqb_eq. exact H.
    + right. exact (IH1 H).
  - intros [H | H].
    + apply String.eqb_eq in H. rewrite H. reflexivity.
    + rewrite (IH2 H). apply orb_true_r.
Qed.

Lemma planned_names names :
  forall base,
    (exists added,
        planned (Some names) base = base ++ map custom_label added /\
        forall n, In n added -> In n names) /\
    (forall n, In n names ->
               In n (map LabelDefinition.name (planned (Some names) base))) /\
    (NoDup (map LabelDefinition.name base) ->
     NoDup (map LabelDefinition.name (planned (Some names) base))).
Proof.
  induction names as [|n names IH]; intros base.
  - split; [exists []; rewrite app_nil_r; split; [reflexivity|intros ? []]|].
    split; [intros ? []|auto].
  - cbn [planned fold_left].
    destruct (existsb (named n) base) eqn:Hn.
    + destruct (IH base) as ((added & Hadded & Hin) & Hall & Hnodup).
      cbn [planned] in *. split; [|split].
      * exists added. split; [exact Hadded|]. intros m Hm. right. exact (Hin m Hm).
      * intros m [<- | Hm]; [|exact (Hall m Hm)].
        rewrite Hadded, map_app. apply in_or_app. left. apply named_in. exact Hn.
      * exact Hnodup.
    + destruct (IH (base ++ [custom_label n])) as ((added & Hadded & Hin) & Hall & Hnodup).
      cbn [planned] in *. split; [|split].
      * exists (n :: added). rewrite Hadded, <- app_assoc. split; [reflexivity|].
        intros m [<- | Hm]; [left; reflexivity | right; exact (Hin m Hm)].
      * intros m [<- | Hm]; [|exact (Hall m Hm)].
        rewrite Hadded, !map_app. apply in_or_app. left. apply in_or_app. right.
        left. reflexivity.
      * intros Hbase. apply Hnodup. rewrite map_app. cbn [map custom_label LabelDefinition.name].
        apply NoDup_app. split; [exact Hbase|]. split.
        -- intros m Hm Hm'. apply list_elem_of_In in Hm. apply list_elem_of_In in Hm'.
           destruct Hm' as [<- | []]. apply named_in in Hm. congruence.
        -- constructor; [inversion 1|constructor].
Qed.

(** The labels a call is about never name a label twice: custom names
    that a label already carries, or that are repeated, add nothing;
    every custom name is the name of one of the labels; and the labels
    added are custom labels for names of the call, after the labels
    there were. *)
Theorem addCustomLabels_adds_new_names (names : list string)
    (base : list LabelDefinition.t) (s : LabelManager.t) :
  NoDup (map LabelDefinition.name base) ->
  exists labels added,
    fst (addCustomLabels defaultLabels (Some names) base s) = inr labels /\
    labels = base ++ map custom_label added /\
    (forall n, In n added -> In n names) /\
    (forall n, In n names -> In n (map LabelDefinition.name labels)) /\
    NoDup (map LabelDefinition.name labels).
Proof.
  intros Hbase.
  destruct (planned_names names base) as ((added & Hadded & Hin) & Hall & Hnodup).
  exists (planned (Some names) base), added.
  split; [|split; [exact Hadded|split; [exact Hin|split; [exact Hall|exact (Hnodup Hbase)]]]].
  clear. revert base s. destruct names as [|n names]; [reflexivity|].
  cbn [addCustomLabels]. generalize (n :: names). clear.
  induction l as [|n names IH]; intros base s; [reflexivity|].
  cbn [fold_tasks planned fold_left]. unfold after at 1.
  destruct (existsb (named n) base).
  - unfold finish at 1. apply IH.
  - unfold push at 1. apply IH.
Qed.

End LabelManagerFacts.

Lemma ensureLabels_asks_for_missing_labels_witness :
  LabelManager.asked_for
    (LabelManager.history
       (snd (LabelManager.ensureLabels two_labels false (Some ["initiative-1"; "Bug"])
               LabelManager.new)))
  = [LabelManager.custom_label "initiative-1"].
Proof.
  refine (proj2 (ensureLabels_asks_for_missing_labels two_labels false
                   (Some ["initiative-1"; "Bug"]) LabelManager.new _
                   ["Bug"; "type:initiative"] eq_refl _)).
  vm_compute. right. left. reflexivity.
Defined.

Lemma ensureLabels_fails_only_on_listing_witness :
  exists error,
    Raised LabelManagerError "Failed to get existing labels: Not Found"
    = Raised LabelManagerError
        ("Failed to get existing labels: " +:+ HttpError.message error) /\
    LabelManager.history
      (snd (LabelManager.ensureLabels unreadable true None LabelManager.new))
    = LabelManager.history LabelManager.new
        ++ [LabelManager.Noted CallDebug "Ensuring labels exist in repository";
            LabelManager.Listed (inl error)].
Proof.
  apply (ensureLabels_fails_only_on_listing unreadable true None LabelManager.new).
  vm_compute. reflexivity.
Defined.

Lemma addCustomLabels_adds_new_names_witness :
  exists labels added,
    fst (LabelManager.addCustomLabels true (Some ["initiative-1"; "bug"; "initiative-1"])
           LabelManager.DEFAULT_LABELS_initially LabelManager.new) = inr labels /\
    labels = LabelManager.DEFAULT_LABELS_initially
               ++ map LabelManager.custom_label added /\
    (forall n, In n added -> In n ["initiative-1"; "bug"; "initiative-1"]) /\
    (forall n, In n ["initiative-1"; "bug"; "initiative-1"] ->
               In n (map LabelDefinition.name labels)) /\
    NoDup (map LabelDefinition.name labels).
Proof.
  apply (addCustomLabels_adds_new_names true).
  refine (bool_decide_unpack _ _). vm_compute. exact I.
Defined.

(** ** The repository manager *)

Section RepoManagerFacts.

Import RepoManager.

Variable G : GitHub.
Variable owner : string.

(** The check leaves the answer in the cache; it asks GitHub only when
    the cache is empty, and then once. *)
Lemma checkIfOrganization_run s :
  exists isOrg events,
    checkIfOrganization G owner s = (inr isOrg, mk (Some isOrg) (history s ++ events)) /\
    forallb (fun e => negb (is_creation e) && negb (is_lookup e)) events = true /\
    (length (List.filter is_org_lookup events) <= 1)%nat /\
    (forall b, isOrganization s = Some b -> isOrg = b /\ events = []).
Proof.
  unfold checkIfOrganization. destruct s as [[b|] h]; cbn [isOrganization history].
  - exists b, []. rewrite app_nil_r. unfold finish.
    split; [reflexivity|]. split; [reflexivity|]. split; [cbn; lia|].
    intros b' [= ->]. auto.
  - unfold recover, after at 1, call. cbn [isOrganization history].
    destruct (orgs_get G h owner) as [error|[]] eqn:Hanswer;
      [destruct (has_status (Rejected error) 404)|];
      [eexists false, [_; _] | eexists false, [_; _] | eexists true, [_; _]];
      unfold after, set_isOrganization, note, record, finish;
      cbn [isOrganization history]; rewrite <- app_assoc;
      (split; [reflexivity|]); (split; [reflexivity|]); (split; [cbn; lia|]);
      discriminate.
Qed.

Lemma createRepository_run repoName description s o s' :
  createRepository G owner repoName description s = (o, s') ->
  exists isOrg before answer notes,
    history s' = history s ++ before ++ creation isOrg owner repoName description answer :: notes /\
    isOrganization s' = Some isOrg /\
    forallb (fun e => negb (is_creation e) && negb (is_lookup e)) before = true /\
    (length (List.filter is_org_lookup before) <= 1)%nat /\
    (forall b, isOrganization s = Some b ->
               isOrg = b /\ List.filter is_org_lookup before = []) /\
    forallb is_note notes = true /\
    match answer with
    | inr data => o = inr (repository_of owner data)
    | inl error => exists message, o = inl (Raised RepoManagerError message)
    end.
Proof.
  unfold createRepository. unfold after at 1.
  destruct (checkIfOrganization_run s) as (isOrg & events & -> & Hquiet & Hone & Hcache).
  unfold after at 1.
  assert (Hnote : exists line,
    (if isOrg
     then note CallInfo ("Creating new repository in organization '" +:+ owner +:+ "': "
                           +:+ repoName)
     else note CallInfo ("Creating new repository in user account '" +:+ owner +:+ "': "
                           +:+ repoName)) (mk (Some isOrg) (history s ++ events))
    = (inr tt, mk (Some isOrg) (history s ++ events ++ [Noted CallInfo line]))).
  { destruct isOrg; eexists; unfold note, record; cbn [isOrganization history];
      rewrite <- app_assoc; reflexivity. }
  destruct Hnote as (line & ->).
  set (before := events ++ [Noted CallInfo line]).
  assert (Hbefore : forallb (fun e => negb (is_creation e) && negb (is_lookup e)) before = true
                    /\ List.filter is_org_lookup before = List.filter is_org_lookup events).
  { subst before. rewrite forallb_app, Hquiet, List.filter_app. cbn. rewrite app_nil_r. auto. }
  destruct Hbefore as [Hb1 Hb2].
  unfold recover, after at 1.
  destruct isOrg.
  - unfold after at 1, call. cbn [isOrganization history].
    destruct (repos_createInOrg G (history s ++ before) owner repoName description)
      as [error|data] eqn:Hanswer.
    + assert (exists message,
        (if has_status (Rejected error) 422
         then reject (Raised RepoManagerError
                        ("Repository name " +:+ dq +:+ repoName +:+ dq
                           +:+ " is already taken or invalid"))
         else if has_status (Rejected error) 403 && true
              then reject (Raised RepoManagerError
                             ("Permission denied to create repository in organization '"
                                +:+ owner +:+ "'. "
                                +:+ "Ensure your GitHub token has 'repo' and 'read:org' scopes."))
              else reject (Raised RepoManagerError
                             ("Failed to create repository: "
                                +:+ failure_message (Rejected error))))
          (mk (Some true) ((history s ++ before)
                             ++ [Created_in_org owner repoName description (inl error)]))
        = (inl (Raised RepoManagerError message) : Failure + GitHubRepository.t,
           mk (Some true) ((history s ++ before)
                             ++ [Created_in_org owner repoName description (inl error)])))
        as (message & ->).
      { destruct (has_status (Rejected error) 422); [eexists; reflexivity|].
        destruct (has_status (Rejected error) 403); eexists; reflexivity. }
      intros [= <- <-]. exists true, before, (inl error), [].
      cbn [history isOrganization creation]. rewrite <- app_assoc.
      split; [reflexivity|]. split; [reflexivity|]. split; [exact Hb1|].
      split; [rewrite Hb2; exact Hone|]. split.
      { intros b Hb. destruct (Hcache b Hb) as [<- ->]. rewrite Hb2. auto. }
      split; [reflexivity|]. exists message. reflexivity.
    + unfold after, note, record, finish. cbn [isOrganization history].
      intros [= <- <-]. eexists true, before, (inr data), [_; _].
      cbn [history isOrganization creation]. rewrite <- !app_assoc. cbn [app].
      split; [reflexivity|]. split; [reflexivity|]. split; [exact Hb1|].
      split; [rewrite Hb2; exact Hone|]. split.
      { intros b Hb. destruct (Hcache b Hb) as [<- ->]. rewrite Hb2. auto. }
      split; reflexivity.
  - unfold after at 1, call. cbn [isOrganization history].
    destruct (repos_createForAuthenticatedUser G (history s ++ before) repoName description)
      as [error|data] eqn:Hanswer.
    + assert (exists message,
        (if has_status (Rejected error) 422
         then reject (Raised RepoManagerError
                        ("Repository name " +:+ dq +:+ repoName +:+ dq
                           +:+ " is already taken or invalid"))
         else if has_status (Rejected error) 403 && false
              then reject (Raised RepoManagerError
                             ("Permission denied to create repository in organization '"
                                +:+ owner +:+ "'. "
                                +:+ "Ensure your GitHub token has 'repo' and 'read:org' scopes."))
              else reject (Raised RepoManagerError
                             ("Failed to create repository: "
                                +:+ failure_message (Rejected error))))
          (mk (Some false) ((history s ++ before)
                              ++ [Created_for_user repoName description (inl error)]))
        = (inl (Raised RepoManagerError message) : Failure + GitHubRepository.t,
           mk (Some false) ((history s ++ before)
                              ++ [Created_for_user repoName description (inl error)])))
        as (message & ->).
      { destruct (has_status (Rejected error) 422); [eexists; reflexivity|].
        destruct (has_status (Rejected error) 403); eexists; reflexivity. }
      intros [= <- <-]. exists false, before, (inl error), [].
      cbn [history isOrganization creation]. rewrite <- app_assoc.
      split; [reflexivity|]. split; [reflexivity|]. split; [exact Hb1|].
      split; [rewrite Hb2; exact Hone|]. split.
      { intros b Hb. destruct (Hcache b Hb) as [<- ->]. rewrite Hb2. auto. }
      split; [reflexivity|]. exists message. reflexivity.
    + unfold after, note, record, finish. cbn [isOrganization history].
      intros [= <- <-]. eexists false, before, (inr data), [_; _].
      cbn [history isOrganization creation]. rewrite <- !app_assoc. cbn [app].
      split; [reflexivity|]. split; [reflexivity|]. split; [exact Hb1|].
      split; [rewrite Hb2; exact Hone|]. split.
      { intros b Hb. destruct (Hcache b Hb) as [<- ->]. rewrite Hb2. auto. }
      split; reflexivity.
Qed.

Lemma notes_are_quiet notes :
  forallb is_note notes = true ->
  forallb (fun e => negb (is_lookup e)) notes = true /\
  List.filter is_creation notes = [] /\
  List.filter is_org_lookup notes = [].
Proof.
  induction notes as [|[] notes IH]; cbn; try discriminate; auto.
Qed.

Lemma quiet_before before :
  forallb (fun e => negb (is_creation e) && negb (is_lookup e)) before = true ->
  forallb (fun e => negb (is_lookup e)) before = true /\
  List.filter is_creation before = [].
Proof.
  induction before as [|e before IH]; cbn [forallb List.filter]; [auto|].
  intros H. apply andb_prop in H as [He H]. apply andb_prop in He as [He1 He2].
  destruct (IH H) as [IH1 IH2]. rewrite He2, IH1.
  destruct (is_creation e); [discriminate He1|]. auto.
Qed.

Lemma getOrCreateRepository_run repoName description s o s' :
  getOrCreateRepository G owner repoName description s = (o, s') ->
  exists answer rest,
    history s'
    = history s
        ++ Noted CallDebug ("Checking if repository exists: " +:+ owner +:+ "/" +:+ repoName)
        :: Got repoName answer :: rest /\
    forallb (fun e => negb (is_lookup e)) rest = true /\
    (length (List.filter is_creation rest) <= 1)%nat /\
    (length (List.filter is_org_lookup rest) <= 1)%nat /\
    (forall b, isOrganization s = Some b ->
               List.filter is_org_lookup rest = [] /\ isOrganization s' = Some b) /\
    (List.filter is_org_lookup rest <> [] -> isOrganization s' <> None) /\
    match answer with
    | inr data =>
        o = inr (repository_of owner data) /\
        rest = [Noted CallInfo ("Using existing repository: " +:+ RepoData.html_url data)]
    | inl error =>
        if has_status (Rejected error) 404 then
          exists isOrg before created notes,
            rest = before ++ creation isOrg owner repoName description created :: notes /\
            List.filter is_creation before = [] /\
            forallb is_note notes = true /\
            (forall b, isOrganization s = Some b -> isOrg = b) /\
            match created with
            | inr data => o = inr (repository_of owner data)
            | inl _ => exists message, o = inl (Raised RepoManagerError message)
            end
        else
          rest = [] /\
          o = inl (Raised RepoManagerError
                     ("Failed to check repository: " +:+ HttpError.message error))
    end.
Proof.
  unfold getOrCreateRepository. unfold after at 1, note at 1, record at 1.
  unfold recover, after at 1, call. cbn [isOrganization history].
  set (line := Noted CallDebug
                 ("Checking if repository exists: " +:+ owner +:+ "/" +:+ repoName)).
  destruct (repos_get G (history s ++ [line]) repoName) as [error|data] eqn:Hanswer.
  - destruct (has_status (Rejected error) 404) eqn:Hstatus.
    + intros Hrun. apply createRepository_run in Hrun
        as (isOrg & before & created & notes & Hhistory & Hcache & Hquiet & Hone & Hhit
            & Hnotes & Hcreated).
      cbn [isOrganization history] in *.
      destruct (quiet_before _ Hquiet) as [Hq1 Hq2].
      destruct (notes_are_quiet _ Hnotes) as (Hn1 & Hn2 & Hn3).
      exists (inl error), (before ++ creation isOrg owner repoName description created :: notes).
      rewrite Hstatus.
      assert (Hc : is_creation (creation isOrg owner repoName description created) = true
                   /\ is_lookup (creation isOrg owner repoName description created) = false
                   /\ is_org_lookup (creation isOrg owner repoName description created) = false)
        by (destruct isOrg; auto).
      destruct Hc as (Hc1 & Hc2 & Hc3).
      split; [rewrite Hhistory, <- !app_assoc; reflexivity|].
      split; [rewrite forallb_app, Hq1; cbn [forallb]; rewrite Hc2, Hn1; reflexivity|].
      split; [rewrite List.filter_app, Hq2; cbn [List.filter app]; rewrite Hc1, Hn2; cbn; lia|].
      assert (Hlookups : List.filter is_org_lookup
                           (before ++ creation isOrg owner repoName description created :: notes)
                         = List.filter is_org_lookup before).
      { rewrite List.filter_app. cbn [List.filter]. rewrite Hc3, Hn3. apply app_nil_r. }
      rewrite Hlookups.
      split; [exact Hone|].
      split; [intros b Hb; destruct (Hhit b Hb) as [-> Hnone]; rewrite Hcache; auto|].
      split; [intros _; rewrite Hcache; discriminate|].
      exists isOrg, before, created, notes.
      split; [reflexivity|]. split; [exact Hq2|]. split; [exact Hnotes|].
      split; [intros b Hb; exact (proj1 (Hhit b Hb))|exact Hcreated].
    + unfold reject. intros [= <- <-]. exists (inl error), []. rewrite Hstatus.
      cbn [isOrganization history]. rewrite <- app_assoc.
      split; [reflexivity|]. split; [reflexivity|]. split; [cbn; lia|]. split; [cbn; lia|].
      split; [auto|]. split; [intros H; destruct (H eq_refl)|]. split; reflexivity.
  - unfold after, note, record, finish. cbn [isOrganization history].
    intros [= <- <-]. eexists (inr data), [_].
    cbn [isOrganization history]. rewrite <- !app_assoc.
    split; [reflexivity|]. split; [reflexivity|]. split; [cbn; lia|]. split; [cbn; lia|].
    split; [auto|]. split; [intros H; destruct (H eq_refl)|]. split; reflexivity.
Qed.

Lemma not_looked_up rest repo answer :
  forallb (fun e => negb (is_lookup e)) rest = true -> ~ In (Got repo answer) rest.
Proof.
  induction rest as [|e rest IH]; [auto|]. cbn [forallb]. intros H [-> | Hin].
  - discriminate H.
  - apply andb_prop in H as [_ H]. exact (IH H Hin).
Qed.

(** A repository that exists is used as it is: the manager looks it up
    once, asks for nothing else, and returns its name, full name and
    address, with the configured owner as owner. *)
Theorem getOrCreateRepository_uses_existing (repoName description : string)
    (s : RepoManager.t) (delta : list Event) (data : RepoData.t) :
  let run := getOrCreateRepository G owner repoName description s in
  history (snd run) = history s ++ delta ->
  In (Got repoName (inr data)) delta ->
  fst run = inr (GitHubRepository.mk (RepoData.name data) (RepoData.full_name data)
                   (RepoData.html_url data) owner) /\
  delta = [Noted CallDebug ("Checking if repository exists: " +:+ owner +:+ "/" +:+ repoName);
           Got repoName (inr data);
           Noted CallInfo ("Using existing repository: " +:+ RepoData.html_url data)].
Proof.
  intros run Hdelta Hin. subst run.
  destruct (getOrCreateRepository G owner repoName description s) as [o s'] eqn:Hrun.
  cbn [fst snd] in *.
  apply getOrCreateRepository_run in Hrun
    as (answer & rest & Hhistory & Hlookups & _ & _ & _ & _ & Hanswer).
  rewrite Hhistory in Hdelta. apply app_inv_head in Hdelta. subst delta.
  destruct Hin as [[=] | [[= ->] | Hin]]; [|destruct (not_looked_up _ _ _ Hlookups Hin)].
  destruct Hanswer as [-> ->]. split; reflexivity.
Qed.

(** A repository is created only when the lookup answered 404, and at
    most one creation is asked for in a call. *)
Theorem getOrCreateRepository_creates_only_after_404 (repoName description : string)
    (s : RepoManager.t) (delta : list Event) (e : Event) :
  let run := getOrCreateRepository G owner repoName description s in
  history (snd run) = history s ++ delta ->
  In e delta ->
  is_creation e = true ->
  (exists error, In (Got repoName (inl error)) delta /\ HttpError.status error = Some 404) /\
  List.filter is_creation delta = [e].
Proof.
  intros run Hdelta Hin He. subst run.
  destruct (getOrCreateRepository G owner repoName description s) as [o s'] eqn:Hrun.
  cbn [fst snd] in *.
  apply getOrCreateRepository_run in Hrun
    as (answer & rest & Hhistory & _ & _ & _ & _ & _ & Hanswer).
  rewrite Hhistory in Hdelta. apply app_inv_head in Hdelta. subst delta.
  destruct Hin as [<- | [<- | Hin]]; try discriminate He.
  destruct answer as [error|data].
  - destruct (has_status (Rejected error) 404) eqn:Hstatus.
    + destruct Hanswer as (isOrg & before & created & notes & -> & Hbefore & Hnotes & _).
      destruct (notes_are_quiet _ Hnotes) as (_ & Hn & _).
      assert (Hc : is_creation (creation isOrg owner repoName description created) = true)
        by (destruct isOrg; reflexivity).
      assert (Hfilter : List.filter is_creation
                          (before ++ creation isOrg owner repoName description created :: notes)
                        = [creation isOrg owner repoName description created]).
      { rewrite List.filter_app, Hbefore. cbn [List.filter app]. rewrite Hc, Hn. reflexivity. }
      split.
      * exists error. split; [right; left; reflexivity|].
        unfold has_status in Hstatus. cbn [failure_status] in Hstatus.
        destruct (HttpError.status error) as [k|]; [|discriminate Hstatus].
        apply Z.eqb_eq in Hstatus. subst k. reflexivity.
      * cbn [List.filter is_creation]. rewrite Hfilter.
        assert (Hin' : In e (List.filter is_creation
                               (before ++ creation isOrg owner repoName description created
                                  :: notes)))
          by (apply List.filter_In; auto).
        rewrite Hfilter in Hin'. destruct Hin' as [<- | []]. reflexivity.
    + destruct Hanswer as [-> _]. destruct Hin.
  - destruct Hanswer as [_ ->]. destruct Hin as [<- | []]. discriminate He.
Qed.

(** Whatever goes wrong, what [getOrCreateRepository] throws is a
    [RepoManagerError]: the error of a rejected call never comes out as
    it came. *)
Theorem getOrCreateRepository_throws_RepoManagerError (repoName description : string)
    (s : RepoManager.t) (f : Failure) :
  fst (getOrCreateRepository G owner repoName description s) = inl f ->
  exists message, f = Raised RepoManagerError message.
Proof.
  destruct (getOrCreateRepository G owner repoName description s) as [o s'] eqn:Hrun.
  cbn [fst]. intros ->.
  apply getOrCreateRepository_run in Hrun
    as (answer & rest & _ & _ & _ & _ & _ & _ & Hanswer).
  destruct answer as [error|data].
  - destruct (has_status (Rejected error) 404).
    + destruct Hanswer as (isOrg & before & created & notes & _ & _ & _ & _ & Hcreated).
      destruct created as [e|d]; [|discriminate Hcreated].
      destruct Hcreated as [message [= ->]]. exists message. reflexivity.
    + destruct Hanswer as [_ [= ->]]. eexists. reflexivity.
  - destruct Hanswer as [[=] _].
Qed.

(** Whether the owner is an organization is asked at most once in the
    life of a manager: over two calls in a row, whatever they are
    about, at most one such question is put to GitHub. *)
Theorem organization_is_checked_once (repoName repoName' description description' : string)
    (s : RepoManager.t) (delta : list Event) :
  let first := getOrCreateRepository G owner repoName description s in
  let second := getOrCreateRepository G owner repoName' description' (snd first) in
  history (snd second) = history s ++ delta ->
  (length (List.filter is_org_lookup delta) <= 1)%nat.
Proof.
  intros first second Hdelta. subst first second.
  destruct (getOrCreateRepository G owner repoName description s) as [o1 s1] eqn:Hrun1.
  cbn [snd] in Hdelta.
  destruct (getOrCreateRepository G owner repoName' description' s1) as [o2 s2] eqn:Hrun2.
  cbn [snd] in Hdelta.
  apply getOrCreateRepository_run in Hrun1
    as (answer1 & rest1 & Hhistory1 & _ & _ & Hone1 & _ & Hset1 & _).
  apply getOrCreateRepository_run in Hrun2
    as (answer2 & rest2 & Hhistory2 & _ & _ & Hone2 & Hhit2 & _ & _).
  rewrite Hhistory2, Hhistory1, <- app_assoc in Hdelta.
  apply app_inv_head in Hdelta. subst delta.
  cbn [List.filter is_org_lookup app]. rewrite List.filter_app.
  cbn [List.filter is_org_lookup]. rewrite length_app.
  destruct (List.filter is_org_lookup rest1) as [|e l] eqn:H1.
  - cbn [length]. lia.
  - destruct (isOrganization s1) as [b|] eqn:Hcache; [|destruct (Hset1 ltac:(discriminate) eq_refl)].
    destruct (Hhit2 b eq_refl) as [-> _]. cbn [length] in *. lia.
Qed.

End RepoManagerFacts.

Lemma getOrCreateRepository_uses_existing_witness :
  fst (RepoManager.getOrCreateRepository a_company "acme" "shop" "A shop" RepoManager.new)
  = inr (GitHubRepository.mk "shop" "acme/shop" "https://github.com/acme/shop" "acme").
Proof.
  refine (proj1 (getOrCreateRepository_uses_existing a_company "acme" "shop" "A shop"
                   RepoManager.new _ shop_data eq_refl _)).
  vm_compute. right. left. reflexivity.
Defined.

Lemma getOrCreateRepository_creates_only_after_404_witness :
  exists error,
    In (RepoManager.Got "blog" (inl error))
       (RepoManager.history
          (snd (RepoManager.getOrCreateRepository a_company "acme" "blog" "A blog"
                  RepoManager.new))) /\
    HttpError.status error = Some 404.
Proof.
  refine (proj1 (getOrCreateRepository_creates_only_after_404 a_company "acme" "blog" "A blog"
                   RepoManager.new _
                   (RepoManager.Created_in_org "acme" "blog" "A blog"
                      (inr (RepoData.mk "blog" "acme/blog" "https://github.com/acme/blog")))
                   eq_refl _ eq_refl)).
  vm_compute. do 5 right. left. reflexivity.
Defined.

Lemma getOrCreateRepository_throws_RepoManagerError_witness :
  exists message,
    Raised RepoManagerError "Failed to check repository: Bad credentials"
    = Raised RepoManagerError message.
Proof.
  apply (getOrCreateRepository_throws_RepoManagerError a_stranger "acme" "shop" "A shop"
           RepoManager.new).
  vm_compute. reflexivity.
Defined.

Lemma organization_is_checked_once_witness :
  (length (List.filter RepoManager.is_org_lookup
             (RepoManager.history
                (snd (RepoManager.getOrCreateRepository a_company "acme" "docs" "Docs"
                        (snd (RepoManager.getOrCreateRepository a_company "acme" "blog"
                                "A blog" RepoManager.new)))))) <= 1)%nat.
Proof.
  exact (organization_is_checked_once a_company "acme" "blog" "docs" "A blog" "Docs"
           RepoManager.new _ eq_refl).
Defined.

(** ** The project manager *)

Section ProjectManagerFacts.

Import ProjectManager.

Variable G : GitHub.

Lemma produces_finish {A} p (a : A) : produces p (finish a).
Proof. intros h. exists []. rewrite app_nil_r. split; reflexivity. Qed.

Lemma produces_reject {A} p f : produces p (@reject t A f).
Proof. intros h. exists []. rewrite app_nil_r. split; reflexivity. Qed.

Lemma produces_after {A B} p (m : Task t A) (k : A -> Task t B) :
  produces p m -> (forall a, produces p (k a)) -> produces p (after m k).
Proof.
  intros Hm Hk h. unfold after. destruct (Hm h) as (e1 & H1 & P1).
  destruct (m h) as [[f|a] h1]; cbn [snd] in *; subst h1.
  - exists e1. auto.
  - destruct (Hk a (h ++ e1)) as (e2 & H2 & P2). exists (e1 ++ e2).
    rewrite H2, <- app_assoc, forallb_app, P1, P2. auto.
Qed.

Lemma produces_recover {A} p (m : Task t A) (handler : Failure -> Task t A) :
  produces p m -> (forall f, produces p (handler f)) -> produces p (recover m handler).
Proof.
  intros Hm Hk h. unfold recover. destruct (Hm h) as (e1 & H1 & P1).
  destruct (m h) as [[f|a] h1]; cbn [snd] in *; subst h1.
  - destruct (Hk f (h ++ e1)) as (e2 & H2 & P2). exists (e1 ++ e2).
    rewrite H2, <- app_assoc, forallb_app, P1, P2. auto.
  - exists e1. auto.
Qed.

Lemma produces_note p call message :
  p (Noted call message) = true -> produces p (note call message).
Proof. intros Hp h. exists [Noted call message]. cbn. rewrite Hp. auto. Qed.

Lemma produces_graphql {A} p (answer : list Event -> HttpError.t + A) event :
  (forall a, p (event a) = true) -> produces p (graphql answer event).
Proof.
  intros Hp h. exists [event (answer h)]. unfold graphql.
  destruct (answer h); cbn; rewrite Hp; auto.
Qed.

Lemma produces_for_each {X} p (f : X -> Task t unit) l :
  (forall x, produces p (f x)) -> produces p (for_each f l).
Proof.
  intros Hf. unfold for_each. induction l as [|x l IH]; cbn [fold_tasks].
  - apply produces_finish.
  - apply produces_after; [apply Hf | intros []; exact IH].
Qed.

Lemma raises_own_finish {A} (a : A) : raises_own (finish a).
Proof. intros h f [=]. Qed.

Lemma raises_own_raise {A} message : raises_own (@raise A message).
Proof. intros h f [= <-]. eexists. reflexivity. Qed.

Lemma raises_own_note call message : raises_own (note call message).
Proof. intros h f [=]. Qed.

Lemma raises_own_after {A B} (m : Task t A) (k : A -> Task t B) :
  raises_own m -> (forall a, raises_own (k a)) -> raises_own (after m k).
Proof.
  intros Hm Hk h f. unfold after. specialize (Hm h).
  destruct (m h) as [[f'|a] h1]; cbn [fst] in *.
  - intros [= <-]. apply Hm. reflexivity.
  - apply Hk.
Qed.

Lemma raises_own_recover {A} (m : Task t A) (handler : Failure -> Task t A) :
  (forall f, raises_own (handler f)) -> raises_own (recover m handler).
Proof.
  intros Hk h f. unfold recover. destruct (m h) as [[f'|a] h1]; cbn [fst].
  - apply Hk.
  - intros [=].
Qed.

Lemma raises_own_for_each {X} (f : X -> Task t unit) l :
  (forall x, raises_own (f x)) -> raises_own (for_each f l).
Proof.
  intros Hf. unfold for_each. induction l as [|x l IH]; cbn [fold_tasks].
  - apply raises_own_finish.
  - apply raises_own_after; [apply Hf | intros []; exact IH].
Qed.

Ltac own :=
  repeat first
    [ apply raises_own_finish
    | apply raises_own_raise
    | apply raises_own_note
    | apply raises_own_recover; intros
    | apply raises_own_for_each; intros
    | apply raises_own_after; [|intros]
    | match goal with
      | |- raises_own (match ?x with _ => _ end) => destruct x
      | |- raises_own (if ?x then _ else _) => destruct x
      end ].

Ltac quiet :=
  repeat first
    [ apply produces_finish
    | apply produces_reject
    | apply produces_note; reflexivity
    | apply produces_graphql; intros; reflexivity
    | apply produces_recover; [|intros]
    | apply produces_for_each; intros
    | apply produces_after; [|intros]
    | match goal with
      | |- produces _ (match ?x with _ => _ end) => destruct x
      | |- produces _ (if ?x then _ else _) => destruct x
      end ].

Lemma getOwnerId_raises_own login : raises_own (getOwnerId G login).
Proof. unfold getOwnerId. own. Qed.

Lemma getProject_raises_own owner number : raises_own (getProject G owner number).
Proof. unfold getProject. own. Qed.

Lemma createProject_raises_own owner title : raises_own (createProject G owner title).
Proof. unfold createProject. own. Qed.

Lemma createStatusField_raises_own projectId : raises_own (createStatusField G projectId).
Proof. unfold createStatusField. own. Qed.

Lemma addIssue_raises_own projectId statusField issue :
  raises_own (addIssue G projectId statusField issue).
Proof. unfold addIssue. own. Qed.

(** Whatever goes wrong, what [manageProject] throws is a
    [ProjectManagerError]: the error of a rejected request never comes
    out as it came. *)
Theorem manageProject_throws_ProjectManagerError (owner title : string)
    (issues : list GitHubIssue.t) (existingProjectNumber : option Z)
    (h : ProjectManager.t) (f : Failure) :
  fst (manageProject G owner title issues existingProjectNumber h) = inl f ->
  exists message, f = Raised ProjectManagerError message.
Proof.
  revert h f. change (raises_own (manageProject G owner title issues existingProjectNumber)).
  unfold manageProject. apply raises_own_after.
  - destruct (truthy_number existingProjectNumber) as [number|].
    + apply raises_own_after; [apply getProject_raises_own|]. intros [project|]; own.
    + apply raises_own_after; [apply createProject_raises_own|]. intros project.
      apply raises_own_after; [apply raises_own_note|]. intros _.
      apply raises_own_after; [apply createStatusField_raises_own|]. intros field. own.
  - intros chosen. apply raises_own_after; [|intros; own].
    unfold addIssuesToProject. apply raises_own_after; [own|]. intros _.
    apply raises_own_for_each. intros issue. apply addIssue_raises_own.
Qed.

Lemma getOwnerId_quiet login : produces leaves_board_alone (getOwnerId G login).
Proof. unfold getOwnerId, raise. quiet. Qed.

Lemma getProject_quiet owner number : produces leaves_board_alone (getProject G owner number).
Proof.
  unfold getProject, raise. apply produces_recover; [|intros; quiet].
  apply produces_after; [apply getOwnerId_quiet|]. intros _. quiet.
Qed.

Lemma getIssueNodeId_quiet issueUrl : produces leaves_board_alone (getIssueNodeId G issueUrl).
Proof. unfold getIssueNodeId, raise. quiet. Qed.

Lemma addIssue_quiet projectId issue :
  produces leaves_board_alone (addIssue G projectId None issue).
Proof.
  unfold addIssue, raise. cbn [backlog_option].
  apply produces_recover; [|intros; quiet].
  apply produces_after; [apply getIssueNodeId_quiet|]. intros id. quiet.
Qed.

(** Issues added to an existing project are only added: when a project
    number is given (and is not 0), [manageProject] creates no project
    and no status field, and sets no status on any item. *)
Theorem manageProject_leaves_existing_board_alone (owner title : string)
    (issues : list GitHubIssue.t) (existingProjectNumber : option Z) (number : Z)
    (h : ProjectManager.t) (delta : list Event) :
  truthy_number existingProjectNumber = Some number ->
  snd (manageProject G owner title issues existingProjectNumber h) = h ++ delta ->
  forallb leaves_board_alone delta = true.
Proof.
  intros Hnumber Hdelta.
  set (existing :=
         let! existingProject := getProject G owner number in
         match existingProject with
         | None =>
             raise ("Project #" +:+ show number +:+ " not found for owner " +:+ dq
                      +:+ owner +:+ dq)
         | Some project =>
             let! _ := note CallInfo
                         ("Using existing project #" +:+ show (ProjectV2.number project)
                            +:+ ": " +:+ ProjectV2.title project) in
             finish (project, @None StatusField.t)
         end).
  assert (Hexisting : produces leaves_board_alone existing).
  { subst existing. unfold raise.
    apply produces_after; [apply getProject_quiet|]. intros [project|]; quiet. }
  assert (Hfield : forall chosen, fst (existing h) = inr chosen -> snd chosen = None).
  { subst existing. unfold after, raise, reject, note, finish. intros chosen.
    destruct (getProject G owner number h) as [[f|[project|]] h1]; cbn [fst];
      intros [= <-]; reflexivity. }
  unfold manageProject in Hdelta. rewrite Hnumber in Hdelta. fold existing in Hdelta.
  unfold after at 1 in Hdelta.
  destruct (Hexisting h) as (e1 & H1 & P1).
  destruct (existing h) as [[f|[project statusField]] h1]; cbn [fst snd] in *;
    rewrite H1 in Hdelta; clear H1.
  - apply app_inv_head in Hdelta. subst delta. exact P1.
  - pose proof (Hfield _ eq_refl) as Hnone. cbn [snd] in Hnone. subst statusField.
    assert (Hadd : produces leaves_board_alone
                     (let! _ := addIssuesToProject G (ProjectV2.id project) issues None in
                      finish project)).
    { apply produces_after; [|intros; quiet]. unfold addIssuesToProject.
      apply produces_after; [quiet|]. intros _. apply produces_for_each. intros issue.
      apply addIssue_quiet. }
    destruct (Hadd (h ++ e1)) as (e2 & H2 & P2). cbn [fst snd] in Hdelta.
    rewrite H2, <- app_assoc in Hdelta. apply app_inv_head in Hdelta. subst delta.
    rewrite forallb_app, P1, P2. reflexivity.
Qed.

Lemma issues_looked_up_app a b :
  issues_looked_up (a ++ b) = issues_looked_up a ++ issues_looked_up b.
Proof. unfold issues_looked_up. apply omap_app. Qed.

Lemma no_issue_looked_up events :
  forallb (fun e => negb (is_issue_lookup e)) events = true -> issues_looked_up events = [].
Proof.
  induction events as [|[] events IH]; cbn; try discriminate; auto.
Qed.

Lemma getIssueNodeId_run issueUrl h :
  exists events,
    snd (getIssueNodeId G issueUrl h) = h ++ events /\
    issues_looked_up events
    = match issue_of_url issueUrl with Some issue => [issue] | None => [] end.
Proof.
  unfold getIssueNodeId, issue_of_url.
  destruct (match_issue_url issueUrl) as [[[owner repo] digits]|].
  - unfold recover, after, graphql.
    destruct (repository_issue_id G h owner repo (parseInt digits)) as [error|[id|]];
      [| destruct (truthy id) |]; eexists [_]; split; reflexivity.
  - exists []. rewrite app_nil_r. split; reflexivity.
Qed.

Lemma addIssue_run projectId statusField issue h :
  exists events,
    addIssue G projectId statusField issue h = (inr tt, h ++ events) /\
    issues_looked_up events
    = match issue_of_url (GitHubIssue.url issue) with Some i => [i] | None => [] end /\
    forallb (sets_backlog projectId statusField) events = true.
Proof.
  unfold addIssue. cbv zeta.
  destruct (getIssueNodeId_run (GitHubIssue.url issue) h) as (e1 & H1 & L1).
  assert (P1 : forallb (sets_backlog projectId statusField) e1 = true).
  { clear L1. revert H1. unfold getIssueNodeId.
    destruct (match_issue_url (GitHubIssue.url issue)) as [[[owner repo] digits]|].
    - unfold recover, after, graphql, raise, reject, finish.
      destruct (repository_issue_id G h owner repo (parseInt digits)) as [error|[id|]];
        [| destruct (truthy id) |]; cbn [snd]; intros H; apply app_inv_head in H;
        subst e1; reflexivity.
    - cbn [snd raise reject]. intros H. rewrite <- (app_nil_r h) in H at 1.
      apply app_inv_head in H. subst e1. reflexivity. }
  unfold recover at 1. unfold after at 1.
  destruct (getIssueNodeId G (GitHubIssue.url issue) h) as [[f|issueNodeId] h1];
    cbn [snd] in H1; subst h1.
  - unfold note. eexists (e1 ++ [_]). rewrite <- app_assoc.
    split; [reflexivity|]. rewrite issues_looked_up_app, L1, forallb_app, P1.
    split; [apply app_nil_r | reflexivity].
  - unfold after at 1, graphql at 1.
    destruct (addProjectV2ItemById G (h ++ e1) projectId issueNodeId) as [error|itemId].
    + unfold note. eexists (e1 ++ [_; _]). rewrite <- !app_assoc.
      split; [reflexivity|]. rewrite issues_looked_up_app, L1, forallb_app, P1.
      split; [apply app_nil_r | reflexivity].
    + unfold after at 1, note at 1.
      destruct statusField as [field|]; cbn [backlog_option].
      2: { unfold finish. eexists (e1 ++ [_; _]). rewrite <- !app_assoc.
           split; [reflexivity|]. rewrite issues_looked_up_app, L1, forallb_app, P1.
           split; [apply app_nil_r | reflexivity]. }
      destruct (find _ (StatusField.options field)) as [option|] eqn:Hoption.
      2: { unfold finish. eexists (e1 ++ [_; _]). rewrite <- !app_assoc.
           split; [reflexivity|]. rewrite issues_looked_up_app, L1, forallb_app, P1.
           split; [apply app_nil_r|]. cbn. reflexivity. }
      destruct itemId as [item|].
      2: { unfold finish. eexists (e1 ++ [_; _]). rewrite <- !app_assoc.
           split; [reflexivity|]. rewrite issues_looked_up_app, L1, forallb_app, P1.
           split; [apply app_nil_r|]. cbn. reflexivity. }
      destruct (truthy item).
      2: { unfold finish. eexists (e1 ++ [_; _]). rewrite <- !app_assoc.
           split; [reflexivity|]. rewrite issues_looked_up_app, L1, forallb_app, P1.
           split; [apply app_nil_r|]. cbn. reflexivity. }
      unfold after at 1, setItemStatus, recover at 1, graphql.
      match goal with |- context [updateProjectV2ItemFieldValue G ?h0 ?a ?b ?c ?d] =>
        destruct (updateProjectV2ItemFieldValue G h0 a b c d) as [error|[]]
      end.
      * unfold raise, reject, note. eexists (e1 ++ [_; _; _; _]). rewrite <- !app_assoc.
        split; [reflexivity|]. rewrite issues_looked_up_app, L1, forallb_app, P1.
        split; [apply app_nil_r|]. cbn [forallb sets_backlog backlog_option andb].
        rewrite Hoption, !String.eqb_refl. reflexivity.
      * unfold note. eexists (e1 ++ [_; _; _; _]). rewrite <- !app_assoc.
        split; [reflexivity|]. rewrite issues_looked_up_app, L1, forallb_app, P1.
        split; [apply app_nil_r|]. cbn [forallb sets_backlog backlog_option andb].
        rewrite Hoption, !String.eqb_refl. reflexivity.
Qed.

Lemma addIssuesToProject_run projectId issues statusField h :
  exists delta,
    addIssuesToProject G projectId issues statusField h = (inr tt, h ++ delta) /\
    issues_looked_up delta
    = omap (fun issue => issue_of_url (GitHubIssue.url issue)) issues /\
    forallb (sets_backlog projectId statusField) delta = true.
Proof.
  assert (Hloop : forall l h1, exists events,
            for_each (addIssue G projectId statusField) l h1 = (inr tt, h1 ++ events) /\
            issues_looked_up events
            = omap (fun issue => issue_of_url (GitHubIssue.url issue)) l /\
            forallb (sets_backlog projectId statusField) events = true).
  { unfold for_each. induction l as [|issue l IH]; intros h1.
    - exists []. rewrite app_nil_r. repeat split.
    - cbn [fold_tasks]. unfold after at 1.
      destruct (addIssue_run projectId statusField issue h1) as (e1 & -> & L1 & P1).
      destruct (IH (h1 ++ e1)) as (e2 & -> & L2 & P2).
      exists (e1 ++ e2). rewrite <- app_assoc. split; [reflexivity|].
      rewrite issues_looked_up_app, L1, L2, forallb_app, P1, P2.
      split; [|reflexivity]. cbn [omap list_omap].
      destruct (issue_of_url (GitHubIssue.url issue)); reflexivity. }
  unfold addIssuesToProject, after at 1, note at 1.
  destruct (Hloop issues (h ++ [Noted CallInfo
              ("Adding " +:+ show_nat (length issues) +:+ " issues to project...")]))
    as (events & -> & L & P).
  eexists (_ :: events). rewrite <- app_assoc. split; [reflexivity|].
  split; [exact L | exact P].
Qed.

(** [addIssuesToProject] never fails, and it tries every issue: the
    issues whose node id it asks for are, in order, the issues of the
    list whose address names an issue, whatever happened to the ones
    before. *)
Theorem addIssuesToProject_tries_every_issue (projectId : string)
    (issues : list GitHubIssue.t) (statusField : option StatusField.t)
    (h : ProjectManager.t) :
  exists delta,
    addIssuesToProject G projectId issues statusField h = (inr tt, h ++ delta) /\
    issues_looked_up delta
    = omap (fun issue => issue_of_url (GitHubIssue.url issue)) issues.
Proof.
  destruct (addIssuesToProject_run projectId issues statusField h) as (delta & H & L & _).
  exists delta. split; [exact H | exact L].
Qed.


End ProjectManagerFacts.

(** ** Addresses of issues *)

Lemma span_all p a b :
  all_chars p a = true ->
  match b with EmptyString => True | String c _ => p c = false end ->
  span p (a +:+ b) = (a, b).
Proof.
  intros Ha Hb. induction a as [|c a IH].
  - change (EmptyString +:+ b) with b. destruct b as [|c b]; [reflexivity|].
    cbn [span]. rewrite Hb. reflexivity.
  - change (String c a +:+ b) with (String c (a +:+ b)). cbn [span all_chars] in *.
    apply andb_prop in Ha as [-> Ha]. rewrite (IH Ha). reflexivity.
Qed.

Lemma decimal_value_from digits acc :
  fold_left (fun n c => 10 * n + (Z.of_nat (nat_of_ascii c) - 48)) digits acc
  = acc * 10 ^ Z.of_nat (length digits)
    + fold_left (fun n c => 10 * n + (Z.of_nat (nat_of_ascii c) - 48)) digits 0.
Proof.
  revert acc. induction digits as [|c digits IH]; intros acc.
  - cbn. lia.
  - cbn [fold_left length]. rewrite (IH (10 * acc + _)), (IH (10 * 0 + _)).
    rewrite Nat2Z.inj_succ, Z.pow_succ_r by lia. ring.
Qed.

Lemma decimal_value_cons c digits :
  decimal_value (String c digits)
  = (Z.of_nat (nat_of_ascii c) - 48) * 10 ^ Z.of_nat (String.length digits)
    + decimal_value digits.
Proof.
  unfold decimal_value. cbn [list_ascii_of_string fold_left]. rewrite decimal_value_from.
  replace (length (list_ascii_of_string digits)) with (String.length digits).
  - ring.
  - clear. induction digits as [|d digits IH]; cbn; congruence.
Qed.

Lemma pretty_N_char_digit x :
  (x < 10)%N ->
  is_digit (pretty_N_char x) = true /\
  Z.of_nat (nat_of_ascii (pretty_N_char x)) - 48 = Z.of_N x.
Proof.
  intros Hx.
  assert (x = 0 \/ x = 1 \/ x = 2 \/ x = 3 \/ x = 4 \/ x = 5 \/ x = 6 \/ x = 7 \/ x = 8
          \/ x = 9)%N as H by lia.
  repeat destruct H as [-> | H]; try subst x; split; reflexivity.
Qed.

Lemma pretty_N_go_digits x :
  forall s,
    all_chars is_digit s = true ->
    all_chars is_digit (pretty_N_go x s) = true /\
    decimal_value (pretty_N_go x s)
    = Z.of_N x * 10 ^ Z.of_nat (String.length s) + decimal_value s.
Proof.
  induction (N.lt_wf_0 x) as [x _ IH]. intros s Hs.
  destruct (N.eq_dec x 0%N) as [-> | Hx].
  - rewrite pretty_N_go_0. split; [exact Hs|]. lia.
  - rewrite pretty_N_go_step by lia.
    destruct (pretty_N_char_digit (x mod 10)%N) as [Hd Hv]; [apply N.mod_lt; lia|].
    destruct (IH (x / 10)%N) with (s := String (pretty_N_char (x mod 10)%N) s) as [IH1 IH2].
    + apply N.div_lt; lia.
    + cbn [all_chars]. rewrite Hd, Hs. reflexivity.
    + split; [exact IH1|]. rewrite IH2, decimal_value_cons, Hv. cbn [String.length].
      rewrite Nat2Z.inj_succ, Z.pow_succ_r by lia.
      pose proof (N.div_mod x 10%N ltac:(lia)) as Hdm.
      assert (Z.of_N x = 10 * Z.of_N (x / 10) + Z.of_N (x mod 10)) as -> by lia.
      ring.
Qed.

Lemma show_digits n :
  0 <= n ->
  truthy (show n) = true /\ all_chars is_digit (show n) = true /\
  decimal_value (show n) = n.
Proof.
  intros Hn. unfold show, pretty, pretty_Z. destruct n as [|p|p]; [repeat split| |lia].
  unfold pretty, pretty_positive, pretty, pretty_N.
  destruct (decide (N.pos p = 0%N)) as [H|_]; [discriminate H|].
  destruct (pretty_N_go_digits (N.pos p) EmptyString eq_refl) as [Hd Hv].
  split; [|split; [exact Hd|]].
  - revert Hv. destruct (pretty_N_go (N.pos p) EmptyString); [|reflexivity].
    cbn. lia.
  - rewrite Hv. cbn. lia.
Qed.

Lemma nearest_double_exact n : n <= 2 ^ 53 -> nearest_double n = Integral n.
Proof.
  intros Hn. unfold nearest_double. destruct (n <? 2 ^ 53) eqn:H; [reflexivity|].
  apply Z.ltb_ge in H. assert (n = 2 ^ 53) as -> by lia. reflexivity.
Qed.

Lemma span_whole p a : all_chars p a = true -> span p a = (a, EmptyString).
Proof.
  induction a as [|c a IH]; [reflexivity|]. cbn [span all_chars]. intros H.
  apply andb_prop in H as [-> Ha]. rewrite (IH Ha). reflexivity.
Qed.

Lemma match_issue_url_skip c s :
  Ascii.eqb "g" c = false -> match_issue_url (String c s) = match_issue_url s.
Proof.
  intros Hc. cbn [match_issue_url]. unfold match_issue_url_here at 1.
  cbn [strip_prefix]. rewrite Hc. reflexivity.
Qed.

Lemma match_issue_url_here_found owner repo digits :
  is_segment owner = true -> is_segment repo = true ->
  truthy digits = true -> all_chars is_digit digits = true ->
  match_issue_url_here ("github.com/" +:+ owner +:+ "/" +:+ repo +:+ "/issues/" +:+ digits)
  = Some (owner, repo, digits).
Proof.
  unfold is_segment. intros Ho Hr Hd1 Hd2.
  apply andb_prop in Ho as [Ho1 Ho2]. apply andb_prop in Hr as [Hr1 Hr2].
  unfold match_issue_url_here.
  change (strip_prefix "github.com/"
            ("github.com/" +:+ owner +:+ "/" +:+ repo +:+ "/issues/" +:+ digits))
    with (Some (owner +:+ "/" +:+ repo +:+ "/issues/" +:+ digits)).
  cbv beta iota.
  rewrite (span_all not_slash owner _ Ho2) by reflexivity. rewrite Ho1. cbn [negb].
  change (strip_prefix "/" ("/" +:+ repo +:+ "/issues/" +:+ digits))
    with (Some (repo +:+ "/issues/" +:+ digits)).
  cbv beta iota.
  rewrite (span_all not_slash repo _ Hr2) by reflexivity. rewrite Hr1. cbn [negb].
  change (strip_prefix "/issues/" ("/issues/" +:+ digits)) with (Some digits).
  cbv beta iota.
  rewrite (span_whole is_digit digits Hd2), Hd1. reflexivity.
Qed.

(** The address of an issue is read back as that issue: for an owner
    and a repository whose names are not empty and have no [/], and a
    number from 0 to [2^53], the issue that [getIssueNodeId] finds in
    [https://github.com/<owner>/<repo>/issues/<number>] is the issue
    [number] of [repo] of [owner].  Above [2^53] the number read is a
    double that need not be the number written. *)
Theorem issue_of_url_round_trip (owner repo : string) (number : Z) :
  is_segment owner = true ->
  is_segment repo = true ->
  0 <= number <= 2 ^ 53 ->
  ProjectManager.issue_of_url (issue_url owner repo number)
  = Some (owner, repo, Integral number).
Proof.
  intros Ho Hr [Hn Hmax]. destruct (show_digits number Hn) as (Hd1 & Hd2 & Hv).
  unfold ProjectManager.issue_of_url, issue_url.
  change ("https://github.com/" +:+ owner +:+ "/" +:+ repo +:+ "/issues/" +:+ show number)
    with (String "h" (String "t" (String "t" (String "p" (String "s" (String ":"
            (String "/" (String "/"
               ("github.com/" +:+ owner +:+ "/" +:+ repo +:+ "/issues/"
                  +:+ show number))))))))).
  rewrite !match_issue_url_skip by reflexivity.
  assert (Hhere := match_issue_url_here_found owner repo (show number) Ho Hr Hd1 Hd2).
  assert (Hfound : match_issue_url
                     ("github.com/" +:+ owner +:+ "/" +:+ repo +:+ "/issues/"
                        +:+ show number)
                   = Some (owner, repo, show number)).
  { destruct ("github.com/" +:+ owner +:+ "/" +:+ repo +:+ "/issues/" +:+ show number);
      cbn [match_issue_url]; rewrite Hhere; reflexivity. }
  rewrite Hfound. unfold parseInt. rewrite Hv, (nearest_double_exact number Hmax).
  reflexivity.
Qed.

Lemma issue_of_url_round_trip_witness :
  ProjectManager.issue_of_url "https://github.com/acme/shop/issues/42"
  = Some ("acme", "shop", Integral 42).
Proof.
  exact (issue_of_url_round_trip "acme" "shop" 42 eq_refl eq_refl ltac:(lia)).
Defined.

Lemma manageProject_throws_ProjectManagerError_witness :
  exists message,
    fst (ProjectManager.manageProject offline "acme" "Shop" [an_issue] None [])
    = inl (Raised ProjectManagerError message).
Proof.
  destruct (fst (ProjectManager.manageProject offline "acme" "Shop" [an_issue] None []))
    as [f|project] eqn:H; [|vm_compute in H; discriminate H].
  destruct (manageProject_throws_ProjectManagerError offline "acme" "Shop" [an_issue] None []
              f H) as [message ->].
  exists message. reflexivity.
Defined.

Lemma manageProject_leaves_existing_board_alone_witness :
  forallb ProjectManager.leaves_board_alone
    (snd (ProjectManager.manageProject a_board "acme" "Shop" [an_issue] (Some 5) []))
  = true.
Proof.
  exact (manageProject_leaves_existing_board_alone a_board "acme" "Shop" [an_issue] (Some 5)
           5 [] _ eq_refl eq_refl).
Defined.

(** ** Text cut by patterns *)

Lemma trimStart_chars p s : all_chars p s = true -> all_chars p (trimStart s) = true.
Proof.
  induction s as [|c s IH]; [reflexivity|]. cbn [trimStart]. intros H.
  destruct (is_white_space c); [|exact H].
  cbn [all_chars] in H. apply andb_prop in H as [_ H]. exact (IH H).
Qed.

Lemma trimEnd_chars p s : all_chars p s = true -> all_chars p (trimEnd s) = true.
Proof.
  induction s as [|c s IH]; [reflexivity|]. cbn [trimEnd all_chars]. intros H.
  apply andb_prop in H as [Hc H].
  destruct (is_white_space c && negb (truthy (trimEnd s))); [reflexivity|].
  cbn [all_chars]. rewrite Hc, (IH H). reflexivity.
Qed.

Lemma trim_chars p s : all_chars p s = true -> all_chars p (trim s) = true.
Proof. intros H. unfold trim. apply trimEnd_chars, trimStart_chars, H. Qed.

Lemma trimStart_head s : head_is_space (trimStart s) = false.
Proof.
  induction s as [|c s IH]; [reflexivity|]. cbn [trimStart].
  destruct (is_white_space c) eqn:Hc; [exact IH|]. cbn. exact Hc.
Qed.

Lemma trimEnd_head s : head_is_space s = false -> head_is_space (trimEnd s) = false.
Proof.
  destruct s as [|c s]; [reflexivity|]. cbn [head_is_space trimEnd]. intros Hc.
  rewrite Hc. cbn [andb head_is_space]. exact Hc.
Qed.

Lemma trimEnd_last s : last_is_space (trimEnd s) = false.
Proof.
  induction s as [|c s IH]; [reflexivity|]. cbn [trimEnd].
  destruct (trimEnd s) as [|d t] eqn:Ht.
  - cbn [truthy negb]. rewrite andb_true_r.
    destruct (is_white_space c) eqn:Hc; [reflexivity|]. cbn. exact Hc.
  - cbn [truthy negb]. rewrite andb_false_r. exact IH.
Qed.

Lemma trim_ends s : head_is_space (trim s) = false /\ last_is_space (trim s) = false.
Proof.
  unfold trim. split; [apply trimEnd_head, trimStart_head | apply trimEnd_last].
Qed.

Lemma remove_marks_chars s : all_chars (fun c => negb (is_mark c)) (remove_marks s) = true.
Proof.
  induction s as [|c s IH]; [reflexivity|]. cbn [remove_marks].
  destruct (is_mark c) eqn:Hc; [exact IH|]. cbn [all_chars]. rewrite Hc, IH. reflexivity.
Qed.

Lemma split_go_plain s :
  forall current skip piece,
    all_chars (fun c => negb (is_mark c)) s = true ->
    all_chars is_plain current = true ->
    In piece (split_go s current skip) ->
    all_chars is_plain piece = true.
Proof.
  induction s as [|c s IH]; intros current skip piece Hs Hcurrent.
  - cbn [split_go]. intros [<- | []]. exact Hcurrent.
  - cbn [all_chars] in Hs. apply andb_prop in Hs as [Hc Hs].
    cbn [split_go]. destruct skip as [|k]; [|apply IH; assumption].
    assert (Hplain : forall o,
              separator_length (String c s) = o ->
              match o with Some (S _) => True | _ => is_list_separator c = false end).
    { intros o <-. cbn [separator_length]. destruct (is_list_separator c); [exact I|].
      destruct (span is_white_space (String c s)) as [before s1].
      destruct (negb (truthy before)); [reflexivity|].
      destruct (keyword s1) as [[k s2]|]; [|reflexivity].
      destruct (span is_white_space s2) as [behind s3].
      destruct (negb (truthy behind)); [reflexivity|].
      destruct (String.length before + k + String.length behind)%nat; [reflexivity|exact I]. }
    specialize (Hplain _ eq_refl).
    assert (Hnext : all_chars is_plain (current +:+ String c EmptyString) = true
                    \/ exists k, separator_length (String c s) = Some (S k)).
    { destruct (separator_length (String c s)) as [[|k]|]; [left|right; eauto|left];
        rewrite all_chars_append, Hcurrent; cbn [all_chars]; unfold is_plain;
        rewrite Hc, Hplain; reflexivity. }
    destruct (separator_length (String c s)) as [[|k]|].
    + destruct Hnext as [Hnext | [k [=]]]. apply IH; assumption.
    + intros [<- | Hin]; [exact Hcurrent|]. apply (IH EmptyString k); auto.
    + destruct Hnext as [Hnext | [k [=]]]. apply IH; assumption.
Qed.

(** Every technology that [parseTechList] returns is a clean name: not
    empty, shorter than 50 characters, without asterisks, backquotes,
    commas or semicolons, and without white space at either end. *)
Theorem parseTechList_items_are_clean (text item : string) :
  In item (parseTechList text) ->
  (0 < String.length item < 50)%nat /\
  all_chars is_plain item = true /\
  head_is_space item = false /\
  last_is_space item = false.
Proof.
  unfold parseTechList. intros H. apply List.filter_In in H as [Hin Hlength].
  apply andb_prop in Hlength as [Hlo Hhi].
  apply Nat.ltb_lt in Hlo, Hhi. split; [lia|].
  apply List.in_map_iff in Hin as (piece & <- & Hpiece).
  split; [|apply trim_ends].
  apply trim_chars.
  exact (split_go_plain _ EmptyString 0%nat piece (remove_marks_chars text) eq_refl Hpiece).
Qed.

Lemma parseTechList_items_are_clean_witness :
  (0 < String.length "Node.js" < 50)%nat /\
  all_chars is_plain "Node.js" = true /\
  head_is_space "Node.js" = false /\
  last_is_space "Node.js" = false.
Proof.
  apply (parseTechList_items_are_clean "React, **Node.js** with `Express`").
  vm_compute. right. left. reflexivity.
Defined.

Lemma strip_fence_plain c s :
  not_backquote c = true -> strip_prefix fence (String c s) = None.
Proof.
  unfold not_backquote, fence. cbn [strip_prefix]. intros H.
  rewrite Ascii.eqb_sym. destruct (Ascii.eqb c "`"); [discriminate H|reflexivity].
Qed.

Lemma after_fence_plain s : all_chars not_backquote s = true -> after_fence s = None.
Proof.
  induction s as [|c s IH]; [reflexivity|]. cbn [all_chars after_fence]. intros H.
  apply andb_prop in H as [Hc Hs]. rewrite (strip_fence_plain c s Hc). exact (IH Hs).
Qed.

Lemma strip_prefix_append prefix s : strip_prefix prefix (prefix +:+ s) = Some s.
Proof.
  induction prefix as [|c prefix IH]; [reflexivity|].
  change (String c prefix +:+ s) with (String c (prefix +:+ s)). cbn [strip_prefix].
  rewrite Ascii.eqb_refl. exact IH.
Qed.

Lemma after_fence_found before s :
  all_chars not_backquote before = true -> after_fence (before +:+ fence +:+ s) = Some s.
Proof.
  induction before as [|c before IH].
  - intros _. change (EmptyString +:+ fence +:+ s) with (fence +:+ s).
    destruct (fence +:+ s) eqn:H; cbn [after_fence]; rewrite <- H, strip_prefix_append;
      reflexivity.
  - cbn [all_chars]. intros H. apply andb_prop in H as [Hc Hs].
    change (String c before +:+ fence +:+ s) with (String c (before +:+ fence +:+ s)).
    cbn [after_fence]. rewrite (strip_fence_plain c _ Hc). exact (IH Hs).
Qed.

Lemma before_fence_found body s :
  all_chars not_backquote body = true -> before_fence (body +:+ fence +:+ s) = Some body.
Proof.
  induction body as [|c body IH].
  - intros _. change (EmptyString +:+ fence +:+ s) with (fence +:+ s).
    destruct (fence +:+ s) eqn:H; cbn [before_fence]; rewrite <- H, strip_prefix_append;
      reflexivity.
  - cbn [all_chars]. intros H. apply andb_prop in H as [Hc Hs].
    change (String c body +:+ fence +:+ s) with (String c (body +:+ fence +:+ s)).
    cbn [before_fence]. rewrite (strip_fence_plain c _ Hc), (IH Hs). reflexivity.
Qed.

(** An answer that wraps its JSON in a fence marked [json] gives back
    that JSON, trimmed, whatever prose comes before the fence (without
    backquotes) and whatever comes after the closing fence; and an
    answer without backquotes is taken whole, trimmed. *)
Theorem extractJSON_unwraps_fence (before body behind : string) :
  all_chars not_backquote before = true ->
  all_chars not_backquote body = true ->
  extractJSON (before +:+ "```json" +:+ body +:+ "```" +:+ behind) = trim body /\
  extractJSON body = trim body.
Proof.
  intros Hbefore Hbody. unfold extractJSON. split.
  - change (before +:+ "```json" +:+ body +:+ "```" +:+ behind)
      with (before +:+ fence +:+ "json" +:+ body +:+ fence +:+ behind).
    rewrite (after_fence_found before _ Hbefore), strip_prefix_append.
    rewrite (before_fence_found body behind Hbody). reflexivity.
  - rewrite (after_fence_plain body Hbody). reflexivity.
Qed.

Lemma extractJSON_unwraps_fence_witness :
  extractJSON ("Here it is: " +:+ "```json" +:+ " {} " +:+ "```" +:+ " Done.") = "{}".
Proof.
  exact (proj1 (extractJSON_unwraps_fence "Here it is: " " {} " " Done." eq_refl eq_refl)).
Defined.

(** ** Decomposition: requests and failures *)

Section DecomposerErrors.

Variable E : Surroundings.
Variable model : string.
Variable maxTokens : Z.
Variable buildPrompt : PRDMetadata.t -> string.
Variable extractJSON : string -> string.
Variable JSON_parse : string -> string + JSON.

Lemma generate_failure {A} prompt truncationMessage (schema : Schema A) apiPrefix
    syntaxPrefix report s e s' :
  generate E model maxTokens extractJSON JSON_parse prompt truncationMessage schema
    apiPrefix syntaxPrefix report s = (Thrown e, s') ->
  JsError.name e = AIDecomposerError \/
  (exists parsed, schema (Some parsed) = inl e) \/
  e = new_error TypeError "Cannot read properties of undefined (reading 'type')" \/
  messages_create E s (Request.mk model maxTokens prompt) = inl e.
Proof.
  unfold generate, try_catch, bind, client_messages_create, throw, ret, say.
  destruct (messages_create E s (Request.mk model maxTokens prompt)) as [e0|response] eqn:Hask.
  - destruct (is_error APIError e0); [|destruct (is_error SyntaxError e0)];
      intros [= <- <-]; auto.
  - destruct (truncated response).
    { cbn. intros [= <- <-]. auto. }
    destruct (Message.content response) as [|[text|type] blocks].
    + cbn. intros [= <- <-]. auto.
    + destruct (JSON_parse (extractJSON text)) as [msg|parsed].
      { cbn. intros [= <- <-]. auto. }
      destruct (schema (Some parsed)) as [zodError|validated] eqn:Hschema.
      { destruct (is_error APIError zodError); [|destruct (is_error SyntaxError zodError)];
          intros [= <- <-]; eauto. }
      intros [=].
    + cbn. intros [= <- <-]. auto.
Qed.

(** What [decompose] throws is an [AIDecomposerError], except in three
    cases: when the structure is refused by validation it is the error
    of the validation itself, not wrapped; when the answer has no
    content block it is the [TypeError] of reading the first one; and an
    error of the backend that is not an [APIError] comes out as it is. *)
Theorem decompose_failures (prdMetadata : PRDMetadata.t) (s : Session) (e : JsError.t) :
  fst (decompose E model maxTokens buildPrompt extractJSON JSON_parse prdMetadata s)
  = Thrown e ->
  JsError.name e = AIDecomposerError \/
  (exists parsed, ProjectStructureSchema (Some parsed) = inl e) \/
  e = new_error TypeError "Cannot read properties of undefined (reading 'type')" \/
  (exists h, messages_create E h (Request.mk model maxTokens (buildPrompt prdMetadata))
             = inl e).
Proof.
  unfold decompose, bind, say.
  destruct (generate _ _ _ _ _ _ _ _ _ _ _ _) as [o s'] eqn:Hrun. cbn [fst]. intros ->.
  apply generate_failure in Hrun as [H | [H | [H | H]]]; eauto.
Qed.

(** [decompose] asks the backend once, whatever the answer: there is no
    second attempt, and no file is written. *)
Theorem decompose_asks_once (prdMetadata : PRDMetadata.t) (s : Session) :
  let run := decompose E model maxTokens buildPrompt extractJSON JSON_parse prdMetadata s in
  requests (snd run)
  = requests s ++ [Request.mk model maxTokens (buildPrompt prdMetadata)] /\
  files (snd run) = files s.
Proof.
  intros run. subst run. unfold decompose, bind, say.
  destruct (generate _ _ _ _ _ _ _ _ _ _ _ _) as [o s'] eqn:Hrun. cbn [snd].
  apply generate_run in Hrun as (answer & notes & -> & Hnotes & _ & _).
  change (Asked ?r answer :: notes) with ([Asked r answer] ++ notes).
  rewrite !requests_app, !files_app.
  rewrite (console_requests _ Hnotes), (console_files _ Hnotes), !app_nil_r.
  split; reflexivity.
Qed.

End DecomposerErrors.

Lemma decompose_failures_witness :
  exists parsed, ProjectStructureSchema (Some parsed) = inl (zod_issue "Expected object").
Proof.
  destruct (decompose_failures steady claude 8000 plain_prompt no_fence named_documents
              a_document [] (zod_issue "Expected object"))
    as [H | [H | [H | [h H]]]].
  - vm_compute. reflexivity.
  - discriminate H.
  - exact H.
  - discriminate H.
  - vm_compute in H. discriminate H.
Defined.

(** ** The order of the passes of the issue generator *)

Section IssueGeneratorOrder.

Variable T : Tracker.

Lemma in_two_phases_second {A} p q (m : M A) : emits q m -> in_two_phases p q m.
Proof.
  intros Hm w. destruct (Hm w) as (delta & Htrace & Hq). exists [], delta. auto.
Qed.

Lemma in_two_phases_bind {A B} p q (m : M A) (k : A -> M B) :
  emits p m -> (forall a, in_two_phases p q (k a)) -> in_two_phases p q (bind m k).
Proof.
  intros Hm Hk w. unfold bind. destruct (Hm w) as (d0 & Htrace & Hp).
  destruct (m w) as [[a|e] w1]; cbn [snd] in *.
  - destruct (Hk a w1) as (first & second & Hk1 & Hk2 & Hk3).
    exists (d0 ++ first), second. rewrite Hk1, Htrace, !app_assoc, forallb_app, Hp, Hk2. auto.
  - exists d0, []. rewrite app_nil_r. auto.
Qed.

Lemma minor_not_dependency ev : is_minor ev = true -> negb (is_dependency_call ev) = true.
Proof. destruct ev as [[] []| | |]; cbn; congruence. Qed.

Lemma createDeliverables_creating capability capabilityNumber acc :
  emits (fun ev => negb (is_dependency_call ev))
    (createDeliverables T capability capabilityNumber acc).
Proof.
  unfold createDeliverables. apply emits_foldM. intros acc' d _.
  apply emits_bind.
  { apply createChildIssue_emits; [|apply minor_not_dependency]. intros r. reflexivity. }
  intros issue. apply emits_bind; [apply emits_set; reflexivity|]. intros _.
  apply emits_bind; [apply emits_emit; reflexivity|]. intros _. apply emits_ret.
Qed.

Lemma secondPass_creating l allIssues :
  emits (fun ev => negb (is_dependency_call ev)) (secondPass T l allIssues).
Proof.
  apply emits_foldM. intros acc i _. apply emits_bind; [apply emits_get|].
  intros initiativeNumber. apply emits_foldM. intros acc' c _.
  apply emits_bind.
  { apply createChildIssue_emits; [|apply minor_not_dependency]. intros r. reflexivity. }
  intros issue. apply emits_bind; [apply emits_set; reflexivity|]. intros _.
  apply emits_bind; [apply emits_emit; reflexivity|]. intros _.
  match goal with |- context [if ?b then _ else _] => destruct b end; [|apply emits_ret].
  apply createDeliverables_creating.
Qed.

Lemma firstPass_creating l :
  emits (fun ev => negb (is_dependency_call ev)) (firstPass T l).
Proof.
  unfold firstPass. apply emits_foldM. intros allIssues i _.
  apply emits_bind.
  { intros w. pose proof (createInitiativeIssue_shape T i w w eq_refl) as H.
    destruct (createInitiativeIssue T i w) as [[issue|e] w1]; cbn [snd].
    - destruct H as (data & _ & ->). eexists. split; [reflexivity|]. reflexivity.
    - destruct H as (he & _ & ->). eexists. split; [reflexivity|]. reflexivity. }
  intros issue. apply emits_bind; [apply emits_set; reflexivity|]. intros _.
  apply emits_bind; [apply emits_emit; reflexivity|]. intros _. apply emits_ret.
Qed.

(** The dependency pass comes last: in every run of [generateIssues],
    returning or not, the calls that look up node ids, link issues and
    post dependency comments all come after the last creation of an
    issue. *)
Theorem generateIssues_links_after_creating (initiatives : list Initiative.t) (w : World) :
  exists creating linking,
    trace (snd (generateIssues T initiatives w)) = trace w ++ creating ++ linking /\
    forallb (fun ev => negb (is_dependency_call ev)) creating = true /\
    forallb (fun ev => negb (is_creation ev)) linking = true.
Proof.
  revert w.
  change (in_two_phases (fun ev => negb (is_dependency_call ev))
            (fun ev => negb (is_creation ev)) (generateIssues T initiatives)).
  unfold generateIssues.
  apply in_two_phases_bind; [apply emits_emit; reflexivity|]. intros _.
  apply in_two_phases_bind; [apply firstPass_creating|]. intros allIssues.
  apply in_two_phases_bind; [apply secondPass_creating|]. intros acc.
  apply in_two_phases_second.
  apply (emits_weaken is_linking); [intros ev H; rewrite (linking_not_creation ev H); reflexivity|].
  apply emits_bind; [apply updateCapabilityDependencies_emits|]. intros _.
  apply emits_bind; [apply updateDeliverableDependencies_emits|]. intros _.
  apply emits_bind; [apply emits_emit; reflexivity|]. intros _. apply emits_ret.
Qed.

(** Whatever the shape of the hierarchy, a run that returns has created
    one issue for each initiative, one for each capability, and one for
    each deliverable of the capabilities that ask for sub-issues and
    have deliverables, and no other; it returns as many issues.  The
    deliverables of a capability that does not ask are not created. *)
Theorem generateIssues_creates_every_item (initiatives : list Initiative.t) (r0 : Resolver.t)
    (issues : list GitHubIssue.t) :
  let run := generateIssues T initiatives (mkWorld r0 []) in
  fst run = Returned issues ->
  length issues = items initiatives /\
  count is_created (trace (snd run)) = items initiatives.
Proof.
  intros run Hrun. pose proof (generateIssues_spec T initiatives r0 _ eq_refl) as H.
  fold run in H. destruct run as [[issues'|e] w]; cbn [fst snd] in *; [|discriminate Hrun].
  injection Hrun as ->. destruct H as (Ho & Hk & Hlen). split; [exact Hlen | exact Hk].
Qed.

End IssueGeneratorOrder.

Lemma generateIssues_creates_every_item_witness :
  exists issues,
    fst (generateIssues obliging [unexpandedInitiative] fresh) = Returned issues /\
    length issues = 2%nat.
Proof.
  destruct (fst (generateIssues obliging [unexpandedInitiative] fresh)) as [issues|e] eqn:H;
    [|vm_compute in H; discriminate H].
  exists issues. split; [reflexivity|].
  exact (proj1 (generateIssues_creates_every_item obliging [unexpandedInitiative]
                  Resolver.empty issues H)).
Defined.

(** ** The two-phase method of the decomposer, and phase 1 of the command *)

Section DecomposerTwoPhase.

Variable E : Surroundings.
Variable model : string.
Variable maxTokens : Z.
Variable buildInitiativesPrompt : PRDMetadata.t -> string.
Variable buildCapabilitiesPrompt : PRDMetadata.t -> InitiativeSummary.t -> list string -> string.
Variable extractJSON : string -> string.
Variable JSON_parse : string -> string + JSON.

Lemma decomposeTwoPhase_loop prdMetadata ids summaries :
  forall acc s outcome s',
    foldM (fun initiatives initiativeSummary =>
             let* capabilities :=
               decomposeInitiativeCapabilities E model maxTokens buildCapabilitiesPrompt
                 extractJSON JSON_parse prdMetadata initiativeSummary ids in
             ret (initiatives ++ [attach initiativeSummary capabilities]))
      summaries acc s = (outcome, s') ->
    exists k,
      (k <= length summaries)%nat /\
      requests s'
      = requests s
          ++ map (fun summary =>
                    Request.mk model maxTokens (buildCapabilitiesPrompt prdMetadata summary ids))
               (firstn k summaries) /\
      files s' = files s /\
      (forall e, outcome = Thrown e -> (0 < k)%nat) /\
      (forall initiatives, outcome = Returned initiatives ->
         k = length summaries /\
         exists added,
           initiatives = acc ++ added /\
           map Initiative.id added = map InitiativeSummary.id summaries).
Proof.
  induction summaries as [|summary summaries IH]; intros acc s outcome s' Hrun.
  - cbn in Hrun. injection Hrun as <- <-.
    exists 0%nat. cbn. rewrite app_nil_r. split; [lia|]. split; [reflexivity|].
    split; [reflexivity|]. split; [discriminate|].
    intros initiatives [= <-]. split; [reflexivity|]. exists []. rewrite app_nil_r. auto.
  - cbn [foldM] in Hrun. unfold bind at 1 in Hrun. unfold bind at 1 in Hrun.
    destruct (decomposeInitiativeCapabilities E model maxTokens buildCapabilitiesPrompt
                extractJSON JSON_parse prdMetadata summary ids s)
      as [[capabilities|error] s1] eqn:Hgen;
      pose proof (decomposeInitiativeCapabilities_run _ _ _ _ _ _ _ _ _ _ _ _ Hgen)
        as [Hreq Hfiles].
    + unfold ret at 1 in Hrun.
      destruct (IH _ _ _ _ Hrun) as (k & Hk & Hreq' & Hfiles' & Hthrown & Hreturned).
      exists (S k). cbn [length firstn map]. split; [lia|].
      split; [rewrite Hreq', Hreq, <- app_assoc; reflexivity|].
      split; [rewrite Hfiles', Hfiles; reflexivity|].
      split; [intros; lia|].
      intros initiatives Hout. destruct (Hreturned initiatives Hout) as (-> & added & -> & Hids).
      split; [reflexivity|]. exists (attach summary capabilities :: added).
      rewrite <- app_assoc. split; [reflexivity|]. cbn [map attach Initiative.id].
      rewrite Hids. reflexivity.
    + injection Hrun as <- <-.
      exists 1%nat. cbn [length firstn map]. split; [lia|].
      split; [exact Hreq|]. split; [exact Hfiles|]. split; [intros; lia|]. discriminate.
Qed.

(** [AIDecomposer.decomposeTwoPhase], once phase 1 has returned an
    overview: the capabilities are asked for initiative by initiative,
    in the order of the overview, and the first generation that fails
    ends the run, so that the requests made are those of a first part of
    the initiatives, not empty if the run throws; a run that returns has
    asked for all of them and returns the initiatives of the overview in
    their order, under the title, description and tech stack of the
    overview. *)
Theorem decomposeTwoPhase_asks_in_order (prdMetadata : PRDMetadata.t) (s s1 : Session)
    (overview : ProjectOverview.t) :
  let run := decomposeTwoPhase E model maxTokens buildInitiativesPrompt
               buildCapabilitiesPrompt extractJSON JSON_parse prdMetadata s in
  decomposeInitiatives E model maxTokens buildInitiativesPrompt extractJSON JSON_parse
    prdMetadata (s ++ [Logged CallDebug "Starting two-phase AI decomposition"])
  = (Returned overview, s1) ->
  exists k,
    (k <= length (ProjectOverview.initiatives overview))%nat /\
    requests (snd run)
    = requests s1
        ++ map (capabilities_request model maxTokens buildCapabilitiesPrompt prdMetadata
                  overview)
             (firstn k (ProjectOverview.initiatives overview)) /\
    (forall e, fst run = Thrown e -> (0 < k)%nat) /\
    (forall structure, fst run = Returned structure ->
       k = length (ProjectOverview.initiatives overview) /\
       map Initiative.id (ProjectStructure.initiatives structure)
       = map InitiativeSummary.id (ProjectOverview.initiatives overview) /\
       ProjectStructure.title structure = ProjectOverview.title overview /\
       ProjectStructure.description structure = ProjectOverview.description overview /\
       ProjectStructure.techStack structure = ProjectOverview.techStack overview).
Proof.
  intros run Hphase1. subst run.
  destruct (decomposeTwoPhase E model maxTokens buildInitiativesPrompt buildCapabilitiesPrompt
              extractJSON JSON_parse prdMetadata s) as [outcome s'] eqn:Hrun.
  cbn [fst snd]. unfold decomposeTwoPhase in Hrun.
  unfold bind at 1, say at 1 in Hrun. unfold bind at 1 in Hrun. rewrite Hphase1 in Hrun.
  unfold bind at 1 in Hrun.
  destruct (foldM _ (ProjectOverview.initiatives overview) [] s1)
    as [looped s2] eqn:Hloop.
  destruct (decomposeTwoPhase_loop _ _ _ _ _ _ _ Hloop)
    as (k & Hk & Hreq & _ & Hthrown & Hreturned).
  exists k. split; [exact Hk|].
  destruct looped as [initiatives|error].
  - unfold bind, say, ret in Hrun. cbn [fst snd] in Hrun. injection Hrun as <- <-.
    split; [rewrite requests_app, Hreq; cbn; rewrite app_nil_r; reflexivity|].
    split; [discriminate|].
    intros structure [= <-]. destruct (Hreturned initiatives eq_refl) as (-> & added & -> & Hids).
    split; [reflexivity|]. cbn. auto.
  - injection Hrun as <- <-. split; [exact Hreq|].
    split; [intros e _; exact (Hthrown error eq_refl) | discriminate].
Qed.

(** If phase 1 of the two-phase branch of the create command fails, the
    branch fails with the same error after telling the spinner, and no
    snapshot is written. *)
Theorem twoPhase_phase1_failure (prdFile : string) (prdMetadata : PRDMetadata.t)
    (s s1 : Session) (e : JsError.t) :
  let run := twoPhase E model maxTokens buildInitiativesPrompt buildCapabilitiesPrompt
               extractJSON JSON_parse prdFile prdMetadata s in
  decomposeInitiatives E model maxTokens buildInitiativesPrompt extractJSON JSON_parse
    prdMetadata
    (s ++ [Spun SpinStart
             "Decomposing PRD with Claude AI (Phase 1/2: Generating initiatives)..."])
  = (Thrown e, s1) ->
  fst run = Thrown e /\
  snd run = s1 ++ [Spun SpinFail "AI decomposition failed"] /\
  files (snd run) = files s /\
  length (requests (snd run)) = S (length (requests s)).
Proof.
  intros run Hphase1. subst run.
  destruct (twoPhase E model maxTokens buildInitiativesPrompt buildCapabilitiesPrompt
              extractJSON JSON_parse prdFile prdMetadata s) as [outcome s'] eqn:Hrun.
  cbn [fst snd]. unfold twoPhase, try_catch in Hrun.
  unfold bind at 1, say at 1 in Hrun. unfold bind at 1 in Hrun. rewrite Hphase1 in Hrun.
  unfold bind, say, throw in Hrun. cbn [fst snd] in Hrun. injection Hrun as <- <-.
  split; [reflexivity|]. split; [reflexivity|].
  unfold decomposeInitiatives, bind, say in Hphase1.
  apply generate_run in Hphase1 as (answer & notes & -> & Hnotes & _ & _).
  change (Asked ?r answer :: notes) with ([Asked r answer] ++ notes).
  rewrite !files_app, !requests_app, (console_files _ Hnotes), (console_requests _ Hnotes).
  cbn. rewrite !app_nil_r, length_app. cbn. split; [reflexivity | lia].
Qed.

End DecomposerTwoPhase.

Lemma decomposeTwoPhase_asks_in_order_witness :
  let run := decomposeTwoPhase steady claude 8000 initiatives_prompt capabilities_prompt
               no_fence named_documents a_document [] in
  let s1 := snd (decomposeInitiatives steady claude 8000 initiatives_prompt no_fence
                   named_documents a_document
                   ([] ++ [Logged CallDebug "Starting two-phase AI decomposition"])) in
  exists k,
    (k <= length (ProjectOverview.initiatives shop_overview))%nat /\
    requests (snd run)
    = requests s1
        ++ map (capabilities_request claude 8000 capabilities_prompt a_document shop_overview)
             (firstn k (ProjectOverview.initiatives shop_overview)) /\
    (forall e, fst run = Thrown e -> (0 < k)%nat) /\
    (forall structure, fst run = Returned structure ->
       k = length (ProjectOverview.initiatives shop_overview) /\
       map Initiative.id (ProjectStructure.initiatives structure)
       = map InitiativeSummary.id (ProjectOverview.initiatives shop_overview) /\
       ProjectStructure.title structure = ProjectOverview.title shop_overview /\
       ProjectStructure.description structure = ProjectOverview.description shop_overview /\
       ProjectStructure.techStack structure = ProjectOverview.techStack shop_overview).
Proof.
  refine (decomposeTwoPhase_asks_in_order steady claude 8000 initiatives_prompt
            capabilities_prompt no_fence named_documents a_document [] _ shop_overview _).
  vm_compute. reflexivity.
Defined.

Lemma twoPhase_phase1_failure_witness :
  let run := twoPhase cut_short claude 8000 initiatives_prompt capabilities_prompt
               no_fence named_documents "prd.md" a_document [] in
  (exists e, fst run = Thrown e /\ JsError.name e = AIDecomposerError) /\
  files (snd run) = [].
Proof.
  destruct (decomposeInitiatives cut_short claude 8000 initiatives_prompt no_fence
              named_documents a_document
              ([] ++ [Spun SpinStart
                        "Decomposing PRD with Claude AI (Phase 1/2: Generating initiatives)..."]))
    as [[overview|e] s1] eqn:Hphase1; [vm_compute in Hphase1; discriminate Hphase1|].
  destruct (twoPhase_phase1_failure cut_short claude 8000 initiatives_prompt
              capabilities_prompt no_fence named_documents "prd.md" a_document [] s1 e Hphase1)
    as (Hfailed & _ & Hfiles & _).
  split; [|exact Hfiles]. exists e. split; [exact Hfailed|].
  vm_compute in Hphase1. injection Hphase1 as <- _. reflexivity.
Defined.

(** ** A saved structure, applied *)

Lemma split_at_plain (text : string) :
  all_chars not_slash text = true -> split_at "/" text = (text, []).
Proof.
  induction text as [|c text IH]; [reflexivity|].
  cbn [all_chars split_at]. intros H. apply andb_prop in H as [Hc Htext].
  rewrite (IH Htext). unfold not_slash in Hc. apply negb_true_iff in Hc. rewrite Hc.
  reflexivity.
Qed.

Lemma split_at_joined (owner repo : string) :
  all_chars not_slash owner = true -> all_chars not_slash repo = true ->
  split_at "/" (owner +:+ "/" +:+ repo) = (owner, [repo]).
Proof.
  intros Howner Hrepo. induction owner as [|c owner IH].
  - change (EmptyString +:+ "/" +:+ repo) with (String "/" repo). cbn [split_at].
    rewrite (split_at_plain _ Hrepo). reflexivity.
  - cbn [all_chars] in Howner. apply andb_prop in Howner as [Hc Howner].
    change (String c owner +:+ "/" +:+ repo) with (String c (owner +:+ "/" +:+ repo)).
    cbn [split_at]. rewrite (IH Howner).
    unfold not_slash in Hc. apply negb_true_iff in Hc. rewrite Hc. reflexivity.
Qed.

(** What the create command saves with [--output] for the repository
    [owner/repo], the apply command reads back: given no [--repo], it
    validates the saved structure to that same structure and finds that
    same repository name, under the saved owner unless [--owner] names
    another.  The owner is not empty, and neither name holds a slash. *)
Theorem apply_reads_what_create_saved (timestamp prdFile owner repo config_owner : string)
    (options_owner : option string) (projectStructure : ProjectStructure.t) :
  valid_structure projectStructure = true ->
  truthy owner = true ->
  all_chars not_slash owner = true ->
  all_chars not_slash repo = true ->
  loadSavedStructure None options_owner config_owner
    (outputData timestamp prdFile owner repo projectStructure)
  = inr (projectStructure, or_default options_owner owner, Some repo).
Proof.
  intros Hvalid Hfilled Howner Hrepo.
  unfold loadSavedStructure, outputData, member. cbn [field String.eqb Ascii.eqb Bool.eqb].
  rewrite (saved_structure_parses _ Hvalid). cbn [or_default truthy].
  unfold split_targetRepo. rewrite (split_at_joined _ _ Howner Hrepo). cbn [head].
  unfold or_else at 1. rewrite Hfilled. reflexivity.
Qed.

Lemma apply_reads_what_create_saved_witness :
  loadSavedStructure None None "someone"
    (outputData "2025-01-01T00:00:00.000Z" "prd.md" "acme" "shop" minimalStructure)
  = inr (minimalStructure, "acme", Some "shop").
Proof.
  apply (apply_reads_what_create_saved "2025-01-01T00:00:00.000Z" "prd.md" "acme" "shop"
           "someone" None minimalStructure); vm_compute; reflexivity.
Defined.

(** ** What the maps hold after a run *)

Lemma registered_among_step r ns key k id n :
  registered_among r ns key ->
  registered_among (Resolver.set k id n r) (ns ++ [n]) key.
Proof.
  intros (m & Hm & Hin). destruct key as [k' id']. cbn [fst snd] in *.
  assert (Hnew : In n (ns ++ [n])) by (apply in_or_app; right; left; reflexivity).
  assert (Hold : In m (ns ++ [n])) by (apply in_or_app; left; exact Hin).
  unfold registered_among.
  destruct k, k'; cbn [fst snd Resolver.get Resolver.set Resolver.initiativeIdToIssueNumber
                        Resolver.capabilityIdToIssueNumber
                        Resolver.deliverableIdToIssueNumber] in *;
    try (exists m; split; [exact Hm | exact Hold]);
    (destruct (decide (id = id')) as [->|Hne];
     [ exists n; split; [apply lookup_insert_eq | exact Hnew]
     | exists m; split; [rewrite lookup_insert_ne by exact Hne; exact Hm | exact Hold] ]).
Qed.

Lemma registered_among_new r ns k id n :
  registered_among (Resolver.set k id n r) (ns ++ [n]) (k, id).
Proof.
  exists n. split; [|apply in_or_app; right; left; reflexivity].
  destruct k; cbn; apply lookup_insert_eq.
Qed.

Lemma all_registered_step keys r ns k id n :
  Forall (registered_among r ns) keys ->
  Forall (registered_among (Resolver.set k id n r) (ns ++ [n])) (keys ++ [(k, id)]).
Proof.
  intros H. apply Forall_app. split.
  - eapply Forall_impl; [exact H|]. intros key. apply registered_among_step.
  - constructor; [apply registered_among_new | constructor].
Qed.

Section RegisteredItems.

Variable T : Tracker.

Lemma firstPass_registers initiatives :
  triple (fun _ => True) (firstPass T initiatives)
    (fun allIssues w =>
       Forall (registered_among (resolver w) (numbers allIssues)) (initiative_keys initiatives))
    (fun _ _ => True).
Proof.
  unfold firstPass.
  eapply triple_weaken;
    [ apply (triple_foldM _
        (fun done allIssues w =>
           Forall (registered_among (resolver w) (numbers allIssues)) (initiative_keys done))
        (fun _ _ => True)) | | | ].
  - intros done x allIssues _ w Hdone. unfold bind.
    pose proof (createInitiativeIssue_shape T x w w eq_refl) as H.
    destruct (createInitiativeIssue T x w) as [[issue|e] w1]; [|exact I].
    destruct H as (data & -> & ->).
    cbn [resolver_set delay emit ret resolver trace fst snd].
    unfold initiative_keys, numbers. rewrite !map_app. cbn [map].
    apply all_registered_step. exact Hdone.
  - intros w _. constructor.
  - intros a w H. exact H.
  - intros e w H. exact H.
Qed.

Lemma createDeliverables_registers c num acc keys :
  triple (fun w => Forall (registered_among (resolver w) (numbers (fst acc))) keys)
    (createDeliverables T c num acc)
    (fun acc' w =>
       Forall (registered_among (resolver w) (numbers (fst acc')))
         (keys ++ map (fun d => (LDeliverable, Deliverable.id d)) (Capability.deliverables c)))
    (fun _ _ => True).
Proof.
  unfold createDeliverables.
  eapply triple_weaken;
    [ apply (triple_foldM _
        (fun done acc' w =>
           Forall (registered_among (resolver w) (numbers (fst acc')))
             (keys ++ map (fun d => (LDeliverable, Deliverable.id d)) done))
        (fun _ _ => True)) | | | ].
  - intros done d a _ w Hdone. unfold bind, createDeliverableIssue.
    match goal with |- context [createChildIssue T ?a1 ?a2 ?a3 ?a4 ?a5 ?a6 ?a7 w] =>
      pose proof (createChildIssue_shape T a1 a2 a3 a4 a5 a6 a7 w w eq_refl) as H;
      destruct (createChildIssue T a1 a2 a3 a4 a5 a6 a7 w) as [[issue|e] w1]
    end; [|exact I].
    destruct H as (data & rest' & -> & Hres & _ & _).
    cbn [resolver_set delay emit ret resolver trace fst snd].
    unfold numbers. rewrite !map_app, app_assoc. cbn [map]. rewrite Hres.
    apply all_registered_step. exact Hdone.
  - intros w H. cbn [map]. rewrite app_nil_r. exact H.
  - intros a w H. exact H.
  - intros e w H. exact H.
Qed.

Lemma createCapabilities_registers i initiativeNumber acc keys :
  triple (fun w => Forall (registered_among (resolver w) (numbers (fst acc))) keys)
    (createCapabilities T i initiativeNumber acc)
    (fun acc' w =>
       Forall (registered_among (resolver w) (numbers (fst acc')))
         (keys ++ flat_map capability_keys (Initiative.capabilities i)))
    (fun _ _ => True).
Proof.
  unfold createCapabilities.
  eapply triple_weaken;
    [ apply (triple_foldM _
        (fun done acc' w =>
           Forall (registered_among (resolver w) (numbers (fst acc')))
             (keys ++ flat_map capability_keys done))
        (fun _ _ => True)) | | | ].
  - intros done c a _ w Hdone. unfold bind at 1, createCapabilityIssue.
    match goal with |- context [createChildIssue T ?a1 ?a2 ?a3 ?a4 ?a5 ?a6 ?a7 w] =>
      pose proof (createChildIssue_shape T a1 a2 a3 a4 a5 a6 a7 w w eq_refl) as H;
      destruct (createChildIssue T a1 a2 a3 a4 a5 a6 a7 w) as [[issue|e] w1]
    end; [|exact I].
    destruct H as (data & rest' & -> & Hres & _ & _).
    unfold bind at 1. cbn [resolver_set]. unfold bind at 1. cbn [delay emit].
    cbn [resolver trace fst snd].
    set (w2 := mkWorld _ _).
    assert (H2 : Forall (registered_among (resolver w2)
                           (numbers (fst a ++ [issue_of data])))
                   ((keys ++ flat_map capability_keys done)
                      ++ [(LCapability, Capability.id c)])).
    { subst w2. cbn [resolver]. unfold numbers. rewrite map_app. cbn [map]. rewrite Hres.
      apply all_registered_step. exact Hdone. }
    rewrite flat_map_app. cbn [flat_map]. rewrite app_nil_r.
    unfold capability_keys at 2, deliverable_keys. fold (expands c).
    destruct (expands c).
    + pose proof (createDeliverables_registers c (GitHubIssue.number (issue_of data))
                    (fst a ++ [issue_of data], snd a) _ w2 H2) as HD.
      destruct (createDeliverables T c (GitHubIssue.number (issue_of data))
                  (fst a ++ [issue_of data], snd a) w2) as [[acc'|e] w3]; [|exact I].
      rewrite <- !app_assoc in HD. exact HD.
    + cbn [ret fst]. rewrite <- !app_assoc in H2. exact H2.
  - intros w H. cbn [flat_map]. rewrite app_nil_r. exact H.
  - intros a w H. exact H.
  - intros e w H. exact H.
Qed.

Lemma secondPass_registers initiatives allIssues keys :
  triple (fun w => Forall (registered_among (resolver w) (numbers allIssues)) keys)
    (secondPass T initiatives allIssues)
    (fun acc w =>
       Forall (registered_among (resolver w) (numbers (fst acc)))
         (keys ++ flat_map (fun i => flat_map capability_keys (Initiative.capabilities i))
                    initiatives))
    (fun _ _ => True).
Proof.
  unfold secondPass.
  eapply triple_weaken;
    [ apply (triple_foldM _
        (fun done acc w =>
           Forall (registered_among (resolver w) (numbers (fst acc)))
             (keys ++ flat_map (fun i => flat_map capability_keys (Initiative.capabilities i))
                        done))
        (fun _ _ => True)) | | | ].
  - intros done i a _ w Hdone. unfold bind at 1. cbn [resolver_get].
    pose proof (createCapabilities_registers i
                  (Resolver.get LInitiative (resolver w) !! Initiative.id i) a _ w Hdone)
      as H.
    destruct (createCapabilities T i _ a w) as [[acc'|e] w1]; [|exact I].
    rewrite flat_map_app. cbn [flat_map]. rewrite app_nil_r, app_assoc. exact H.
  - intros w H. cbn [flat_map fst]. rewrite app_nil_r. exact H.
  - intros a w H. exact H.
  - intros e w H. exact H.
Qed.

Lemma generateIssues_registers initiatives w issues :
  fst (generateIssues T initiatives w) = Returned issues ->
  Forall (registered_among (resolver (snd (generateIssues T initiatives w))) (numbers issues))
    (initiative_keys initiatives
       ++ flat_map (fun i => flat_map capability_keys (Initiative.capabilities i))
            initiatives).
Proof.
  destruct (generateIssues T initiatives w) as [o w'] eqn:Hrun. cbn [fst snd].
  intros ->. unfold generateIssues in Hrun.
  unfold bind at 1 in Hrun. cbn [logger_info emit] in Hrun.
  set (w1 := mkWorld _ _) in Hrun.
  unfold bind at 1 in Hrun.
  pose proof (firstPass_registers initiatives w1 I) as H1.
  destruct (firstPass T initiatives w1) as [[allIssues|e] w2]; [|discriminate Hrun].
  unfold bind at 1 in Hrun.
  pose proof (secondPass_registers initiatives allIssues _ w2 H1) as H2.
  destruct (secondPass T initiatives allIssues w2) as [[acc|e] w3]; [|discriminate Hrun].
  unfold bind at 1 in Hrun. rewrite updateCapabilityDependencies_items in Hrun.
  destruct (forM_ _ (capability_items initiatives) w3) as [o4 w4] eqn:R4.
  apply items_run in R4 as (d4 & _ & Hres4 & _).
  destruct o4 as [[]|e]; [|discriminate Hrun].
  unfold bind at 1 in Hrun. rewrite updateDeliverableDependencies_items in Hrun.
  destruct (forM_ _ (deliverable_items initiatives) w4) as [o5 w5] eqn:R5.
  apply items_run in R5 as (d5 & _ & Hres5 & _).
  destruct o5 as [[]|e]; [|discriminate Hrun].
  unfold bind in Hrun. cbn [logger_success emit ret resolver fst snd] in Hrun.
  injection Hrun as <- <-. cbn [resolver]. rewrite Hres5, Hres4. exact H2.
Qed.

(** After a run that returns, the maps hold every item that was
    created: the id of every initiative, of every capability, and of
    every deliverable of a capability that asks for sub-issues and has
    deliverables, is bound in the map of its level to the number of one
    of the issues returned. *)
Theorem generateIssues_registers_every_item (initiatives : list Initiative.t) (r0 : Resolver.t)
    (issues : list GitHubIssue.t) :
  let run := generateIssues T initiatives (mkWorld r0 []) in
  fst run = Returned issues ->
  forall i, In i initiatives ->
    (exists n, Resolver.initiativeIdToIssueNumber (resolver (snd run)) !! Initiative.id i
               = Some n /\ In n (map GitHubIssue.number issues)) /\
    forall c, In c (Initiative.capabilities i) ->
      (exists n, Resolver.capabilityIdToIssueNumber (resolver (snd run)) !! Capability.id c
                 = Some n /\ In n (map GitHubIssue.number issues)) /\
      (expands c = true ->
       forall d, In d (Capability.deliverables c) ->
         exists n, Resolver.deliverableIdToIssueNumber (resolver (snd run)) !! Deliverable.id d
                   = Some n /\ In n (map GitHubIssue.number issues)).
Proof.
  intros run Hrun i Hi. subst run.
  pose proof (generateIssues_registers initiatives _ issues Hrun) as H.
  rewrite List.Forall_forall in H.
  assert (Hcap : forall c key, In c (Initiative.capabilities i) -> In key (capability_keys c) ->
            registered_among (resolver (snd (generateIssues T initiatives (mkWorld r0 []))))
              (numbers issues) key).
  { intros c key Hc Hkey. apply H. apply in_or_app. right.
    apply in_flat_map. exists i. split; [exact Hi|].
    apply in_flat_map. exists c. split; [exact Hc | exact Hkey]. }
  split.
  - apply (H (LInitiative, Initiative.id i)). apply in_or_app. left.
    unfold initiative_keys. apply in_map_iff. exists i. auto.
  - intros c Hc. split.
    + apply (Hcap c (LCapability, Capability.id c) Hc). left. reflexivity.
    + intros Hexp d Hd.
      apply (Hcap c (LDeliverable, Deliverable.id d) Hc). right.
      unfold deliverable_keys. rewrite Hexp. apply in_map_iff. exists d. auto.
Qed.

End RegisteredItems.

Lemma generateIssues_registers_every_item_witness :
  exists issues,
    fst (generateIssues obliging [minimalInitiative] fresh) = Returned issues /\
    exists n,
      Resolver.deliverableIdToIssueNumber
        (resolver (snd (generateIssues obliging [minimalInitiative] fresh)))
        !! Deliverable.id minimalDeliverable = Some n /\
      In n (map GitHubIssue.number issues).
Proof.
  destruct (fst (generateIssues obliging [minimalInitiative] fresh)) as [issues|e] eqn:H;
    [|vm_compute in H; discriminate H].
  exists issues. split; [reflexivity|].
  destruct (generateIssues_registers_every_item obliging [minimalInitiative] Resolver.empty
              issues H minimalInitiative (or_introl eq_refl)) as [_ Hc].
  destruct (Hc minimalCapability (or_introl eq_refl)) as [_ Hd].
  exact (Hd eq_refl minimalDeliverable (or_introl eq_refl)).
Defined.
